(* ===== verification/_CoqProject ===== *)
-Q . S2P
Prelude.v
GoNet.v
Nets.v
Murmur3.v
Maglev.v
HashName.v
Api.v
Runtime.v
BpfCache.v
Locality.v
WorkloadCache.v
ServiceCache.v
EndpointCache.v
WaypointCache.v
Processor.v
Endpoints.v
ProcessorInv.v
Reach.v
Spec.v
Binding.v
Services.v
Scenarios.v
Backends.v
BpfCommon.v
Balancer.v
SockOps.v
Delivery.v
Metadata.v
Rbac.v
Xdp.v
Authz.v
Controller.v
AdsApi.v
AdsConvert.v
AdsCaches.v
AdsProcessor.v
AdsSync.v
AdsSettle.v
AdsScenarios.v
Dns.v
DnsAds.v
DnsWorkload.v
Security.v
Ipsec.v
Control.v
Nic.v
Enroll.v
EnrollFacts.v
Bypass.v
Cni.v
CniPlugin.v
Telemetry.v
TelemetryFacts.v
Probe.v
OpMetrics.v
