(* ===== verification/Prelude.v ===== *)
(** * Kmesh: a verification development

    Kmesh moves the data plane of a service mesh into the kernel.  A daemon
    receives services, workloads and authorization policies from a control
    plane and writes them into BPF maps; programs attached to sockets and to a
    network device read the maps and redirect, annotate, authorize and report
    connections.  This development models the dual-engine ("workload") mode
    from the messages of the control plane to the packets of a connection;
    the daemon's half of the kernel-native ("ads") mode, from discovery
    responses to the kernel maps; and what surrounds them on a node: DNS
    resolution, certificates, IPsec, the enrolment of pods and the CNI plugin.

    ** The parts and their files

    Foundations.
    - [Prelude.v]: machine integers, bytes, outcomes, errors, generic lemmas,
      hint databases and tactics.
    - [GoNet.v]: the functions of Go's [net] and [net/netip] that are used.
    - [Runtime.v]: the monad [Go S A] of stateful Go code (a heap of shared
      messages, a clock that numbers the events the program does not determine,
      the component's state; the outcome is a value, a panic, or no answer
      within the fuel), its weakest preconditions and invariants, and the
      operations of kernel maps, which an environment [Env] may refuse.
    - [BpfCommon.v] (first part): memory as bytes, the state [Kernel], the
      monad [K A] of BPF code and the answers of its helpers ([Helpers]).

    Components of the daemon ([pkg/]).
    - [Api.v]: messages ([api/v2/workloadapi]).
    - [Nets.v]: [nets/nets.go], [nets/connect.go].
    - [HashName.v]: [utils/hash_name.go], names to numbers.
    - [Murmur3.v], [Maglev.v]: [utils/hash/murmur3.go],
      [consistenthash/maglev/maglev.go].
    - [BpfCache.v], [Locality.v]: [controller/workload/bpfcache].
    - [WorkloadCache.v], [ServiceCache.v], [EndpointCache.v],
      [WaypointCache.v]: [controller/workload/cache].
    - [Processor.v]: [controller/workload/workload_processor.go].
    - [Rbac.v]: [auth/policy_store.go], [auth/rbac.go],
      [auth/xdp_auth_handler.go].
    - [Controller.v]: [controller/workload/workload_controller.go] and the
      authorization handlers of the processor.
    - [AdsApi.v], [AdsConvert.v]: Envoy's messages, Kmesh's, and the
      conversion ([controller/ads/cache.go], [convert_filter.go]).
    - [AdsCaches.v]: [cache/v2/{cluster,listener,route}.go] with
      [cache/v2/maps].
    - [AdsProcessor.v]: [controller/ads/ads_processor.go],
      [ads_controller.go].
    - [Dns.v], [DnsAds.v], [DnsWorkload.v]: [dns/], and its clients
      [controller/ads/dns.go] and [controller/workload/dns.go].
    - [Security.v]: [controller/security/manager.go], [caclient.go].
    - [Ipsec.v]: [controller/encryption/ipsec].
    - [Control.v]: [nets/nets.go] ([TriggerControlCommand]), with the
      programs that answer the command.
    - [Nic.v], [Enroll.v]: [controller/manage/manage_controller.go],
      [utils/tc.go], [utils/enroll.go], [utils/istio/sidecar.go],
      [controller/netns/netns.go].
    - [Bypass.v]: [controller/bypass/bypass_controller.go].
    - [Cni.v], [CniPlugin.v]: [cni/], [utils/fileop.go], [utils/ebpf.go].
    - [Telemetry.v], [OpMetrics.v]: [controller/telemetry].

    Programs of the kernel ([bpf/]).
    - [BpfCommon.v]: [include/common.h], [include/bpf_common.h],
      [kmesh/probes].
    - [Balancer.v]: [kmesh/workload/cgroup_sock.c] with [frontend.h],
      [service.h], [endpoint.h], [backend.h].
    - [SockOps.v]: [sockops.c], [sendmsg.c], [cgroup_skb.c].
    - [Xdp.v]: [xdp.c], [authz.h].

    Every definition that models code bears the name of the function, and its
    parameters and branches follow the source.  Handlers that mutate shared
    messages do so through pointers into the heap of [World].  Kernel structs
    that C code views in several ways (addresses, tuples, packets) are bytes.

    ** What is shown

    - The tables of the load balancer ([Endpoints.v], [ProcessorInv.v],
      [Reach.v], [Backends.v]).  [reachable] are the states after any sequence
      of responses and restarts.  In all of them every number that the kernel
      can draw for a service has an endpoint, whatever updates the kernel
      refuses; with a kernel that refuses only on full maps there are no stray
      endpoints, and every endpoint has its backend.  Handling a response
      never runs forever.
    - What the handlers promise ([Spec.v], [Binding.v], [Services.v]):
      removing a workload removes every trace of it; a workload becomes a
      backend of exactly its services; a service is published as its message
      says.
    - Connections ([Delivery.v], [Metadata.v]).  The two halves put together: a
      connection of a managed pod to a service address reaches a backend that
      the daemon registered for it, or a waypoint, and a waypoint can decode
      the original destination from the first bytes, also when the address of
      the waypoint makes the programs run again.
    - Authorization ([Rbac.v], [Xdp.v], [Authz.v], [Controller.v]).  The
      decision of user space equals its declarative reading; the policies in
      force are those delivered; the kernel's policies are those of user space;
      the XDP programs decide alike on the policies of
      [Authz.policy_offloadable], DENY policies first; a denial reaches the
      client's packets.
    - Kernel-native mode ([AdsConvert.v], [AdsSync.v], [AdsSettle.v]).  The
      conversions are characterised declaratively; a CDS response and the EDS
      response for its clusters leave exactly their clusters, complete, in the
      kernel map; every response leads to the subscriptions that follow.
    - DNS.  Every watched domain stays scheduled for refresh; clusters and
      workloads get the resolved addresses and nothing else changes; the name
      table is the one of its specification.
    - Nodes ([Security.v], [Ipsec.v]).  In every reachable state of the secret
      manager an identity in use has a certificate, a fetch, a retry or a
      request under way, and its count is that of its users; the two ends of a
      tunnel derive the same keys, unless a security association with the
      same destination and SPI is there already.
    - Enrolment ([Control.v], [Nic.v], [EnrollFacts.v], [Bypass.v],
      [CniPlugin.v]).  The control command changes the map of managed
      namespaces through the BPF programs themselves; after a change of a
      namespace's label exactly the enrolled pods are under control, when the
      caches of the informers have caught up by then; attaching
      and detaching of programs undo each other; the plugin enrols what the
      controller would.
    - Installation ([Cni.v]): removing the plugin restores the configuration
      that was there.
    - Metrics ([TelemetryFacts.v], [Probe.v], [OpMetrics.v]).  User space reads
      from a report what the BPF probe wrote; the differences of a connection
      add up to its totals; nothing is lost between the reports and the
      recorded values, and a scrape serves those that are registered.
    - Algorithms: the Maglev table is full, balanced and equal to the textbook
      algorithm; the name table stays a bijection; locality priorities order
      by matching prefix; caches find what was entered.
    - [Scenarios.v], [AdsScenarios.v] and the theorems on errors in the
      component files show where the code does not keep a promise: stale slots
      and indices after refused updates, keys that mix address families, nil dereferences,
      policies that outlive a change of scope, verdicts that depend on the
      order of policies, and certificates that are never released.

    ** Hypotheses, bounds and fuel

    Theorems hold for every environment unless they name a class:
    [DeletesSucceed] (no deletion of a map entry fails) or [Reliable] (besides,
    updates fail only on maps with more than [max_entries] entries, the largest
    size of [config.h]).  The persistence of the name table ([Persist]), DNS
    answers, random numbers and times ([Helpers]) and the order in
    which Go visits maps ([Env], [Unsorted]) are arbitrary.  Libraries are
    classes or arguments, with laws that their documentation states:
    [NetlinkLaws], [IptablesLaws], [PrometheusLaws], [libcni_laws], the codec of
    JSON, and for IPsec [KernelIdentity], which states when the kernel takes two
    security associations for the same; [XfrmNetlink] lets each of its calls
    fail.  Classes have instances ([EnvOk], [PersistOk], [HelpersOk],
    [UnsortedOk]) on which the witnesses run.

    Two loops have fuel.  [HashName.probe] gets the number of slots in use, and
    [Maglev.find_slot] the size of the table; both are proved to suffice.  The
    loop [for i = 1; i <= n; i++] over [uint32] has no answer for the largest
    [n], which no reachable state has.  [Xdp.tail_calls] and [Balancer.run_hook]
    count down the 33 tail calls that the kernel allows, a limit of the system
    and not of the model.

    ** What is not modelled

    - Loading and pinning of programs and maps ([pkg/bpf]), the command line
      tool, HTTP handlers, Kubernetes clients and start-up: calls into the
      host and into libraries.
    - Threads and locks.  Handlers run one after the other; where goroutines,
      timers or queues matter they are explicit: steps of the secret manager,
      calls returned to be made later in the DNS controllers, an argument
      for the order of two answers in [Dns.doResolve].
    - The BPF programs of kernel-native mode ([bpf/kmesh/ads]): route and
      filter matching over messages in nested maps.
    - The library that stores messages in nested maps
      ([deserialization_to_bpf_map]): a policy, cluster, listener or route in
      the kernel is its message (whether a policy's name was stored is an
      argument of the XDP programs).
    - Logging, the HTTP server of the metrics and the performance probes of the
      BPF programs. *)
From stdpp Require Export prelude gmap strings list numbers fin_maps pretty.
From Stdlib Require Export ZArith Lia.
#[export] Set Default Goal Selector "!".
#[export] Set Warnings "-clear-no-such-hyp".
Open Scope Z_scope.

(** ** Machine integers

    A Go [uintN] is a [Z] kept in [0, 2^N); every operation that can leave the
    range wraps explicitly. *)
Declare Scope go_scope.
Delimit Scope go_scope with go.

Definition u8 (x : Z) : Z := x mod 2 ^ 8.
Definition u16 (x : Z) : Z := x mod 2 ^ 16.
Definition u32 (x : Z) : Z := x mod 2 ^ 32.
Definition u64 (x : Z) : Z := x mod 2 ^ 64.
Definition MaxUint32 : Z := 4294967295.

Definition is_u8 (x : Z) : Prop := 0 <= x < 2 ^ 8.
Definition is_u16 (x : Z) : Prop := 0 <= x < 2 ^ 16.
Definition is_u32 (x : Z) : Prop := 0 <= x < 2 ^ 32.
Definition is_u64 (x : Z) : Prop := 0 <= x < 2 ^ 64.

Notation "x +64 y" := (u64 (x + y)) (at level 50, left associativity) : go_scope.
Notation "x *64 y" := (u64 (x * y)) (at level 40, left associativity) : go_scope.
Notation "x +32 y" := (u32 (x + y)) (at level 50, left associativity) : go_scope.
Notation "x -32 y" := (u32 (x - y)) (at level 50, left associativity) : go_scope.

(** ** Byte order ([encoding/binary])

    A byte string is a list of [Z] in [0, 256). *)
Abbreviation bytes := (list Z).

Fixpoint le_uint (l : bytes) : Z :=
  match l with
  | [] => 0
  | b :: l => b + 256 * le_uint l
  end.
Definition be_uint (l : bytes) : Z := le_uint (reverse l).

Fixpoint le_bytes (n : nat) (x : Z) : bytes :=
  match n with
  | O => []
  | S n => x mod 256 :: le_bytes n (x / 256)
  end.
Definition be_bytes (n : nat) (x : Z) : bytes := reverse (le_bytes n x).

(** The bytes of a string, as [[]byte(s)] gives them. *)
Fixpoint bytes_of_string (s : string) : bytes :=
  match s with
  | EmptyString => []
  | String c s => Z.of_nat (Ascii.nat_of_ascii c) :: bytes_of_string s
  end.

(** Go's [copy(dst[:], src)]: as many bytes as both sides have. *)
Definition copy_bytes (dst src : bytes) : bytes :=
  take (length dst) src ++ drop (length src) dst.

(** ** Outcomes

    What running a piece of Go code comes to: a value, a run-time panic, or,
    for a loop modelled with fuel, no answer within the fuel. *)
Inductive outcome (A : Type) : Type :=
  | Done (a : A)
  | Panic (why : string)
  | NoFuel.
Arguments Done {A} a.
Arguments Panic {A} why.
Arguments NoFuel {A}.

#[export] Instance outcome_ret : MRet outcome := fun A a => Done a.
#[export] Instance outcome_fmap : FMap outcome := fun A B f m =>
  match m with Done a => Done (f a) | Panic why => Panic why | NoFuel => NoFuel end.
#[export] Instance outcome_bind : MBind outcome := fun A B f m =>
  match m with Done a => f a | Panic why => Panic why | NoFuel => NoFuel end.

(** ** Errors

    An [error] value of the program: the distinguished [ebpf.ErrKeyNotExist],
    an error number of a system call, or a text built with [errors.New] or
    [fmt.Errorf].  [nil] is [None]. *)
Inductive error : Type :=
  | ErrKeyNotExist
  | ErrSys (code : Z)
  | Errorf (msg : string).

#[export] Instance error_eq_dec : EqDecision error.
Proof. solve_decision. Defined.

Definition EEXIST : Z := 17.

(** ** Automation *)
Create HintDb kmesh.
#[export] Hint Unfold is_u8 is_u16 is_u32 is_u64 : kmesh.

(** Case analysis on the innermost scrutinee of a match of the goal. *)
Ltac destr_match :=
  match goal with
  | |- context [match ?x with _ => _ end] =>
      lazymatch x with
      | context [match _ with _ => _ end] => fail
      | _ => destruct x eqn:?
      end
  end.

(** ** Facts about the widths *)
Lemma u16_small x : is_u16 x -> u16 x = x.
Proof. apply Z.mod_small. Qed.
Lemma u32_small x : is_u32 x -> u32 x = x.
Proof. apply Z.mod_small. Qed.
Lemma u64_small x : is_u64 x -> u64 x = x.
Proof. apply Z.mod_small. Qed.
Lemma u16_is x : is_u16 (u16 x).
Proof. by apply Z.mod_pos_bound. Qed.
Lemma u32_is x : is_u32 (u32 x).
Proof. by apply Z.mod_pos_bound. Qed.
Lemma u64_is x : is_u64 (u64 x).
Proof. by apply Z.mod_pos_bound. Qed.
#[export] Hint Resolve u16_is u32_is u64_is : kmesh.

(** ** Facts about byte strings *)
Lemma length_le_bytes n x : length (le_bytes n x) = n.
Proof. revert x; induction n; intros x; simpl; [done|by rewrite IHn]. Qed.

Lemma le_bytes_is n x : Forall is_u8 (le_bytes n x).
Proof.
  revert x; induction n; intros x; simpl; constructor; [|done].
  by apply Z.mod_pos_bound.
Qed.

Lemma le_uint_bounds l : Forall is_u8 l -> 0 <= le_uint l < 256 ^ Z.of_nat (length l).
Proof.
  induction 1 as [|b l Hb _ IH]; simpl; [lia|].
  rewrite Nat2Z.inj_succ, Z.pow_succ_r by lia. red in Hb. nia.
Qed.

Lemma le_uint_le_bytes n x : le_uint (le_bytes n x) = x mod 256 ^ Z.of_nat n.
Proof.
  revert x; induction n as [|n IH]; intros x; simpl; [by rewrite Z.mod_1_r|].
  rewrite IH, Nat2Z.inj_succ, Z.pow_succ_r by lia.
  rewrite Z.rem_mul_r by lia. lia.
Qed.

Lemma le_bytes_le_uint l : Forall is_u8 l -> le_bytes (length l) (le_uint l) = l.
Proof.
  induction 1 as [|b l Hb _ IH]; simpl; [done|]. red in Hb.
  rewrite (Z.mul_comm 256), Z.mod_add, Z.div_add by lia.
  by rewrite Z.mod_small, Z.div_small, Z.add_0_l, IH by lia.
Qed.

Lemma be_bytes_be_uint l : Forall is_u8 l -> be_bytes (length l) (be_uint l) = l.
Proof.
  intros H. unfold be_bytes, be_uint.
  rewrite <-(length_reverse l), le_bytes_le_uint by (by apply Forall_reverse).
  apply reverse_involutive.
Qed.

Lemma be_uint_be_bytes n x : be_uint (be_bytes n x) = x mod 256 ^ Z.of_nat n.
Proof. unfold be_uint, be_bytes. by rewrite reverse_involutive, le_uint_le_bytes. Qed.

Lemma be_uint_bounds l : Forall is_u8 l -> 0 <= be_uint l < 256 ^ Z.of_nat (length l).
Proof.
  intros H. unfold be_uint. rewrite <-(length_reverse l).
  apply le_uint_bounds. by apply Forall_reverse.
Qed.

Lemma length_be_bytes n x : length (be_bytes n x) = n.
Proof. unfold be_bytes. by rewrite length_reverse, length_le_bytes. Qed.

(** ** Facts about lists *)
Lemma filter_keep {A} (Q : A -> Prop) `{forall x, Decision (Q x)} (l : list A) : Forall Q l -> filter Q l = l.
Proof. induction 1 as [|x l Hx _ IH]; [done|]. cbn. rewrite decide_True by done. by f_equal. Qed.
Lemma list_filter_ext_in {A} (P1 P2 : A -> Prop)
    `{!forall x, Decision (P1 x), !forall x, Decision (P2 x)} (l : list A) :
  (forall x, x ∈ l -> P1 x <-> P2 x) -> filter P1 l = filter P2 l.
Proof.
  induction l as [|a l IH]; intros Hl; [done|].
  assert (filter P1 l = filter P2 l) as E by (apply IH; set_solver).
  assert (P1 a <-> P2 a) as Ha by (apply Hl; set_solver).
  rewrite !filter_cons, E. destruct (decide (P1 a)), (decide (P2 a)); naive_solver.
Qed.

(** ** Facts about bit operations *)
Lemma lxor_bound n x y :
  0 <= n -> 0 <= x < 2 ^ n -> 0 <= y < 2 ^ n -> 0 <= Z.lxor x y < 2 ^ n.
Proof.
  intros Hn Hx Hy. split; [apply Z.lxor_nonneg; lia|].
  assert (Z.lxor x y = Z.lxor x y mod 2 ^ n) as ->; [|by apply Z.mod_pos_bound; lia].
  apply Z.bits_inj'. intros i Hi.
  destruct (decide (i < n)) as [Hlt|Hge].
  - by rewrite Z.mod_pow2_bits_low.
  - rewrite Z.mod_pow2_bits_high by lia. rewrite Z.lxor_spec.
    rewrite <-(Z.mod_small x (2 ^ n)), <-(Z.mod_small y (2 ^ n)) by lia.
    by rewrite !Z.mod_pow2_bits_high by lia.
Qed.

Lemma shiftr_bound n x k : 0 <= k -> 0 <= x < 2 ^ n -> 0 <= Z.shiftr x k < 2 ^ n.
Proof.
  intros Hk Hx. rewrite Z.shiftr_div_pow2 by done.
  pose proof (Z.pow_pos_nonneg 2 k ltac:(lia) Hk).
  split; [apply Z.div_pos; lia|]. apply Z.div_lt_upper_bound; [lia|]. nia.
Qed.

(** ** Facts about [copy] *)
Lemma length_copy_bytes dst src :
  (length src <= length dst)%nat -> length (copy_bytes dst src) = length dst.
Proof.
  intros H. unfold copy_bytes. rewrite length_app, length_take, length_drop. lia.
Qed.

(** ** Counting the elements of a list that satisfy a predicate *)
Definition occ {A} (P : A -> Prop) {Pdec : forall x, Decision (P x)} (l : list A) : nat :=
  length (filter P l).

Section occ.
Context {A : Type} (P : A -> Prop) {Pdec : forall x, Decision (P x)}.

Lemma occ_cons x (l : list A) :
  occ P (x :: l) = ((if decide (P x) then 1 else 0) + occ P l)%nat.
Proof. unfold occ. rewrite filter_cons. by destruct (decide (P x)). Qed.

Lemma occ_Permutation (l k : list A) : l ≡ₚ k -> occ P l = occ P k.
Proof. intros H. unfold occ. by rewrite H. Qed.

Lemma insert_Permutation (l : list A) i v x :
  l !! i = Some v -> <[i := x]> l ≡ₚ x :: delete i l.
Proof.
  intros H. apply lookup_lt_Some in H as Hi.
  rewrite insert_take_drop by done. rewrite delete_take_drop.
  by rewrite Permutation_middle.
Qed.

Lemma occ_insert (l : list A) i v x :
  l !! i = Some v ->
  (occ P (<[i := x]> l) + (if decide (P v) then 1 else 0) =
   occ P l + (if decide (P x) then 1 else 0))%nat.
Proof.
  intros H. rewrite (occ_Permutation _ _ (insert_Permutation l i v x H)).
  rewrite (occ_Permutation _ _ (delete_Permutation l i v H)).
  rewrite !occ_cons. lia.
Qed.

Lemma occ_le_length (l : list A) : (occ P l <= length l)%nat.
Proof. induction l; [done|]. rewrite occ_cons. simpl. destruct (decide _); lia. Qed.

Lemma occ_lt_exists (l : list A) :
  (occ P l < length l)%nat -> exists i x, l !! i = Some x /\ ~ P x.
Proof.
  induction l as [|x l IH]; simpl; [unfold occ; simpl; lia|].
  rewrite occ_cons. destruct (decide (P x)) as [HP|HP]; intros H.
  - destruct IH as (i & y & Hi & Hy); [lia|]. by exists (S i), y.
  - by exists 0%nat, x.
Qed.
End occ.

Lemma occ_replicate_False {A} (P : A -> Prop) {Pdec : forall x, Decision (P x)} n x :
  ~ P x -> occ P (replicate n x) = 0%nat.
Proof. intros H. induction n; simpl; [done|]. rewrite occ_cons, decide_False; done. Qed.
