(* ===== verification/GoNet.v ===== *)
(** * The parts of Go's [net] and [net/netip] that Kmesh uses

    IP addresses as byte strings ([net.IP]) and as comparable values
    ([netip.Addr]), their text form, CIDR blocks and membership.  These are
    the standard library's functions, written out so that the components that
    call them can be evaluated. *)
From S2P Require Import Prelude.

(** ** [netip.Addr] *)
Inductive Addr : Type :=
  | AddrZero                    (* the zero Addr, "invalid IP" *)
  | Addr4 (b : bytes)
  | Addr16 (b : bytes).

#[export] Instance Addr_eq_dec : EqDecision Addr.
Proof. solve_decision. Defined.

Definition Addr_encode (a : Addr) : option (bool * bytes) :=
  match a with
  | AddrZero => None
  | Addr4 b => Some (false, b)
  | Addr16 b => Some (true, b)
  end.
Definition Addr_decode (x : option (bool * bytes)) : Addr :=
  match x with
  | None => AddrZero
  | Some (false, b) => Addr4 b
  | Some (true, b) => Addr16 b
  end.
#[export] Instance Addr_countable : Countable Addr.
Proof.
  apply (inj_countable' Addr_encode Addr_decode). by intros [].
Defined.

(** [netip.AddrFromSlice]: 4 or 16 bytes give an address, any other length the
    zero address and [false]. *)
Definition AddrFromSlice (b : bytes) : Addr * bool :=
  if decide (length b = 4%nat) then (Addr4 b, true)
  else if decide (length b = 16%nat) then (Addr16 b, true)
  else (AddrZero, false).

(** ** Text form *)
Definition hex_digit (d : Z) : string :=
  nth (Z.to_nat d)
    ["0"; "1"; "2"; "3"; "4"; "5"; "6"; "7"; "8"; "9"; "a"; "b"; "c"; "d"; "e"; "f"]
    "0".

(** [appendHex]: a 16-bit group without leading zeros. *)
Definition hex16 (x : Z) : string :=
  (if decide (0x1000 <= x) then hex_digit (x / 0x1000) else "") +:+
  (if decide (0x100 <= x) then hex_digit (x / 0x100 mod 16) else "") +:+
  (if decide (0x10 <= x) then hex_digit (x / 0x10 mod 16) else "") +:+
  hex_digit (x mod 16).

Definition hex8 (x : Z) : string := hex_digit (x / 16) +:+ hex_digit (x mod 16).

Definition byte_at (b : bytes) (i : nat) : Z := default 0 (b !! i).
Definition group_at (b : bytes) (i : nat) : Z :=
  256 * byte_at b (2 * i) + byte_at b (2 * i + 1).

Definition string4 (b : bytes) : string :=
  pretty (byte_at b 0) +:+ "." +:+ pretty (byte_at b 1) +:+ "." +:+
  pretty (byte_at b 2) +:+ "." +:+ pretty (byte_at b 3).

(** The end of the run of zero groups that starts at group [i]. *)
Fixpoint zero_run (n : nat) (b : bytes) (i : nat) : nat :=
  match n with
  | O => i
  | S n => if decide (group_at b i = 0) then zero_run n b (S i) else i
  end.

(** The leftmost longest run of at least two zero groups, if any. *)
Fixpoint longest_zero_run (n : nat) (b : bytes) (i : nat) (best : option (nat * nat))
    : option (nat * nat) :=
  match n with
  | O => best
  | S n' =>
      let j := zero_run n b i in
      let best' :=
        if decide (2 <= j - i)%nat then
          match best with
          | None => Some (i, j)
          | Some (s, e) => if decide (e - s < j - i)%nat then Some (i, j) else best
          end
        else best in
      longest_zero_run n' b (S i) best'
  end.

Fixpoint string6_from (n : nat) (b : bytes) (run : option (nat * nat)) (i : nat) : string :=
  match n with
  | O => ""
  | S n =>
      match run with
      | Some (s, e) =>
          if decide (i = s) then
            "::" +:+ (if decide (8 <= e)%nat then ""
                      else hex16 (group_at b e) +:+ string6_from n b run (S e))
          else if decide (8 <= i)%nat then ""
          else (if decide (0 < i)%nat then ":" else "") +:+
               hex16 (group_at b i) +:+ string6_from n b run (S i)
      | None =>
          if decide (8 <= i)%nat then ""
          else (if decide (0 < i)%nat then ":" else "") +:+
               hex16 (group_at b i) +:+ string6_from n b run (S i)
      end
  end.
Definition string6 (b : bytes) : string :=
  string6_from 9 b (longest_zero_run 8 b 0 None) 0.

Definition v4InV6Prefix : bytes := [0;0;0;0;0;0;0;0;0;0;255;255].
Definition is4In6 (b : bytes) : bool :=
  bool_decide (length b = 16%nat /\ take 12 b = v4InV6Prefix).

(** [netip.Addr.String] *)
Definition Addr_String (a : Addr) : string :=
  match a with
  | AddrZero => "invalid IP"
  | Addr4 b => string4 b
  | Addr16 b => if is4In6 b then "::ffff:" +:+ string4 (drop 12 b) else string6 b
  end.

(** [net.IP.To4] *)
Definition To4 (ip : bytes) : option bytes :=
  if decide (length ip = 4%nat) then Some ip
  else if is4In6 ip then Some (drop 12 ip)
  else None.

(** [net.IP.String] *)
Definition IP_String (ip : bytes) : string :=
  match ip with
  | [] => "<nil>"
  | _ =>
      match To4 ip with
      | Some b => string4 b
      | None =>
          if decide (length ip = 16%nat) then Addr_String (Addr16 ip)
          else "?" +:+ String.concat "" (hex8 <$> ip)
      end
  end.

Example string6_compressed :
  Addr_String (Addr16 [0xfd;0;0;0;0;0;0;0;0;0;0;0;0;0;0;0x1a]) = "fd00::1a".
Proof. vm_compute. reflexivity. Qed.
Example string6_leading :
  Addr_String (Addr16 [0;0;0;0;0;0;0;0;0;0;0;0;0;0;0;1]) = "::1".
Proof. vm_compute. reflexivity. Qed.
Example string6_trailing :
  Addr_String (Addr16 [0x20;1;0xd;0xb8;0;0;0;1;0;0;0;0;0;0;0;0]) = "2001:db8:0:1::".
Proof. vm_compute. reflexivity. Qed.
Example string6_full :
  Addr_String (Addr16 [0x20;1;0xd;0xb8;0;1;0;0;0;1;0;2;0;3;0;4]) = "2001:db8:1:0:1:2:3:4".
Proof. vm_compute. reflexivity. Qed.
Example IP_String_v4 : IP_String [10;244;0;17] = "10.244.0.17".
Proof. vm_compute. reflexivity. Qed.

(** ** Parsing

    [netip.ParseAddr] on the bytes of the text: dotted IPv4, IPv6 with one
    ellipsis, an embedded IPv4 tail and a zone.  The result is the address and
    its zone. *)
Definition is_digit (c : Z) : bool := bool_decide (48 <= c <= 57).
Definition hex_val (c : Z) : option Z :=
  if decide (48 <= c <= 57) then Some (c - 48)
  else if decide (97 <= c <= 102) then Some (c - 87)
  else if decide (65 <= c <= 70) then Some (c - 55)
  else None.
Definition ch_dot : Z := 46.
Definition ch_colon : Z := 58.
Definition ch_percent : Z := 37.

(** [parseIPv4Fields]: [start] says that no character of the current field has
    been read. *)
Fixpoint parseIPv4Fields (s : bytes) (start : bool) (val digLen : Z) (fields : bytes)
    : option bytes :=
  match s with
  | [] => if decide (length fields < 3)%nat then None else Some (fields ++ [val])
  | c :: s =>
      if is_digit c then
        if decide (digLen = 1 /\ val = 0) then None
        else
          let val := val * 10 + (c - 48) in
          if decide (255 < val) then None else parseIPv4Fields s false val (digLen + 1) fields
      else if decide (c = ch_dot) then
        if start || bool_decide (s = []) then None
        else if decide (length fields = 3%nat) then None
        else parseIPv4Fields s true 0 0 (fields ++ [val])
      else None
  end.

(** The digits of a group: how many, their value, and what follows; [None] for
    more than four. *)
Fixpoint parse_group (off acc : Z) (s : bytes) : option (Z * Z * bytes) :=
  match s with
  | [] => Some (off, acc, [])
  | c :: rest =>
      match hex_val c with
      | None => Some (off, acc, s)
      | Some d => if decide (3 < off) then None else parse_group (off + 1) (acc * 16 + d) rest
      end
  end.

(** The loop over the groups; [n] groups still fit, [ip] holds the bytes read. *)
Fixpoint parse_groups (n : nat) (s ip : bytes) (ellipsis : option nat)
    : option (bytes * bytes * option nat) :=
  match n with
  | O => Some (s, ip, ellipsis)
  | S n =>
      r ← parse_group 0 0 s;
      let '(off, acc, rest) := r in
      if decide (off = 0) then None
      else
        match rest with
        | [] => Some ([], ip ++ be_bytes 2 acc, ellipsis)
        | c :: rest' =>
            if decide (c = ch_dot) then
              if decide (ellipsis = None /\ length ip <> 12%nat) then None
              else if decide (16 < length ip + 4)%nat then None
              else v4 ← parseIPv4Fields s true 0 0 []; Some ([], ip ++ v4, ellipsis)
            else
              let ip := ip ++ be_bytes 2 acc in
              if decide (c <> ch_colon) then None
              else
                match rest' with
                | [] => None
                | c' :: rest'' =>
                    if decide (c' = ch_colon) then
                      if decide (ellipsis <> None) then None
                      else if decide (rest'' = []) then Some ([], ip, Some (length ip))
                      else parse_groups n rest'' ip (Some (length ip))
                    else parse_groups n rest' ip ellipsis
                end
        end
  end.

Fixpoint split_zone (s : bytes) : bytes * option bytes :=
  match s with
  | [] => ([], None)
  | c :: s =>
      if decide (c = ch_percent) then ([], Some s)
      else let '(a, z) := split_zone s in (c :: a, z)
  end.

Definition parseIPv6 (s : bytes) : option (Addr * bytes) :=
  let '(s, zone) := split_zone s in
  if decide (zone = Some []) then None
  else
    let zone := default [] zone in
    let '(s, ellipsis) :=
      match s with
      | a :: b :: s' =>
          if decide (a = ch_colon /\ b = ch_colon) then (s', Some 0%nat) else (s, None)
      | _ => (s, None)
      end in
    if decide (ellipsis = Some 0%nat /\ s = []) then Some (Addr16 (replicate 16 0), zone)
    else
      r ← parse_groups 8 s [] ellipsis;
      let '(rest, ip, ellipsis) := r in
      if decide (rest <> []) then None
      else
        match ellipsis with
        | None => if decide (length ip < 16)%nat then None else Some (Addr16 ip, zone)
        | Some e =>
            if decide (length ip < 16)%nat then
              Some (Addr16 (take e ip ++ replicate (16 - length ip) 0 ++ drop e ip), zone)
            else None
        end.

(** The first of the three characters decides the kind. *)
Fixpoint ParseAddr_from (whole s : bytes) : option (Addr * bytes) :=
  match s with
  | [] => None
  | c :: s =>
      if decide (c = ch_dot) then
        v4 ← parseIPv4Fields whole true 0 0 []; Some (Addr4 v4, [])
      else if decide (c = ch_colon) then parseIPv6 whole
      else if decide (c = ch_percent) then None
      else ParseAddr_from whole s
  end.
Definition ParseAddr (s : string) : option (Addr * bytes) :=
  ParseAddr_from (bytes_of_string s) (bytes_of_string s).

(** [net.ParseIP]: always the 16-byte form; a zone is refused. *)
Definition ParseIP (s : string) : option bytes :=
  match ParseAddr s with
  | Some (Addr4 b, []) => Some (v4InV6Prefix ++ b)
  | Some (Addr16 b, []) => Some b
  | _ => None
  end.

(** [netip.Addr.AsSlice] *)
Definition AsSlice (a : Addr) : bytes :=
  match a with AddrZero => [] | Addr4 b => b | Addr16 b => b end.

Example ParseIP_examples :
  ParseIP "10.244.0.17" = Some (v4InV6Prefix ++ [10;244;0;17]) /\
  ParseIP "10.244.0" = None /\ ParseIP "1.2.3.04" = None /\ ParseIP "1.2.3.256" = None /\
  ParseIP "::" = Some (replicate 16 0) /\
  ParseIP "fd00::1a" = Some [0xfd;0;0;0;0;0;0;0;0;0;0;0;0;0;0;0x1a] /\
  ParseIP "2001:db8:1:0:1:2:3:4" = Some [0x20;1;0xd;0xb8;0;1;0;0;0;1;0;2;0;3;0;4] /\
  ParseIP "::ffff:1.2.3.4" = Some [0;0;0;0;0;0;0;0;0;0;255;255;1;2;3;4] /\
  ParseIP "1::2::3" = None /\ ParseIP "fe80::1%eth0" = None /\ ParseIP "example.com" = None.
Proof. vm_compute. done. Qed.

(** The parsers give well-formed addresses. *)
Lemma parseIPv4Fields_wf s : forall start val digLen fields b,
  Forall is_u8 fields -> 0 <= val <= 255 -> (length fields <= 3)%nat ->
  parseIPv4Fields s start val digLen fields = Some b -> length b = 4%nat /\ Forall is_u8 b.
Proof.
  induction s as [|c s IH]; intros start val digLen fields b Hf Hv Hl; cbn.
  - case_decide; [done|]. intros [= <-]. rewrite length_app. cbn. split; [lia|].
    apply Forall_app. split; [done|]. repeat constructor; lia.
  - unfold is_digit. case_bool_decide.
    + case_decide; [done|]. case_decide; [done|]. apply IH; [done|lia|done].
    + case_decide; [|done]. destruct (start || _); [done|]. case_decide; [done|].
      apply IH; [|lia|rewrite length_app; cbn; lia].
      apply Forall_app. split; [done|]. repeat constructor; lia.
Qed.

#[local] Arguments be_bytes : simpl never.
Lemma parse_groups_wf n : forall s ip e r,
  Forall is_u8 ip -> (length ip + 2 * n <= 16)%nat -> (default 0 e <= length ip)%nat ->
  parse_groups n s ip e = Some r ->
  Forall is_u8 r.1.2 /\ (length r.1.2 <= 16)%nat /\ (default 0 r.2 <= length r.1.2)%nat.
Proof.
  induction n as [|n IH]; intros s ip e r Hip Hl He; cbn; [intros [= <-]; cbn; split_and!; [done|lia|done]|].
  destruct (parse_group 0 0 s) as [[[off acc] rest]|]; cbn; [|done]. case_decide; [done|].
  assert (Forall is_u8 (ip ++ be_bytes 2 acc)) as Hip'.
  { apply Forall_app. split; [done|]. apply Forall_reverse, le_bytes_is. }
  assert (length (ip ++ be_bytes 2 acc) = length ip + 2)%nat as Hl' by (by rewrite length_app).
  destruct rest as [|c rest']; [intros [= <-]; cbn; split_and!; [done|lia|lia]|].
  case_decide.
  - case_decide; [done|]. case_decide; [done|].
    destruct (parseIPv4Fields s true 0 0 []) as [v4|] eqn:Ev; cbn; [|done]. intros [= <-]. cbn.
    apply parseIPv4Fields_wf in Ev as [Hlv Hv]; [|by constructor|lia|cbn; lia].
    rewrite length_app. split_and!; [by apply Forall_app|lia|lia].
  - case_decide; [done|]. destruct rest' as [|c' rest'']; [done|]. case_decide.
    + case_decide; [done|]. case_decide; [intros [= <-]; cbn; split_and!; [done|lia|lia]|].
      apply IH; [done|lia|cbn; lia].
    + apply IH; [done|lia|lia].
Qed.

Definition Addr_wf (a : Addr) : Prop :=
  match a with
  | AddrZero => False
  | Addr4 b => length b = 4%nat /\ Forall is_u8 b
  | Addr16 b => length b = 16%nat /\ Forall is_u8 b
  end.

Lemma parseIPv6_wf s r : parseIPv6 s = Some r -> Addr_wf r.1.
Proof.
  unfold parseIPv6. destruct (split_zone s) as [t zone]. case_decide; [done|].
  set (st := match t with a :: b :: s' => _ | _ => _ end). destruct st as [t' e] eqn:Est.
  assert (default 0 e = 0)%nat as He.
  { subst st. repeat case_match; simplify_eq; done. }
  case_decide; [intros [= <-]; cbn; split; [done|repeat constructor; lia]|].
  destruct (parse_groups 8 t' [] e) as [[[rest ip] e']|] eqn:Ep; cbn; [|done].
  apply parse_groups_wf in Ep as (Hu & Hl & He'); [|by constructor|cbn; lia|by rewrite He]. cbn in *.
  case_decide; [done|]. destruct e' as [k|]; case_decide; try done; intros [= <-]; cbn; [|split; [lia|done]].
  cbn in He'. split.
  - rewrite !length_app, length_take, length_replicate, length_drop. lia.
  - rewrite !Forall_app. split_and!; [by apply Forall_take|by apply Forall_replicate|by apply Forall_drop].
Qed.

Lemma ParseAddr_wf s a z : ParseAddr s = Some (a, z) -> Addr_wf a.
Proof.
  unfold ParseAddr. generalize (bytes_of_string s) at 1 as whole. induction (bytes_of_string s) as [|c l IH]; [done|].
  intros whole. cbn. repeat case_decide; [|by intros ?%parseIPv6_wf|done|apply IH].
  destruct (parseIPv4Fields whole true 0 0 []) as [b|] eqn:Eb; cbn; [|done]. intros [= <- _].
  by apply parseIPv4Fields_wf in Eb; [|constructor|lia|cbn; lia].
Qed.

Lemma ParseIP_wf s b : ParseIP s = Some b -> length b = 16%nat /\ Forall is_u8 b.
Proof.
  unfold ParseIP. destruct (ParseAddr s) as [[a z]|] eqn:Ea; [|done]. apply ParseAddr_wf in Ea.
  destruct a as [|b4|b16], z; try done; intros [= <-]; [|done]. destruct Ea as [Hl Hu].
  split; [by cbn; rewrite Hl|]. repeat (apply Forall_cons; split; [done|]). done.
Qed.

(** ** CIDR blocks

    [net.ParseCIDR] applied to the text of an address followed by a slash and
    a prefix length, as the authorization code builds it: the text of a byte
    string that is not an address ([<nil>] or [?..]) does not parse, an IPv4
    address (also in its 16-byte form, which prints dotted) takes a length up
    to 32 and an IPv6 address one up to 128. *)
Record IPNet : Type := { net_IP : bytes; net_bits : Z }.

Definition ParseCIDR (ip : bytes) (len : Z) : option IPNet :=
  match To4 ip with
  | Some b => if decide (len <= 32) then Some {| net_IP := b; net_bits := len |} else None
  | None =>
      if decide (length ip = 16%nat) then
        if decide (len <= 128) then Some {| net_IP := ip; net_bits := len |} else None
      else None
  end.

(** The first [n] bits of [a] and [b] agree, byte by byte under the mask. *)
Definition mask_byte (n : Z) : Z :=
  if decide (n <= 0) then 0
  else if decide (8 <= n) then 255
  else 256 - 2 ^ (8 - n).

Fixpoint same_prefix (n : Z) (a b : bytes) : bool :=
  match a, b with
  | [], [] => true
  | x :: a, y :: b =>
      (Z.land x (mask_byte n) =? Z.land y (mask_byte n)) && same_prefix (n - 8) a b
  | _, _ => false
  end.

(** [net.IPNet.Contains] *)
Definition Contains (n : IPNet) (ip : bytes) : bool :=
  let ip := default ip (To4 ip) in
  bool_decide (length ip = length (net_IP n)) && same_prefix (net_bits n) (net_IP n) ip.

(** A block of full length contains exactly its own address. *)
Example Contains_host :
  Contains {| net_IP := [10;0;0;1]; net_bits := 32 |} [10;0;0;1] = true /\
  Contains {| net_IP := [10;0;0;1]; net_bits := 32 |} [10;0;0;2] = false /\
  Contains {| net_IP := [10;0;0;1]; net_bits := 24 |} [10;0;0;200] = true.
Proof. vm_compute. auto. Qed.
