(* ===== verification/Nets.v ===== *)
(** * Address and port helpers: [pkg/nets/nets.go], [pkg/nets/connect.go]

    Byte-order conversion of ports, the copy of an address into the fixed
    16-byte key of the BPF maps, the text of such a key, the difference of two
    address lists, and the retry interval of the control-plane connection. *)
From S2P Require Import Prelude GoNet.

(** ** Ports *)

Definition ConvertPortToBigEndian (little : Z) : Z :=
  let little16 := u16 little in
  let tmp := be_bytes 2 little16 in
  let big16 := le_uint tmp in
  big16.

Definition ConvertPortToLittleEndian (big : Z) : Z :=
  let tmp := le_bytes 2 (u16 big) in
  let little16 := be_uint tmp in
  little16.

(** ** Addresses *)

(** [binary.LittleEndian.Uint32] of [net.IP.To4], which is nil for an IPv6
    address: indexing it is a run-time panic. *)
Definition ConvertIpToUint32 (ip : string) : outcome Z :=
  match ParseIP ip with
  | None => Done 0
  | Some netIP =>
      if decide (length netIP = 16%nat) then
        match To4 netIP with
        | Some b => Done (le_uint (take 4 b))
        | None => Panic "index out of range"
        end
      else if decide (length netIP = 4%nat) then Done (le_uint netIP)
      else Done 0
  end.

(** The new contents of [*dst]. *)
Definition CopyIpByteFromSlice (dst : bytes) (src : bytes) : bytes :=
  let len := length src in
  if decide (len <> 4%nat /\ len <> 16%nat) then dst else copy_bytes dst src.

Fixpoint isZeros (p : bytes) : bool :=
  match p with
  | [] => true
  | b :: p => if decide (b <> 0) then false else isZeros p
  end.

Definition IpString (ip : bytes) : string :=
  if isZeros (drop 5 ip) then IP_String (take 4 ip) else IP_String ip.

(** The entries of [net.InterfaceAddrs()]: [*net.IPNet] values and others. *)
Inductive IfAddr : Type :=
  | IfIPNet (ip : bytes)
  | IfOther.

(** [net.IP.IsLoopback] *)
Definition IsLoopback (ip : bytes) : bool :=
  match To4 ip with
  | Some b => bool_decide (byte_at b 0 = 127)
  | None => bool_decide (ip = [0;0;0;0;0;0;0;0;0;0;0;0;0;0;0;1])
  end.

(** [addrs] is what [net.InterfaceAddrs] returned, [None] when it failed. *)
Definition checkIPVersion (addrs : option (list IfAddr)) : bool * bool :=
  match addrs with
  | None => (false, false)
  | Some l =>
      foldl (fun '(ipv4, ipv6) addr =>
        match addr with
        | IfOther => (ipv4, ipv6)
        | IfIPNet ip =>
            if IsLoopback ip then (ipv4, ipv6)
            else match ip with
                 | [] => (ipv4, ipv6)
                 | _ =>
                     match To4 ip with
                     | Some _ => (true, ipv6)
                     | None => if decide (length ip = 16%nat) then (ipv4, true) else (ipv4, ipv6)
                     end
                 end
        end) (false, false) l
  end.

(** [ip, ok := netip.AddrFromSlice(item)] followed by [ip.String()]; a failed
    conversion is logged only. *)
Definition addr_text (item : bytes) : string :=
  let '(ip, ok) := AddrFromSlice item in Addr_String ip.

(** The loop over [b] of [CompareIpByte]; [aSet] shrinks as addresses match. *)
Fixpoint compare_missing (aSet : gmap string bytes) (b : list bytes) : list bytes :=
  match b with
  | [] => []
  | item :: b =>
      let key := addr_text item in
      match aSet !! key with
      | None => item :: compare_missing aSet b
      | Some _ => compare_missing (delete key aSet) b
      end
  end.

Definition CompareIpByte (a b : list bytes) : list bytes :=
  let aSet := foldl (fun (aSet : gmap string bytes) item =>
                <[addr_text item := item]> aSet) ∅ a in
  compare_missing aSet b.

(** ** Reconnection *)

(** [time.Duration] is an [int64] of nanoseconds. *)
Definition Second : Z := 1000000000.
Definition MaxRetryInterval : Z := Second * 30.
Definition MaxRetryCount : Z := 3.

Definition CalculateInterval (t : Z) : Z :=
  let t := t + MaxRetryInterval / MaxRetryCount in
  if decide (MaxRetryInterval < t) then MaxRetryInterval else t.

(** [intn] is [rand.Intn]. *)
Definition CalculateRandTime (intn : Z -> Z) (sed : Z) : Z :=
  if decide (sed <= 0) then 0 else intn sed * 1000000.

(** ** Properties *)

Lemma be_bytes_2 x : be_bytes 2 x = [x / 256 mod 256; x mod 256].
Proof. reflexivity. Qed.

Lemma port_swap x :
  ConvertPortToBigEndian x = u16 x / 256 mod 256 + 256 * (u16 x mod 256).
Proof.
  unfold ConvertPortToBigEndian. rewrite be_bytes_2. cbn [le_uint]. lia.
Qed.

Lemma port_unswap x :
  ConvertPortToLittleEndian x = u16 x / 256 mod 256 + 256 * (u16 x mod 256).
Proof.
  unfold ConvertPortToLittleEndian, be_uint. cbn [le_bytes].
  change (reverse ?l) with (rev_append l []). cbn [rev_append le_uint]. lia.
Qed.

Lemma port_swap_is_u16 x : is_u16 (ConvertPortToBigEndian x).
Proof.
  rewrite port_swap. unfold is_u16.
  pose proof (Z.mod_pos_bound (u16 x / 256) 256).
  pose proof (Z.mod_pos_bound (u16 x) 256). lia.
Qed.

Lemma port_roundtrip_u16 x :
  ConvertPortToLittleEndian (ConvertPortToBigEndian x) = u16 x.
Proof.
  rewrite port_unswap, (u16_small _ (port_swap_is_u16 x)), port_swap.
  pose proof (u16_is x) as Hx. unfold is_u16 in Hx. generalize dependent (u16 x).
  intros y Hy. Z.div_mod_to_equations. lia.
Qed.

Lemma length_CopyIpByteFromSlice dst src :
  length dst = 16%nat -> length (CopyIpByteFromSlice dst src) = 16%nat.
Proof.
  intros H. unfold CopyIpByteFromSlice. case_decide as Hd; [done|].
  rewrite length_copy_bytes; lia.
Qed.

(** A 16-byte address replaces the key whole; a 4-byte one leaves the other
    twelve bytes of the key as they were. *)
Lemma CopyIp_16 dst src :
  length dst = 16%nat -> length src = 16%nat -> CopyIpByteFromSlice dst src = src.
Proof.
  intros Hd Hs. unfold CopyIpByteFromSlice, copy_bytes.
  rewrite decide_False by lia.
  rewrite take_ge, drop_ge by lia. apply app_nil_r.
Qed.

Lemma CopyIp_4 dst src :
  length dst = 16%nat -> length src = 4%nat ->
  CopyIpByteFromSlice dst src = src ++ drop 4 dst.
Proof.
  intros Hd Hs. unfold CopyIpByteFromSlice, copy_bytes.
  rewrite decide_False by lia. by rewrite take_ge, Hs by lia.
Qed.

(** What [CompareIpByte] builds from the new addresses. *)
Lemma compare_set_dom a (m : gmap string bytes) k :
  is_Some (foldl (fun (m : gmap string bytes) item =>
             <[addr_text item := item]> m) m a !! k) <->
  is_Some (m !! k) \/ k ∈ addr_text <$> a.
Proof.
  revert m; induction a as [|x a IH]; intros m; cbn [foldl fmap list_fmap].
  { set_solver. }
  rewrite IH, elem_of_cons, lookup_insert_is_Some'.
  split; intros; naive_solver.
Qed.

Lemma compare_missing_spec (b : list bytes) : forall aSet : gmap string bytes,
  NoDup (addr_text <$> b) ->
  compare_missing aSet b =
  filter (fun x => aSet !! addr_text x = None) b.
Proof.
  induction b as [|x b IH]; intros aSet Hnd; [done|].
  cbn [fmap list_fmap] in Hnd. apply NoDup_cons in Hnd as [Hx Hnd].
  cbn [compare_missing]. rewrite filter_cons.
  destruct (aSet !! _) as [v|] eqn:E.
  - rewrite decide_False by done. rewrite IH by done.
    apply list_filter_ext_in. intros y Hy.
    rewrite lookup_delete_ne; [done|]. intros Heq. apply Hx. rewrite Heq.
    by apply (list_elem_of_fmap_2 addr_text).
  - rewrite decide_True by done. by rewrite IH.
Qed.

(** Converting a port to network order and back gives the low 16 bits of
    the port, whatever the 32-bit value was; the converted port fits in 16
    bits. *)
Theorem port_conversion_roundtrip (p : Z) :
  ConvertPortToLittleEndian (ConvertPortToBigEndian p) = p mod 2 ^ 16 /\
  ConvertPortToBigEndian (ConvertPortToLittleEndian p) = p mod 2 ^ 16 /\
  0 <= ConvertPortToBigEndian p < 2 ^ 16.
Proof.
  split_and!.
  - apply port_roundtrip_u16.
  - replace (ConvertPortToLittleEndian p) with (ConvertPortToBigEndian p)
      by (by rewrite port_swap, port_unswap).
    replace (ConvertPortToBigEndian (ConvertPortToBigEndian p))
      with (ConvertPortToLittleEndian (ConvertPortToBigEndian p))
      by (by rewrite (port_swap (ConvertPortToBigEndian p)), port_unswap).
    apply port_roundtrip_u16.
  - apply port_swap_is_u16.
  - apply port_swap_is_u16.
Qed.

(** For an old list without two texts of the same address, [CompareIpByte]
    returns, in order, exactly the old addresses whose text is not the text
    of a new one. *)
Theorem CompareIpByte_spec (a b : list bytes) :
  NoDup (addr_text <$> b) ->
  CompareIpByte a b =
  filter (fun x => addr_text x ∉
            (addr_text <$> a)) b.
Proof.
  intros Hnd. unfold CompareIpByte. rewrite compare_missing_spec by done.
  apply list_filter_ext_in. intros x _.
  rewrite eq_None_not_Some, compare_set_dom, lookup_empty. split; intros; naive_solver.
Qed.

Lemma CompareIpByte_spec_witness :
  CompareIpByte [[10;0;0;1]; [10;0;0;2]] [[10;0;0;2]; [10;0;0;3]] = [[10;0;0;3]].
Proof.
  rewrite (CompareIpByte_spec [[10;0;0;1]; [10;0;0;2]] [[10;0;0;2]; [10;0;0;3]]).
  - vm_compute. reflexivity.
  - apply (bool_decide_unpack _). vm_compute. exact I.
Defined.

(** [IpString] prints as IPv4 every key whose bytes from the sixth on are
    zero, so two different keys that agree on the first four bytes and have
    any fifth byte print alike: the test starts at index 5 where the comment
    asks for the last 12 bytes. *)
Theorem IpString_ignores_fifth_byte (a b c d x y : Z) :
  IpString ([a; b; c; d; x] ++ replicate 11 0) = IpString ([a; b; c; d; y] ++ replicate 11 0).
Proof. reflexivity. Qed.
