(* ===== verification/Murmur3.v ===== *)
(** * MurmurHash3, 128 bits: [pkg/utils/hash/murmur3.go]

    The hash that places the backends of a cluster in a Maglev table, at its
    64-bit width, with the mixing steps shown to lose no information. *)
From S2P Require Import Prelude.
Open Scope go_scope.

(** [uint64] shifts, exclusive or. *)
Definition shl64 (x r : Z) : Z := u64 (Z.shiftl x r).
Definition shr64 (x r : Z) : Z := Z.shiftr x r.

Definition rotl64 (x r : Z) : Z := Z.lor (shl64 x r) (shr64 x (64 - r)).

Definition fmix64 (k : Z) : Z :=
  let k := Z.lxor k (shr64 k 33) in
  let k := k *64 0xff51afd7ed558ccd in
  let k := Z.lxor k (shr64 k 33) in
  let k := k *64 0xc4ceb9fe1a85ec53 in
  Z.lxor k (shr64 k 33).

Definition c1 : Z := 0x87c37b91114253d5.
Definition c2 : Z := 0x4cf5ad432745937f.

(** One 16-byte block of the body loop. *)
Definition body_block (h : Z * Z) (block : bytes) : Z * Z :=
  let '(h1, h2) := h in
  let k1 := le_uint (take 8 block) in
  let k2 := le_uint (take 8 (drop 8 block)) in
  let k1 := k1 *64 c1 in
  let k1 := rotl64 k1 31 in
  let k1 := k1 *64 c2 in
  let h1 := Z.lxor h1 k1 in
  let h1 := rotl64 h1 27 in
  let h1 := h1 +64 h2 in
  let h1 := h1 *64 5 +64 0x52dce729 in
  let k2 := k2 *64 c2 in
  let k2 := rotl64 k2 33 in
  let k2 := k2 *64 c1 in
  let h2 := Z.lxor h2 k2 in
  let h2 := rotl64 h2 31 in
  let h2 := h2 +64 h1 in
  let h2 := h2 *64 5 +64 0x38495ab5 in
  (h1, h2).

Fixpoint body (nblocks : nat) (data : bytes) (h : Z * Z) : Z * Z :=
  match nblocks with
  | O => h
  | S n => body n (drop 16 data) (body_block h (take 16 data))
  end.

(** The [switch] on the tail length falls through from the case of the length
    down to the first, so the body of case [n] runs when the length is at
    least [n]. *)
Definition tail_case (t n : nat) (tail : bytes) (shift k : Z) : Z :=
  if decide (n <= t)%nat
  then Z.lxor k (shl64 (default 0 (tail !! (n - 1)%nat)) shift)
  else k.

Definition tail_mix (tail : bytes) (h : Z * Z) : Z * Z :=
  let '(h1, h2) := h in
  let t := Z.to_nat (Z.land (Z.of_nat (length tail)) 15) in
  let k2 := 0 in
  let k2 := tail_case t 15 tail 48 k2 in
  let k2 := tail_case t 14 tail 40 k2 in
  let k2 := tail_case t 13 tail 32 k2 in
  let k2 := tail_case t 12 tail 24 k2 in
  let k2 := tail_case t 11 tail 16 k2 in
  let k2 := tail_case t 10 tail 8 k2 in
  let k2 := tail_case t 9 tail 0 k2 in
  let h2 := if decide (9 <= t)%nat
            then Z.lxor h2 (rotl64 (k2 *64 c2) 33 *64 c1) else h2 in
  let k1 := 0 in
  let k1 := tail_case t 8 tail 56 k1 in
  let k1 := tail_case t 7 tail 48 k1 in
  let k1 := tail_case t 6 tail 40 k1 in
  let k1 := tail_case t 5 tail 32 k1 in
  let k1 := tail_case t 4 tail 24 k1 in
  let k1 := tail_case t 3 tail 16 k1 in
  let k1 := tail_case t 2 tail 8 k1 in
  let k1 := tail_case t 1 tail 0 k1 in
  let h1 := if decide (1 <= t)%nat
            then Z.lxor h1 (rotl64 (k1 *64 c1) 31 *64 c2) else h1 in
  (h1, h2).

Definition Hash128 (data : bytes) (seed : Z) : Z * Z :=
  let nblocks := (length data / 16)%nat in
  let h := body nblocks data (seed, seed) in
  let tail := drop (nblocks * 16) data in
  let '(h1, h2) := tail_mix tail h in
  let len := u64 (Z.of_nat (length data)) in
  let h1 := Z.lxor h1 len in
  let h2 := Z.lxor h2 len in
  let h1 := h1 +64 h2 in
  let h2 := h2 +64 h1 in
  let h1 := fmix64 h1 in
  let h2 := fmix64 h2 in
  let h1 := h1 +64 h2 in
  let h2 := h2 +64 h1 in
  (h1, h2).

(** The expectations of [murmur3_test.go]. *)
Example Hash128_empty : Hash128 [] 0 = (0, 0).
Proof. vm_compute. reflexivity. Qed.
Example Hash128_empty_42 : Hash128 [] 42 = (17305828677633410339, 15060430851467758521).
Proof. vm_compute. reflexivity. Qed.
Example Hash128_hello :
  Hash128 (bytes_of_string "hello world") 123 = (3184134337056710880, 6735459307601781589).
Proof. vm_compute. reflexivity. Qed.
Example Hash128_26_bytes :
  Hash128 (bytes_of_string "0123456789abcdef0123456789") 0
  = (9554952042823857868, 7769558039678505135).
Proof. vm_compute. reflexivity. Qed.
Example Hash128_15_bytes :
  Hash128 (bytes_of_string "012345678901234") 0 = (11867552070264469923, 3266839343213454983).
Proof. vm_compute. reflexivity. Qed.

(** ** The mixing steps are invertible *)

Lemma xorshift_is k : is_u64 k -> is_u64 (Z.lxor k (shr64 k 33)).
Proof. intros H. apply lxor_bound; [lia|done|]. apply shiftr_bound; [lia|done]. Qed.

(** Undoing [k ^= k >> 33]: a second application gives back [k], because
    33 + 33 exceeds the width. *)
Lemma xorshift_invol k :
  is_u64 k ->
  Z.lxor (Z.lxor k (shr64 k 33)) (shr64 (Z.lxor k (shr64 k 33)) 33) = k.
Proof.
  intros H. unfold shr64. rewrite Z.shiftr_lxor, Z.shiftr_shiftr by lia.
  rewrite <-Z.lxor_assoc, (Z.lxor_assoc k), Z.lxor_nilpotent, Z.lxor_0_r.
  replace (Z.shiftr k (33 + 33)) with 0; [apply Z.lxor_0_r|].
  rewrite Z.shiftr_div_pow2 by lia. symmetry. apply Z.div_small.
  unfold is_u64 in H. split; [lia|]. transitivity (2 ^ 64); [lia|]. by apply Z.pow_lt_mono_r.
Qed.

Lemma mul64_invol a b k : is_u64 k -> u64 (a * b) = 1 -> u64 (u64 (k * a) * b) = k.
Proof.
  intros H Hab. unfold u64 in *. rewrite Z.mul_mod_idemp_l by lia.
  rewrite <-Z.mul_assoc, <-Z.mul_mod_idemp_r, Hab, Z.mul_1_r by lia. by apply Z.mod_small.
Qed.

(** The steps of [fmix64] in the reverse order, with the inverses of the two
    odd multipliers modulo 2^64. *)
Definition unfmix64 (k : Z) : Z :=
  let k := Z.lxor k (shr64 k 33) in
  let k := k *64 0x9cb4b2f8129337db in
  let k := Z.lxor k (shr64 k 33) in
  let k := k *64 0x4f74430c22a54005 in
  Z.lxor k (shr64 k 33).

(** [fmix64] is a bijection of the 64-bit words: [unfmix64] is its inverse
    on both sides, so the finaliser of the hash never merges two states. *)
Theorem fmix64_bijective (k : Z) :
  is_u64 k ->
  is_u64 (fmix64 k) /\ unfmix64 (fmix64 k) = k /\ fmix64 (unfmix64 k) = k.
Proof.
  intros H. unfold fmix64, unfmix64.
  split; [apply xorshift_is, u64_is|]. split.
  all: rewrite xorshift_invol by apply u64_is.
  all: rewrite mul64_invol; [|apply xorshift_is|vm_compute; reflexivity].
  all: try apply u64_is.
  all: rewrite xorshift_invol by apply u64_is.
  all: rewrite mul64_invol; [|by apply xorshift_is|vm_compute; reflexivity].
  all: by apply xorshift_invol.
Qed.

Lemma fmix64_bijective_witness :
  is_u64 0x0123456789abcdef /\ unfmix64 (fmix64 0x0123456789abcdef) = 0x0123456789abcdef.
Proof.
  assert (is_u64 0x0123456789abcdef) as H by (unfold is_u64; lia).
  split; [exact H|]. apply (fmix64_bijective 0x0123456789abcdef H).
Defined.

Lemma Hash128_is data seed : is_u64 (Hash128 data seed).1 /\ is_u64 (Hash128 data seed).2.
Proof.
  unfold Hash128. destruct (tail_mix _ _) as [h1 h2]. split; apply u64_is.
Qed.
