(* ===== verification/Maglev.v ===== *)
(** * Maglev consistent hashing: [pkg/consistenthash/maglev/maglev.go]

    The lookup table of a cluster: a permutation of the table per backend, the
    fill loop, and the update of the outer BPF map.  The fill loop is shown to
    terminate, to fill the whole table, to share it evenly, and to agree with
    the textbook algorithm that remembers each backend's position. *)
From S2P Require Import Prelude Murmur3.
From Stdlib Require Import Zdivisibility.
Open Scope go_scope.

Definition DefaultTableSize : Z := 16381.
Definition DefaultHashSeed : string := "JLfvgnHc2kaSUFaI".
Definition ClusterNameMaxLen : nat := 192.

(** ** [base64.StdEncoding.DecodeString] on unpadded text *)
Definition b64_val (c : Z) : option Z :=
  if decide (65 <= c <= 90) then Some (c - 65)
  else if decide (97 <= c <= 122) then Some (c - 71)
  else if decide (48 <= c <= 57) then Some (c + 4)
  else if decide (c = 43) then Some 62
  else if decide (c = 47) then Some 63
  else None.

Fixpoint b64_decode (s : bytes) : option bytes :=
  match s with
  | [] => Some []
  | a :: b :: c :: d :: s =>
      a ← b64_val a; b ← b64_val b; c ← b64_val c; d ← b64_val d;
      rest ← b64_decode s;
      let v := a * 2 ^ 18 + b * 2 ^ 12 + c * 2 ^ 6 + d in
      Some (v / 2 ^ 16 :: v / 2 ^ 8 mod 256 :: v mod 256 :: rest)
  | _ => None
  end.

(** ** State

    The package variables: the outer map from the padded cluster name to the
    contents of the inner map it refers to, the seed and the table size. *)
Record MaglevState : Type := {
  outer : option (gmap bytes (list Z));
  seedMurmur : Z;
  maglevTableSize : Z
}.

(** [loaded] is what [ebpf.LoadPinnedMap] returned. *)
Definition InitMaglevMap (loaded : gmap bytes (list Z) + error) (st : MaglevState)
    : MaglevState * option error :=
  let st := {| outer := outer st; seedMurmur := seedMurmur st;
               maglevTableSize := DefaultTableSize |} in
  match loaded with
  | inr e => (st, Some (Errorf "load outer map of maglev failed"))
  | inl m =>
      let st := {| outer := Some m; seedMurmur := seedMurmur st;
                   maglevTableSize := maglevTableSize st |} in
      match b64_decode (bytes_of_string DefaultHashSeed) with
      | None => (st, Some (Errorf "cannot decode base64 Maglev hash seed"))
      | Some d =>
          if decide (length d <> 12%nat) then
            (st, Some (Errorf "decoded hash seed has the wrong length"))
          else
            ({| outer := outer st;
                seedMurmur := be_uint (take 4 d);
                maglevTableSize := maglevTableSize st |}, None)
      end
  end.

(** What the kernel answers to the three calls of [updateMaglevTable]. *)
Record KernelReply : Type := {
  new_map : option error;
  inner_update : option error;
  outer_update : option error
}.

Definition updateMaglevTable (k : KernelReply) (backendIDs : list Z) (clusterName : string)
    (st : MaglevState) : MaglevState * option error :=
  match outer st with
  | None => (st, Some (Errorf "outer maglev maps not yet initialized"))
  | Some m =>
      match new_map k with
      | Some e => (st, Some e)
      | None =>
          match inner_update k with
          | Some e => (st, Some (Errorf "updating backends of cluster"))
          | None =>
              let name := take ClusterNameMaxLen (bytes_of_string clusterName) in
              let maglevKey := copy_bytes (replicate ClusterNameMaxLen 0) name in
              match outer_update k with
              | Some e => (st, Some (Errorf "updating cluster"))
              | None =>
                  ({| outer := Some (<[maglevKey := backendIDs]> m);
                      seedMurmur := seedMurmur st;
                      maglevTableSize := maglevTableSize st |}, None)
              end
          end
      end
  end.

Section maglev.

(** The endpoints of a cluster and the text of their address, which comes from
    the generated protobuf code. *)
Context {Endpoint : Type} (address_String : Endpoint -> string).

Record Cluster : Type := {
  cluster_name : string;
  (* load_assignment.endpoints, each with its lb_endpoints *)
  localityLbEndpoints : list (list Endpoint)
}.

Record Backend : Type := mkBackend {
  ep : Endpoint;
  index : Z;
  offset : Z;
  skip : Z;
  next : Z
}.

Definition getOffsetAndSkip (seed : Z) (address : string) (m : Z) : Z * Z :=
  let '(h1, h2) := Hash128 (bytes_of_string address) seed in
  let offset := h1 mod m in
  let skip := h2 mod (m - 1) + 1 in
  (offset, skip).

Definition getPermutation (maglevTableSize : Z) (b : Backend) : Z :=
  (offset b +64 (skip b *64 next b)) mod maglevTableSize.

Definition next_incr (b : Backend) : Backend :=
  {| ep := ep b; index := index b; offset := offset b; skip := skip b;
     next := next b +64 1 |}.

(** [for lookUpTable[c] >= 0 { b.next++; c = getPermutation(b) }]: the free slot
    and the backend as the loop leaves it. *)
Fixpoint find_slot (fuel : nat) (m : Z) (table : list Z) (b : Backend)
    : outcome (Z * Backend) :=
  let c := getPermutation m b in
  match table !! Z.to_nat c with
  | None => Panic "index out of range"
  | Some v =>
      if decide (0 <= v) then
        match fuel with
        | O => NoFuel
        | S fuel => find_slot fuel m table (next_incr b)
        end
      else Done (c, b)
  end.

(** One round of the fill loop.  [b := backends[j]] copies the backend, so
    the increments of [next] are lost at the end of the round. *)
Definition fill_round (m : Z) (backends : list Backend) (n : Z) (table : list Z)
    : outcome (list Z) :=
  let j := n mod Z.of_nat (length backends) in
  match backends !! Z.to_nat j with
  | None => Panic "index out of range"
  | Some b =>
      cb ← find_slot (length table) m table b;
      let '(c, b) := cb in
      Done (<[Z.to_nat c := index b]> table)
  end.

Fixpoint fill (rounds : nat) (m : Z) (backends : list Backend) (n : Z) (table : list Z)
    : outcome (list Z) :=
  match rounds with
  | O => Done table
  | S r => table ← fill_round m backends n table; fill r m backends (n + 1) table
  end.

Fixpoint mkBackends (seed m : Z) (i : Z) (flatEps : list Endpoint) : list Backend :=
  match flatEps with
  | [] => []
  | e :: l =>
      let '(epOffset, epSkip) := getOffsetAndSkip seed (address_String e) m in
      {| ep := e; index := i; offset := epOffset; skip := epSkip; next := 0 |}
      :: mkBackends seed m (i + 1) l
  end.

Definition getLookupTable (st : MaglevState) (cluster : Cluster) (tableSize : Z)
    : outcome (list Z + error) :=
  let localityLbEps := localityLbEndpoints cluster in
  if decide (localityLbEps = []) then
    Done (inr (Errorf "current cluster has no any lb endpoints"))
  else
    let flatEps := concat localityLbEps in
    let backends := mkBackends (seedMurmur st) (maglevTableSize st) 0 flatEps in
    if decide (backends = []) then
      Done (inr (Errorf "current cluster has no any lb backends"))
    else
      let lookUpTable := replicate (Z.to_nat tableSize) (-1) in
      table ← fill (Z.to_nat tableSize) (maglevTableSize st) backends 0 lookUpTable;
      Done (inl table).

Definition CreateLB (k : KernelReply) (cluster : option Cluster) (st : MaglevState)
    : outcome (MaglevState * option error) :=
  match cluster with
  | None => Done (st, Some (Errorf "cluster is nil"))
  | Some cluster =>
      t ← getLookupTable st cluster (maglevTableSize st);
      match t with
      | inr err => Done (st, Some err)
      | inl table =>
          let backendIDs := u32 <$> table in
          match updateMaglevTable k backendIDs (cluster_name cluster) st with
          | (st, Some _) => Done (st, Some (Errorf "updateMaglevTable fail"))
          | (st, None) => Done (st, None)
          end
      end
  end.

(** ** The fill loop *)

(** The [i]-th slot of a backend's permutation of the table. *)
Definition slot (m : Z) (b : Backend) (i : Z) : Z := (offset b + skip b * i) mod m.

Definition set_next (b : Backend) (i : Z) : Backend :=
  {| ep := ep b; index := index b; offset := offset b; skip := skip b; next := i |}.

(** What [getOffsetAndSkip] guarantees of a backend. *)
Definition backend_wf (m : Z) (b : Backend) : Prop :=
  0 <= offset b < m /\ 1 <= skip b < m.

Definition free (table : list Z) (c : Z) : Prop :=
  exists v, table !! Z.to_nat c = Some v /\ v < 0.
Definition taken (table : list Z) (c : Z) : Prop :=
  exists v, table !! Z.to_nat c = Some v /\ 0 <= v.

#[global] Instance taken_dec table c : Decision (taken table c).
Proof.
  refine (match table !! Z.to_nat c as o return table !! Z.to_nat c = o -> _ with
          | Some v => fun E => match decide (0 <= v) with
                               | left H => left _
                               | right H => right _
                               end
          | None => fun E => right _
          end eq_refl).
  - by exists v.
  - intros (v' & E' & H'). simplify_eq. done.
  - intros (v' & E' & H'). congruence.
Defined.

Section table.
Context (m : Z) (Hprime : Z.prime m) (Hm : m < 2 ^ 32).

Lemma m_pos : 1 < m.
Proof. by destruct Hprime. Qed.

Lemma slot_range b i : 0 <= slot m b i < m.
Proof. apply Z.mod_pos_bound. pose proof m_pos. lia. Qed.

Lemma getPermutation_slot b :
  backend_wf m b -> 0 <= next b <= m -> getPermutation m b = slot m b (next b).
Proof.
  intros [Ho Hs] Hn. unfold getPermutation, slot. pose proof m_pos.
  assert (skip b * next b <= (2 ^ 32 - 2) * (2 ^ 32 - 1)).
  { apply Z.mul_le_mono_nonneg; lia. }
  assert (0 <= skip b * next b) by (apply Z.mul_nonneg_nonneg; lia).
  rewrite !u64_small; unfold is_u64; rewrite ?u64_small; unfold is_u64; lia.
Qed.

(** The permutation reaches every slot, since a step between 1 and m - 1 is
    invertible modulo the prime m. *)
Lemma slot_surj b c :
  backend_wf m b -> 0 <= c < m -> exists i, 0 <= i < m /\ slot m b i = c.
Proof.
  intros [Ho Hs] Hc. pose proof m_pos as Hp.
  destruct (Z.Bezout_coprime m (skip b)) as (v & u & Huv).
  { by apply Z.coprime_prime_small. }
  exists ((c - offset b) * u mod m). split; [apply Z.mod_pos_bound; lia|].
  unfold slot. rewrite <-Z.add_mod_idemp_r by lia.
  rewrite Z.mul_mod_idemp_r by lia. rewrite Z.add_mod_idemp_r by lia.
  replace (offset b + skip b * ((c - offset b) * u))
    with (c + (- v * (c - offset b)) * m) by nia.
  rewrite Z.mod_add by lia. by apply Z.mod_small.
Qed.

(** The search stops at the first free slot of the permutation. *)
Lemma find_slot_least table k : forall fuel b,
  Z.of_nat (length table) = m -> backend_wf m b -> 0 <= next b <= k -> k < m ->
  free table (slot m b k) ->
  (forall i, next b <= i < k -> taken table (slot m b i)) ->
  k - next b <= Z.of_nat fuel ->
  find_slot fuel m table b = Done (slot m b k, set_next b k).
Proof.
  intros fuel. induction fuel as [|fuel IH]; intros b Hlen Hwf Hn Hk Hfree Htaken Hf;
    cbn [find_slot]; rewrite getPermutation_slot by (done || lia).
  all: destruct (decide (next b = k)) as [Heq|Hne].
  1,3: destruct Hfree as (v & Hv & Hneg); rewrite Heq, Hv;
       rewrite decide_False by lia; unfold set_next; rewrite <-Heq; by destruct b.
  - lia.
  - destruct (Htaken (next b)) as (v & -> & Hv); [lia|].
    rewrite decide_True by done.
    assert (next (next_incr b) = next b + 1) as Hincr.
    { unfold next_incr; simpl. apply u64_small. unfold is_u64. lia. }
    rewrite (IH (next_incr b)); rewrite ?Hincr; try done; try lia.
    intros i Hi. apply (Htaken i). lia.
Qed.

(** A table with a free slot has a first one along any permutation. *)
Lemma least_free table b :
  Z.of_nat (length table) = m -> backend_wf m b ->
  (exists c, 0 <= c < m /\ free table c) ->
  exists k, 0 <= k < m /\ free table (slot m b k) /\
    forall i, 0 <= i < k -> taken table (slot m b i).
Proof.
  intros Hlen Hwf (c & Hc & Hfree).
  destruct (slot_surj b c Hwf Hc) as (i & Hi & <-).
  clear Hc. remember (Z.to_nat i) as n eqn:Hn. revert i Hi Hn Hfree.
  induction (lt_wf n) as [n _ IH]; intros i Hi Hn Hfree.
  destruct (decide (Exists (fun j => ~ taken table (slot m b j)) (seqZ 0 i))) as [Hex|Hnex].
  - apply Exists_exists in Hex as (j & Hj & Hnt). apply elem_of_seqZ in Hj.
    apply (IH (Z.to_nat j)) with (i := j); [lia|lia|done|].
    assert (is_Some (table !! Z.to_nat (slot m b j))) as [v Hv].
    { apply lookup_lt_is_Some. pose proof (slot_range b j). lia. }
    exists v. split; [done|]. destruct (decide (0 <= v)); [|lia].
    exfalso. apply Hnt. by exists v.
  - exists i. split; [done|]. split; [done|]. intros j Hj.
    destruct (decide (taken table (slot m b j))) as [|Hnt]; [done|].
    exfalso. apply Hnex. apply Exists_exists. exists j. split; [|done].
    apply elem_of_seqZ. lia.
Qed.

(** *** The invariant of the fill loop *)

(** How many of the first [n] rounds belong to backend [j] of [L]. *)
Definition rounds_of (L j n : Z) : Z := (n + L - 1 - j) / L.

Lemma rounds_of_succ L j n :
  0 <= j < L -> 0 <= n ->
  rounds_of L j (n + 1) = rounds_of L j n + (if decide (n mod L = j) then 1 else 0).
Proof.
  intros Hj Hn. unfold rounds_of.
  pose proof (Z.div_mod n L ltac:(lia)) as Hdiv.
  pose proof (Z.mod_pos_bound n L ltac:(lia)) as Hmod.
  set (q := n / L) in *. set (r := n mod L) in *.
  rewrite <-(Z.div_unique (n + L - 1 - j) L (q + (if decide (r <= j) then 0 else 1))
             (r + L - 1 - j - (if decide (r <= j) then 0 else L))).
  2: left; destruct (decide (r <= j)); lia.
  2: destruct (decide (r <= j)); lia.
  symmetry. apply (Z.div_unique _ L _ (r + L - j - (if decide (r < j) then 0 else L))).
  - left. destruct (decide (r < j)); lia.
  - destruct (decide (r <= j)), (decide (r = j)), (decide (r < j)); lia.
Qed.

Lemma rounds_of_bounds L j n :
  0 <= j < L -> 0 <= n -> n / L <= rounds_of L j n <= n / L + 1.
Proof.
  intros Hj Hn. unfold rounds_of. split.
  - apply Z.div_le_mono; lia.
  - rewrite <-(Z.div_add n 1 L) by lia. apply Z.div_le_mono; lia.
Qed.

(** Backends as [getLookupTable] builds them. *)
Definition backends_ok (backends : list Backend) : Prop :=
  backends <> [] /\
  forall j b, backends !! j = Some b ->
    backend_wf m b /\ index b = Z.of_nat j /\ next b = 0.

Record table_inv (L n : Z) (table : list Z) : Prop := {
  ti_length : Z.of_nat (length table) = m;
  ti_filled : Z.of_nat (occ (fun v => 0 <= v) table) = n;
  ti_range : forall v, v ∈ table -> v = -1 \/ 0 <= v < L;
  ti_share : forall j, 0 <= j < L -> Z.of_nat (occ (fun v => v = j) table) = rounds_of L j n
}.

Lemma table_inv_init L : 0 < L -> table_inv L 0 (replicate (Z.to_nat m) (-1)).
Proof.
  pose proof m_pos. intros HL. split.
  - rewrite length_replicate. lia.
  - by rewrite occ_replicate_False by lia.
  - intros v Hv. apply elem_of_replicate_inv in Hv. by left.
  - intros j Hj. rewrite occ_replicate_False by lia. unfold rounds_of.
    symmetry. apply Z.div_small. lia.
Qed.

Lemma table_inv_free L n table :
  table_inv L n table -> n < m -> exists c, 0 <= c < m /\ free table c.
Proof.
  intros [Hlen Hfill _ _] Hn.
  destruct (occ_lt_exists (fun v => 0 <= v) table) as (i & v & Hi & Hv); [lia|].
  exists (Z.of_nat i). apply lookup_lt_Some in Hi as Hlt. split; [lia|].
  exists v. rewrite Nat2Z.id. split; [done|lia].
Qed.

Lemma table_inv_step L n table c j :
  table_inv L n table -> 0 <= n -> 0 <= c < m -> free table c -> j = n mod L -> 0 < L ->
  table_inv L (n + 1) (<[Z.to_nat c := j]> table).
Proof.
  intros [Hlen Hfill Hran Hshare] Hn Hc (v & Hv & Hneg) -> HL.
  pose proof (Z.mod_pos_bound n L HL) as Hj. split.
  - by rewrite length_insert.
  - pose proof (occ_insert (fun v => 0 <= v) table _ v (n mod L) Hv) as Ho.
    rewrite decide_False, decide_True in Ho by lia. lia.
  - intros x Hx. apply list_elem_of_lookup in Hx as (i & Hi).
    apply list_lookup_insert_Some in Hi as [(_ & <- & _)|(_ & Hi)]; [by right|].
    apply Hran. by apply list_elem_of_lookup_2 in Hi.
  - intros j' Hj'. rewrite rounds_of_succ by done. rewrite <-Hshare by done.
    pose proof (occ_insert (fun v => v = j') table _ v (n mod L) Hv) as Ho.
    rewrite (decide_False (P := v = j')) in Ho by lia. destruct (decide _); lia.
Qed.

(** One round writes the backend's index into the first free slot of its
    permutation. *)
Lemma fill_round_slot backends n table j b :
  backends_ok backends -> Z.of_nat (length table) = m -> 0 <= n ->
  j = n mod Z.of_nat (length backends) -> backends !! Z.to_nat j = Some b ->
  (exists c, 0 <= c < m /\ free table c) ->
  exists k, 0 <= k < m /\ free table (slot m b k) /\
    (forall i, 0 <= i < k -> taken table (slot m b i)) /\
    fill_round m backends n table = Done (<[Z.to_nat (slot m b k) := j]> table).
Proof.
  intros [Hne Hb] Hlen Hn -> Hlook Hfree.
  destruct (Hb _ _ Hlook) as (Hwf & Hidx & Hnext).
  destruct (least_free table b Hlen Hwf Hfree) as (k & Hk & Hf & Ht).
  exists k. split_and!; try done; try lia.
  unfold fill_round. rewrite Hlook.
  rewrite (find_slot_least table k) by (rewrite ?Hnext; done || lia).
  cbn. rewrite Hidx, Z2Nat.id; [done|].
  apply Z.mod_pos_bound. destruct backends; [done|simpl; lia].
Qed.

Lemma round_backend (backends : list Backend) n :
  backends <> [] -> exists b, backends !! Z.to_nat (n mod Z.of_nat (length backends)) = Some b.
Proof.
  intros Hne. apply lookup_lt_is_Some.
  assert (0 < Z.of_nat (length backends)) by (destruct backends; [done|simpl; lia]).
  pose proof (Z.mod_pos_bound n (Z.of_nat (length backends))). lia.
Qed.

Lemma fill_inv backends r : forall n table,
  backends_ok backends -> 0 <= n -> n + Z.of_nat r <= m ->
  table_inv (Z.of_nat (length backends)) n table ->
  exists table', fill r m backends n table = Done table' /\
    table_inv (Z.of_nat (length backends)) (n + Z.of_nat r) table'.
Proof.
  induction r as [|r IH]; intros n table Hok Hn Hr Hinv.
  { exists table. by rewrite Z.add_0_r. }
  destruct Hok as [Hne Hb].
  destruct (round_backend backends n Hne) as [b Hlook].
  assert (exists c, 0 <= c < m /\ free table c) as Hfree.
  { eapply table_inv_free; [done|lia]. }
  destruct (fill_round_slot backends n table _ b ltac:(done) (ti_length _ _ _ Hinv) Hn eq_refl
              Hlook Hfree) as (k & Hk & Hf & _ & Hround).
  cbn [fill]. rewrite Hround. cbn.
  destruct (IH (n + 1) (<[Z.to_nat (slot m b k) := n mod Z.of_nat (length backends)]> table))
    as (table' & -> & Hinv'); [done|lia|lia| |].
  - apply table_inv_step; try done; [apply slot_range; lia|].
    destruct backends; [done|simpl; lia].
  - exists table'. split; [done|]. by replace (n + Z.of_nat (S r)) with (n + 1 + Z.of_nat r) by lia.
Qed.

(** *** The textbook algorithm

    Maglev keeps, across rounds, how far each backend has walked along its
    permutation.  [ref_fill] does that; the code restarts every walk. *)
Definition ref_round (backends : list Backend) (n : Z) (table : list Z)
    : outcome (list Z * list Backend) :=
  let j := n mod Z.of_nat (length backends) in
  match backends !! Z.to_nat j with
  | None => Panic "index out of range"
  | Some b =>
      cb ← find_slot (length table) m table b;
      let '(c, b) := cb in
      Done (<[Z.to_nat c := index b]> table, <[Z.to_nat j := next_incr b]> backends)
  end.

Fixpoint ref_fill (rounds : nat) (backends : list Backend) (n : Z) (table : list Z)
    : outcome (list Z) :=
  match rounds with
  | O => Done table
  | S r => tb ← ref_round backends n table; ref_fill r tb.2 (n + 1) tb.1
  end.

(** The remembered positions only skip slots that are taken. *)
Definition positions_ok (table : list Z) (backends walked : list Backend) : Prop :=
  length walked = length backends /\
  forall j b, backends !! j = Some b ->
    exists i, walked !! j = Some (set_next b i) /\ 0 <= i <= m /\
      forall k, 0 <= k < i -> taken table (slot m b k).

Lemma taken_insert (table : list Z) c j c' :
  0 <= j -> taken table c' -> taken (<[Z.to_nat c := j]> table) c'.
Proof.
  intros Hj (v & Hv & Hpos). unfold taken. rewrite list_lookup_insert.
  case_decide as Hd; [by exists j|by exists v].
Qed.

Lemma taken_here (table : list Z) c j :
  0 <= j -> free table c -> taken (<[Z.to_nat c := j]> table) c.
Proof.
  intros Hj (v & Hv & _). exists j. split; [|done].
  apply list_lookup_insert_eq. by apply lookup_lt_Some in Hv.
Qed.

Lemma positions_ok_step table backends walked j b k :
  positions_ok table backends walked -> backends !! Z.to_nat j = Some b ->
  0 <= j -> 0 <= k < m -> free table (slot m b k) ->
  (forall i, 0 <= i < k -> taken table (slot m b i)) ->
  positions_ok (<[Z.to_nat (slot m b k) := j]> table) backends
    (<[Z.to_nat j := next_incr (set_next b k)]> walked).
Proof.
  intros [Hlen Hpos] Hb Hj Hk Hfree Htaken. split; [by rewrite length_insert|].
  intros j' b' Hb'. destruct (decide (j' = Z.to_nat j)) as [->|Hne].
  - simplify_eq. exists (k + 1). split_and!; [|lia|lia|].
    + rewrite list_lookup_insert_eq.
      * f_equal. unfold next_incr, set_next. simpl. f_equal. apply u64_small.
        unfold is_u64. lia.
      * rewrite Hlen. by apply lookup_lt_Some in Hb.
    + intros i Hi. destruct (decide (i = k)) as [->|]; [by apply taken_here|].
      apply taken_insert; [done|]. apply Htaken. lia.
  - destruct (Hpos _ _ Hb') as (i & Hi & Hbound & Ht). exists i.
    rewrite list_lookup_insert_ne by done. split; [done|]. split; [done|].
    intros k' Hk'. apply taken_insert; [done|]. by apply Ht.
Qed.

(** Starting from a remembered position or from the beginning, the search ends
    in the same slot. *)
Lemma ref_round_slot table backends walked n j b k :
  positions_ok table backends walked -> Z.of_nat (length table) = m ->
  backend_wf m b ->
  j = n mod Z.of_nat (length backends) -> backends !! Z.to_nat j = Some b ->
  0 <= k < m -> free table (slot m b k) ->
  (forall i, 0 <= i < k -> taken table (slot m b i)) ->
  ref_round walked n table =
    Done (<[Z.to_nat (slot m b k) := index b]> table,
          <[Z.to_nat j := next_incr (set_next b k)]> walked).
Proof.
  intros [Hlen Hpos] Htl Hwf -> Hb Hk Hfree Htaken.
  destruct (Hpos _ _ Hb) as (i & Hi & Hbound & Ht).
  unfold ref_round. rewrite Hlen, Hi.
  assert (i <= k).
  { destruct (decide (i <= k)); [done|]. exfalso.
    destruct (Ht k) as (v & Hv & Hge); [lia|]. destruct Hfree as (v' & Hv' & Hlt).
    rewrite Hv in Hv'. simplify_eq. lia. }
  rewrite (find_slot_least table k); simpl; try done; try lia.
  intros i' Hi'. apply Htaken. lia.
Qed.

Lemma fill_ref backends r : forall n table walked,
  backends_ok backends -> 0 <= n -> n + Z.of_nat r <= m ->
  table_inv (Z.of_nat (length backends)) n table ->
  positions_ok table backends walked ->
  fill r m backends n table = ref_fill r walked n table.
Proof.
  induction r as [|r IH]; intros n table walked Hok Hn Hr Hinv Hpos; [done|].
  destruct Hok as [Hne Hb].
  destruct (round_backend backends n Hne) as [b Hlook].
  assert (exists c, 0 <= c < m /\ free table c) as Hfree.
  { eapply table_inv_free; [done|lia]. }
  destruct (fill_round_slot backends n table _ b ltac:(done) (ti_length _ _ _ Hinv) Hn eq_refl
              Hlook Hfree) as (k & Hk & Hf & Ht & Hround).
  assert (0 < Z.of_nat (length backends)) as HL by (destruct backends; [done|simpl; lia]).
  pose proof (Z.mod_pos_bound n _ HL) as Hmod.
  destruct (Hb _ _ Hlook) as (Hwf & Hidx & _).
  cbn [fill ref_fill]. rewrite Hround.
  rewrite (ref_round_slot table backends walked n _ b k Hpos (ti_length _ _ _ Hinv) Hwf eq_refl
             Hlook Hk Hf Ht). cbn.
  rewrite Hidx, Z2Nat.id by lia. apply IH; try done; [lia|lia| |].
  - apply table_inv_step; try done. by apply slot_range.
  - by apply positions_ok_step; [..|lia| | |].
Qed.

(** *** The backends of a cluster *)
Lemma mkBackends_length seed i eps : length (mkBackends seed m i eps) = length eps.
Proof.
  revert i; induction eps as [|e eps IH]; intros i; [done|].
  cbn [mkBackends]. destruct (getOffsetAndSkip _ _ _). simpl. by rewrite IH.
Qed.

Lemma getOffsetAndSkip_wf seed a :
  0 <= (getOffsetAndSkip seed a m).1 < m /\ 1 <= (getOffsetAndSkip seed a m).2 < m.
Proof.
  pose proof m_pos. unfold getOffsetAndSkip.
  destruct (Hash128 (bytes_of_string a) seed) as [h1 h2] eqn:E. simpl.
  split; [apply Z.mod_pos_bound; lia|].
  destruct (decide (m = 2)) as [->|]; [rewrite Z.mod_1_r; lia|].
  pose proof (Z.mod_pos_bound h2 (m - 1)). lia.
Qed.

Lemma mkBackends_lookup seed eps : forall i j b,
  mkBackends seed m i eps !! j = Some b ->
  backend_wf m b /\ index b = i + Z.of_nat j /\ next b = 0.
Proof.
  induction eps as [|e eps IH]; intros i j b; [done|].
  cbn [mkBackends].
  destruct (getOffsetAndSkip seed (address_String e) m) as [o sk] eqn:E.
  pose proof (getOffsetAndSkip_wf seed (address_String e)) as Hwf. rewrite E in Hwf.
  destruct j as [|j]; simpl.
  - intros [= <-]. split_and!; [done|simpl; lia|done].
  - intros Hl. destruct (IH _ _ _ Hl) as (? & -> & ?). split_and!; [done|lia|done].
Qed.

Lemma mkBackends_ok seed eps :
  eps <> [] -> backends_ok (mkBackends seed m 0 eps).
Proof.
  intros Hne. split.
  - intros H. apply Hne, length_zero_iff_nil.
    by rewrite <-(mkBackends_length seed 0), H.
  - intros j b Hl. by apply mkBackends_lookup in Hl.
Qed.
End table.
End maglev.

(** *** The configured table size *)
Definition no_divisor (p b : Z) : bool :=
  forallb (fun n => negb (p mod n =? 0)) (seqZ 2 (b - 1)).

Lemma no_divisor_spec p b n :
  no_divisor p b = true -> 2 <= n <= b -> ~ (n | p).
Proof.
  unfold no_divisor. rewrite forallb_forall. intros H Hn Hdiv.
  specialize (H n). rewrite <-list_elem_of_In, elem_of_seqZ in H.
  apply Z.mod_divide in Hdiv; [|lia]. rewrite Hdiv in H. simpl in H.
  discriminate H. lia.
Qed.

(** Trial division up to the square root. *)
Lemma no_divisor_prime p b :
  1 < p -> 0 <= b -> p < (b + 1) * (b + 1) -> no_divisor p b = true -> Z.prime p.
Proof.
  intros Hp Hb0 Hb H. split; [done|]. intros n Hn [k Hk].
  assert (1 < k < p) by nia.
  destruct (decide (n <= b)) as [Hle|Hgt].
  - apply (no_divisor_spec p b n); [done|lia|]. by exists k.
  - apply (no_divisor_spec p b k); [done| |exists n; lia].
    assert (k * (b + 1) <= k * n) by (apply Z.mul_le_mono_nonneg_l; lia). nia.
Qed.

Lemma DefaultTableSize_prime : Z.prime DefaultTableSize.
Proof. apply (no_divisor_prime _ 127); [done|done|done|vm_compute; reflexivity]. Qed.

Lemma positions_ok_init {Endpoint : Type} m table (backends : list (@Backend Endpoint)) :
  1 < m -> backends_ok m backends -> positions_ok m table backends backends.
Proof.
  intros Hm [_ Hb]. split; [done|]. intros j b Hl. exists 0.
  destruct (Hb _ _ Hl) as (_ & _ & Hn). split_and!; try lia.
  rewrite <-Hn. by destruct b.
Qed.

Lemma getLookupTable_unfold {Endpoint : Type} (address_String : Endpoint -> string) st cluster :
  concat (localityLbEndpoints cluster) <> [] ->
  getLookupTable address_String st cluster (maglevTableSize st) =
    (table ← fill (Z.to_nat (maglevTableSize st)) (maglevTableSize st)
       (mkBackends address_String (seedMurmur st) (maglevTableSize st) 0
          (concat (localityLbEndpoints cluster))) 0
       (replicate (Z.to_nat (maglevTableSize st)) (-1));
     Done (inl table)).
Proof.
  intros Hne. unfold getLookupTable.
  rewrite decide_False by (intros E; by rewrite E in Hne).
  rewrite decide_False; [done|]. intros E. apply Hne, length_zero_iff_nil.
  by rewrite <-(mkBackends_length address_String (maglevTableSize st) (seedMurmur st) 0), E.
Qed.

Lemma getLookupTable_balanced_aux {Endpoint : Type} (address_String : Endpoint -> string)
    (st : MaglevState) (cluster : Cluster) :
  Z.prime (maglevTableSize st) -> maglevTableSize st < 2 ^ 32 ->
  concat (localityLbEndpoints cluster) <> [] ->
  let L := Z.of_nat (length (concat (localityLbEndpoints cluster))) in
  exists table,
    getLookupTable address_String st cluster (maglevTableSize st) = Done (inl table) /\
    Z.of_nat (length table) = maglevTableSize st /\
    (forall v, v ∈ table -> 0 <= v < L) /\
    (forall j, 0 <= j < L ->
       maglevTableSize st / L <= Z.of_nat (occ (fun v => v = j) table)
         <= maglevTableSize st / L + 1).
Proof.
  intros Hp Hm Hne L. pose proof (m_pos _ Hp) as Hpos.
  set (m := maglevTableSize st) in *.
  set (bs := mkBackends address_String (seedMurmur st) m 0 (concat (localityLbEndpoints cluster))).
  assert (Z.of_nat (length bs) = L) as HL by (unfold bs; by rewrite mkBackends_length).
  assert (0 < L) by (unfold L; destruct (concat _); [done|simpl; lia]).
  destruct (fill_inv m Hp Hm bs (Z.to_nat m) 0 (replicate (Z.to_nat m) (-1)))
    as (table & Hfill & Hinv); [by apply mkBackends_ok|lia|lia|..].
  { rewrite HL. by apply table_inv_init. }
  rewrite HL, Z.add_0_l, Z2Nat.id in Hinv by lia.
  exists table. split.
  { unfold m. rewrite getLookupTable_unfold by done. fold m bs. by rewrite Hfill. }
  split; [by destruct Hinv|]. split.
  - intros v Hv. destruct (ti_range _ _ _ _ Hinv v Hv) as [->|]; [exfalso|done].
    apply list_elem_of_lookup in Hv as (i & Hi).
    pose proof (occ_insert (fun v => 0 <= v) table i (-1) 0 Hi) as Ho.
    rewrite decide_False, decide_True in Ho by lia.
    pose proof (occ_le_length (fun v => 0 <= v) (<[i := 0]> table)) as Hle.
    rewrite length_insert in Hle.
    pose proof (ti_length _ _ _ _ Hinv). pose proof (ti_filled _ _ _ _ Hinv). lia.
  - intros j Hj. rewrite (ti_share _ _ _ _ Hinv) by done. apply rounds_of_bounds; lia.
Qed.

(** with a prime table size below 2^32, the lookup table of a cluster that
    has endpoints is computed (the unbounded search loops stop), has the
    configured size, holds only indices of the cluster's endpoints, and gives
    every endpoint the same number of slots up to one. *)
Theorem getLookupTable_balanced {Endpoint : Type} (address_String : Endpoint -> string)
    (st : MaglevState) (cluster : Cluster) :
  Z.prime (maglevTableSize st) -> maglevTableSize st < 2 ^ 32 ->
  concat (localityLbEndpoints cluster) <> [] ->
  let L := Z.of_nat (length (concat (localityLbEndpoints cluster))) in
  exists table,
    getLookupTable address_String st cluster (maglevTableSize st) = Done (inl table) /\
    Z.of_nat (length table) = maglevTableSize st /\
    (forall v, v ∈ table -> 0 <= v < L) /\
    (forall j, 0 <= j < L ->
       maglevTableSize st / L <= Z.of_nat (occ (fun v => v = j) table)
         <= maglevTableSize st / L + 1).
Proof. apply getLookupTable_balanced_aux. Qed.

Lemma prime_7 : Z.prime 7.
Proof. apply (no_divisor_prime _ 2); [done|done|done|vm_compute; reflexivity]. Qed.

Lemma getLookupTable_balanced_witness :
  exists table,
    getLookupTable (fun s : string => s)
      {| outer := None; seedMurmur := 0x24b7ef82; maglevTableSize := 7 |}
      {| cluster_name := "c"; localityLbEndpoints := [["10.0.0.1"]; ["10.0.0.2"; "10.0.0.3"]] |}
      7 = Done (inl table) /\ Z.of_nat (length table) = 7.
Proof.
  destruct (getLookupTable_balanced (fun s : string => s)
    {| outer := None; seedMurmur := 0x24b7ef82; maglevTableSize := 7 |}
    {| cluster_name := "c"; localityLbEndpoints := [["10.0.0.1"]; ["10.0.0.2"; "10.0.0.3"]] |})
    as (table & Ht & Hlen & _).
  - exact prime_7.
  - simpl. lia.
  - discriminate.
  - exists table. split; [exact Ht|exact Hlen].
Defined.

(** C10: the table the code computes is the table of the textbook algorithm,
    which carries each backend's position from round to round: discarding the
    increments of [next] changes the work, not the result. *)
Theorem getLookupTable_reference {Endpoint : Type} (address_String : Endpoint -> string)
    (st : MaglevState) (cluster : Cluster) :
  Z.prime (maglevTableSize st) -> maglevTableSize st < 2 ^ 32 ->
  concat (localityLbEndpoints cluster) <> [] ->
  getLookupTable address_String st cluster (maglevTableSize st) =
  inl <$> ref_fill (maglevTableSize st) (Z.to_nat (maglevTableSize st))
            (mkBackends address_String (seedMurmur st) (maglevTableSize st) 0
               (concat (localityLbEndpoints cluster))) 0
            (replicate (Z.to_nat (maglevTableSize st)) (-1)).
Proof.
  intros Hp Hm Hne. pose proof (m_pos _ Hp) as Hpos.
  rewrite getLookupTable_unfold by done.
  set (m := maglevTableSize st) in *.
  set (bs := mkBackends address_String (seedMurmur st) m 0 (concat (localityLbEndpoints cluster))).
  assert (backends_ok m bs) as Hok by (by apply mkBackends_ok).
  rewrite (fill_ref m Hp Hm bs (Z.to_nat m) 0 (replicate (Z.to_nat m) (-1)) bs);
    try done; try lia.
  - apply table_inv_init; [done|]. destruct Hok as [Hnil _]. destruct bs; [done|simpl; lia].
  - by apply positions_ok_init.
Qed.

Lemma getLookupTable_reference_witness :
  getLookupTable (fun s : string => s)
    {| outer := None; seedMurmur := 0x24b7ef82; maglevTableSize := 7 |}
    {| cluster_name := "c"; localityLbEndpoints := [["10.0.0.1"]; ["10.0.0.2"; "10.0.0.3"]] |} 7
  = Done (inl [0; 2; 1; 0; 0; 1; 2]).
Proof.
  etransitivity.
  - apply (getLookupTable_reference (fun s : string => s)
      {| outer := None; seedMurmur := 0x24b7ef82; maglevTableSize := 7 |}
      {| cluster_name := "c"; localityLbEndpoints := [["10.0.0.1"]; ["10.0.0.2"; "10.0.0.3"]] |}).
    + exact prime_7.
    + simpl. lia.
    + discriminate.
  - vm_compute. reflexivity.
Defined.

(** once [InitMaglevMap] has succeeded, [CreateLB] on a cluster with
    endpoints, when the kernel accepts the updates, returns without error and
    leaves in the outer map, under the zero-padded cluster name, a table of
    16381 endpoint indices that gives every endpoint its even share. *)
Theorem CreateLB_installs {Endpoint : Type} (address_String : Endpoint -> string)
    (m0 : gmap bytes (list Z)) (st0 st : MaglevState) (cluster : Cluster) :
  InitMaglevMap (inl m0) st0 = (st, None) ->
  concat (localityLbEndpoints cluster) <> [] ->
  Z.of_nat (length (concat (localityLbEndpoints cluster))) < 2 ^ 32 ->
  let L := Z.of_nat (length (concat (localityLbEndpoints cluster))) in
  exists table,
    CreateLB address_String {| new_map := None; inner_update := None; outer_update := None |}
      (Some cluster) st =
    Done ({| outer := Some (<[copy_bytes (replicate ClusterNameMaxLen 0)
                                (take ClusterNameMaxLen (bytes_of_string (cluster_name cluster)))
                              := table]> m0);
             seedMurmur := seedMurmur st; maglevTableSize := maglevTableSize st |}, None) /\
    Z.of_nat (length table) = 16381 /\
    (forall j, 0 <= j < L ->
       16381 / L <= Z.of_nat (occ (fun v => v = j) table) <= 16381 / L + 1).
Proof.
  intros Hinit Hne HL L.
  assert (st = {| outer := Some m0; seedMurmur := 0x24b7ef82; maglevTableSize := 16381 |}) as ->.
  { unfold InitMaglevMap in Hinit. vm_compute in Hinit. by simplify_eq. }
  destruct (getLookupTable_balanced_aux address_String
    {| outer := Some m0; seedMurmur := 0x24b7ef82; maglevTableSize := 16381 |} cluster
    DefaultTableSize_prime ltac:(done) Hne) as (table & Ht & Hlen & Hran & Hshare).
  assert (u32 <$> table = table) as Hu.
  { rewrite <-(list_fmap_id table) at 2. apply list_fmap_ext. intros i v Hv.
    apply u32_small. apply list_elem_of_lookup_2 in Hv. apply Hran in Hv.
    unfold is_u32, id. lia. }
  exists table. split; [|done].
  unfold CreateLB. cbn [maglevTableSize] in *. rewrite Ht. cbn -[ClusterNameMaxLen].
  by rewrite Hu.
Qed.

Lemma CreateLB_installs_witness :
  exists st, InitMaglevMap (inl ∅) {| outer := None; seedMurmur := 0; maglevTableSize := 0 |}
             = (st, None) /\
  exists st', CreateLB (fun s : string => s)
    {| new_map := None; inner_update := None; outer_update := None |}
    (Some {| cluster_name := "reviews"; localityLbEndpoints := [["a"; "b"]; ["c"]] |}) st
    = Done (st', None).
Proof.
  exists {| outer := Some ∅; seedMurmur := 0x24b7ef82; maglevTableSize := 16381 |}.
  assert (InitMaglevMap (inl ∅) {| outer := None; seedMurmur := 0; maglevTableSize := 0 |} =
    ({| outer := Some ∅; seedMurmur := 0x24b7ef82; maglevTableSize := 16381 |}, None)) as Hinit
    by (vm_compute; reflexivity).
  split; [exact Hinit|].
  destruct (CreateLB_installs (fun s : string => s) ∅ _ _
    {| cluster_name := "reviews"; localityLbEndpoints := [["a"; "b"]; ["c"]] |} Hinit)
    as (table & Hc & _).
  - discriminate.
  - simpl. lia.
  - eexists. exact Hc.
Defined.
