(* ===== verification/HashName.v ===== *)
(** * Names to 32-bit identifiers: [pkg/utils/hash_name.go]

    The table that turns workload, service and policy names into the [uint32]
    keys of the BPF maps: FNV-1a with linear probing, mirrored in a YAML file
    that survives a restart.  The two maps of the table are inverse to each
    other along every operation; the probing loop stops; and the top of the
    range, where the probing does not wrap, is characterised. *)
From S2P Require Import Prelude.

(** ** [hash/fnv.New32a] *)
Definition fnv_offset32 : Z := 2166136261.
Definition fnv_prime32 : Z := 16777619.
Definition fnv32a (data : bytes) : Z :=
  foldl (fun h b => u32 (Z.lxor h b * fnv_prime32)) fnv_offset32 data.

(** ** The file

    The YAML codec and whether a write of the file succeeds are outside the
    repository.  [yaml_Unmarshal] returns what it has put in the map and the
    error. *)
Class Persist : Type := {
  yaml_Marshal : gmap string Z -> string + error;
  yaml_Unmarshal : string -> gmap string Z * option error;
  write_err : option string -> string -> option error
}.

Section hash_name.
Context `{Persist}.

Record HashName : Type := mkHashName {
  numToStr : gmap Z string;
  strToNum : gmap string Z;
  file : option string       (* the contents of persistPath *)
}.

(** [order] is the order in which [range] visits the map. *)
Definition NewHashName (order : list (string * Z) -> list (string * Z)) (disk : option string)
    : HashName :=
  let empty := {| numToStr := ∅; strToNum := ∅; file := disk |} in
  match disk with
  | None => empty
  | Some data =>
      match yaml_Unmarshal data with
      | (m, Some err) => {| numToStr := ∅; strToNum := m; file := disk |}
      | (m, None) =>
          {| numToStr := foldl (fun (acc : gmap Z string) '(str, num) => <[num := str]> acc) ∅
                           (order (map_to_list m));
             strToNum := m; file := disk |}
      end
  end.

(** [os.WriteFile]: the file is truncated and written, or left as it was. *)
Definition flush (h : HashName) : HashName * option error :=
  let write data :=
    match write_err (file h) data with
    | Some err => (h, Some err)
    | None => ({| numToStr := numToStr h; strToNum := strToNum h; file := Some data |}, None)
    end in
  if decide (size (strToNum h) = 0%nat) then write ""
  else match yaml_Marshal (strToNum h) with
       | inr err => (h, Some err)
       | inl yaml => write yaml
       end.

Definition flushDelta (str : string) (num : Z) (h : HashName) : HashName * option error :=
  let data := str +:+ ": " +:+ pretty num +:+ String (Ascii.ascii_of_nat 10) EmptyString in
  match write_err (file h) data with
  | Some err => (h, Some err)
  | None =>
      ({| numToStr := numToStr h; strToNum := strToNum h;
          file := Some (default "" (file h) +:+ data) |}, None)
  end.

(** The [for] loop of [Hash]: the number it stops at and whether the body found
    an empty slot there. *)
Fixpoint probe (fuel : nat) (numToStr : gmap Z string) (num : Z) : outcome (Z * bool) :=
  if decide (num < MaxUint32) then
    match numToStr !! num with
    | None => Done (num, true)
    | Some _ =>
        match fuel with
        | O => NoFuel
        | S fuel =>
            let num := if decide (num = MaxUint32) then 0 else num in
            probe fuel numToStr (u32 (num + 1))
        end
    end
  else Done (num, false).

(** The fuel is the number of slots in use: probing cannot pass more. *)
Definition Hash (str : string) (h : HashName) : outcome (Z * HashName) :=
  match strToNum h !! str with
  | Some num => Done (num, h)
  | None =>
      r ← probe (size (numToStr h)) (numToStr h) (fnv32a (bytes_of_string str));
      let '(num, found) := r in
      if found : bool then
        let h := {| numToStr := <[num := str]> (numToStr h);
                    strToNum := <[str := num]> (strToNum h); file := file h |} in
        Done (num, (flushDelta str num h).1)
      else Done (num, h)
  end.

Definition NumToStr (num : Z) (h : HashName) : string := default "" (numToStr h !! num).
Definition StrToNum (str : string) (h : HashName) : Z := default 0 (strToNum h !! str).
Definition GetStrToNum (h : HashName) : gmap string Z := strToNum h.

Definition Delete (str : string) (h : HashName) : HashName :=
  match strToNum h !! str with
  | None => h
  | Some num =>
      let h := {| numToStr := delete num (numToStr h);
                  strToNum := delete str (strToNum h); file := file h |} in
      (flush h).1
  end.

(** ** The invariant: the two maps are inverse, and 2^32 - 1 is never used *)
Record hash_wf (h : HashName) : Prop := {
  hw_inv : forall s n, strToNum h !! s = Some n <-> numToStr h !! n = Some s;
  hw_range : forall n s, numToStr h !! n = Some s -> 0 <= n < MaxUint32
}.

Lemma fnv32a_is data : is_u32 (fnv32a data).
Proof.
  unfold fnv32a. assert (is_u32 fnv_offset32) as Hd by (unfold is_u32, fnv_offset32; lia).
  revert Hd. generalize fnv_offset32. induction data as [|b data IH]; intros x Hx; [done|].
  cbn [foldl]. apply IH, u32_is.
Qed.

Lemma flush_maps h :
  numToStr (flush h).1 = numToStr h /\ strToNum (flush h).1 = strToNum h.
Proof. unfold flush. repeat case_match; simplify_eq/=; done. Qed.

Lemma flushDelta_maps str num h :
  numToStr (flushDelta str num h).1 = numToStr h /\
  strToNum (flushDelta str num h).1 = strToNum h.
Proof. unfold flushDelta. repeat case_match; simplify_eq/=; done. Qed.

(** The loop visits consecutive used slots until a free one or the top. *)
Lemma probe_spec fuel (m : gmap Z string) : forall num,
  0 <= num <= MaxUint32 ->
  (size (filter (fun '(k, _) => (num <= k)%Z) m) <= fuel)%nat ->
  exists num' found, probe fuel m num = Done (num', found) /\ num <= num' <= MaxUint32 /\
    (forall k, num <= k < num' -> is_Some (m !! k)) /\
    if found : bool then num' < MaxUint32 /\ m !! num' = None else num' = MaxUint32.
Proof.
  induction fuel as [|fuel IH]; intros num Hn Hsize; cbn [probe].
  all: destruct (decide (num < MaxUint32)) as [Hlt|Hge];
    [|exists num, false; split_and!; [done|lia|lia|lia|lia]].
  all: destruct (m !! num) as [s|] eqn:E;
    [|exists num, true; split_and!; [done|lia|lia|lia|lia|done]].
  all: assert (filter (fun '(k, _) => (num <= k)%Z) m !! num = Some s) as Hf
    by (by apply map_lookup_filter_Some).
  - exfalso. apply Nat.le_0_r, map_size_empty_inv in Hsize. by rewrite Hsize in Hf.
  - rewrite decide_False by lia.
    rewrite u32_small by (unfold is_u32, MaxUint32 in *; lia).
    destruct (IH (num + 1)) as (num' & found & -> & Hr & Hk & Hfound); [lia| |].
    + assert (filter (fun '(k, _) => (num + 1 <= k)%Z) m =
              delete num (filter (fun '(k, _) => (num <= k)%Z) m)) as ->.
      { apply map_eq. intros k. apply option_eq. intros v.
        rewrite lookup_delete_Some, !map_lookup_filter_Some. split; intros; naive_solver lia. }
      rewrite map_size_delete, Hf. lia.
    + exists num', found. split; [done|]. split; [lia|]. split; [|done].
      intros k Hkr. destruct (decide (k = num)) as [->|]; [by rewrite E|]. apply Hk. lia.
Qed.

Lemma probe_fuel m num : (size (filter (fun '(k, _) => (num <= k)%Z) m) <= size (m : gmap Z string))%nat.
Proof. apply map_subseteq_size, map_filter_subseteq. Qed.

(** The whole behaviour of [Hash] on a well-formed table. *)
Lemma Hash_spec str h :
  hash_wf h ->
  exists num h', Hash str h = Done (num, h') /\ hash_wf h' /\
    0 <= num <= MaxUint32 /\
    (num < MaxUint32 -> strToNum h' !! str = Some num) /\
    (num = MaxUint32 -> h' = h /\ strToNum h !! str = None) /\
    (forall s n, s <> str -> strToNum h' !! s = Some n <-> strToNum h !! s = Some n) /\
    (forall s n, strToNum h !! s = Some n -> strToNum h' !! s = Some n).
Proof.
  intros [Hinv Hran]. unfold Hash.
  destruct (strToNum h !! str) as [num|] eqn:E.
  { exists num, h. assert (0 <= num < MaxUint32) by (eapply Hran, Hinv, E).
    split_and!; done || lia. }
  pose proof (fnv32a_is (bytes_of_string str)) as Hu. unfold is_u32 in Hu.
  destruct (probe_spec (size (numToStr h)) (numToStr h) (fnv32a (bytes_of_string str)))
    as (num & found & -> & Hr & _ & Hf); [unfold MaxUint32; lia|apply probe_fuel|].
  cbn. destruct found.
  - destruct Hf as [Hlt Hnone].
    set (h1 := {| numToStr := _; strToNum := _; file := _ |}).
    destruct (flushDelta_maps str num h1) as [H1 H2].
    exists num, (flushDelta str num h1).1. split; [done|].
    split; [split|].
    + intros s n. rewrite H1, H2. cbn.
      rewrite !lookup_insert_Some, Hinv. split; intros; naive_solver congruence.
    + intros n s. rewrite H1. cbn. rewrite lookup_insert_Some.
      intros [[<- _]|[_ Hn]]; [lia|by eapply Hran].
    + rewrite H2. cbn. split_and!; try lia.
      * intros _. apply lookup_insert_eq.
      * intros s n Hne. by rewrite lookup_insert_ne by done.
      * intros s n Hs. rewrite lookup_insert_ne; [done|]. congruence.
  - exists num, h. split_and!; done || lia.
Qed.

Lemma Delete_wf str h : hash_wf h -> hash_wf (Delete str h).
Proof.
  intros [Hinv Hran]. unfold Delete. destruct (strToNum h !! str) as [num|] eqn:E; [|done].
  set (h1 := {| numToStr := _; strToNum := _; file := _ |}).
  destruct (flush_maps h1) as [H1 H2]. split.
  - intros s n. rewrite H1, H2. cbn. rewrite !lookup_delete_Some, Hinv.
    pose proof E as E'. apply Hinv in E'. split; intros [Hne Hn]; (split; [|done]).
    + intros ->. congruence.
    + intros ->. apply Hinv in Hn. congruence.
  - intros n s. rewrite H1. cbn. rewrite lookup_delete_Some. intros [_ Hn]. by eapply Hran.
Qed.

Lemma Delete_strToNum str h s :
  strToNum (Delete str h) !! s = if decide (s = str) then None else strToNum h !! s.
Proof.
  unfold Delete. destruct (strToNum h !! str) as [num|] eqn:E.
  - destruct (flush_maps {| numToStr := delete num (numToStr h);
      strToNum := delete str (strToNum h); file := file h |}) as [_ ->]. cbn.
    case_decide as Hs; subst; [apply lookup_delete_eq|by rewrite lookup_delete_ne].
  - by case_decide as Hs; subst.
Qed.

Lemma numToStr_fold (l : list (string * Z)) : forall (acc : gmap Z string) n s,
  NoDup (l.*2) ->
  foldl (fun (acc : gmap Z string) '(str, num) => <[num := str]> acc) acc l !! n = Some s <->
  (s, n) ∈ l \/ (acc !! n = Some s /\ n ∉ l.*2).
Proof.
  induction l as [|[s0 n0] l IH]; intros acc n s Hnd; cbn.
  { set_solver. }
  apply NoDup_cons in Hnd as [Hn0 Hnd]. rewrite IH by done.
  rewrite lookup_insert_Some, !elem_of_cons.
  split.
  - intros [?|[[[<- <-]|[? ?]] ?]]; naive_solver.
  - intros [[[= -> ->]|?]|[? ?]]; [right|by left|right]; naive_solver.
Qed.

(** Reading back a file that gives distinct identifiers below the top value
    yields a well-formed table. *)
Lemma NewHashName_wf order data m :
  (forall l, order l ≡ₚ l) ->
  yaml_Unmarshal data = (m, None) ->
  (forall s1 s2 n, m !! s1 = Some n -> m !! s2 = Some n -> s1 = s2) ->
  (forall s n, m !! s = Some n -> 0 <= n < MaxUint32) ->
  hash_wf (NewHashName order (Some data)) /\ strToNum (NewHashName order (Some data)) = m.
Proof.
  intros Hord Hy Hinj Hran. unfold NewHashName. rewrite Hy. split; [|done].
  assert (forall n s, foldl (fun (acc : gmap Z string) '(str, num) => <[num := str]> acc) ∅
            (order (map_to_list m)) !! n = Some s <-> m !! s = Some n) as Hf.
  { intros n s. rewrite numToStr_fold.
    - rewrite lookup_empty, Hord, elem_of_map_to_list. naive_solver.
    - rewrite Hord. apply NoDup_fmap_2_strong; [|apply NoDup_map_to_list].
      intros [s1 n1] [s2 n2] H1%elem_of_map_to_list H2%elem_of_map_to_list [= <-].
      f_equal. by eapply Hinj. }
  split; cbn.
  - intros s n. by rewrite Hf.
  - intros n s Hn. apply Hf in Hn. by eapply Hran.
Qed.
End hash_name.
Arguments HashName : clear implicits.

(** ** Sequences of operations *)
Inductive hash_op : Type :=
  | OpHash (str : string)
  | OpDelete (str : string).

Definition run_op `{Persist} (o : hash_op) (h : HashName) : outcome HashName :=
  match o with
  | OpHash str => snd <$> Hash str h
  | OpDelete str => Done (Delete str h)
  end.

Fixpoint run_ops `{Persist} (ops : list hash_op) (h : HashName) : outcome HashName :=
  match ops with
  | [] => Done h
  | o :: ops => h ← run_op o h; run_ops ops h
  end.

(** A disk that accepts every write, for concrete runs. *)
Definition PersistOk : Persist := {|
  yaml_Marshal := fun m => inl "names";
  yaml_Unmarshal := fun s => (∅, None);
  write_err := fun _ _ => None
|}.

(** C27: every sequence of [Hash] and [Delete] calls runs to completion (the
    probing loop always stops) and keeps the two maps of the table inverse to
    each other, whatever the disk does. *)
Theorem hash_table_invariant `{Persist} (ops : list hash_op) (h : HashName) :
  hash_wf h -> exists h', run_ops ops h = Done h' /\ hash_wf h'.
Proof.
  revert h; induction ops as [|o ops IH]; intros h Hwf; [by exists h|].
  cbn [run_ops]. destruct o as [str|str]; cbn [run_op].
  - destruct (Hash_spec str h Hwf) as (num & h' & -> & Hwf' & _). cbn. by apply IH.
  - cbn. apply IH. by apply Delete_wf.
Qed.

Lemma hash_wf_empty `{Persist} f : hash_wf {| numToStr := ∅; strToNum := ∅; file := f |}.
Proof. split; cbn; intros *; rewrite !lookup_empty; done. Qed.

Lemma hash_table_invariant_witness :
  exists h', @run_ops PersistOk [OpHash "default/reviews"; OpHash "default/ratings"; OpDelete "default/reviews"]
    (@NewHashName PersistOk id None) = Done h' /\ hash_wf h'.
Proof.
  apply (@hash_table_invariant PersistOk
    [OpHash "default/reviews"; OpHash "default/ratings"; OpDelete "default/reviews"]
    (@NewHashName PersistOk id None)).
  apply (@hash_wf_empty PersistOk).
Defined.

(** On a well-formed table, hashing a name twice gives the same number and
    leaves the table unchanged the second time; two different names below the
    top value get different numbers, and each number leads back to its name. *)
Theorem Hash_injective `{Persist} (s1 s2 : string) (h : HashName) :
  hash_wf h ->
  exists n1 n2 h1 h2,
    Hash s1 h = Done (n1, h1) /\ Hash s2 h1 = Done (n2, h2) /\
    (n1 < MaxUint32 -> Hash s1 h2 = Done (n1, h2) /\ NumToStr n1 h2 = s1) /\
    (n1 < MaxUint32 -> n2 < MaxUint32 -> s1 <> s2 -> n1 <> n2).
Proof.
  intros Hwf. destruct (Hash_spec s1 h Hwf) as (n1 & h1 & E1 & Hwf1 & _ & Hr1 & _).
  destruct (Hash_spec s2 h1 Hwf1) as (n2 & h2 & E2 & Hwf2 & _ & Hr2 & _ & _ & Hkeep).
  exists n1, n2, h1, h2. split; [done|]. split; [done|]. split.
  - intros Hlt. specialize (Hkeep _ _ (Hr1 Hlt)). split.
    + unfold Hash. by rewrite Hkeep.
    + unfold NumToStr. apply (hw_inv _ Hwf2) in Hkeep. by rewrite Hkeep.
  - intros Hlt1 Hlt2 Hne ->. apply Hr1, Hkeep, (hw_inv _ Hwf2) in Hlt1.
    apply Hr2, (hw_inv _ Hwf2) in Hlt2. congruence.
Qed.

Lemma Hash_injective_witness :
  exists n1 n2 h1 h2,
    @Hash PersistOk "default/reviews" (@NewHashName PersistOk id None) = Done (n1, h1) /\
    @Hash PersistOk "default/ratings" h1 = Done (n2, h2) /\ n1 <> n2.
Proof.
  destruct (@Hash_injective PersistOk "default/reviews" "default/ratings"
              (@NewHashName PersistOk id None) (@hash_wf_empty PersistOk None))
    as (n1 & n2 & h1 & h2 & E1 & E2 & _ & Hne).
  exists n1, n2, h1, h2. split; [exact E1|]. split; [exact E2|].
  vm_compute in E1. injection E1 as <- <-. vm_compute in E2. injection E2 as <- <-.
  discriminate.
Defined.

(** the probing does not wrap at the top of the range.  Two service names
    whose FNV-1a hash is 2^32 - 1 both get that number on any table that does
    not know them yet, neither is entered in the table, and the number does
    not lead back to a name: the ring step of the loop is never reached. *)
Theorem Hash_top_collision `{Persist} (h : HashName) :
  strToNum h !! "default/svc-26u7pwb" = None ->
  strToNum h !! "default/svc-lpt417c" = None ->
  Hash "default/svc-26u7pwb" h = Done (MaxUint32, h) /\
  Hash "default/svc-lpt417c" h = Done (MaxUint32, h).
Proof.
  intros H1 H2. unfold Hash. rewrite H1, H2.
  change (fnv32a (bytes_of_string "default/svc-26u7pwb")) with MaxUint32.
  change (fnv32a (bytes_of_string "default/svc-lpt417c")) with MaxUint32.
  by destruct (size (numToStr h)).
Qed.

Lemma Hash_top_collision_witness :
  @Hash PersistOk "default/svc-26u7pwb" (@NewHashName PersistOk id None)
  = Done (MaxUint32, @NewHashName PersistOk id None).
Proof.
  apply (@Hash_top_collision PersistOk (@NewHashName PersistOk id None)); vm_compute; reflexivity.
Defined.
