(* ===== verification/Api.v ===== *)
(** * The workload API: [api/workloadapi/workload.proto] and
    [api/v2/workloadapi/workload_helper.go]

    The messages the control plane sends and the program keeps by pointer.
    A protobuf enumeration is open, hence a [Z] with named values; a repeated
    field decoded from the wire is [nil] exactly when it is empty, hence a
    list; a nil sub-message is [None]. *)
From S2P Require Import Prelude.

(** ** Enumerations *)
Definition NetworkMode_STANDARD : Z := 0.
Definition NetworkMode_HOST_NETWORK : Z := 1.
Definition WorkloadStatus_HEALTHY : Z := 0.
Definition WorkloadStatus_UNHEALTHY : Z := 1.
Definition LoadBalancing_UNSPECIFIED_SCOPE : Z := 0.
Definition LoadBalancing_REGION : Z := 1.
Definition LoadBalancing_ZONE : Z := 2.
Definition LoadBalancing_SUBZONE : Z := 3.
Definition LoadBalancing_NODE : Z := 4.
Definition LoadBalancing_CLUSTER : Z := 5.
Definition LoadBalancing_NETWORK : Z := 6.
Definition LoadBalancing_UNSPECIFIED_MODE : Z := 0.
Definition LoadBalancing_STRICT : Z := 1.
Definition LoadBalancing_FAILOVER : Z := 2.

(** ** Messages *)
Record NetworkAddress : Type := mkNetworkAddress {
  na_network : string;
  na_address : bytes
}.

Record NamespacedHostname : Type := mkNamespacedHostname {
  nh_namespace : string;
  nh_hostname : string
}.

Inductive Destination : Type :=
  | GatewayAddress_Hostname (h : NamespacedHostname)
  | GatewayAddress_Address (a : NetworkAddress).

Record GatewayAddress : Type := mkGatewayAddress {
  ga_destination : option Destination;
  ga_hbone_mtls_port : Z
}.

Record Port : Type := mkPort { service_port : Z; target_port : Z }.

Record LoadBalancing : Type := mkLoadBalancing {
  routing_preference : list Z;
  lb_mode : Z
}.

Record Service : Type := mkService {
  svc_name : string;
  svc_namespace : string;
  svc_hostname : string;
  svc_addresses : list NetworkAddress;
  svc_ports : list Port;
  svc_waypoint : option GatewayAddress;
  svc_load_balancing : option LoadBalancing
}.

Record Locality : Type := mkLocality { region : string; zone : string; subzone : string }.

Record Workload : Type := mkWorkload {
  wl_uid : string;
  wl_name : string;
  wl_namespace : string;
  wl_addresses : list bytes;
  wl_network : string;
  wl_trust_domain : string;
  wl_service_account : string;
  wl_waypoint : option GatewayAddress;
  wl_node : string;
  wl_services : gmap string (list Port);
  wl_authorization_policies : list string;
  wl_status : Z;
  wl_cluster_id : string;
  wl_locality : option Locality;
  wl_network_mode : Z;
  wl_hostname : string;
  wl_canonical_name : string;
  wl_canonical_revision : string;
  wl_workload_name : string
}.

Definition Service_zero : Service := mkService "" "" "" [] [] None None.
Definition Workload_zero : Workload :=
  mkWorkload "" "" "" [] "" "" "" None "" ∅ [] 0 "" None 0 "" "" "" "".

#[export] Instance NetworkAddress_eq_dec : EqDecision NetworkAddress.
Proof. solve_decision. Defined.

(** ** Getters of nested messages *)
Definition GetHostname (g : GatewayAddress) : option NamespacedHostname :=
  match ga_destination g with
  | Some (GatewayAddress_Hostname h) => Some h
  | _ => None
  end.
Definition GetAddress (g : GatewayAddress) : option NetworkAddress :=
  match ga_destination g with
  | Some (GatewayAddress_Address a) => Some a
  | _ => None
  end.
Definition GetRegion (l : option Locality) : string := from_option region "" l.
Definition GetZone (l : option Locality) : string := from_option zone "" l.
Definition GetSubzone (l : option Locality) : string := from_option subzone "" l.
Definition GetRoutingPreference (l : option LoadBalancing) : list Z :=
  from_option routing_preference [] l.
Definition GetMode (l : option LoadBalancing) : Z := from_option lb_mode 0 l.

(** ** Resource names *)
Definition Workload_ResourceName (x : Workload) : string := wl_uid x.
Definition Service_ResourceName (x : Service) : string :=
  svc_namespace x +:+ "/" +:+ svc_hostname x.

Definition GetIpAddresses (x : option Service) : list bytes :=
  match x with
  | None => []
  | Some x => na_address <$> svc_addresses x
  end.

(** ** In-place changes *)
Definition set_svc_waypoint (g : option GatewayAddress) (x : Service) : Service :=
  {| svc_name := svc_name x; svc_namespace := svc_namespace x; svc_hostname := svc_hostname x;
     svc_addresses := svc_addresses x; svc_ports := svc_ports x; svc_waypoint := g;
     svc_load_balancing := svc_load_balancing x |}.

Definition set_wl_waypoint (g : option GatewayAddress) (x : Workload) : Workload :=
  {| wl_uid := wl_uid x; wl_name := wl_name x; wl_namespace := wl_namespace x;
     wl_addresses := wl_addresses x; wl_network := wl_network x;
     wl_trust_domain := wl_trust_domain x; wl_service_account := wl_service_account x;
     wl_waypoint := g; wl_node := wl_node x; wl_services := wl_services x;
     wl_authorization_policies := wl_authorization_policies x; wl_status := wl_status x;
     wl_cluster_id := wl_cluster_id x; wl_locality := wl_locality x;
     wl_network_mode := wl_network_mode x; wl_hostname := wl_hostname x;
     wl_canonical_name := wl_canonical_name x; wl_canonical_revision := wl_canonical_revision x;
     wl_workload_name := wl_workload_name x |}.

Definition set_destination (d : Destination) (g : GatewayAddress) : GatewayAddress :=
  {| ga_destination := Some d; ga_hbone_mtls_port := ga_hbone_mtls_port g |}.
