(* ===== verification/Runtime.v ===== *)
(** * Running Go code: the shared heap, the environment and the monad

    Stateful code is a function from the world and the component's own state
    to an outcome.  The world holds the protobuf objects that several caches
    point to, and a clock that counts the events whose result the program
    does not determine: the answer of a BPF system call and the order in
    which a [range] visits a map.  The environment says what those answers
    are; theorems hold for every environment. *)
From S2P Require Import Prelude Api.

(** ** World *)
Abbreviation ptr := positive.

Record World : Type := mkWorld {
  clock : nat;
  svcs : gmap ptr Service;
  wls : gmap ptr Workload
}.

Definition tick (w : World) : World :=
  {| clock := S (clock w); svcs := svcs w; wls := wls w |}.
Definition set_svcs (f : gmap ptr Service -> gmap ptr Service) (w : World) : World :=
  {| clock := clock w; svcs := f (svcs w); wls := wls w |}.
Definition set_wls (f : gmap ptr Workload -> gmap ptr Workload) (w : World) : World :=
  {| clock := clock w; svcs := svcs w; wls := f (wls w) |}.

(** What a pointer points to; one that no message was allocated for reads as
    the zero message. *)
Definition get_svc (p : ptr) (w : World) : Service := default Service_zero (svcs w !! p).
Definition get_wl (p : ptr) (w : World) : Workload := default Workload_zero (wls w !! p).

(** The worlds that differ only in the clock. *)
Definition same_heap (w w' : World) : Prop := svcs w' = svcs w /\ wls w' = wls w.

(** ** Environment

    [upd_err n sz] is the error of the [n]-th event if it is the update of a
    BPF map that would then hold [sz] entries, [del_err n] the error if it is
    a deletion that fails for a reason other than a missing key; a failed call
    changes nothing, and a lookup fails only on a missing key.  No map of the
    program takes more than [max_entries] entries (the largest value of
    [bpf/kmesh/workload/include/config.h]).  [range_order n] is the order of
    the [n]-th event if it is a [range] over a map. *)
Definition max_entries : Z := 105000.
Lemma max_entries_u32 : max_entries < 2 ^ 32 - 1.
Proof. unfold max_entries. lia. Qed.

Class Env : Type := {
  upd_err : nat -> nat -> option error;
  upd_capacity : forall n sz, upd_err n sz = None -> Z.of_nat sz <= max_entries;
  del_err : nat -> option error;
  del_err_other : forall n, del_err n <> Some ErrKeyNotExist;
  range_order : nat -> forall A : Type, list A -> list A;
  range_order_perm : forall n A (l : list A), range_order n A l ≡ₚ l
}.

(** Environments in which no deletion fails. *)
Class DeletesSucceed (E : Env) : Prop := deletes_succeed : forall n, del_err n = None.

(** Environments in which, besides, an update fails only on a full map. *)
Class Reliable (E : Env) : Prop := {
  reliable_deletes :: DeletesSucceed E;
  updates_succeed : forall n sz, Z.of_nat sz <= max_entries -> upd_err n sz = None
}.

(** The environment of concrete runs; [7] is [E2BIG]. *)
Definition upd_err_full (sz : nat) : option error :=
  if decide (Z.of_nat sz <= max_entries) then None else Some (ErrSys 7).
Lemma upd_err_full_capacity sz : upd_err_full sz = None -> Z.of_nat sz <= max_entries.
Proof. unfold upd_err_full. by case_decide. Qed.

Definition EnvOk : Env := {|
  upd_err := fun _ sz => upd_err_full sz;
  upd_capacity := fun _ sz => upd_err_full_capacity sz;
  del_err := fun _ => None;
  del_err_other := fun _ H => match H with end;
  range_order := fun _ A l => l;
  range_order_perm := fun _ A l => reflexivity l
|}.
#[export] Instance EnvOk_reliable : Reliable EnvOk.
Proof. split; [done|]. intros n sz H. cbn. unfold upd_err_full. by rewrite decide_True. Qed.

(** ** The monad *)
Definition Go (S A : Type) : Type := World -> S -> outcome (A * World * S).

#[export] Instance go_ret {S} : MRet (Go S) := fun A a w s => Done (a, w, s).
#[export] Instance go_bind {S} : MBind (Go S) := fun A B f m w s =>
  match m w s with
  | Done (a, w, s) => f a w s
  | Panic why => Panic why
  | NoFuel => NoFuel
  end.

Section ops.
Context {S : Type}.

Definition gets {A} (f : S -> A) : Go S A := fun w s => Done (f s, w, s).
Definition modify (f : S -> S) : Go S unit := fun w s => Done (tt, w, f s).
Definition world {A} (f : World -> A) : Go S A := fun w s => Done (f w, w, s).
Definition modify_world (f : World -> World) : Go S unit := fun w s => Done (tt, f w, s).
Definition panic {A} (why : string) : Go S A := fun _ _ => Panic why.
Definition lift_outcome {A} (o : outcome (A * S)) : Go S A := fun w _ =>
  match o with
  | Done (a, s) => Done (a, w, s)
  | Panic why => Panic why
  | NoFuel => NoFuel
  end.

(** Reading and writing through a pointer, and allocating a message. *)
Definition load_svc (p : ptr) : Go S Service := world (get_svc p).
Definition load_wl (p : ptr) : Go S Workload := world (get_wl p).
Definition store_svc (p : ptr) (x : Service) : Go S unit := modify_world (set_svcs (<[p := x]>)).
Definition store_wl (p : ptr) (x : Workload) : Go S unit := modify_world (set_wls (<[p := x]>)).
Definition new_svc (x : Service) : Go S ptr :=
  p ← world (fun w => fresh (dom (svcs w))); store_svc p x;; mret p.
Definition new_wl (x : Workload) : Go S ptr :=
  p ← world (fun w => fresh (dom (wls w))); store_wl p x;; mret p.

(** The order of a [range] over a map. *)
Definition range `{Env} {A} (l : list A) : Go S (list A) := fun w s =>
  Done (range_order (clock w) A l, tick w, s).
End ops.

(** ** Loops

    The body of a [for] loop continues, breaks or returns from the function. *)
Inductive ctl (R : Type) : Type :=
  | Continue
  | Break
  | Return (r : R).
Arguments Continue {R}.
Arguments Break {R}.
Arguments Return {R} r.

Fixpoint for_each {S A R} (l : list A) (body : A -> Go S (ctl R)) : Go S (option R) :=
  match l with
  | [] => mret None
  | a :: l =>
      c ← body a;
      match c with
      | Continue => for_each l body
      | Break => mret None
      | Return r => mret (Some r)
      end
  end.

(** A loop that carries a local variable and always runs to the end. *)
Fixpoint fold_each {S A B} (l : list A) (acc : B) (body : B -> A -> Go S B) : Go S B :=
  match l with
  | [] => mret acc
  | a :: l => acc ← body acc a; fold_each l acc body
  end.

(** ... or stops when the body says so. *)
Fixpoint fold_until {S A B} (l : list A) (acc : B) (body : B -> A -> Go S (B * bool)) : Go S B :=
  match l with
  | [] => mret acc
  | a :: l =>
      r ← body acc a;
      let '(acc, stop) := r in
      if stop : bool then mret acc else fold_until l acc body
  end.

(** [for i = 1; i <= n; i++] over [uint32]: it does not end when [n] is the
    largest value. *)
Definition for_upto {S} (n : Z) (body : Z -> Go S unit) : Go S unit :=
  if decide (n = MaxUint32) then fun _ _ => NoFuel
  else fold_each (seqZ 1 n) tt (fun _ i => body i).

(** Reading an array at an index. *)
Definition array_get {S A} (l : list A) (i : Z) : Go S A :=
  match (if decide (0 <= i) then l !! Z.to_nat i else None) with
  | Some x => mret x
  | None => panic "index out of range"
  end.

(** ** Components inside a larger state *)
Record lens (S T : Type) : Type := mkLens { lget : S -> T; lset : T -> S -> S }.
Arguments mkLens {S T} lget lset.
Arguments lget {S T} l s.
Arguments lset {S T} l t s.

Definition zoom {S T A} (l : lens S T) (m : Go T A) : Go S A := fun w s =>
  match m w (lget l s) with
  | Done (a, w, t) => Done (a, w, lset l t s)
  | Panic why => Panic why
  | NoFuel => NoFuel
  end.

(** ** BPF maps ([cilium/ebpf]) *)
Section bpf.
Context `{Env} {K V : Type} `{Countable K}.

Definition map_Update (k : K) (v : V) : Go (gmap K V) (option error) := fun w m =>
  match upd_err (clock w) (size (<[k := v]> m)) with
  | Some e => Done (Some e, tick w, m)
  | None => Done (None, tick w, <[k := v]> m)
  end.

Definition map_Delete (k : K) : Go (gmap K V) (option error) := fun w m =>
  match del_err (clock w) with
  | Some e => Done (Some e, tick w, m)
  | None =>
      match m !! k with
      | None => Done (Some ErrKeyNotExist, tick w, m)
      | Some _ => Done (None, tick w, delete k m)
      end
  end.

Definition map_Lookup (k : K) : Go (gmap K V) (V + error) := fun w m =>
  match m !! k with
  | None => Done (inr ErrKeyNotExist, w, m)
  | Some v => Done (inl v, w, m)
  end.

(** [Iterate]: the entries in the order the kernel gives them. *)
Definition map_Iterate : Go (gmap K V) (list (K * V)) :=
  m ← gets id; range (map_to_list m).
End bpf.

(** ** Weakest preconditions

    [wp p m Q w s]: started in [w] and [s], [m] finishes with a value, a world
    and a state that satisfy [Q].  It never runs out of fuel; it may panic only
    when [p] is true, so [wp false] is total correctness and [wp true] leaves
    out the runs that crash the daemon. *)
Definition wp {S A} (p : bool) (m : Go S A) (Q : A -> World -> S -> Prop)
    (w : World) (s : S) : Prop :=
  match m w s with
  | Done (a, w, s) => Q a w s
  | Panic _ => p = true
  | NoFuel => False
  end.

Section wp_rules.
Context {S : Type} (p : bool).
Implicit Types (w : World) (s : S).

Lemma wp_done {A} (m : Go S A) Q w s a w' s' :
  m w s = Done (a, w', s') -> Q a w' s' -> wp p m Q w s.
Proof. intros E H. unfold wp. by rewrite E. Qed.

Lemma wp_mono {A} (m : Go S A) (Q Q' : A -> World -> S -> Prop) w s :
  wp p m Q w s -> (forall a w' s', Q a w' s' -> Q' a w' s') -> wp p m Q' w s.
Proof. unfold wp. intros H HQ. destruct (m w s) as [[[a w'] s']| |]; auto. Qed.

Lemma wp_ret {A} (a : A) (Q : A -> World -> S -> Prop) w s :
  Q a w s -> wp p (mret a) Q w s.
Proof. done. Qed.

Lemma wp_bind {A B} (m : Go S A) (f : A -> Go S B) Q w s :
  wp p m (fun a w' s' => wp p (f a) Q w' s') w s -> wp p (m ≫= f) Q w s.
Proof.
  unfold wp, mbind, go_bind. destruct (m w s) as [[[a w'] s']| |]; auto.
Qed.

Lemma wp_gets {A} (f : S -> A) (Q : A -> World -> S -> Prop) w s :
  Q (f s) w s -> wp p (gets f) Q w s.
Proof. done. Qed.

Lemma wp_modify (f : S -> S) (Q : unit -> World -> S -> Prop) w s :
  Q tt w (f s) -> wp p (modify f) Q w s.
Proof. done. Qed.

Lemma wp_world {A} (f : World -> A) (Q : A -> World -> S -> Prop) w s :
  Q (f w) w s -> wp p (world f) Q w s.
Proof. done. Qed.

Lemma wp_modify_world (f : World -> World) (Q : unit -> World -> S -> Prop) w s :
  Q tt (f w) s -> wp p (modify_world f) Q w s.
Proof. done. Qed.

Lemma wp_lift {A} (o : outcome (A * S)) (Q : A -> World -> S -> Prop) w s a s' :
  o = Done (a, s') -> Q a w s' -> wp p (lift_outcome o) Q w s.
Proof. intros ->. done. Qed.

Lemma wp_panic {A} why (Q : A -> World -> S -> Prop) w s :
  p = true -> wp p (panic why) Q w s.
Proof. done. Qed.

Lemma wp_load_svc q (Q : Service -> World -> S -> Prop) w s :
  Q (get_svc q w) w s -> wp p (load_svc q) Q w s.
Proof. done. Qed.

Lemma wp_load_wl q (Q : Workload -> World -> S -> Prop) w s :
  Q (get_wl q w) w s -> wp p (load_wl q) Q w s.
Proof. done. Qed.

Lemma wp_range `{Env} {A} (l : list A) (Q : list A -> World -> S -> Prop) w s :
  (forall l', l' ≡ₚ l -> Q l' (tick w) s) -> wp p (range l) Q w s.
Proof. intros HQ. unfold wp, range. apply HQ, range_order_perm. Qed.

(** A loop with an invariant over the elements still to visit. *)
Lemma wp_for_each {A R} (I : list A -> World -> S -> Prop) (l : list A)
    (body : A -> Go S (ctl R)) (Q : option R -> World -> S -> Prop) w s :
  I l w s ->
  (forall a l' w s, I (a :: l') w s ->
     wp p (body a) (fun c w s => match c with
                                 | Continue => I l' w s
                                 | Break => Q None w s
                                 | Return r => Q (Some r) w s
                                 end) w s) ->
  (forall w s, I [] w s -> Q None w s) ->
  wp p (for_each l body) Q w s.
Proof.
  intros HI Hbody Hend. revert w s HI. induction l as [|a l IH]; intros w s HI; cbn.
  - apply wp_ret. by apply Hend.
  - apply wp_bind. eapply wp_mono; [by apply Hbody|]. cbn.
    intros [| |r] w' s' Hc; [by apply IH|by apply wp_ret|by apply wp_ret].
Qed.

Lemma wp_fold_each {A B} (I : list A -> B -> World -> S -> Prop) (l : list A) (acc : B)
    (body : B -> A -> Go S B) (Q : B -> World -> S -> Prop) w s :
  I l acc w s ->
  (forall a l' acc w s, I (a :: l') acc w s ->
     wp p (body acc a) (fun acc w s => I l' acc w s) w s) ->
  (forall acc w s, I [] acc w s -> Q acc w s) ->
  wp p (fold_each l acc body) Q w s.
Proof.
  intros HI Hbody Hend. revert acc w s HI. induction l as [|a l IH]; intros acc w s HI; cbn.
  - apply wp_ret. by apply Hend.
  - apply wp_bind. eapply wp_mono; [by apply Hbody|]. cbn. intros acc' w' s' HI'. by apply IH.
Qed.

Lemma wp_fold_until {A B} (I : list A -> B -> World -> S -> Prop) (l : list A) (acc : B)
    (body : B -> A -> Go S (B * bool)) (Q : B -> World -> S -> Prop) w s :
  I l acc w s ->
  (forall a l' acc w s, I (a :: l') acc w s ->
     wp p (body acc a) (fun r w s => if r.2 then Q r.1 w s else I l' r.1 w s) w s) ->
  (forall acc w s, I [] acc w s -> Q acc w s) ->
  wp p (fold_until l acc body) Q w s.
Proof.
  intros HI Hbody Hend. revert acc w s HI. induction l as [|a l IH]; intros acc w s HI; cbn.
  - apply wp_ret. by apply Hend.
  - apply wp_bind. eapply wp_mono; [by apply Hbody|]. cbn. intros [acc' []] w' s' HI'; [done|by apply IH].
Qed.

(** A counting loop, with an invariant on the next index. *)
Lemma wp_fold_seqZ (I : Z -> World -> S -> Prop) (body : Z -> Go S unit)
    (Q : unit -> World -> S -> Prop) a n w s :
  0 <= n -> I a w s ->
  (forall i w s, a <= i < a + n -> I i w s -> wp p (body i) (fun _ w s => I (i + 1) w s) w s) ->
  (forall w s, I (a + n) w s -> Q tt w s) ->
  wp p (fold_each (seqZ a n) tt (fun _ i => body i)) Q w s.
Proof.
  intros Hn. assert (exists k, n = Z.of_nat k) as [k ->] by (exists (Z.to_nat n); lia). clear Hn.
  revert a w s. induction k as [|k IH]; intros a w s HI Hbody Hend.
  - cbn. apply wp_ret, Hend. by rewrite Z.add_0_r.
  - rewrite seqZ_cons by lia. cbn [fold_each]. apply wp_bind.
    eapply wp_mono; [apply Hbody; [lia|done]|]. cbn. intros [] w' s' HI'.
    replace (Z.pred (Z.of_nat (Datatypes.S k))) with (Z.of_nat k) by lia.
    apply IH; [by rewrite <-Z.add_1_r| |].
    + intros i w1 s1 Hi. apply Hbody. lia.
    + intros w1 s1 HI1. apply Hend. by replace (a + Z.of_nat (Datatypes.S k)) with (Z.succ a + Z.of_nat k) by lia.
Qed.
End wp_rules.

Lemma wp_zoom {S T A} p (l : lens S T) (m : Go T A) (Q : A -> World -> S -> Prop) w s :
  wp p m (fun a w' t => Q a w' (lset l t s)) w (lget l s) -> wp p (zoom l m) Q w s.
Proof. unfold wp, zoom. destruct (m w (lget l s)) as [[[a w'] t]| |]; auto. Qed.

Lemma wp_and {S A} p (m : Go S A) (Q1 Q2 : A -> World -> S -> Prop) w s :
  wp p m Q1 w s -> wp p m Q2 w s -> wp p m (fun a w s => Q1 a w s /\ Q2 a w s) w s.
Proof. unfold wp. by destruct (m w s) as [[[a w'] t]| |]. Qed.

(** Total correctness implies correctness of the runs that do not crash. *)
Lemma wp_weaken {S A} p (m : Go S A) (Q : A -> World -> S -> Prop) w s :
  wp false m Q w s -> wp p m Q w s.
Proof. unfold wp. by destruct (m w s) as [[[a w'] t]| |]. Qed.

Lemma wp_inv {S A} (m : Go S A) (Q : A -> World -> S -> Prop) w s :
  wp false m Q w s -> exists a w' s', m w s = Done (a, w', s') /\ Q a w' s'.
Proof. unfold wp. destruct (m w s) as [[[a w'] s']| |]; naive_solver. Qed.

(** ... for a procedure that leaves the world as it is. *)
Lemma wp_run {S} (m : Go S unit) (P : S -> Prop) w s :
  wp false m (fun _ w' s' => w' = w /\ P s') w s -> exists s', m w s = Done (tt, w, s') /\ P s'.
Proof. intros H. apply wp_inv in H as ([] & w' & s' & E & -> & HP). eauto. Qed.

Lemma wp_elim {S A} p (m : Go S A) (Q : A -> World -> S -> Prop) w s a w' s' :
  wp p m Q w s -> m w s = Done (a, w', s') -> Q a w' s'.
Proof. unfold wp. intros H E. by rewrite E in H. Qed.

(** ** Invariants, and relations between the states before and after

    [stays p I R m]: started where [I] holds, [m] ends where [I] holds, and its
    first and last states are related by [R].  For a preorder this is closed
    under the control structures. *)
Class PreorderR {S} (R : World -> S -> World -> S -> Prop) : Prop := {
  R_refl : forall w s, R w s w s;
  R_trans : forall w1 s1 w2 s2 w3 s3, R w1 s1 w2 s2 -> R w2 s2 w3 s3 -> R w1 s1 w3 s3
}.

Definition stays {S A} (p : bool) (I : World -> S -> Prop) (R : World -> S -> World -> S -> Prop)
    (m : Go S A) : Prop :=
  forall w s, I w s -> wp p m (fun _ w' s' => I w' s' /\ R w s w' s') w s.

Section stays.
Context {S : Type} (p : bool) (I : World -> S -> Prop) (R : World -> S -> World -> S -> Prop)
  `{HR : !PreorderR R}.

(** Going on from a later state. *)
Lemma stays_from {A} (m : Go S A) w0 s0 w s :
  stays p I R m -> I w s -> R w0 s0 w s -> wp p m (fun _ w' s' => I w' s' /\ R w0 s0 w' s') w s.
Proof.
  intros Hm HI H0. eapply wp_mono; [by apply Hm|]. cbn. intros a w' s' [HI' H1].
  split; [done|]. by eapply R_trans.
Qed.

Lemma stays_ret {A} (a : A) : stays p I R (mret a).
Proof. intros w s HI. apply wp_ret. split; [done|apply R_refl]. Qed.
Lemma stays_gets {A} (f : S -> A) : stays p I R (gets f).
Proof. intros w s HI. apply wp_gets. split; [done|apply R_refl]. Qed.
Lemma stays_load_wl q : stays p I R (load_wl q).
Proof. intros w s HI. apply wp_load_wl. split; [done|apply R_refl]. Qed.
Lemma stays_load_svc q : stays p I R (load_svc q).
Proof. intros w s HI. apply wp_load_svc. split; [done|apply R_refl]. Qed.
Lemma stays_bind {A B} (m : Go S A) (f : A -> Go S B) :
  stays p I R m -> (forall a, stays p I R (f a)) -> stays p I R (m ≫= f).
Proof.
  intros Hm Hf w s HI. apply wp_bind. eapply wp_mono; [by apply Hm|]. cbn. intros a w1 s1 [H1 HR1].
  by apply stays_from.
Qed.
Lemma stays_for_each {A B} (l : list A) (body : A -> Go S (ctl B)) :
  (forall a, stays p I R (body a)) -> stays p I R (for_each l body).
Proof.
  intros Hb. induction l as [|a l IH]; cbn; [apply stays_ret|].
  apply stays_bind; [done|]. intros [| |r]; [done|apply stays_ret|apply stays_ret].
Qed.
Lemma stays_fold_each {A B} (l : list A) (acc : B) (body : B -> A -> Go S B) :
  (forall acc a, stays p I R (body acc a)) -> stays p I R (fold_each l acc body).
Proof.
  intros Hb. revert acc. induction l as [|a l IH]; intros acc; cbn; [apply stays_ret|].
  apply stays_bind; [done|]. intros acc'. apply IH.
Qed.
Lemma stays_fold_until {A B} (l : list A) (acc : B) (body : B -> A -> Go S (B * bool)) :
  (forall acc a, stays p I R (body acc a)) -> stays p I R (fold_until l acc body).
Proof.
  intros Hb. revert acc. induction l as [|a l IH]; intros acc; cbn; [apply stays_ret|].
  apply stays_bind; [done|]. intros [acc' []]; [apply stays_ret|apply IH].
Qed.
End stays.

Create HintDb stays.
#[export] Hint Resolve stays_ret stays_gets stays_load_wl stays_load_svc : stays.
#[export] Hint Extern 0 (PreorderR _) => apply _ : stays.
Ltac stays_step :=
  first [ solve [eauto with stays nocore]
        | apply stays_bind; [apply _| |intros ?]
        | apply stays_for_each; [apply _|intros ?]
        | apply stays_fold_each; [apply _|intros ? ?]
        | apply stays_fold_until; [apply _|intros ? ?]
        | case_match | case_decide ].
Ltac stays_auto := repeat stays_step.

Section wp_bpf.
Context `{E : Env} {K V : Type} `{Countable K} (p : bool).

Lemma wp_map_Update (k : K) (v : V) (Q : option error -> World -> gmap K V -> Prop) w m :
  (upd_err (clock w) (size (<[k := v]> m)) = None -> Q None (tick w) (<[k := v]> m)) ->
  (forall e, upd_err (clock w) (size (<[k := v]> m)) = Some e -> Q (Some e) (tick w) m) ->
  wp p (map_Update k v) Q w m.
Proof. intros H1 H2. unfold wp, map_Update. destruct (upd_err _ _); auto. Qed.

Lemma wp_map_Delete (k : K) (Q : option error -> World -> gmap K V -> Prop) w m :
  (del_err (clock w) = None -> is_Some (m !! k) -> Q None (tick w) (delete k m)) ->
  (del_err (clock w) = None -> m !! k = None -> Q (Some ErrKeyNotExist) (tick w) m) ->
  (forall e, del_err (clock w) = Some e -> Q (Some e) (tick w) m) ->
  wp p (map_Delete k) Q w m.
Proof.
  intros H1 H2 H3. unfold wp, map_Delete.
  destruct (del_err (clock w)); [auto|]. destruct (m !! k) eqn:?; eauto.
Qed.

Lemma wp_map_Lookup (k : K) (Q : V + error -> World -> gmap K V -> Prop) w m :
  (forall v, m !! k = Some v -> Q (inl v) w m) ->
  (m !! k = None -> Q (inr ErrKeyNotExist) w m) ->
  wp p (map_Lookup k) Q w m.
Proof.
  intros H1 H2. unfold wp, map_Lookup. destruct (m !! k) eqn:?; eauto.
Qed.
End wp_bpf.

#[export] Instance same_heap_refl : Reflexive same_heap.
Proof. by intros []. Qed.
#[export] Instance same_heap_trans : Transitive same_heap.
Proof. intros x y z [] []. split; congruence. Qed.
Lemma same_heap_tick w : same_heap w (tick w).
Proof. done. Qed.
#[export] Hint Resolve same_heap_tick same_heap_refl : kmesh.

(** One step of symbolic execution. *)
Ltac wp_step :=
  lazymatch goal with
  | |- wp _ (mbind _ _) _ _ _ => apply wp_bind
  | |- wp _ (mret _) _ _ _ => apply wp_ret
  | |- wp _ (gets _) _ _ _ => apply wp_gets
  | |- wp _ (modify _) _ _ _ => apply wp_modify
  | |- wp _ (world _) _ _ _ => apply wp_world
  | |- wp _ (modify_world _) _ _ _ => apply wp_modify_world
  | |- wp _ (zoom _ _) _ _ _ => apply wp_zoom
  | |- wp _ (load_svc _) _ _ _ => apply wp_load_svc
  | |- wp _ (load_wl _) _ _ _ => apply wp_load_wl
  | |- wp _ (range _) _ _ _ => apply wp_range; intros ? ?
  end; cbn beta.
Ltac wp_steps := repeat wp_step.

(** ** Heaps that grow and whose messages change at most in their waypoint *)
Definition heap_le (w w' : World) : Prop :=
  (forall q x, svcs w !! q = Some x -> exists g, svcs w' !! q = Some (set_svc_waypoint g x)) /\
  (forall q x, wls w !! q = Some x -> exists g, wls w' !! q = Some (set_wl_waypoint g x)).

Lemma set_svc_waypoint_id x : set_svc_waypoint (svc_waypoint x) x = x.
Proof. by destruct x. Qed.
Lemma set_wl_waypoint_id x : set_wl_waypoint (wl_waypoint x) x = x.
Proof. by destruct x. Qed.

Lemma same_heap_le w w' : same_heap w w' -> heap_le w w'.
Proof.
  intros [Hs Hw]. split; intros q x Hq.
  - exists (svc_waypoint x). by rewrite set_svc_waypoint_id, Hs.
  - exists (wl_waypoint x). by rewrite set_wl_waypoint_id, Hw.
Qed.

#[export] Instance heap_le_refl : Reflexive heap_le.
Proof. intros w. by apply same_heap_le. Qed.
#[export] Instance heap_le_trans : Transitive heap_le.
Proof.
  intros w1 w2 w3 [S1 W1] [S2 W2]. split; intros q x Hq.
  - destruct (S1 q x Hq) as [g Hg]. destruct (S2 q _ Hg) as [g' Hg']. exists g'. by destruct x.
  - destruct (W1 q x Hq) as [g Hg]. destruct (W2 q _ Hg) as [g' Hg']. exists g'. by destruct x.
Qed.

Lemma heap_le_store_svc q g w : heap_le w (set_svcs (<[q := set_svc_waypoint g (get_svc q w)]>) w).
Proof.
  split; intros q' x Hq; cbn.
  - destruct (decide (q = q')) as [<-|Hne].
    + exists g. rewrite lookup_insert_eq. unfold get_svc. by rewrite Hq.
    + exists (svc_waypoint x). by rewrite lookup_insert_ne, set_svc_waypoint_id.
  - exists (wl_waypoint x). by rewrite set_wl_waypoint_id.
Qed.

Lemma heap_le_store_wl q g w : heap_le w (set_wls (<[q := set_wl_waypoint g (get_wl q w)]>) w).
Proof.
  split; intros q' x Hq; cbn.
  - exists (svc_waypoint x). by rewrite set_svc_waypoint_id.
  - destruct (decide (q = q')) as [<-|Hne].
    + exists g. rewrite lookup_insert_eq. unfold get_wl. by rewrite Hq.
    + exists (wl_waypoint x). by rewrite lookup_insert_ne, set_wl_waypoint_id.
Qed.

Lemma heap_le_new_svc x w : heap_le w (set_svcs (<[fresh (dom (svcs w)) := x]>) w).
Proof.
  split; intros q y Hq; cbn; [|exists (wl_waypoint y); by rewrite set_wl_waypoint_id].
  exists (svc_waypoint y). rewrite set_svc_waypoint_id, lookup_insert_ne; [done|].
  intros E. apply (is_fresh (dom (svcs w))). rewrite E. by apply elem_of_dom.
Qed.

Lemma heap_le_new_wl x w : heap_le w (set_wls (<[fresh (dom (wls w)) := x]>) w).
Proof.
  split; intros q y Hq; cbn; [exists (svc_waypoint y); by rewrite set_svc_waypoint_id|].
  exists (wl_waypoint y). rewrite set_wl_waypoint_id, lookup_insert_ne; [done|].
  intros E. apply (is_fresh (dom (wls w))). rewrite E. by apply elem_of_dom.
Qed.
#[export] Hint Resolve same_heap_le heap_le_refl heap_le_store_svc heap_le_store_wl
  heap_le_new_svc heap_le_new_wl : kmesh.
