(* ===== verification/BpfCache.v ===== *)
(** * The BPF map cache: [pkg/controller/workload/bpfcache]

    The five kernel maps of the dual-engine mode and the user-space index from
    a workload to its endpoint keys.  A struct with a single field is its
    field; a fixed-size array is a list of that length. *)
From S2P Require Import Prelude Api Runtime.
Open Scope go_scope.

(** ** Keys and values *)
Definition MaxServiceNum : nat := 10.
Definition MaxPortNum : nat := 10.
Definition PrioCount : nat := 7.
Definition MaxPolicyNum : nat := 4.

(* BackendKey, ServiceKey, WorkloadPolicyKey, EndpointValue, FrontendValue: uint32 *)
Abbreviation BackendKey := Z (only parsing).
Abbreviation ServiceKey := Z (only parsing).
Abbreviation WorkloadPolicyKey := Z (only parsing).
Abbreviation EndpointValue := Z (only parsing).
Abbreviation FrontendValue := Z (only parsing).
(* FrontendKey: [16]byte *)
Abbreviation FrontendKey := bytes (only parsing).
(* WorkloadPolicyValue: [4]uint32 *)
Abbreviation WorkloadPolicyValue := (list Z) (only parsing).

Record EndpointKey : Type := mkEndpointKey {
  ServiceId : Z;
  Prio : Z;
  BackendIndex : Z       (* if endpoint_count = 3, then backend_index = 1/2/3 *)
}.

#[export] Instance EndpointKey_eq_dec : EqDecision EndpointKey.
Proof. solve_decision. Defined.
#[export] Instance EndpointKey_countable : Countable EndpointKey.
Proof.
  apply (inj_countable' (fun k => (ServiceId k, Prio k, BackendIndex k))
           (fun '(s, p, i) => mkEndpointKey s p i)). by intros [].
Defined.

Record BackendValue : Type := mkBackendValue {
  bv_Ip : bytes;
  bv_ServiceCount : Z;
  bv_Services : list Z;
  bv_WaypointAddr : bytes;
  bv_WaypointPort : Z
}.

Record ServiceValue : Type := mkServiceValue {
  EndpointCount : list Z;      (* [PrioCount]uint32 *)
  LbPolicy : Z;
  ServicePort : list Z;
  TargetPort : list Z;
  sv_WaypointAddr : bytes;
  sv_WaypointPort : Z
}.

Definition zero_ip : bytes := replicate 16 0.
Definition BackendValue_zero : BackendValue :=
  {| bv_Ip := zero_ip; bv_ServiceCount := 0; bv_Services := replicate MaxServiceNum 0;
     bv_WaypointAddr := zero_ip; bv_WaypointPort := 0 |}.
Definition ServiceValue_zero : ServiceValue :=
  {| EndpointCount := replicate PrioCount 0; LbPolicy := 0;
     ServicePort := replicate MaxPortNum 0; TargetPort := replicate MaxPortNum 0;
     sv_WaypointAddr := zero_ip; sv_WaypointPort := 0 |}.

Definition set_EndpointCount (c : list Z) (sv : ServiceValue) : ServiceValue :=
  {| EndpointCount := c; LbPolicy := LbPolicy sv; ServicePort := ServicePort sv;
     TargetPort := TargetPort sv; sv_WaypointAddr := sv_WaypointAddr sv;
     sv_WaypointPort := sv_WaypointPort sv |}.

(** ** The cache *)
Record Cache : Type := mkCache {
  KmBackend : gmap BackendKey BackendValue;
  KmEndpoint : gmap EndpointKey EndpointValue;
  KmFrontend : gmap FrontendKey FrontendValue;
  KmService : gmap ServiceKey ServiceValue;
  KmWlpolicy : gmap WorkloadPolicyKey WorkloadPolicyValue;
  endpointKeys : gmap Z (gset EndpointKey)     (* by workload uid *)
}.

Definition set_KmBackend m (c : Cache) : Cache :=
  mkCache m (KmEndpoint c) (KmFrontend c) (KmService c) (KmWlpolicy c) (endpointKeys c).
Definition set_KmEndpoint m (c : Cache) : Cache :=
  mkCache (KmBackend c) m (KmFrontend c) (KmService c) (KmWlpolicy c) (endpointKeys c).
Definition set_KmFrontend m (c : Cache) : Cache :=
  mkCache (KmBackend c) (KmEndpoint c) m (KmService c) (KmWlpolicy c) (endpointKeys c).
Definition set_KmService m (c : Cache) : Cache :=
  mkCache (KmBackend c) (KmEndpoint c) (KmFrontend c) m (KmWlpolicy c) (endpointKeys c).
Definition set_KmWlpolicy m (c : Cache) : Cache :=
  mkCache (KmBackend c) (KmEndpoint c) (KmFrontend c) (KmService c) m (endpointKeys c).
Definition set_endpointKeys m (c : Cache) : Cache :=
  mkCache (KmBackend c) (KmEndpoint c) (KmFrontend c) (KmService c) (KmWlpolicy c) m.

Definition backend_map := mkLens KmBackend set_KmBackend.
Definition endpoint_map := mkLens KmEndpoint set_KmEndpoint.
Definition frontend_map := mkLens KmFrontend set_KmFrontend.
Definition service_map := mkLens KmService set_KmService.
Definition wlpolicy_map := mkLens KmWlpolicy set_KmWlpolicy.

(** [NewCache] starts with the maps the loader pinned and an empty index. *)
Definition NewCache (be : gmap BackendKey BackendValue) (ep : gmap EndpointKey EndpointValue)
    (fe : gmap FrontendKey FrontendValue) (sv : gmap ServiceKey ServiceValue)
    (wp : gmap WorkloadPolicyKey WorkloadPolicyValue) : Cache :=
  mkCache be ep fe sv wp ∅.

Definition GetEndpointKeys (workloadID : Z) (c : Cache) : gset EndpointKey :=
  default ∅ (endpointKeys c !! workloadID).

Section operations.
Context `{Env}.

(** A missing key is not an error of a deletion. *)
Definition ignore_missing (err : option error) : option error :=
  match err with
  | Some e => if decide (e = ErrKeyNotExist) then None else Some e
  | None => None
  end.

(** *** auth_policy.go *)
Definition WorkloadPolicyUpdate (key : WorkloadPolicyKey) (value : WorkloadPolicyValue)
    : Go Cache (option error) := zoom wlpolicy_map (map_Update key value).
Definition WorkloadPolicyDelete (key : WorkloadPolicyKey) : Go Cache (option error) :=
  err ← zoom wlpolicy_map (map_Delete key); mret (ignore_missing err).
Definition WorkloadPolicyLookup (key : WorkloadPolicyKey)
    : Go Cache (WorkloadPolicyValue + error) := zoom wlpolicy_map (map_Lookup key).

(** *** backend.go *)
Definition BackendUpdate (key : BackendKey) (value : BackendValue)
    : Go Cache (option error) := zoom backend_map (map_Update key value).
Definition BackendDelete (key : BackendKey) : Go Cache (option error) :=
  err ← zoom backend_map (map_Delete key); mret (ignore_missing err).
Definition BackendLookup (key : BackendKey) : Go Cache (BackendValue + error) :=
  zoom backend_map (map_Lookup key).
Definition BackendLookupAll : Go Cache (list BackendValue) :=
  l ← zoom backend_map map_Iterate; mret (l.*2).

(** *** service.go *)
Definition ServiceUpdate (key : ServiceKey) (value : ServiceValue)
    : Go Cache (option error) := zoom service_map (map_Update key value).
Definition ServiceDelete (key : ServiceKey) : Go Cache (option error) :=
  err ← zoom service_map (map_Delete key); mret (ignore_missing err).
Definition ServiceLookup (key : ServiceKey) : Go Cache (ServiceValue + error) :=
  zoom service_map (map_Lookup key).
Definition ServiceLookupAll : Go Cache (list ServiceValue) :=
  l ← zoom service_map map_Iterate; mret (l.*2).

(** *** frontend.go *)
Definition FrontendUpdate (key : FrontendKey) (value : FrontendValue)
    : Go Cache (option error) := zoom frontend_map (map_Update key value).
Definition FrontendDelete (key : FrontendKey) : Go Cache (option error) :=
  err ← zoom frontend_map (map_Delete key); mret (ignore_missing err).
Definition FrontendLookup (key : FrontendKey) : Go Cache (FrontendValue + error) :=
  zoom frontend_map (map_Lookup key).
Definition FrontendIterFindKey (upstreamId : Z) : Go Cache (list FrontendKey) :=
  l ← zoom frontend_map map_Iterate;
  mret ((filter (fun kv => kv.2 = upstreamId) l).*1).

(** *** endpoint.go *)

(** [c.endpointKeys[uid]] gets [key]: a new set when there is none. *)
Definition index_insert (uid : Z) (key : EndpointKey) (c : Cache) : Cache :=
  match endpointKeys c !! uid with
  | None => set_endpointKeys (<[uid := {[key]}]> (endpointKeys c)) c
  | Some s => set_endpointKeys (<[uid := {[key]} ∪ s]> (endpointKeys c)) c
  end.

(** [c.endpointKeys[uid].Delete(key)], and the entry goes when it is empty;
    deleting from a nil set does nothing. *)
Definition index_delete (uid : Z) (key : EndpointKey) (c : Cache) : Cache :=
  let s := default ∅ (endpointKeys c !! uid) ∖ {[key]} in
  if decide (s = ∅) then set_endpointKeys (delete uid (endpointKeys c)) c
  else set_endpointKeys (<[uid := s]> (endpointKeys c)) c.

Definition EndpointUpdate (key : EndpointKey) (value : EndpointValue)
    : Go Cache (option error) :=
  modify (index_insert value key);;
  zoom endpoint_map (map_Update key value).

Definition EndpointLookup (key : EndpointKey) : Go Cache (EndpointValue + error) :=
  zoom endpoint_map (map_Lookup key).

Definition EndpointDelete (key : EndpointKey) : Go Cache (option error) :=
  value ← zoom endpoint_map (map_Lookup key);
  match value with
  | inr err => mret None
  | inl value =>
      modify (index_delete value key);;
      err ← zoom endpoint_map (map_Delete key);
      mret (ignore_missing err)
  end.

(** [EndpointSwap] replaces the current endpoint with the last endpoint. *)
Definition EndpointSwap (currentIndex backendUid lastIndex serviceId prio : Z)
    : Go Cache (option error) :=
  if decide (lastIndex < currentIndex) then
    mret (Some (Errorf "currentIndex > lastIndex"))
  else if decide (currentIndex = lastIndex /\ lastIndex <= 1) then
    mret None
  else
    let k := if decide (currentIndex = lastIndex)
             then mkEndpointKey serviceId prio (lastIndex -32 1)
             else mkEndpointKey serviceId prio lastIndex in
    lastValue ← EndpointLookup k;
    match lastValue with
    | inr err => mret (Some err)
    | inl lastValue =>
        let currentKey := mkEndpointKey serviceId prio currentIndex in
        err ← zoom endpoint_map (map_Update currentKey lastValue);
        match err with
        | Some err => mret (Some err)
        | None =>
            modify (index_delete backendUid currentKey);;
            (* inserting into a nil set panics *)
            s ← gets (fun c => endpointKeys c !! lastValue);
            match s with
            | None => panic "assignment to entry in nil map"
            | Some s =>
                modify (fun c => set_endpointKeys
                          (<[lastValue := {[currentKey]} ∪ s]> (endpointKeys c)) c);;
                mret None
            end
        end
    end.

Definition RestoreEndpointKeys : Go Cache unit :=
  l ← zoom endpoint_map map_Iterate;
  fold_each l tt (fun _ '(key, value) => modify (index_insert value key)).

Definition GetAllEndpointsForService (serviceId : Z) : Go Cache (list EndpointValue) :=
  l ← zoom endpoint_map map_Iterate;
  mret ((filter (fun kv => ServiceId kv.1 = serviceId) l).*2).

Definition EndpointLookupAll : Go Cache (list EndpointValue) :=
  l ← zoom endpoint_map map_Iterate; mret (l.*2).
End operations.

(** ** The index *)
#[global] Arguments index_insert : simpl never.
#[global] Arguments index_delete : simpl never.
#[global] Arguments GetEndpointKeys : simpl never.

(** Two caches that agree outside the endpoint map and its index. *)
Definition same_other (c c' : Cache) : Prop :=
  KmBackend c' = KmBackend c /\ KmFrontend c' = KmFrontend c /\
  KmService c' = KmService c /\ KmWlpolicy c' = KmWlpolicy c.

#[export] Instance same_other_refl : Reflexive same_other.
Proof. done. Qed.
#[export] Instance same_other_trans : Transitive same_other.
Proof. intros x y z (?&?&?&?) (?&?&?&?). split_and!; congruence. Qed.

(** The index lists every endpoint of the map under its workload. *)
Definition index_sup (c : Cache) : Prop :=
  forall k uid, KmEndpoint c !! k = Some uid -> k ∈ GetEndpointKeys uid c.
(** ... and nothing else. *)
Definition index_ok (c : Cache) : Prop :=
  forall k uid, k ∈ GetEndpointKeys uid c <-> KmEndpoint c !! k = Some uid.

Lemma index_ok_sup c : index_ok c -> index_sup c.
Proof. intros H k uid Hk. by apply H. Qed.

Lemma index_ok_intro c :
  map_Forall (fun k uid => k ∈ GetEndpointKeys uid c) (KmEndpoint c) ->
  map_Forall (fun uid ks => set_Forall (fun k => KmEndpoint c !! k = Some uid) ks) (endpointKeys c) ->
  index_ok c.
Proof.
  intros H1 H2 k uid. split; [|by apply H1]. unfold GetEndpointKeys.
  destruct (endpointKeys c !! uid) as [ks|] eqn:Hk; cbn; [|set_solver]. by apply (H2 uid ks Hk).
Qed.

Lemma keys_index_insert uid k c uid' :
  GetEndpointKeys uid' (index_insert uid k c) =
  if decide (uid' = uid) then {[k]} ∪ GetEndpointKeys uid c else GetEndpointKeys uid' c.
Proof.
  unfold index_insert, GetEndpointKeys. destruct (endpointKeys c !! uid) as [s|] eqn:E; cbn.
  all: case_decide as Hd; [subst; rewrite lookup_insert_eq|by rewrite lookup_insert_ne].
  - done.
  - cbn. set_solver.
Qed.

Lemma keys_index_delete uid k c uid' :
  GetEndpointKeys uid' (index_delete uid k c) =
  if decide (uid' = uid) then GetEndpointKeys uid c ∖ {[k]} else GetEndpointKeys uid' c.
Proof.
  unfold index_delete, GetEndpointKeys. set (s := default ∅ (endpointKeys c !! uid) ∖ {[k]}).
  destruct (decide (s = ∅)) as [Hs|Hs]; cbn.
  all: case_decide as Hd; [subst|].
  - by rewrite lookup_delete_eq.
  - by rewrite lookup_delete_ne.
  - by rewrite lookup_insert_eq.
  - by rewrite lookup_insert_ne.
Qed.

Lemma index_insert_maps uid k c :
  KmEndpoint (index_insert uid k c) = KmEndpoint c /\ same_other c (index_insert uid k c).
Proof. unfold index_insert. by destruct (endpointKeys c !! uid). Qed.

Lemma index_delete_maps uid k c :
  KmEndpoint (index_delete uid k c) = KmEndpoint c /\ same_other c (index_delete uid k c).
Proof. unfold index_delete. by case_decide. Qed.

Lemma keys_set_KmEndpoint uid m c : GetEndpointKeys uid (set_KmEndpoint m c) = GetEndpointKeys uid c.
Proof. done. Qed.

(** ** What the endpoint operations do *)
Section endpoint_wp.
Context `{E : Env} (p : bool).

(** An update enters the key in the index, and in the map unless the kernel
    refuses it. *)
Lemma wp_EndpointUpdate key uid (Q : option error -> World -> Cache -> Prop) w c :
  (forall c', KmEndpoint c' = <[key := uid]> (KmEndpoint c) ->
     endpointKeys c' = endpointKeys (index_insert uid key c) -> same_other c c' ->
     Z.of_nat (size (KmEndpoint c')) <= max_entries ->
     upd_err (clock w) (size (KmEndpoint c')) = None ->
     Q None (tick w) c') ->
  (forall e c', KmEndpoint c' = KmEndpoint c ->
     endpointKeys c' = endpointKeys (index_insert uid key c) -> same_other c c' ->
     upd_err (clock w) (size (<[key := uid]> (KmEndpoint c))) = Some e ->
     Q (Some e) (tick w) c') ->
  wp p (EndpointUpdate key uid) Q w c.
Proof.
  intros Hok Herr. unfold EndpointUpdate. wp_steps.
  destruct (index_insert_maps uid key c) as [Hm Ho].
  apply wp_map_Update; cbn; rewrite Hm.
  - intros Hu. apply Hok; try done. cbn. by eapply upd_capacity.
  - intros e Hu. eapply Herr; try done.
Qed.

Lemma wp_EndpointLookup key (Q : EndpointValue + error -> World -> Cache -> Prop) w c :
  (forall v, KmEndpoint c !! key = Some v -> Q (inl v) w c) ->
  (KmEndpoint c !! key = None -> Q (inr ErrKeyNotExist) w c) ->
  wp p (EndpointLookup key) Q w c.
Proof.
  intros H1 H2. unfold EndpointLookup. wp_steps. destruct c; apply wp_map_Lookup; auto.
Qed.

Lemma wp_EndpointDelete `{!DeletesSucceed E} key
    (Q : option error -> World -> Cache -> Prop) w c :
  (KmEndpoint c !! key = None -> Q None w c) ->
  (forall uid c', KmEndpoint c !! key = Some uid ->
     KmEndpoint c' = delete key (KmEndpoint c) ->
     endpointKeys c' = endpointKeys (index_delete uid key c) -> same_other c c' ->
     Q None (tick w) c') ->
  wp p (EndpointDelete key) Q w c.
Proof.
  intros Hnone Hsome. unfold EndpointDelete. fold (EndpointLookup key). wp_step.
  apply wp_EndpointLookup.
  - intros uid Hk. wp_steps.
    destruct (index_delete_maps uid key c) as [Hm Ho].
    apply wp_map_Delete; cbn; rewrite ?Hm.
    + intros _ _. wp_steps. apply (Hsome uid); [done|done|done|exact Ho].
    + intros _ Hn. congruence.
    + intros e He. by rewrite deletes_succeed in He.
  - intros Hk. wp_steps. by apply Hnone.
Qed.

Lemma wp_ServiceLookup key (Q : ServiceValue + error -> World -> Cache -> Prop) w c :
  (forall v, KmService c !! key = Some v -> Q (inl v) w c) ->
  (KmService c !! key = None -> Q (inr ErrKeyNotExist) w c) ->
  wp p (ServiceLookup key) Q w c.
Proof.
  intros H1 H2. unfold ServiceLookup. wp_steps. destruct c; apply wp_map_Lookup; auto.
Qed.

Lemma wp_ServiceUpdate key sv (Q : option error -> World -> Cache -> Prop) w c :
  (upd_err (clock w) (size (<[key := sv]> (KmService c))) = None ->
     Q None (tick w) (set_KmService (<[key := sv]> (KmService c)) c)) ->
  (forall e, upd_err (clock w) (size (<[key := sv]> (KmService c))) = Some e ->
     Q (Some e) (tick w) c) ->
  wp p (ServiceUpdate key sv) Q w c.
Proof.
  intros H1 H2. unfold ServiceUpdate. wp_steps. apply wp_map_Update; [auto|].
  intros e He. destruct c. by apply (H2 e).
Qed.

(** The swap on a group whose slots up to [last] are all in use: it does not
    panic, and moves the value of the last other slot to the current one. *)
Lemma wp_EndpointSwap cur uid last sid prio (Q : option error -> World -> Cache -> Prop) w c :
  1 <= cur <= last -> last < 2 ^ 32 ->
  (forall i, 1 <= i <= last -> is_Some (KmEndpoint c !! mkEndpointKey sid prio i)) ->
  index_sup c ->
  (last = 1 -> Q None w c) ->
  (1 < last -> forall v c',
     KmEndpoint c !! mkEndpointKey sid prio (if decide (cur = last) then last - 1 else last) = Some v ->
     KmEndpoint c' = <[mkEndpointKey sid prio cur := v]> (KmEndpoint c) ->
     (forall u, GetEndpointKeys u c' =
        let s := if decide (u = uid) then GetEndpointKeys u c ∖ {[mkEndpointKey sid prio cur]}
                 else GetEndpointKeys u c in
        if decide (u = v) then {[mkEndpointKey sid prio cur]} ∪ s else s) ->
     same_other c c' -> Q None (tick w) c') ->
  (forall e, upd_err (clock w) (size (KmEndpoint c)) = Some e -> Q (Some e) (tick w) c) ->
  wp p (EndpointSwap cur uid last sid prio) Q w c.
Proof.
  intros Hcur Hlast Hserved Hidx Hone Hmany Herr. unfold EndpointSwap.
  rewrite decide_False by lia.
  destruct (decide (cur = last /\ last <= 1)) as [Hd|Hd]; [wp_steps; apply Hone; lia|].
  assert (1 < last) as Hl by (destruct (decide (cur = last)); lia).
  assert (last -32 1 = last - 1) as Hsub by (apply u32_small; unfold is_u32; lia).
  assert ((if decide (cur = last) then mkEndpointKey sid prio (last -32 1)
           else mkEndpointKey sid prio last)
          = mkEndpointKey sid prio (if decide (cur = last) then last - 1 else last)) as ->.
  { destruct (decide _); by rewrite ?Hsub. }
  assert (exists li, li = (if decide (cur = last) then last - 1 else last) /\
            1 <= li <= last /\ li <> cur) as (li & Hli & Hlir & Hlic).
  { eexists; split; [done|]. destruct (decide _); lia. }
  rewrite <-Hli in Hmany |- *. clear Hli.
  wp_steps. apply wp_EndpointLookup; [intros v Hv|intros Hlook].
  2: { destruct (Hserved li) as [v Hv]; [lia|]. congruence. }
  assert (is_Some (KmEndpoint c !! mkEndpointKey sid prio cur)) as Hcurs by (apply Hserved; lia).
  wp_steps. apply wp_map_Update; cbn.
  - intros _. wp_steps.
    set (ck := mkEndpointKey sid prio cur) in *. set (lk := mkEndpointKey sid prio li) in *.
    set (c1 := set_KmEndpoint (<[ck := v]> (KmEndpoint c)) c).
    assert (ck <> lk) as Hne by (intros [= E']; lia).
    assert (endpointKeys (index_delete uid ck c1) !! v
            = Some (GetEndpointKeys v (index_delete uid ck c1))) as Hs.
    { assert (lk ∈ GetEndpointKeys v (index_delete uid ck c1)) as Hin.
      { rewrite keys_index_delete. apply Hidx in Hv.
        case_decide; subst; [apply elem_of_difference|done].
        split; [done|]. by rewrite elem_of_singleton. }
      unfold GetEndpointKeys in *. destruct (endpointKeys _ !! v); [done|set_solver]. }
    rewrite Hs. wp_steps.
    destruct (index_delete_maps uid ck c1) as [Hm Ho]. apply (Hmany Hl v); [done| | |].
    + cbn. rewrite Hm. done.
    + intros u. unfold GetEndpointKeys at 1. cbn. rewrite lookup_insert.
      pose proof (keys_index_delete uid ck c1) as Hkd.
      destruct (decide (v = u)) as [<-|Hvu].
      * rewrite decide_True by done. cbn. rewrite Hkd. by case_decide; subst.
      * rewrite (decide_False (P := u = v)) by done.
        change (default ∅ _) with (GetEndpointKeys u (index_delete uid ck c1)).
        rewrite Hkd. by case_decide; subst.
    + done.
  - intros e He. wp_steps. destruct Hcurs as [x Hx].
    rewrite map_size_insert_Some in He by (by exists x).
    destruct c; by apply (Herr e).
Qed.
End endpoint_wp.

(** ** The index stays consistent *)
Lemma keys_eq uid c c' : endpointKeys c' = endpointKeys c -> GetEndpointKeys uid c' = GetEndpointKeys uid c.
Proof. unfold GetEndpointKeys. by intros ->. Qed.

Lemma index_sup_insert key uid c c' :
  index_sup c -> KmEndpoint c' = <[key := uid]> (KmEndpoint c) \/ KmEndpoint c' = KmEndpoint c ->
  endpointKeys c' = endpointKeys (index_insert uid key c) -> index_sup c'.
Proof.
  intros Hs Hm Hk k u Hku. rewrite (keys_eq u _ _ Hk), keys_index_insert.
  destruct Hm as [Hm|Hm]; rewrite Hm in Hku.
  - apply lookup_insert_Some in Hku as [[<- <-]|[Hne Hku]].
    + rewrite decide_True by done. set_solver.
    + apply Hs in Hku. case_decide; subst; set_solver.
  - apply Hs in Hku. case_decide; subst; set_solver.
Qed.

Lemma index_ok_insert key uid c c' :
  index_ok c -> KmEndpoint c !! key = None \/ KmEndpoint c !! key = Some uid ->
  KmEndpoint c' = <[key := uid]> (KmEndpoint c) ->
  endpointKeys c' = endpointKeys (index_insert uid key c) -> index_ok c'.
Proof.
  intros Hs Hfresh Hm Hk k u. rewrite (keys_eq u _ _ Hk), keys_index_insert, Hm, lookup_insert_Some.
  case_decide as Hd; subst; rewrite ?elem_of_union, ?elem_of_singleton.
  - rewrite (Hs k uid). destruct (decide (key = k)) as [->|Hne]; [tauto|].
    split; [intros [->|?]|intros [[? _]|[_ ?]]]; tauto.
  - rewrite (Hs k u). split; [|intros [[_ ->]|[_ ?]]; tauto]. intros Hku. right. split; [|done]. intros ->. destruct Hfresh; congruence.
Qed.

Lemma index_ok_delete key uid c c' :
  index_ok c -> KmEndpoint c !! key = Some uid -> KmEndpoint c' = delete key (KmEndpoint c) ->
  endpointKeys c' = endpointKeys (index_delete uid key c) -> index_ok c'.
Proof.
  intros Hs Hkey Hm Hk k u. rewrite (keys_eq u _ _ Hk), keys_index_delete, Hm, lookup_delete_Some.
  case_decide as Hd; subst; rewrite ?elem_of_difference, ?elem_of_singleton.
  - rewrite (Hs k uid). split; intros [? ?]; split; congruence.
  - rewrite (Hs k u). split; [|by intros [_ ?]]. intros Hku. split; [|done]. intros ->. congruence.
Qed.

Lemma index_sup_delete key uid c c' :
  index_sup c -> KmEndpoint c' = delete key (KmEndpoint c) ->
  endpointKeys c' = endpointKeys (index_delete uid key c) -> index_sup c'.
Proof.
  intros Hs Hm Hk k u Hku. rewrite Hm in Hku. apply lookup_delete_Some in Hku as [Hne Hku].
  rewrite (keys_eq u _ _ Hk), keys_index_delete. apply Hs in Hku. case_decide; subst; set_solver.
Qed.

(** The index after the swap, for the slot that gets a new value. *)
Section swap_index.
Context (ck : EndpointKey) (uid v : Z) (c c' : Cache).
Context (Hm : KmEndpoint c' = <[ck := v]> (KmEndpoint c)).
Context (Hk : forall u, GetEndpointKeys u c' =
        let s := if decide (u = uid) then GetEndpointKeys u c ∖ {[ck]} else GetEndpointKeys u c in
        if decide (u = v) then {[ck]} ∪ s else s).

Lemma index_sup_swap : index_sup c -> index_sup c'.
Proof.
  intros Hs k u Hku. rewrite Hm in Hku. rewrite Hk. cbn.
  apply lookup_insert_Some in Hku as [[<- <-]|[Hne Hku]].
  - rewrite (decide_True (P := v = v)) by done. set_solver.
  - apply Hs in Hku. repeat case_decide; subst; set_solver.
Qed.

Lemma index_ok_swap : index_ok c -> KmEndpoint c !! ck = Some uid -> index_ok c'.
Proof.
  intros Hs Hck k u. rewrite Hk, Hm, lookup_insert_Some. cbn.
  assert (forall u', ck ∈ GetEndpointKeys u' c -> u' = uid) as Huniq.
  { intros u' Hu'. apply Hs in Hu'. congruence. }
  destruct (decide (ck = k)) as [<-|Hne].
  - repeat case_decide; subst; set_solver.
  - rewrite <-(Hs k u). repeat case_decide; subst; set_solver.
Qed.
End swap_index.

(** Rebuilding the index from the map after a restart. *)
Lemma fold_index_insert p (l : list (EndpointKey * Z)) w c (Q : unit -> World -> Cache -> Prop) :
  (forall c', KmEndpoint c' = KmEndpoint c -> same_other c c' ->
     (forall k uid, k ∈ GetEndpointKeys uid c' <-> k ∈ GetEndpointKeys uid c \/ (k, uid) ∈ l) ->
     Q tt w c') ->
  wp p (fold_each l tt (fun _ '(key, value) => modify (index_insert value key))) Q w c.
Proof.
  revert c; induction l as [|[k0 u0] l IH]; intros c HQ; cbn [fold_each].
  - wp_steps. apply HQ; [done|done|]. set_solver.
  - wp_steps. destruct (index_insert_maps u0 k0 c) as [Hm Ho]. apply IH.
    intros c' Hm' Ho' Hk'. apply HQ; [congruence|by etrans|].
    intros k uid. rewrite Hk', keys_index_insert, elem_of_cons.
    case_decide; subst; set_solver.
Qed.

Lemma wp_RestoreEndpointKeys `{Env} p (w : World) (c : Cache) :
  endpointKeys c = ∅ ->
  wp p RestoreEndpointKeys
    (fun _ _ c' => index_ok c' /\ KmEndpoint c' = KmEndpoint c /\ same_other c c') w c.
Proof.
  intros Hempty. unfold RestoreEndpointKeys, map_Iterate. wp_steps. rename H0 into Hperm.
  apply fold_index_insert. cbn. intros c' Hm Ho Hk. split; [|by destruct c].
  intros k uid. rewrite Hk, Hm, Hperm, elem_of_map_to_list. cbn. unfold GetEndpointKeys. cbn.
  rewrite Hempty, lookup_empty. set_solver.
Qed.

(** after a restart, with an empty index over the pinned endpoint map,
    [RestoreEndpointKeys] returns and leaves, for every workload, exactly the
    endpoint keys that the map assigns to it, whatever the iteration order;
    the maps are unchanged. *)
Theorem RestoreEndpointKeys_exact `{Env} (w : World) (c : Cache) :
  endpointKeys c = ∅ ->
  exists w' c', RestoreEndpointKeys w c = Done (tt, w', c') /\
    index_ok c' /\ KmEndpoint c' = KmEndpoint c /\ same_other c c'.
Proof.
  intros Hempty. apply (wp_RestoreEndpointKeys false w) in Hempty as Hwp.
  apply wp_inv in Hwp as ([] & w' & c' & HE & HQ). eauto.
Qed.

Lemma RestoreEndpointKeys_exact_witness :
  exists w' c',
    @RestoreEndpointKeys EnvOk (mkWorld 0 ∅ ∅)
      (NewCache ∅ {[mkEndpointKey 1 0 1 := 7; mkEndpointKey 1 0 2 := 8]} ∅ ∅ ∅)
    = Done (tt, w', c') /\ index_ok c'.
Proof.
  destruct (@RestoreEndpointKeys_exact EnvOk (mkWorld 0 ∅ ∅)
    (NewCache ∅ {[mkEndpointKey 1 0 1 := 7; mkEndpointKey 1 0 2 := 8]} ∅ ∅ ∅) eq_refl)
    as (w' & c' & E & Hok & _).
  exists w', c'. split; [exact E|exact Hok].
Defined.
