(* ===== verification/Locality.v ===== *)
(** * Locality-aware priorities: [bpfcache/locality_cache.go]

    The node remembers where it runs; an endpoint's priority in locality mode
    is the number of routing preferences left after the longest matching
    prefix, so that nearer endpoints get smaller numbers. *)
From S2P Require Import Prelude Api.
Open Scope go_scope.

Record localityInfo : Type := mkLocalityInfo {
  li_region : string;
  li_zone : string;
  li_subZone : string;
  li_nodeName : string;
  li_clusterId : string;
  li_network : string
}.

Record LocalityCache : Type := mkLocalityCache { LocalityInfo : option localityInfo }.

Definition NewLocalityCache : LocalityCache := mkLocalityCache None.

Definition SetLocality (nodeName clusterId network : string) (locality : option Locality)
    (l : LocalityCache) : LocalityCache :=
  mkLocalityCache (Some {|
    li_region := GetRegion locality;
    li_zone := GetZone locality;
    li_subZone := GetSubzone locality;
    li_nodeName := nodeName;
    li_clusterId := clusterId;
    li_network := network
  |}).

(** The switch of [CalcLocalityLBPrio]: [None] where no case reads
    [l.LocalityInfo].  The getters of a nil workload give empty strings. *)
Definition scope_fields (wl : option Workload) (scope : Z)
    : option ((localityInfo -> string) * string) :=
  let locality := wl ≫= wl_locality in
  if decide (scope = LoadBalancing_REGION) then Some (li_region, GetRegion locality)
  else if decide (scope = LoadBalancing_ZONE) then Some (li_zone, GetZone locality)
  else if decide (scope = LoadBalancing_SUBZONE) then Some (li_subZone, GetSubzone locality)
  else if decide (scope = LoadBalancing_NODE) then Some (li_nodeName, from_option wl_node "" wl)
  else if decide (scope = LoadBalancing_CLUSTER) then
    Some (li_clusterId, from_option wl_cluster_id "" wl)
  else if decide (scope = LoadBalancing_NETWORK) then
    Some (li_network, from_option wl_network "" wl)
  else None.

Definition scope_match (l : LocalityCache) (wl : option Workload) (scope : Z) : outcome bool :=
  match scope_fields wl scope with
  | None => Done false
  | Some (field, value) =>
      match LocalityInfo l with
      | None => Panic "nil pointer dereference"
      | Some info => Done (bool_decide (field info = value))
      end
  end.

Fixpoint rank_loop (l : LocalityCache) (wl : option Workload) (rp : list Z) (rank : Z) : outcome Z :=
  match rp with
  | [] => Done rank
  | scope :: rp =>
      m ← scope_match l wl scope;
      if m : bool then rank_loop l wl rp (rank +32 1) else Done rank
  end.

Definition CalcLocalityLBPrio (l : LocalityCache) (wl : option Workload) (rp : list Z) : outcome Z :=
  rank ← rank_loop l wl rp 0;
  Done (u32 (Z.of_nat (length rp)) -32 rank).

(** ** Specification: the length of the longest matching prefix *)
Definition matches (info : localityInfo) (wl : option Workload) (scope : Z) : bool :=
  match scope_fields wl scope with
  | None => false
  | Some (field, value) => bool_decide (field info = value)
  end.

Fixpoint matching_prefix (info : localityInfo) (wl : option Workload) (rp : list Z) : nat :=
  match rp with
  | [] => 0
  | scope :: rp => if matches info wl scope then S (matching_prefix info wl rp) else 0
  end.

Lemma matching_prefix_le info wl rp : (matching_prefix info wl rp <= length rp)%nat.
Proof. induction rp as [|s rp IH]; cbn; [lia|]. destruct (matches _ _ _); lia. Qed.

Lemma rank_loop_spec info wl rp : forall rank,
  0 <= rank -> rank + Z.of_nat (length rp) < 2 ^ 32 ->
  rank_loop (mkLocalityCache (Some info)) wl rp rank
  = Done (rank + Z.of_nat (matching_prefix info wl rp)).
Proof.
  induction rp as [|s rp IH]; intros rank H0 Hl; cbn [rank_loop matching_prefix].
  - f_equal. lia.
  - unfold scope_match, matches in *. cbn.
    cbn [length] in Hl.
    destruct (scope_fields wl s) as [[field v]|]; cbn; [|f_equal; lia].
    destruct (bool_decide (field info = v)); cbn; [|f_equal; lia].
    rewrite u32_small by (unfold is_u32; lia). rewrite IH by lia. f_equal. lia.
Qed.

Lemma CalcLocalityLBPrio_spec info wl rp :
  Z.of_nat (length rp) < 2 ^ 32 ->
  CalcLocalityLBPrio (mkLocalityCache (Some info)) wl rp
  = Done (Z.of_nat (length rp) - Z.of_nat (matching_prefix info wl rp)).
Proof.
  intros Hl. unfold CalcLocalityLBPrio. rewrite rank_loop_spec by lia. cbn.
  pose proof (matching_prefix_le info wl rp).
  rewrite (u32_small (Z.of_nat (length rp))) by (unfold is_u32; lia).
  rewrite u32_small by (unfold is_u32; lia). done.
Qed.

Lemma CalcLocalityLBPrio_bound l wl rp prio :
  Z.of_nat (length rp) < 2 ^ 32 -> CalcLocalityLBPrio l wl rp = Done prio ->
  0 <= prio <= Z.of_nat (length rp).
Proof.
  intros Hl. destruct l as [[info|]].
  - rewrite CalcLocalityLBPrio_spec by done. intros [= <-].
    pose proof (matching_prefix_le info wl rp). lia.
  - unfold CalcLocalityLBPrio. destruct rp as [|s rp]; cbn; [by intros [= <-]|].
    unfold scope_match. destruct (scope_fields wl s) as [[f v]|]; cbn; [done|].
    intros [= <-]. cbn [length] in Hl. rewrite (u32_small (Z.of_nat (S (length rp)))) by (unfold is_u32; lia).
    rewrite Z.sub_0_r, u32_small by (unfold is_u32; lia). lia.
Qed.

Lemma CalcLocalityLBPrio_total l wl rp :
  is_Some (LocalityInfo l) ->
  exists prio, CalcLocalityLBPrio l wl rp = Done prio /\ 0 <= prio /\
    (Z.of_nat (length rp) < 2 ^ 32 -> prio <= Z.of_nat (length rp)).
Proof.
  destruct l as [[info|]]; [|by intros []]. intros _.
  assert (forall rank, exists r, rank_loop (mkLocalityCache (Some info)) wl rp rank = Done r) as Hr.
  { intros rank. revert rank. induction rp as [|s rp IH]; intros rank; cbn [rank_loop]; [eauto|].
    unfold scope_match. destruct (scope_fields wl s) as [[f v]|]; cbn; [|eauto].
    case_bool_decide; cbn; eauto. }
  destruct (Hr 0) as [r Hr0].
  assert (exists prio, CalcLocalityLBPrio (mkLocalityCache (Some info)) wl rp = Done prio) as [prio Hp].
  { unfold CalcLocalityLBPrio. rewrite Hr0. cbn. eauto. }
  exists prio. split; [done|]. split.
  - unfold CalcLocalityLBPrio in Hp. rewrite Hr0 in Hp. injection Hp as <-. apply u32_is.
  - intros Hl. by apply (CalcLocalityLBPrio_bound _ _ _ _ Hl) in Hp as [_ Hp].
Qed.

(** ** The specification *)
Section place.
Context (nodeName clusterId network : string) (here : option Locality).

(** What a routing preference asks of a workload [wl], seen from a node called
    [nodeName] in [clusterId], [network] and the locality [here]. *)
Inductive same_place (wl : option Workload) : Z -> Prop :=
  | same_region : GetRegion here = GetRegion (wl ≫= wl_locality) -> same_place wl LoadBalancing_REGION
  | same_zone : GetZone here = GetZone (wl ≫= wl_locality) -> same_place wl LoadBalancing_ZONE
  | same_subzone : GetSubzone here = GetSubzone (wl ≫= wl_locality) -> same_place wl LoadBalancing_SUBZONE
  | same_node : nodeName = from_option wl_node "" wl -> same_place wl LoadBalancing_NODE
  | same_cluster : clusterId = from_option wl_cluster_id "" wl -> same_place wl LoadBalancing_CLUSTER
  | same_network : network = from_option wl_network "" wl -> same_place wl LoadBalancing_NETWORK.

Definition info_of : localityInfo :=
  mkLocalityInfo (GetRegion here) (GetZone here) (GetSubzone here) nodeName clusterId network.

Lemma matches_same_place wl scope : matches info_of wl scope = true <-> same_place wl scope.
Proof.
  unfold matches, scope_fields. split.
  - repeat case_decide; subst; intros Hb; try done; by constructor.
  - intros []; cbn; by apply bool_decide_eq_true.
Qed.

Lemma matching_prefix_take wl rp k : (k <= length rp)%nat ->
  Forall (same_place wl) (take k rp) <-> (k <= matching_prefix info_of wl rp)%nat.
Proof.
  revert k. induction rp as [|s rp IH]; intros [|k] Hk; cbn in *; [split; (done || lia)..|].
  rewrite Forall_cons, IH, <-matches_same_place by lia.
  destruct (matches info_of wl s); split; intros; (lia || intuition (done || lia)).
Qed.
End place.

(** C33: once the node has recorded where it is, [CalcLocalityLBPrio] never
    fails.  Its value is between 0 and the number of preferences, and it is
    the number of preferences less the length of the longest prefix of them
    that the workload satisfies: the first [k] preferences are satisfied
    exactly when [k] is at most that length.  So it is 0 exactly when every
    preference is satisfied, and smaller than another workload's exactly when
    some prefix is satisfied by the first workload and not by the other. *)
Theorem CalcLocalityLBPrio_orders nodeName clusterId network here l (wl1 wl2 : option Workload) (rp : list Z) :
  Z.of_nat (length rp) < 2 ^ 32 ->
  let near wl k := Forall (same_place nodeName clusterId network here wl) (take k rp) in
  exists p1 p2,
    CalcLocalityLBPrio (SetLocality nodeName clusterId network here l) wl1 rp = Done p1 /\
    CalcLocalityLBPrio (SetLocality nodeName clusterId network here l) wl2 rp = Done p2 /\
    0 <= p1 <= Z.of_nat (length rp) /\
    (forall k, (k <= length rp)%nat -> near wl1 k <-> Z.of_nat k <= Z.of_nat (length rp) - p1) /\
    (p1 = 0 <-> Forall (same_place nodeName clusterId network here wl1) rp) /\
    (p1 < p2 <-> exists k, near wl1 k /\ ~ near wl2 k).
Proof.
  intros Hl near. change (SetLocality _ _ _ _ _) with (mkLocalityCache (Some (info_of nodeName clusterId network here))).
  rewrite !CalcLocalityLBPrio_spec by done. do 2 eexists. split; [done|]. split; [done|].
  set (info := info_of nodeName clusterId network here).
  pose proof (matching_prefix_le info wl1 rp). pose proof (matching_prefix_le info wl2 rp).
  pose proof (fun wl k => matching_prefix_take nodeName clusterId network here wl rp k) as Hk.
  split; [lia|]. split; [intros k Hle; unfold near; rewrite Hk by done; fold info; lia|]. split.
  - rewrite <-(firstn_all rp) at 3. rewrite Hk by done. fold info. lia.
  - split.
    + intros Hlt. exists (matching_prefix info wl1 rp). unfold near. rewrite !Hk by done. fold info. lia.
    + intros (k & H1 & H2). destruct (Nat.le_gt_cases k (length rp)) as [Hle|Hgt].
      * unfold near in *. rewrite Hk in H1, H2 by done. fold info in H1, H2. lia.
      * unfold near in *. rewrite take_ge, <-(firstn_all rp), Hk in H1 by lia.
        rewrite take_ge, <-(firstn_all rp), Hk in H2 by lia. fold info in H1, H2. lia.
Qed.

(** From a node in region r1, a workload elsewhere in the region comes before
    one in another region. *)
Definition witness_workload (loc : Locality) : Workload :=
  mkWorkload "uid" "" "" [] "" "" "" None "" ∅ [] 0 "" (Some loc) 0 "" "" "" "".
Lemma CalcLocalityLBPrio_orders_witness :
  exists p1 p2,
    CalcLocalityLBPrio (SetLocality "node1" "c1" "n1" (Some (mkLocality "r1" "z1" "")) NewLocalityCache)
      (Some (witness_workload (mkLocality "r1" "z2" ""))) [LoadBalancing_REGION; LoadBalancing_ZONE] = Done p1 /\
    CalcLocalityLBPrio (SetLocality "node1" "c1" "n1" (Some (mkLocality "r1" "z1" "")) NewLocalityCache)
      (Some (witness_workload (mkLocality "r2" "z1" ""))) [LoadBalancing_REGION; LoadBalancing_ZONE] = Done p2 /\
    p1 < p2.
Proof.
  destruct (CalcLocalityLBPrio_orders "node1" "c1" "n1" (Some (mkLocality "r1" "z1" "")) NewLocalityCache
    (Some (witness_workload (mkLocality "r1" "z2" ""))) (Some (witness_workload (mkLocality "r2" "z1" "")))
    [LoadBalancing_REGION; LoadBalancing_ZONE]) as (p1 & p2 & E1 & E2 & _ & _ & _ & Hlt); [cbn; lia|].
  exists p1, p2. split_and!; [done..|]. apply Hlt. exists 1%nat. split.
  - repeat constructor.
  - intros [Hr _]%Forall_cons. inversion Hr as [E|E|E|E|E|E]; discriminate E.
Defined.

(** As long as the node's locality is not known, computing a priority
    crashes the daemon as soon as the first preference is one of the defined
    scopes; the caller [handleWorkloadNewBoundServices] guards against it,
    [updateEndpointOneByOne] does not. *)
Theorem CalcLocalityLBPrio_needs_locality (wl : option Workload) (scope : Z) (rp : list Z) :
  LoadBalancing_REGION <= scope <= LoadBalancing_NETWORK ->
  CalcLocalityLBPrio NewLocalityCache wl (scope :: rp) = Panic "nil pointer dereference".
Proof.
  intros Hs. unfold CalcLocalityLBPrio. cbn. unfold scope_match.
  assert (is_Some (scope_fields wl scope)) as [[f v] ->]; [|done].
  unfold scope_fields, LoadBalancing_REGION, LoadBalancing_ZONE, LoadBalancing_SUBZONE,
    LoadBalancing_NODE, LoadBalancing_CLUSTER, LoadBalancing_NETWORK in *.
  repeat case_decide; eauto; lia.
Qed.

Lemma CalcLocalityLBPrio_needs_locality_witness :
  CalcLocalityLBPrio NewLocalityCache None [LoadBalancing_ZONE] = Panic "nil pointer dereference".
Proof. apply CalcLocalityLBPrio_needs_locality. unfold LoadBalancing_REGION, LoadBalancing_ZONE, LoadBalancing_NETWORK. lia. Defined.
