(* ===== verification/WorkloadCache.v ===== *)
(** * The workload cache: [pkg/controller/workload/cache/workload_cache.go]

    Workloads by uid and by address.  The cache holds pointers: what it
    returns for an address is the object the control plane sent last for it. *)
From S2P Require Import Prelude GoNet Api Runtime.

(** The Go type [cache.NetworkAddress], the key of the address maps. *)
Record NetAddr : Type := mkNetAddr { Network : string; Address : Addr }.

#[export] Instance NetAddr_eq_dec : EqDecision NetAddr.
Proof. solve_decision. Defined.
#[export] Instance NetAddr_countable : Countable NetAddr.
Proof.
  apply (inj_countable' (fun a => (Network a, Address a)) (fun '(n, a) => mkNetAddr n a)).
  by intros [].
Defined.

Definition composeNetworkAddress (network : string) (addr : Addr) : NetAddr :=
  mkNetAddr network addr.

Record cache : Type := mkCache {
  byUid : gmap string ptr;
  byAddr : gmap NetAddr ptr
}.

Definition NewWorkloadCache : cache := mkCache ∅ ∅.

Definition set_byUid (f : gmap string ptr -> gmap string ptr) (c : cache) : cache :=
  mkCache (f (byUid c)) (byAddr c).
Definition set_byAddr (f : gmap NetAddr ptr -> gmap NetAddr ptr) (c : cache) : cache :=
  mkCache (byUid c) (f (byAddr c)).

Definition GetWorkloadByUid (uid : string) (w : cache) : option ptr := byUid w !! uid.
Definition GetWorkloadByAddr (networkAddress : NetAddr) (w : cache) : option ptr :=
  byAddr w !! networkAddress.

Definition AddOrUpdateWorkload (workload : option ptr) : Go cache unit :=
  match workload with
  | None => mret tt
  | Some p =>
      workload ← load_wl p;
      modify (set_byUid (<[wl_uid workload := p]>));;
      if decide (wl_network_mode workload <> NetworkMode_HOST_NETWORK) then
        fold_each (wl_addresses workload) tt (fun _ ip =>
          let '(addr, _) := AddrFromSlice ip in
          let networkAddress := composeNetworkAddress (wl_network workload) addr in
          modify (set_byAddr (<[networkAddress := p]>)))
      else mret tt
  end.

Definition deleteAddr (addr : NetAddr) (uid : string) : Go cache unit :=
  r ← gets (fun w => byAddr w !! addr);
  match r with
  | None => mret tt
  | Some p =>
      workload ← load_wl p;
      if decide (wl_uid workload = uid) then modify (set_byAddr (delete addr))
      else mret tt
  end.

Definition DeleteWorkload (uid : string) : Go cache unit :=
  r ← gets (fun w => byUid w !! uid);
  match r with
  | None => mret tt
  | Some p =>
      workload ← load_wl p;
      fold_each (wl_addresses workload) tt (fun _ ip =>
        let '(addr, _) := AddrFromSlice ip in
        let networkAddress := composeNetworkAddress (wl_network workload) addr in
        deleteAddr networkAddress uid);;
      modify (set_byUid (delete uid))
  end.

Definition List `{Env} : Go cache (list ptr) :=
  m ← gets byUid;
  l ← range (map_to_list m);
  mret (l.*2).

(** ** What the operations do *)

(** The keys a workload is entered under. *)
Definition addr_keys (x : Workload) : list NetAddr :=
  (fun ip => mkNetAddr (wl_network x) (AddrFromSlice ip).1) <$> wl_addresses x.

Definition cached_addrs (x : Workload) : list NetAddr :=
  if decide (wl_network_mode x <> NetworkMode_HOST_NETWORK) then addr_keys x else [].

(** The objects in the cache exist and have the uid they are stored under. *)
Definition uids_ok (w : World) (c : cache) : Prop :=
  forall uid q, byUid c !! uid = Some q -> exists x, wls w !! q = Some x /\ wl_uid x = uid.

Section wp.
Context (p : bool).

Lemma wp_cache_addrs q (l : list bytes) net (Q : unit -> World -> cache -> Prop) w c :
  (forall c', byUid c' = byUid c ->
     (forall a, byAddr c' !! a =
        if decide (a ∈ (fun ip => mkNetAddr net (AddrFromSlice ip).1) <$> l)
        then Some q else byAddr c !! a) ->
     Q tt w c') ->
  wp p (fold_each l tt (fun _ ip =>
          let '(addr, _) := AddrFromSlice ip in
          modify (set_byAddr (<[composeNetworkAddress net addr := q]>)))) Q w c.
Proof.
  revert c. induction l as [|ip l IH]; intros c HQ; cbn [fold_each].
  - wp_steps. apply HQ; [done|]. intros a. by rewrite decide_False by set_solver.
  - wp_step. destruct (AddrFromSlice ip) as [addr b] eqn:Ea. wp_steps. apply IH.
    intros c' Hu Ha. apply HQ; [done|]. intros a. rewrite Ha. cbn. rewrite lookup_insert, Ea.
    unfold composeNetworkAddress. repeat case_decide; set_solver.
Qed.

Lemma wp_AddOrUpdateWorkload q (Q : unit -> World -> cache -> Prop) w c :
  (forall c', byUid c' = <[wl_uid (get_wl q w) := q]> (byUid c) ->
     (forall a, byAddr c' !! a =
        if decide (a ∈ cached_addrs (get_wl q w)) then Some q else byAddr c !! a) ->
     Q tt w c') ->
  wp p (AddOrUpdateWorkload (Some q)) Q w c.
Proof.
  intros HQ. unfold AddOrUpdateWorkload. wp_steps. unfold cached_addrs in HQ.
  destruct (decide _) as [Hm|Hm].
  - apply wp_cache_addrs. intros c' Hu Ha. by apply HQ.
  - wp_steps. apply HQ; [done|]. intros a. by rewrite decide_False by set_solver.
Qed.

Lemma wp_deleteAddr a uid (Q : unit -> World -> cache -> Prop) w c :
  (forall c', byUid c' = byUid c ->
     (forall b, byAddr c' !! b =
        if decide (b = a /\ (fun q => wl_uid (get_wl q w)) <$> byAddr c !! b = Some uid)
        then None else byAddr c !! b) ->
     Q tt w c') ->
  wp p (deleteAddr a uid) Q w c.
Proof.
  intros HQ. unfold deleteAddr. wp_steps. destruct (byAddr c !! a) as [q|] eqn:E.
  - wp_steps. destruct (decide (wl_uid (get_wl q w) = uid)) as [Hu|Hu]; wp_steps.
    + apply HQ; [done|]. intros b. cbn. rewrite lookup_delete.
      destruct (decide (a = b)) as [<-|Hne].
      * rewrite decide_True; [done|]. rewrite E. cbn. by rewrite Hu.
      * rewrite decide_False; [done|]. by intros [-> _].
    + apply HQ; [done|]. intros b. rewrite decide_False; [done|].
      intros [-> Hb]. rewrite E in Hb. by injection Hb.
  - wp_steps. apply HQ; [done|]. intros b. rewrite decide_False; [done|].
    intros [-> Hb]. by rewrite E in Hb.
Qed.

(** The entries of the addresses [l] that belong to [uid] go. *)
Lemma wp_delete_addrs uid net (l : list bytes) (Q : unit -> World -> cache -> Prop) w c :
  (forall c', byUid c' = byUid c ->
     (forall b, byAddr c' !! b =
        if decide (b ∈ (fun ip => mkNetAddr net (AddrFromSlice ip).1) <$> l /\
                   (fun q => wl_uid (get_wl q w)) <$> byAddr c !! b = Some uid)
        then None else byAddr c !! b) ->
     Q tt w c') ->
  wp p (fold_each l tt (fun _ ip =>
          let '(addr, _) := AddrFromSlice ip in
          deleteAddr (composeNetworkAddress net addr) uid)) Q w c.
Proof.
  revert c. induction l as [|ip l IH]; intros c HQ; cbn [fold_each].
  - wp_steps. apply HQ; [done|]. intros b. rewrite decide_False; [done|]. set_solver.
  - wp_step. destruct (AddrFromSlice ip) as [addr b0] eqn:Ea. apply wp_deleteAddr.
    intros c1 Hu1 Ha1. apply IH. intros c' Hu Ha. apply HQ; [congruence|]. intros b.
    rewrite Ha, Ha1. unfold composeNetworkAddress. cbn [fmap list_fmap]. rewrite Ea.
    destruct (decide ((fun q => wl_uid (get_wl q w)) <$> byAddr c !! b = Some uid)) as [Hb|Hb].
    + destruct (decide (b = mkNetAddr net addr)) as [Hba|Hba].
      * rewrite (decide_True (P := b = _ /\ _)) by done. cbn.
        rewrite (decide_False (P := _ /\ None = _)) by naive_solver.
        rewrite decide_True; [done|]. split; [|done]. subst. cbn. set_solver.
      * rewrite (decide_False (P := b = _ /\ _)) by naive_solver. apply decide_ext. set_solver.
    + rewrite (decide_False (P := b = _ /\ _)) by naive_solver.
      rewrite !decide_False by naive_solver. done.
Qed.

Lemma wp_DeleteWorkload uid (Q : unit -> World -> cache -> Prop) w c :
  (byUid c !! uid = None -> Q tt w c) ->
  (forall q c', byUid c !! uid = Some q -> byUid c' = delete uid (byUid c) ->
     (forall b, byAddr c' !! b =
        if decide (b ∈ addr_keys (get_wl q w) /\
                   (fun q => wl_uid (get_wl q w)) <$> byAddr c !! b = Some uid)
        then None else byAddr c !! b) ->
     Q tt w c') ->
  wp p (DeleteWorkload uid) Q w c.
Proof.
  intros Hnone Hsome. unfold DeleteWorkload. wp_steps.
  destruct (byUid c !! uid) as [q|] eqn:E; wp_steps; [|by apply Hnone].
  apply wp_delete_addrs. intros c' Hu Ha. wp_steps. apply (Hsome q); [done| |done].
  cbn. by rewrite Hu.
Qed.
End wp.

(** a workload entered in the cache is found under its uid and, unless it
    uses the host network, under each of its addresses; every other uid and
    address answers as before; the call always returns. *)
Theorem AddOrUpdateWorkload_get (w : World) (c : cache) (q : ptr) :
  exists c', AddOrUpdateWorkload (Some q) w c = Done (tt, w, c') /\
    (forall uid, GetWorkloadByUid uid c' =
       if decide (uid = wl_uid (get_wl q w)) then Some q else GetWorkloadByUid uid c) /\
    (forall a, GetWorkloadByAddr a c' =
       if decide (a ∈ cached_addrs (get_wl q w)) then Some q else GetWorkloadByAddr a c).
Proof.
  apply wp_run, wp_AddOrUpdateWorkload. intros c' Hu Ha. split; [done|]. split; [|done].
  intros uid. unfold GetWorkloadByUid. rewrite Hu, lookup_insert.
  destruct (decide (wl_uid _ = uid)) as [<-|]; [by rewrite decide_True|by rewrite decide_False].
Qed.

(** [DeleteWorkload] of a cached uid removes that uid and, of the addresses
    of its object, exactly those that still belong to an object with this
    uid: an address that another workload has taken over in the meantime is
    kept (issue 1352), and every other entry is unchanged. *)
Theorem DeleteWorkload_spec (w : World) (c : cache) (uid : string) (q : ptr) :
  byUid c !! uid = Some q ->
  exists c', DeleteWorkload uid w c = Done (tt, w, c') /\
    (forall u, GetWorkloadByUid u c' = if decide (u = uid) then None else GetWorkloadByUid u c) /\
    (forall a, GetWorkloadByAddr a c' =
       if decide (a ∈ addr_keys (get_wl q w) /\
                  (fun q => wl_uid (get_wl q w)) <$> byAddr c !! a = Some uid)
       then None else GetWorkloadByAddr a c).
Proof.
  intros Hq.
  apply wp_run, wp_DeleteWorkload; [congruence|]. intros q' c' Hq' Hu Ha.
  assert (q' = q) as -> by congruence. split; [done|]. split; [|done].
  intros u. unfold GetWorkloadByUid. rewrite Hu, lookup_delete.
  destruct (decide (uid = u)) as [<-|]; [by rewrite decide_True|by rewrite decide_False].
Qed.

(** A pod on node [n1] with one address. *)
Definition sample_wl (uid : string) (ip : bytes) : Workload :=
  mkWorkload uid uid "default" [ip] "net" "" "" None "n1" ∅ [] 0 "c1" None 0 "" "" "" "".

Lemma DeleteWorkload_spec_witness :
  let w := mkWorld 0 ∅ {[1%positive := sample_wl "a" [10; 0; 0; 1]]} in
  let c := mkCache {["a" := 1%positive]} {[mkNetAddr "net" (Addr4 [10; 0; 0; 1]) := 1%positive]} in
  exists c', DeleteWorkload "a" w c = Done (tt, w, c') /\
    GetWorkloadByAddr (mkNetAddr "net" (Addr4 [10; 0; 0; 1])) c' = None.
Proof.
  intros w c.
  destruct (DeleteWorkload_spec w c "a" 1%positive) as (c' & E & _ & Ha); [reflexivity|].
  exists c'. split; [exact E|]. rewrite Ha. vm_compute. reflexivity.
Defined.

(** a workload whose address changes keeps its old address in the cache,
    and deleting the workload does not remove it: the old address goes on
    resolving to an object that the control plane has withdrawn. *)
Theorem stale_address_after_delete (uid : string) (q1 q2 : ptr) (w : World) (a1 a2 : NetAddr) :
  cached_addrs (get_wl q1 w) = [a1] -> addr_keys (get_wl q2 w) = [a2] -> a1 <> a2 ->
  cached_addrs (get_wl q2 w) = [a2] ->
  wl_uid (get_wl q1 w) = uid -> wl_uid (get_wl q2 w) = uid ->
  exists c', (AddOrUpdateWorkload (Some q1);; AddOrUpdateWorkload (Some q2);; DeleteWorkload uid)
               w NewWorkloadCache = Done (tt, w, c') /\
    GetWorkloadByUid uid c' = None /\ GetWorkloadByAddr a1 c' = Some q1.
Proof.
  intros H1 H2 Hne H2' Hu1 Hu2.
  apply wp_run. wp_steps. apply wp_AddOrUpdateWorkload. intros c1 E1 A1. wp_steps.
  apply wp_AddOrUpdateWorkload. intros c2 E2 A2. rewrite Hu2 in E2.
  apply wp_DeleteWorkload; [rewrite E2; by rewrite lookup_insert_eq|].
  intros q c' Hq E3 A3. rewrite E2, lookup_insert_eq in Hq. injection Hq as <-.
  split; [done|]. split.
  - unfold GetWorkloadByUid. by rewrite E3, lookup_delete_eq.
  - unfold GetWorkloadByAddr. rewrite A3, decide_False by (rewrite H2; set_solver).
    rewrite A2, decide_False by (rewrite H2'; set_solver).
    by rewrite A1, decide_True by (rewrite H1; set_solver).
Qed.

Lemma stale_address_after_delete_witness :
  let w := mkWorld 0 ∅ {[1%positive := sample_wl "a" [10; 0; 0; 1];
                          2%positive := sample_wl "a" [10; 0; 0; 2]]} in
  exists c', (AddOrUpdateWorkload (Some 1%positive);; AddOrUpdateWorkload (Some 2%positive);;
              DeleteWorkload "a") w NewWorkloadCache = Done (tt, w, c') /\
    GetWorkloadByUid "a" c' = None /\
    GetWorkloadByAddr (mkNetAddr "net" (Addr4 [10; 0; 0; 1])) c' = Some 1%positive.
Proof.
  intros w.
  apply (stale_address_after_delete "a" 1 2 w (mkNetAddr "net" (Addr4 [10; 0; 0; 1]))
           (mkNetAddr "net" (Addr4 [10; 0; 0; 2]))); try reflexivity. discriminate.
Defined.
