(* ===== verification/ServiceCache.v ===== *)
(** * The service cache: [pkg/controller/workload/cache/service_cache.go]

    Services by resource name, by address and by bare IP.  Several services
    may claim one address; the pointer comparison of [deleteAddr] decides
    which of them still owns the IP. *)
From S2P Require Import Prelude GoNet Api Runtime WorkloadCache.

Record serviceCache : Type := mkServiceCache {
  servicesByResourceName : gmap string ptr;
  servicesByAddr : gmap NetAddr ptr;
  servicesByIP : gmap Addr ptr
}.

Definition NewServiceCache : serviceCache := mkServiceCache ∅ ∅ ∅.

Definition set_byName (f : gmap string ptr -> gmap string ptr) (s : serviceCache) : serviceCache :=
  mkServiceCache (f (servicesByResourceName s)) (servicesByAddr s) (servicesByIP s).
Definition set_addr (f : gmap NetAddr ptr -> gmap NetAddr ptr) (s : serviceCache) : serviceCache :=
  mkServiceCache (servicesByResourceName s) (f (servicesByAddr s)) (servicesByIP s).
Definition set_ip (f : gmap Addr ptr -> gmap Addr ptr) (s : serviceCache) : serviceCache :=
  mkServiceCache (servicesByResourceName s) (servicesByAddr s) (f (servicesByIP s)).

Definition GetServiceByIP (ip : Addr) (s : serviceCache) : option ptr := servicesByIP s !! ip.
Definition GetServiceByAddr (address : NetAddr) (s : serviceCache) : option ptr :=
  servicesByAddr s !! address.
Definition GetService (resourceName : string) (s : serviceCache) : option ptr :=
  servicesByResourceName s !! resourceName.

Definition AddOrUpdateService (svc : ptr) : Go serviceCache unit :=
  x ← load_svc svc;
  let resourceName := Service_ResourceName x in
  modify (set_byName (<[resourceName := svc]>));;
  fold_each (svc_addresses x) tt (fun _ addr =>
    let '(addrStr, _) := AddrFromSlice (na_address addr) in
    let networkAddress := composeNetworkAddress (na_network addr) addrStr in
    modify (set_addr (<[networkAddress := svc]>));;
    modify (set_ip (<[addrStr := svc]>))).

Definition deleteAddr (addr : NetAddr) (svc : ptr) : Go serviceCache unit :=
  r ← gets (fun s => servicesByAddr s !! addr);
  match r with
  | None => mret tt
  | Some service =>
      sx ← load_svc service;
      x ← load_svc svc;
      if decide (svc_namespace sx = svc_namespace x /\ svc_name sx = svc_name x) then
        modify (set_addr (delete addr));;
        ip ← gets (fun s => servicesByIP s !! Address addr);
        if decide (ip = Some service) then modify (set_ip (delete (Address addr)))
        else mret tt
      else mret tt
  end.

Definition DeleteService (resourceName : string) : Go serviceCache unit :=
  r ← gets (fun s => servicesByResourceName s !! resourceName);
  match r with
  | None => mret tt
  | Some svc =>
      x ← load_svc svc;
      fold_each (svc_addresses x) tt (fun _ addr =>
        let '(addrStr, _) := AddrFromSlice (na_address addr) in
        let networkAddress := composeNetworkAddress (na_network addr) addrStr in
        deleteAddr networkAddress svc);;
      modify (set_byName (delete resourceName))
  end.

Definition List `{Env} : Go serviceCache (list ptr) :=
  m ← gets servicesByResourceName;
  l ← range (map_to_list m);
  mret (l.*2).

(** ** What the operations do *)
Definition key_of (a : NetworkAddress) : NetAddr :=
  mkNetAddr (na_network a) (AddrFromSlice (na_address a)).1.
Definition addr_keys (x : Service) : list NetAddr :=
  key_of <$> svc_addresses x.

(** The objects in the cache exist and have the name they are stored under. *)
Definition names_ok (w : World) (s : serviceCache) : Prop :=
  forall name q, servicesByResourceName s !! name = Some q ->
    exists x, svcs w !! q = Some x /\ Service_ResourceName x = name.

Section wp.
Context (p : bool).

Lemma wp_AddOrUpdateService q (Q : unit -> World -> serviceCache -> Prop) w s :
  (forall s', servicesByResourceName s' =
       <[Service_ResourceName (get_svc q w) := q]> (servicesByResourceName s) ->
     (forall a, servicesByAddr s' !! a =
        if decide (a ∈ addr_keys (get_svc q w)) then Some q else servicesByAddr s !! a) ->
     (forall a, servicesByIP s' !! a =
        if decide (a ∈ Address <$> addr_keys (get_svc q w)) then Some q else servicesByIP s !! a) ->
     Q tt w s') ->
  wp p (AddOrUpdateService q) Q w s.
Proof.
  intros HQ. unfold AddOrUpdateService. wp_steps. set (x := get_svc q w) in *.
  set (s0 := set_byName _ s). unfold addr_keys in HQ.
  assert (forall s', servicesByResourceName s' = servicesByResourceName s0 ->
     (forall a, servicesByAddr s' !! a =
        if decide (a ∈ key_of <$> svc_addresses x) then Some q else servicesByAddr s0 !! a) ->
     (forall a, servicesByIP s' !! a =
        if decide (a ∈ Address <$> (key_of <$> svc_addresses x)) then Some q else servicesByIP s0 !! a) ->
     Q tt w s') as HQ' by (intros s' H1 H2 H3; by apply HQ).
  clear HQ. revert HQ'. generalize (svc_addresses x), s0. clear s0 s x.
  intros l; induction l as [|na l IH]; intros s HQ; cbn [fold_each].
  - wp_steps. apply HQ; [done|..]; intros a; by rewrite decide_False by set_solver.
  - wp_step. destruct (AddrFromSlice (na_address na)) as [a b] eqn:Ea.
    assert (key_of na = mkNetAddr (na_network na) a) as Hk by (unfold key_of; by rewrite Ea). wp_steps. apply IH.
    intros s' H1 H2 H3. apply HQ; [done|..]; intros a'; cbn [fmap list_fmap]; rewrite Hk.
    + rewrite H2. cbn. rewrite lookup_insert. unfold composeNetworkAddress.
      repeat case_decide; set_solver.
    + rewrite H3. cbn. rewrite lookup_insert.
      generalize (Address <$> (key_of <$> l)). intros L. repeat case_decide; set_solver.
Qed.

(** Whether the service [q] stored for an address is the service [x] by name. *)
Definition same_service (w : World) (x : Service) (q : ptr) : Prop :=
  svc_namespace (get_svc q w) = svc_namespace x /\ svc_name (get_svc q w) = svc_name x.
#[export] Instance same_service_dec w x q : Decision (same_service w x q).
Proof. unfold same_service. apply _. Defined.

Definition owned (w : World) (x : Service) (o : option ptr) : Prop :=
  match o with Some q => same_service w x q | None => False end.
#[export] Instance owned_dec w x o : Decision (owned w x o).
Proof. destruct o; cbn; apply _. Defined.

(** [DeleteService] removes the name and the addresses of the object that
    still belong to a service of this name; by IP, it removes nothing but
    entries of addresses it removes. *)
Lemma wp_sc_deleteAddr a svc (Q : unit -> World -> serviceCache -> Prop) w s :
  (forall s', servicesByResourceName s' = servicesByResourceName s ->
     (forall b, servicesByAddr s' !! b =
        if decide (b = a /\ owned w (get_svc svc w) (servicesByAddr s !! b)) then None
        else servicesByAddr s !! b) ->
     (forall i, servicesByIP s' !! i =
        if decide (i = Address a /\ owned w (get_svc svc w) (servicesByAddr s !! a) /\
                   servicesByIP s !! i = servicesByAddr s !! a) then None
        else servicesByIP s !! i) ->
     Q tt w s') ->
  wp p (deleteAddr a svc) Q w s.
Proof.
  intros HQ. unfold deleteAddr. wp_steps. destruct (servicesByAddr s !! a) as [q|] eqn:E; cbn in HQ.
  2: { wp_steps. apply HQ; [done| |]; intros b; rewrite decide_False; [done| |done|naive_solver].
       intros [-> Hb]. by rewrite E in Hb. }
  wp_steps. destruct (decide (_ /\ _)) as [Ho|Ho].
  2: { wp_steps. apply HQ; [done| |]; intros b; rewrite decide_False; [done| |done|naive_solver].
       intros [-> Hb]. by rewrite E in Hb. }
  assert (forall b, delete a (servicesByAddr s) !! b =
    if decide (b = a /\ owned w (get_svc svc w) (servicesByAddr s !! b)) then None
    else servicesByAddr s !! b) as Haddr.
  { intros b. rewrite lookup_delete. destruct (decide (a = b)) as [<-|Hne].
    - rewrite decide_True; [done|]. by rewrite E.
    - rewrite decide_False; [done|]. naive_solver. }
  wp_steps. cbn. destruct (decide (servicesByIP s !! Address a = Some q)) as [Hip|Hip]; wp_steps.
  - apply HQ; [done|done|]. intros i. cbn. rewrite lookup_delete.
    destruct (decide (Address a = i)) as [<-|Hne].
    + by rewrite decide_True.
    + rewrite decide_False; [done|]. naive_solver.
  - apply HQ; [done|done|]. intros i. rewrite decide_False; [done|]. naive_solver.
Qed.

Lemma wp_sc_delete_addrs svc (l : list NetworkAddress) (Q : unit -> World -> serviceCache -> Prop) w s :
  (forall s', servicesByResourceName s' = servicesByResourceName s ->
     (forall b, servicesByAddr s' !! b =
        if decide (b ∈ key_of <$> l /\
                   owned w (get_svc svc w) (servicesByAddr s !! b)) then None
        else servicesByAddr s !! b) ->
     (forall i q, servicesByIP s' !! i = Some q -> servicesByIP s !! i = Some q) ->
     (forall i q, servicesByIP s !! i = Some q -> servicesByIP s' !! i = None ->
        same_service w (get_svc svc w) q) ->
     Q tt w s') ->
  wp p (fold_each l tt (fun _ addr =>
          let '(addrStr, _) := AddrFromSlice (na_address addr) in
          deleteAddr (composeNetworkAddress (na_network addr) addrStr) svc)) Q w s.
Proof.
  revert s. induction l as [|na l IH]; intros s HQ; cbn [fold_each].
  - wp_steps. apply HQ; [done| |done|congruence]. intros b. rewrite decide_False; [done|set_solver].
  - wp_step. destruct (AddrFromSlice (na_address na)) as [a b0] eqn:Ea.
    assert (key_of na = mkNetAddr (na_network na) a) as Hk by (unfold key_of; by rewrite Ea).
    apply wp_sc_deleteAddr.
    intros s1 N1 A1 I1. apply IH. intros s' N A I I'. apply HQ; [congruence|..].
    + intros b. rewrite A, A1. unfold composeNetworkAddress. cbn [fmap list_fmap]. rewrite Hk.
      destruct (decide (owned w (get_svc svc w) (servicesByAddr s !! b))) as [Hb|Hb].
      * destruct (decide (b = mkNetAddr (na_network na) a)) as [Hba|Hba].
        -- rewrite (decide_True (P := b = _ /\ _)) by done. cbn.
           rewrite (decide_False (P := _ /\ False)) by naive_solver.
           rewrite decide_True; [done|]. split; [|done]. subst. set_solver.
        -- rewrite (decide_False (P := b = _ /\ _)) by naive_solver. apply decide_ext. set_solver.
      * rewrite (decide_False (P := b = _ /\ _)) by naive_solver.
        rewrite !decide_False by naive_solver. done.
    + intros i q Hi. apply I in Hi. rewrite I1 in Hi. by case_decide.
    + intros i q Hi Hn. specialize (I1 i). case_decide as Hd; [|apply (I' i); congruence].
      destruct Hd as (_ & Ho & He). rewrite Hi in He. rewrite <-He in Ho. done.
Qed.

Lemma wp_DeleteService name (Q : unit -> World -> serviceCache -> Prop) w s :
  (servicesByResourceName s !! name = None -> Q tt w s) ->
  (forall q s', servicesByResourceName s !! name = Some q ->
     servicesByResourceName s' = delete name (servicesByResourceName s) ->
     (forall b, servicesByAddr s' !! b =
        if decide (b ∈ addr_keys (get_svc q w) /\ owned w (get_svc q w) (servicesByAddr s !! b))
        then None else servicesByAddr s !! b) ->
     (forall i q, servicesByIP s' !! i = Some q -> servicesByIP s !! i = Some q) ->
     (forall i q', servicesByIP s !! i = Some q' -> servicesByIP s' !! i = None ->
        same_service w (get_svc q w) q') ->
     Q tt w s') ->
  wp p (DeleteService name) Q w s.
Proof.
  intros Hnone Hsome. unfold DeleteService. wp_steps.
  destruct (servicesByResourceName s !! name) as [q|] eqn:E; wp_steps; [|by apply Hnone].
  apply wp_sc_delete_addrs. intros s' N A I I'. wp_steps. apply (Hsome q); [done| |done|done|done].
  cbn. by rewrite N.
Qed.
End wp.

(** [DeleteService] of a cached service returns, removes its name and, of
    its addresses, exactly those whose entry is a service with the same name
    and namespace; an address or IP that another service owns is kept
    (issue 1352). *)
Theorem DeleteService_spec (w : World) (s : serviceCache) (name : string) (q : ptr) :
  servicesByResourceName s !! name = Some q ->
  exists s', DeleteService name w s = Done (tt, w, s') /\
    (forall n, GetService n s' = if decide (n = name) then None else GetService n s) /\
    (forall a, GetServiceByAddr a s' =
       if decide (a ∈ addr_keys (get_svc q w) /\ owned w (get_svc q w) (servicesByAddr s !! a))
       then None else GetServiceByAddr a s) /\
    (forall i q', GetServiceByIP i s = Some q' -> ~ same_service w (get_svc q w) q' ->
       GetServiceByIP i s' = Some q').
Proof.
  intros Hq. apply wp_run, wp_DeleteService; [congruence|]. intros q0 s' Hq0 N A I I'.
  assert (q0 = q) as -> by congruence. split; [done|]. split; [|split; [done|]].
  - intros n. unfold GetService. rewrite N, lookup_delete.
    destruct (decide (name = n)) as [<-|]; [by rewrite decide_True|by rewrite decide_False].
  - unfold GetServiceByIP. intros i q' Hi Hne. destruct (servicesByIP s' !! i) as [q1|] eqn:E.
    + apply I in E. congruence.
    + exfalso. apply Hne. by apply (I' i).
Qed.

(** Two services that claim the same address; the second one came later. *)
Definition sample_svc (name : string) : Service :=
  mkService name "default" (name +:+ ".default.svc") [mkNetworkAddress "net" [10; 1; 0; 1]] [] None None.

Lemma DeleteService_spec_witness :
  let w := mkWorld 0 {[1%positive := sample_svc "a"; 2%positive := sample_svc "b"]} ∅ in
  let s := mkServiceCache {["default/a.default.svc" := 1%positive; "default/b.default.svc" := 2%positive]}
             {[mkNetAddr "net" (Addr4 [10; 1; 0; 1]) := 2%positive]}
             {[Addr4 [10; 1; 0; 1] := 2%positive]} in
  exists s', DeleteService "default/a.default.svc" w s = Done (tt, w, s') /\
    GetServiceByIP (Addr4 [10; 1; 0; 1]) s' = Some 2%positive.
Proof.
  intros w s.
  destruct (DeleteService_spec w s "default/a.default.svc" 1%positive) as (s' & E & _ & _ & I);
    [reflexivity|].
  exists s'. split; [exact E|]. apply I; [reflexivity|]. vm_compute. intros [_ H]. discriminate H.
Defined.
