(* ===== verification/EndpointCache.v ===== *)
(** * The endpoint cache: [pkg/controller/workload/cache/endpoint_cache.go]

    The slot of every workload of a service, by service and workload id. *)
From S2P Require Import Prelude.

Record Endpoint : Type := mkEndpoint {
  ep_ServiceId : Z;
  ep_Prio : Z;
  ep_BackendIndex : Z
}.

(* map[serviceId][workloadId]; an inner map is nil or empty when it is missing *)
Record endpointCache : Type := mkEndpointCache {
  endpointsByServiceId : gmap Z (gmap Z Endpoint)
}.

Definition NewEndpointCache : endpointCache := mkEndpointCache ∅.

Definition List (serviceId : Z) (s : endpointCache) : gmap Z Endpoint :=
  default ∅ (endpointsByServiceId s !! serviceId).

Definition AddEndpointToService (ep : Endpoint) (workloadId : Z) (s : endpointCache) : endpointCache :=
  let m := endpointsByServiceId s in
  let m := match m !! ep_ServiceId ep with
           | None => <[ep_ServiceId ep := ∅]> m
           | Some _ => m
           end in
  mkEndpointCache
    (<[ep_ServiceId ep := <[workloadId := ep]> (default ∅ (m !! ep_ServiceId ep))]> m).

Definition DeleteEndpoint (serviceID workloadID : Z) (s : endpointCache) : endpointCache :=
  match endpointsByServiceId s !! serviceID with
  | None => s            (* delete on a nil map does nothing *)
  | Some eps => mkEndpointCache (<[serviceID := delete workloadID eps]> (endpointsByServiceId s))
  end.

Definition DeleteEndpointWithPriority (serviceID workloadID prio : Z) (s : endpointCache)
    : endpointCache :=
  match endpointsByServiceId s !! serviceID with
  | None => s
  | Some eps =>
      match eps !! workloadID with
      | Some ep =>
          if decide (ep_Prio ep = prio)
          then mkEndpointCache (<[serviceID := delete workloadID eps]> (endpointsByServiceId s))
          else s
      | None => s
      end
  end.

Definition DeleteEndpointByServiceId (serviceId : Z) (s : endpointCache) : endpointCache :=
  mkEndpointCache (delete serviceId (endpointsByServiceId s)).

(** ** What the operations do *)
Lemma List_Add ep u s sid :
  List sid (AddEndpointToService ep u s) =
  if decide (sid = ep_ServiceId ep) then <[u := ep]> (List sid s) else List sid s.
Proof.
  unfold List, AddEndpointToService.
  destruct (endpointsByServiceId s !! ep_ServiceId ep) as [eps|] eqn:E; cbn.
  all: case_decide as Hs; subst; rewrite ?lookup_insert_eq, ?lookup_insert_ne by done; cbn;
    rewrite ?E; done.
Qed.

Lemma List_DeleteWithPriority sid u prio s sid' u' :
  List sid' (DeleteEndpointWithPriority sid u prio s) !! u' =
  if decide (sid' = sid /\ u' = u /\ ep_Prio <$> List sid s !! u = Some prio) then None
  else List sid' s !! u'.
Proof.
  unfold List, DeleteEndpointWithPriority.
  destruct (endpointsByServiceId s !! sid) as [eps|] eqn:E; cbn [default from_option].
  2: { rewrite decide_False; [done|]. intros (_ & _ & H). by rewrite lookup_empty in H. }
  unfold id. destruct (eps !! u) as [ep|] eqn:Eu; cbn.
  2: { rewrite decide_False; [done|]. naive_solver. }
  destruct (decide (ep_Prio ep = prio)) as [Hp|Hp]; cbn.
  2: { rewrite decide_False; [done|]. naive_solver. }
  rewrite lookup_insert. destruct (decide (sid = sid')) as [<-|Hs]; cbn; unfold id.
  - rewrite E. cbn. unfold id. rewrite lookup_delete. destruct (decide (u = u')) as [<-|Hu].
    + by rewrite decide_True by naive_solver.
    + by rewrite decide_False by naive_solver.
  - by rewrite decide_False by naive_solver.
Qed.

Lemma List_DeleteByServiceId sid s sid' :
  List sid' (DeleteEndpointByServiceId sid s) = if decide (sid' = sid) then ∅ else List sid' s.
Proof.
  unfold List, DeleteEndpointByServiceId. cbn. rewrite lookup_delete.
  destruct (decide (sid = sid')) as [<-|]; [by rewrite decide_True|by rewrite decide_False].
Qed.
