(* ===== verification/WaypointCache.v ===== *)
(** * The waypoint cache: [pkg/controller/workload/cache/waypoint_cache.go]

    A service or workload may name its waypoint by hostname.  The cache turns
    the hostname into the first address of the waypoint service, in the object
    itself, now or when that service arrives. *)
From S2P Require Import Prelude GoNet Api Runtime WorkloadCache ServiceCache.

(** ** State *)
Record waypointAssociatedObjects : Type := mkAssociated {
  address : option NetworkAddress;
  services : gmap string ptr;
  workloads : gmap string ptr
}.

Record waypointCache : Type := mkWaypointCache {
  associatedObjects : gmap string waypointAssociatedObjects;
  serviceToWaypoint : gmap string string;
  workloadToWaypoint : gmap string string
}.

Definition NewWaypointCache : waypointCache := mkWaypointCache ∅ ∅ ∅.

Definition set_associated f (w : waypointCache) : waypointCache :=
  mkWaypointCache (f (associatedObjects w)) (serviceToWaypoint w) (workloadToWaypoint w).
Definition set_svcTo f (w : waypointCache) : waypointCache :=
  mkWaypointCache (associatedObjects w) (f (serviceToWaypoint w)) (workloadToWaypoint w).
Definition set_wlTo f (w : waypointCache) : waypointCache :=
  mkWaypointCache (associatedObjects w) (serviceToWaypoint w) (f (workloadToWaypoint w)).

(** ** [waypointAssociatedObjects] *)
Definition newAssociatedObjects (addr : option NetworkAddress) : waypointAssociatedObjects :=
  mkAssociated addr ∅ ∅.
Definition isResolved (w : waypointAssociatedObjects) : bool := bool_decide (is_Some (address w)).
Definition waypointAddress (w : waypointAssociatedObjects) : option NetworkAddress := address w.
Definition addService (resourceName : string) (service : ptr) (w : waypointAssociatedObjects) :=
  mkAssociated (address w) (<[resourceName := service]> (services w)) (workloads w).
Definition deleteService (resourceName : string) (w : waypointAssociatedObjects) :=
  mkAssociated (address w) (delete resourceName (services w)) (workloads w).
Definition addWorkload (uid : string) (workload : ptr) (w : waypointAssociatedObjects) :=
  mkAssociated (address w) (services w) (<[uid := workload]> (workloads w)).
Definition deleteWorkload (uid : string) (w : waypointAssociatedObjects) :=
  mkAssociated (address w) (services w) (delete uid (workloads w)).

(** A method call through [w.waypointAssociatedObjects[waypoint]]: on a missing
    entry the receiver is nil and taking its lock panics. *)
Definition call_associated (waypoint : string)
    (f : waypointAssociatedObjects -> waypointAssociatedObjects) : Go waypointCache unit :=
  r ← gets (fun w => associatedObjects w !! waypoint);
  match r with
  | None => panic "nil pointer dereference"
  | Some a => modify (set_associated (<[waypoint := f a]>))
  end.

(** ** Rewriting the waypoint of an object

    [svc.GetWaypoint().Destination = ...] on a nil waypoint panics. *)
Definition updateServiceWaypoint {S} (svc : ptr) (addr : NetworkAddress) : Go S unit :=
  x ← load_svc svc;
  match svc_waypoint x with
  | None => panic "nil pointer dereference"
  | Some g => store_svc svc (set_svc_waypoint (Some (set_destination (GatewayAddress_Address addr) g)) x)
  end.
Definition updateWorkloadWaypoint {S} (workload : ptr) (addr : NetworkAddress) : Go S unit :=
  x ← load_wl workload;
  match wl_waypoint x with
  | None => panic "nil pointer dereference"
  | Some g => store_wl workload (set_wl_waypoint (Some (set_destination (GatewayAddress_Address addr) g)) x)
  end.

(** [hostname.GetNamespace() + "/" + hostname.GetHostname()] *)
Definition waypoint_name (g : GatewayAddress) : string :=
  let hostname := GetHostname g in
  from_option nh_namespace "" hostname +:+ "/" +:+ from_option nh_hostname "" hostname.

Definition has_address (g : GatewayAddress) : bool := bool_decide (is_Some (GetAddress g)).

(** ** The cache; [sc] is the service cache it shares with the processor *)
Definition AddOrUpdateService (sc : serviceCache) (svc : ptr) : Go waypointCache bool :=
  x ← load_svc svc;
  let resourceName := Service_ResourceName x in
  let unassociated :=
    waypoint ← gets (fun w => serviceToWaypoint w !! resourceName);
    match waypoint with
    | Some waypoint =>
        modify (set_svcTo (delete resourceName));;
        call_associated waypoint (deleteService resourceName)
    | None => mret tt
    end;;
    mret true in
  match svc_waypoint x with
  | None => unassociated
  | Some g =>
      if has_address g then unassociated
      else
        let waypointResourceName := waypoint_name g in
        waypoint ← gets (fun w => serviceToWaypoint w !! resourceName);
        match waypoint with
        | Some waypoint =>
            if decide (waypoint <> waypointResourceName) then
              modify (set_svcTo (delete resourceName));;
              call_associated waypoint (deleteService resourceName)
            else mret tt
        | None => mret tt
        end;;
        associated ← gets (fun w => associatedObjects w !! waypointResourceName);
        ret ← match associated with
              | Some associated =>
                  match waypointAddress associated with
                  | Some addr => updateServiceWaypoint svc addr;; mret true
                  | None => mret false
                  end
              | None =>
                  addrs ← match GetService waypointResourceName sc with
                          | Some ws => y ← load_svc ws; mret (svc_addresses y)
                          | None => mret []
                          end;
                  match addrs with
                  | addr :: _ =>
                      updateServiceWaypoint svc addr;;
                      modify (set_associated (<[waypointResourceName := newAssociatedObjects (Some addr)]>));;
                      mret true
                  | [] =>
                      modify (set_associated (<[waypointResourceName := newAssociatedObjects None]>));;
                      mret false
                  end
              end;
        modify (set_svcTo (<[resourceName := waypointResourceName]>));;
        call_associated waypointResourceName (addService resourceName svc);;
        mret ret
  end.

Definition DeleteService (resourceName : string) : Go waypointCache unit :=
  waypoint ← gets (fun w => serviceToWaypoint w !! resourceName);
  match waypoint with
  | Some waypoint =>
      modify (set_svcTo (delete resourceName));;
      a ← gets (fun w => associatedObjects w !! waypoint);
      match a with
      | Some associate => modify (set_associated (<[waypoint := deleteService resourceName associate]>))
      | None => mret tt
      end
  | None => mret tt
  end;;
  modify (set_associated (delete resourceName)).

Definition AddOrUpdateWorkload (sc : serviceCache) (workload : ptr) : Go waypointCache bool :=
  x ← load_wl workload;
  let uid := wl_uid x in
  let unassociated :=
    waypoint ← gets (fun w => workloadToWaypoint w !! uid);
    match waypoint with
    | Some waypoint =>
        modify (set_wlTo (delete uid));;
        call_associated waypoint (deleteWorkload uid)
    | None => mret tt
    end;;
    mret true in
  match wl_waypoint x with
  | None => unassociated
  | Some g =>
      if has_address g then unassociated
      else
        let waypointResourceName := waypoint_name g in
        waypoint ← gets (fun w => workloadToWaypoint w !! uid);
        match waypoint with
        | Some waypoint =>
            if decide (waypoint <> waypointResourceName) then
              modify (set_wlTo (delete uid));;
              call_associated waypoint (deleteWorkload uid)
            else mret tt
        | None => mret tt
        end;;
        associated ← gets (fun w => associatedObjects w !! waypointResourceName);
        ret ← match associated with
              | Some associated =>
                  match waypointAddress associated with
                  | Some addr => updateWorkloadWaypoint workload addr;; mret true
                  | None => mret false
                  end
              | None =>
                  addrs ← match GetService waypointResourceName sc with
                          | Some ws => y ← load_svc ws; mret (svc_addresses y)
                          | None => mret []
                          end;
                  match addrs with
                  | addr :: _ =>
                      updateWorkloadWaypoint workload addr;;
                      modify (set_associated (<[waypointResourceName := newAssociatedObjects (Some addr)]>));;
                      mret true
                  | [] =>
                      modify (set_associated (<[waypointResourceName := newAssociatedObjects None]>));;
                      mret false
                  end
              end;
        modify (set_wlTo (<[uid := waypointResourceName]>));;
        call_associated waypointResourceName (addWorkload uid workload);;
        mret ret
  end.

Definition DeleteWorkload (uid : string) : Go waypointCache unit :=
  waypoint ← gets (fun w => workloadToWaypoint w !! uid);
  match waypoint with
  | Some waypoint =>
      modify (set_wlTo (delete uid));;
      a ← gets (fun w => associatedObjects w !! waypoint);
      match a with
      | Some associated => modify (set_associated (<[waypoint := deleteWorkload uid associated]>))
      | None => mret tt
      end
  | None => mret tt
  end.

(** [associated.update(addr)] *)
Definition update `{Env} (name : string) (a : waypointAssociatedObjects) (addr : NetworkAddress)
    : Go waypointCache (list ptr * list ptr) :=
  modify (set_associated (<[name := mkAssociated (Some addr) (services a) (workloads a)]>));;
  ss ← range (map_to_list (services a));
  fold_each (ss.*2) tt (fun _ svc => updateServiceWaypoint svc addr);;
  ws ← range (map_to_list (workloads a));
  fold_each (ws.*2) tt (fun _ workload => updateWorkloadWaypoint workload addr);;
  mret (ss.*2, ws.*2).

(** The text forms of two addresses are equal exactly when the addresses are. *)
Definition Refresh `{Env} (svc : ptr) : Go waypointCache (list ptr * list ptr) :=
  x ← load_svc svc;
  match svc_addresses x with
  | [] => mret ([], [])
  | address :: _ =>
      let resourceName := Service_ResourceName x in
      a ← gets (fun w => associatedObjects w !! resourceName);
      match a with
      | None => mret ([], [])
      | Some associated =>
          if decide (waypointAddress associated = Some address) then mret ([], [])
          else update resourceName associated address
      end
  end.

(** ** The invariant

    Every recorded waypoint has an entry; what an entry lists is linked back
    to it, exists under its name and has a waypoint to rewrite.  [ok n] leaves
    out the last part for the service whose object is being changed. *)
Record wc_ok_but (ok : string -> Prop) (w : World) (c : waypointCache) : Prop := {
  wk_svc : forall n wp, serviceToWaypoint c !! n = Some wp -> is_Some (associatedObjects c !! wp);
  wk_svc_link : forall wp a n q, associatedObjects c !! wp = Some a -> services a !! n = Some q ->
    serviceToWaypoint c !! n = Some wp;
  wk_svc_obj : forall wp a n q, associatedObjects c !! wp = Some a -> services a !! n = Some q -> ok n ->
    exists x, svcs w !! q = Some x /\ Service_ResourceName x = n /\ is_Some (svc_waypoint x);
  wk_wl : forall n wp, workloadToWaypoint c !! n = Some wp -> is_Some (associatedObjects c !! wp);
  wk_wl_link : forall wp a n q, associatedObjects c !! wp = Some a -> workloads a !! n = Some q ->
    workloadToWaypoint c !! n = Some wp;
  wk_wl_obj : forall wp a n q, associatedObjects c !! wp = Some a -> workloads a !! n = Some q ->
    exists x, wls w !! q = Some x /\ wl_uid x = n /\ is_Some (wl_waypoint x)
}.
Definition wc_ok : World -> waypointCache -> Prop := wc_ok_but (fun _ => True).

Lemma wc_ok_new w : wc_ok w NewWaypointCache.
Proof. split; cbn; intros *; by rewrite ?lookup_empty. Qed.

Lemma wc_ok_but_weaken (P P' : string -> Prop) w c :
  (forall n, P' n -> P n) -> wc_ok_but P w c -> wc_ok_but P' w c.
Proof. intros HP []. split; eauto. Qed.

Lemma wc_ok_world (P : string -> Prop) w w' c :
  (forall q x, svcs w !! q = Some x -> P (Service_ResourceName x) -> is_Some (svc_waypoint x) ->
     exists x', svcs w' !! q = Some x' /\ Service_ResourceName x' = Service_ResourceName x /\
       is_Some (svc_waypoint x')) ->
  (forall q x, wls w !! q = Some x -> is_Some (wl_waypoint x) ->
     exists x', wls w' !! q = Some x' /\ wl_uid x' = wl_uid x /\ is_Some (wl_waypoint x')) ->
  wc_ok_but P w c -> wc_ok_but P w' c.
Proof.
  intros Hs Hw [A B C D E F]. split; eauto.
  - intros wp a n q Ha Hn HP. destruct (C wp a n q Ha Hn HP) as (x & Hx & <- & Hg). eauto.
  - intros wp a n q Ha Hn. destruct (F wp a n q Ha Hn) as (x & Hx & <- & Hg). eauto.
Qed.

(** Taking an object out of its entry, and putting it in one. *)
Definition unlink_svc (n : string) (c : waypointCache) : waypointCache :=
  match serviceToWaypoint c !! n with
  | Some wn => set_associated (alter (deleteService n) wn) (set_svcTo (delete n) c)
  | None => c
  end.
Definition link_svc (n wn : string) (q : ptr) (c : waypointCache) : waypointCache :=
  set_associated (alter (addService n q) wn) (set_svcTo (<[n := wn]>) c).
Definition unlink_wl (n : string) (c : waypointCache) : waypointCache :=
  match workloadToWaypoint c !! n with
  | Some wn => set_associated (alter (deleteWorkload n) wn) (set_wlTo (delete n) c)
  | None => c
  end.
Definition link_wl (n wn : string) (q : ptr) (c : waypointCache) : waypointCache :=
  set_associated (alter (addWorkload n q) wn) (set_wlTo (<[n := wn]>) c).

Lemma alter_is_Some {A} (f : A -> A) (m : gmap string A) i j :
  is_Some (alter f i m !! j) <-> is_Some (m !! j).
Proof. rewrite lookup_alter. case_decide; subst; [|done]. by rewrite fmap_is_Some. Qed.

Lemma wc_ok_unlink_svc n w c :
  wc_ok_but (fun m => m <> n) w c ->
  wc_ok w (unlink_svc n c) /\ serviceToWaypoint (unlink_svc n c) !! n = None.
Proof.
  intros [A B C D E F]. unfold unlink_svc. destruct (serviceToWaypoint c !! n) as [wn|] eqn:En.
  - split; [|cbn; apply lookup_delete_eq]. split; cbn.
    + intros m wm Hm. apply lookup_delete_Some in Hm as [_ Hm]. apply alter_is_Some. eauto.
    + intros wm a m q. rewrite lookup_alter_Some. intros [(-> & a' & Ha & ->)|[Hne Ha]] Hm.
      * cbn in Hm. apply lookup_delete_Some in Hm as [Hnm Hm]. rewrite lookup_delete_ne by done. eauto.
      * rewrite lookup_delete_ne; [eauto|]. intros ->. specialize (B _ _ _ _ Ha Hm). congruence.
    + intros wm a m q. rewrite lookup_alter_Some. intros [(-> & a' & Ha & ->)|[Hne Ha]] Hm _.
      * cbn in Hm. apply lookup_delete_Some in Hm as [Hnm Hm]. eauto.
      * assert (m <> n) by (intros ->; specialize (B _ _ _ _ Ha Hm); congruence). eauto.
    + intros m wm Hm. apply alter_is_Some. eauto.
    + intros wm a m q. rewrite lookup_alter_Some. intros [(-> & a' & Ha & ->)|[Hne Ha]] Hm; eauto.
    + intros wm a m q. rewrite lookup_alter_Some. intros [(-> & a' & Ha & ->)|[Hne Ha]] Hm; eauto.
  - split; [|done]. split; eauto. intros wm a m q Ha Hm _.
    assert (m <> n) by (intros ->; specialize (B _ _ _ _ Ha Hm); congruence). eauto.
Qed.

Lemma wc_ok_unlink_wl n w c :
  wc_ok w c -> wc_ok w (unlink_wl n c) /\ workloadToWaypoint (unlink_wl n c) !! n = None.
Proof.
  intros [A B C D E F]. unfold unlink_wl. destruct (workloadToWaypoint c !! n) as [wn|] eqn:En.
  2: { split; [|done]. by split. }
  split; [|cbn; apply lookup_delete_eq]. split; cbn.
  - intros m wm Hm. apply alter_is_Some. eauto.
  - intros wm a m q. rewrite lookup_alter_Some. intros [(-> & a' & Ha & ->)|[Hne Ha]] Hm; eauto.
  - intros wm a m q. rewrite lookup_alter_Some. intros [(-> & a' & Ha & ->)|[Hne Ha]] Hm; eauto.
  - intros m wm Hm. apply lookup_delete_Some in Hm as [_ Hm]. apply alter_is_Some. eauto.
  - intros wm a m q. rewrite lookup_alter_Some. intros [(-> & a' & Ha & ->)|[Hne Ha]] Hm.
    + cbn in Hm. apply lookup_delete_Some in Hm as [Hnm Hm]. rewrite lookup_delete_ne by done. eauto.
    + rewrite lookup_delete_ne; [eauto|]. intros ->. specialize (E _ _ _ _ Ha Hm). congruence.
  - intros wm a m q. rewrite lookup_alter_Some. intros [(-> & a' & Ha & ->)|[Hne Ha]] Hm.
    + cbn in Hm. apply lookup_delete_Some in Hm as [Hnm Hm]. eauto.
    + eauto.
Qed.

Lemma wc_ok_link_svc n wn q x w c :
  wc_ok_but (fun m => m <> n) w c ->
  serviceToWaypoint c !! n = None \/ serviceToWaypoint c !! n = Some wn ->
  is_Some (associatedObjects c !! wn) ->
  svcs w !! q = Some x -> Service_ResourceName x = n -> is_Some (svc_waypoint x) ->
  wc_ok w (link_svc n wn q c).
Proof.
  intros [A B C D E F] Hn Hwn Hq Hx Hg. split; cbn.
  - intros m wm Hm. apply alter_is_Some. apply lookup_insert_Some in Hm as [[_ <-]|[_ Hm]]; eauto.
  - intros wm a m q'. rewrite lookup_alter_Some. intros [(-> & a' & Ha & ->)|[Hne Ha]] Hm.
    + cbn in Hm. apply lookup_insert_Some in Hm as [[<- _]|[Hnm Hm]]; [by rewrite lookup_insert_eq|].
      rewrite lookup_insert_ne by done. eauto.
    + specialize (B _ _ _ _ Ha Hm). rewrite lookup_insert_ne; [done|].
      intros <-. destruct Hn; congruence.
  - intros wm a m q'. rewrite lookup_alter_Some. intros [(-> & a' & Ha & ->)|[Hne Ha]] Hm _.
    + cbn in Hm. apply lookup_insert_Some in Hm as [[<- <-]|[Hnm Hm]]; eauto.
    + assert (m <> n); [|eauto]. intros ->. specialize (B _ _ _ _ Ha Hm). destruct Hn; congruence.
  - intros m wm Hm. apply alter_is_Some. eauto.
  - intros wm a m q'. rewrite lookup_alter_Some. intros [(-> & a' & Ha & ->)|[Hne Ha]] Hm; eauto.
  - intros wm a m q'. rewrite lookup_alter_Some. intros [(-> & a' & Ha & ->)|[Hne Ha]] Hm; eauto.
Qed.

Lemma wc_ok_link_wl n wn q x w c :
  wc_ok w c ->
  workloadToWaypoint c !! n = None \/ workloadToWaypoint c !! n = Some wn ->
  is_Some (associatedObjects c !! wn) ->
  wls w !! q = Some x -> wl_uid x = n -> is_Some (wl_waypoint x) ->
  wc_ok w (link_wl n wn q c).
Proof.
  intros [A B C D E F] Hn Hwn Hq Hx Hg. split; cbn.
  - intros m wm Hm. apply alter_is_Some. eauto.
  - intros wm a m q'. rewrite lookup_alter_Some. intros [(-> & a' & Ha & ->)|[Hne Ha]] Hm; eauto.
  - intros wm a m q'. rewrite lookup_alter_Some. intros [(-> & a' & Ha & ->)|[Hne Ha]] Hm; eauto.
  - intros m wm Hm. apply alter_is_Some. apply lookup_insert_Some in Hm as [[_ <-]|[_ Hm]]; eauto.
  - intros wm a m q'. rewrite lookup_alter_Some. intros [(-> & a' & Ha & ->)|[Hne Ha]] Hm.
    + cbn in Hm. apply lookup_insert_Some in Hm as [[<- _]|[Hnm Hm]]; [by rewrite lookup_insert_eq|].
      rewrite lookup_insert_ne by done. eauto.
    + specialize (E _ _ _ _ Ha Hm). rewrite lookup_insert_ne; [done|].
      intros <-. destruct Hn; congruence.
  - intros wm a m q'. rewrite lookup_alter_Some. intros [(-> & a' & Ha & ->)|[Hne Ha]] Hm.
    + cbn in Hm. apply lookup_insert_Some in Hm as [[<- <-]|[Hnm Hm]]; eauto.
    + eauto.
Qed.

(** A new entry for a waypoint that has none. *)
Lemma wc_ok_new_entry (P : string -> Prop) wn addr w c :
  associatedObjects c !! wn = None -> wc_ok_but P w c ->
  wc_ok_but P w (set_associated (<[wn := newAssociatedObjects addr]>) c).
Proof.
  intros Hn [A B C D E F].
  assert (forall wm, is_Some (associatedObjects c !! wm) ->
            is_Some (<[wn := newAssociatedObjects addr]> (associatedObjects c) !! wm)) as Hmono.
  { intros wm. rewrite lookup_insert. by case_decide. }
  split; cbn; eauto.
  all: intros wm a m q; rewrite lookup_insert_Some; intros [[<- <-]|[Hne Ha]] Hm; [|by eauto].
  all: cbn in Hm; by rewrite lookup_empty in Hm.
Qed.

Section wp.
Context (p : bool).

Lemma wp_call_associated wn f (Q : unit -> World -> waypointCache -> Prop) w c :
  is_Some (associatedObjects c !! wn) ->
  Q tt w (set_associated (alter f wn) c) -> wp p (call_associated wn f) Q w c.
Proof.
  intros [a Ha] HQ. unfold call_associated. wp_steps. rewrite Ha. wp_steps.
  unfold set_associated in *. by rewrite alter_alt, Ha in HQ.
Qed.

(** The association of a service or workload, when it is to go. *)
Lemma wp_unlink_svc n (Q : unit -> World -> waypointCache -> Prop) w c :
  (forall wn, serviceToWaypoint c !! n = Some wn -> is_Some (associatedObjects c !! wn)) ->
  Q tt w (unlink_svc n c) ->
  wp p (match serviceToWaypoint c !! n with
        | Some waypoint =>
            modify (set_svcTo (delete n));; call_associated waypoint (deleteService n)
        | None => mret tt
        end) Q w c.
Proof.
  intros H HQ. unfold unlink_svc in HQ.
  destruct (serviceToWaypoint c !! n) as [wn|]; wp_steps; [|done].
  apply wp_call_associated; [cbn; eauto|done].
Qed.

Lemma wp_unlink_wl n (Q : unit -> World -> waypointCache -> Prop) w c :
  (forall wn, workloadToWaypoint c !! n = Some wn -> is_Some (associatedObjects c !! wn)) ->
  Q tt w (unlink_wl n c) ->
  wp p (match workloadToWaypoint c !! n with
        | Some waypoint =>
            modify (set_wlTo (delete n));; call_associated waypoint (deleteWorkload n)
        | None => mret tt
        end) Q w c.
Proof.
  intros H HQ. unfold unlink_wl in HQ.
  destruct (workloadToWaypoint c !! n) as [wn|]; wp_steps; [|done].
  apply wp_call_associated; [cbn; eauto|done].
Qed.
End wp.

(** What [AddOrUpdateService] leaves behind for the service [x] at [q]. *)
Record add_svc_post (q : ptr) (x : Service) (w : World) (c : waypointCache)
    (ret : bool) (w' : World) (c' : waypointCache) : Prop := {
  as_ok : wc_ok w' c';
  as_ret : ret = true <->
    match svc_waypoint (get_svc q w') with Some g => has_address g = true | None => True end;
  as_kept : ret = false -> w' = w;
  as_frame : w' = w \/ exists g, w' = set_svcs (<[q := set_svc_waypoint (Some g) x]>) w;
  as_link : forall g, svc_waypoint x = Some g -> has_address g = false ->
    exists a, associatedObjects c' !! waypoint_name g = Some a /\
      services a !! Service_ResourceName x = Some q /\
      (ret = true -> exists addr, address a = Some addr /\
         svc_waypoint (get_svc q w') = Some (set_destination (GatewayAddress_Address addr) g)) /\
      (ret = false -> address a = None)
}.

(** The second half of [AddOrUpdateService]: the waypoint [wn] is looked up and
    the service linked to it. *)
Lemma add_svc_link q x g addr ret wn w c :
  svcs w !! q = Some x -> svc_waypoint x = Some g -> has_address g = false -> waypoint_name g = wn ->
  wc_ok_but (fun m => m <> Service_ResourceName x) w c ->
  serviceToWaypoint c !! Service_ResourceName x = None \/
    serviceToWaypoint c !! Service_ResourceName x = Some wn ->
  address <$> associatedObjects c !! wn = Some addr -> ret = bool_decide (is_Some addr) ->
  let w' := match addr with
            | Some addr =>
                set_svcs (<[q := set_svc_waypoint (Some (set_destination (GatewayAddress_Address addr) g)) x]>) w
            | None => w
            end in
  forall c0, add_svc_post q x w c0 ret w' (link_svc (Service_ResourceName x) wn q c).
Proof.
  intros Hq Hg Hga Hwn Hok Hto Hassoc -> w' c0.
  destruct (associatedObjects c !! wn) as [a|] eqn:Ea; [|done]. injection Hassoc as Hassoc.
  assert (exists x', svcs w' !! q = Some x' /\ Service_ResourceName x' = Service_ResourceName x /\
    svc_waypoint x' = Some (match addr with
                            | Some addr => set_destination (GatewayAddress_Address addr) g
                            | None => g
                            end)) as (x' & Hx' & Hn' & Hg').
  { subst w'. destruct addr as [addr|]; [|eauto]. eexists. split; [apply lookup_insert_eq|done]. }
  assert (wc_ok_but (fun m => m <> Service_ResourceName x) w' c) as Hok'.
  { eapply wc_ok_world, Hok; subst w'; destruct addr as [addr|]; eauto; cbn.
    intros q' y Hy Hne Hgy. destruct (decide (q = q')) as [<-|Hqq]; [congruence|].
    rewrite lookup_insert_ne by done. eauto. }
  split.
  - eapply wc_ok_link_svc; eauto.
  - unfold get_svc. rewrite Hx'. cbn. rewrite Hg'. destruct addr as [addr|]; cbn.
    + done.
    + by rewrite Hga.
  - by destruct addr.
  - subst w'. destruct addr as [addr|]; eauto.
  - intros g0 Hg0 _. rewrite Hg in Hg0. injection Hg0 as <-. rewrite Hwn. unfold link_svc. cbn.
    rewrite lookup_alter_eq, Ea. cbn. eexists. split; [done|]. cbn.
    split; [apply lookup_insert_eq|]. destruct addr as [addr|]; cbn.
    + split; [|done]. intros _. exists addr. split; [done|]. unfold get_svc. by rewrite Hx'.
    + done.
Qed.

(** The lookup of the waypoint [wn] and the rewriting of the service. *)
Lemma wp_resolve_svc p sc q x g wn n (Q : bool -> World -> waypointCache -> Prop) w c :
  svcs w !! q = Some x -> svc_waypoint x = Some g ->
  wc_ok_but (fun m => m <> n) w c ->
  (forall addr c', wc_ok_but (fun m => m <> n) w c' -> serviceToWaypoint c' = serviceToWaypoint c ->
     address <$> associatedObjects c' !! wn = Some addr ->
     Q (bool_decide (is_Some addr))
       (match addr with
        | Some addr =>
            set_svcs (<[q := set_svc_waypoint (Some (set_destination (GatewayAddress_Address addr) g)) x]>) w
        | None => w
        end) c') ->
  wp p (match associatedObjects c !! wn with
        | Some associated =>
            match waypointAddress associated with
            | Some addr => updateServiceWaypoint q addr;; mret true
            | None => mret false
            end
        | None =>
            addrs ← match GetService wn sc with
                    | Some ws => y ← load_svc ws; mret (svc_addresses y)
                    | None => mret []
                    end;
            match addrs with
            | addr :: _ =>
                updateServiceWaypoint q addr;;
                modify (set_associated (<[wn := newAssociatedObjects (Some addr)]>));;
                mret true
            | [] =>
                modify (set_associated (<[wn := newAssociatedObjects None]>));;
                mret false
            end
        end) Q w c.
Proof.
  intros Hq Hg Hok HQ.
  assert (forall addr (Q : unit -> World -> waypointCache -> Prop) c,
    Q tt (set_svcs (<[q := set_svc_waypoint (Some (set_destination (GatewayAddress_Address addr) g)) x]>) w) c ->
    wp p (updateServiceWaypoint q addr) Q w c) as Hup.
  { intros addr Q' c' HQ'. unfold updateServiceWaypoint. wp_steps.
    unfold get_svc. rewrite Hq. cbn. by rewrite Hg. }
  destruct (associatedObjects c !! wn) as [a|] eqn:Ea.
  - destruct (waypointAddress a) as [addr|] eqn:Eaddr; wp_steps.
    + apply Hup. wp_steps. apply (HQ (Some addr)); [done|done|]. rewrite Ea. cbn. by rewrite <-Eaddr.
    + apply (HQ None); [done|done|]. rewrite Ea. cbn. by rewrite <-Eaddr.
  - wp_step.
    eapply (wp_mono _ _ (fun _ w' c' => w' = w /\ c' = c)).
    { destruct (GetService wn sc); wp_steps; done. }
    cbn. intros [|addr l] ? ? [-> ->]; wp_steps.
    + apply (HQ None); [by apply wc_ok_new_entry|done|]. cbn. by rewrite lookup_insert_eq.
    + apply Hup. wp_steps. apply (HQ (Some addr)); [by apply wc_ok_new_entry|done|]. cbn. by rewrite lookup_insert_eq.
Qed.

Lemma wp_wc_AddOrUpdateService sc q x (Q : bool -> World -> waypointCache -> Prop) p w c :
  svcs w !! q = Some x -> wc_ok_but (fun m => m <> Service_ResourceName x) w c ->
  (forall ret w' c', add_svc_post q x w c ret w' c' -> Q ret w' c') ->
  wp p (AddOrUpdateService sc q) Q w c.
Proof.
  intros Hq Hok HQ. unfold AddOrUpdateService. wp_steps.
  assert (get_svc q w = x) as Hx by (unfold get_svc; by rewrite Hq). rewrite Hx.
  set (n := Service_ResourceName x) in *.
  assert (match svc_waypoint x with Some g => has_address g = true | None => True end ->
    wp p (waypoint ← gets (fun w => serviceToWaypoint w !! n);
          match waypoint with
          | Some waypoint =>
              modify (set_svcTo (delete n));; call_associated waypoint (deleteService n)
          | None => mret tt
          end;; mret true) Q w c) as Hun.
  { intros Hres. wp_steps. apply wp_unlink_svc; [apply (wk_svc _ _ _ Hok)|]. wp_steps. apply HQ.
    destruct (wc_ok_unlink_svc _ _ _ Hok) as [Hok' _]. split; [done| |done| |].
    - by rewrite Hx.
    - by left.
    - intros g Hg Hga. rewrite Hg in Hres. congruence. }
  destruct (svc_waypoint x) as [g|] eqn:Hg; [|by apply Hun].
  destruct (has_address g) eqn:Hga; [by apply Hun|]. clear Hun.
  assert (wp p (match serviceToWaypoint c !! n with
                | Some waypoint =>
                    if decide (waypoint <> waypoint_name g)
                    then modify (set_svcTo (delete n));; call_associated waypoint (deleteService n)
                    else mret tt
                | None => mret tt
                end)
            (fun _ w' c' => w' = w /\ wc_ok_but (fun m => m <> n) w c' /\
               (serviceToWaypoint c' !! n = None \/ serviceToWaypoint c' !! n = Some (waypoint_name g)))
            w c) as Hfirst.
  { destruct (serviceToWaypoint c !! n) as [wn|] eqn:En; [|by wp_steps; auto].
    destruct (decide (wn <> waypoint_name g)) as [Hd|Hd].
    - pose proof (wp_unlink_svc p n (fun _ w' c' => w' = w /\ wc_ok_but (fun m => m <> n) w c' /\
         (serviceToWaypoint c' !! n = None \/ serviceToWaypoint c' !! n = Some (waypoint_name g))) w c) as Hu.
      rewrite En in Hu. apply Hu; [intros wn' [= <-]; by apply (wk_svc _ _ _ Hok n)|].
      destruct (wc_ok_unlink_svc _ _ _ Hok) as [Hok' Hn]. split; [done|].
      split; [|by left]. by eapply wc_ok_but_weaken, Hok'.
    - wp_steps. apply dec_stable in Hd as ->. auto. }
  wp_steps. eapply wp_mono; [exact Hfirst|]. cbn. clear Hfirst. intros _ ? c1 (-> & Hok1 & Hto). wp_steps.
  eapply wp_resolve_svc; [done|done|done|]. intros addr c2 Hok2 Hto2 Ha2. wp_steps.
  apply wp_call_associated; [cbn; by destruct (associatedObjects c2 !! _)|]. wp_steps.
  apply HQ. eapply add_svc_link; try done. by rewrite Hto2.
Qed.

(** What [AddOrUpdateWorkload] leaves behind for the workload [x] at [q]. *)
Record add_wl_post (q : ptr) (x : Workload) (w : World) (c : waypointCache)
    (ret : bool) (w' : World) (c' : waypointCache) : Prop := {
  aw_ok : wc_ok w' c';
  aw_ret : ret = true <->
    match wl_waypoint (get_wl q w') with Some g => has_address g = true | None => True end;
  aw_kept : ret = false -> w' = w;
  aw_frame : w' = w \/ exists g, w' = set_wls (<[q := set_wl_waypoint (Some g) x]>) w;
  aw_link : forall g, wl_waypoint x = Some g -> has_address g = false ->
    exists a, associatedObjects c' !! waypoint_name g = Some a /\
      workloads a !! wl_uid x = Some q /\
      (ret = true -> exists addr, address a = Some addr /\
         wl_waypoint (get_wl q w') = Some (set_destination (GatewayAddress_Address addr) g)) /\
      (ret = false -> address a = None)
}.

(** The same for a workload. *)
Lemma add_wl_link q x g addr ret wn w c :
  wls w !! q = Some x -> wl_waypoint x = Some g -> has_address g = false -> waypoint_name g = wn ->
  wc_ok w c ->
  workloadToWaypoint c !! wl_uid x = None \/
    workloadToWaypoint c !! wl_uid x = Some wn ->
  address <$> associatedObjects c !! wn = Some addr -> ret = bool_decide (is_Some addr) ->
  let w' := match addr with
            | Some addr =>
                set_wls (<[q := set_wl_waypoint (Some (set_destination (GatewayAddress_Address addr) g)) x]>) w
            | None => w
            end in
  forall c0, add_wl_post q x w c0 ret w' (link_wl (wl_uid x) wn q c).
Proof.
  intros Hq Hg Hga Hwn Hok Hto Hassoc -> w' c0.
  destruct (associatedObjects c !! wn) as [a|] eqn:Ea; [|done]. injection Hassoc as Hassoc.
  assert (exists x', wls w' !! q = Some x' /\ wl_uid x' = wl_uid x /\
    wl_waypoint x' = Some (match addr with
                            | Some addr => set_destination (GatewayAddress_Address addr) g
                            | None => g
                            end)) as (x' & Hx' & Hn' & Hg').
  { subst w'. destruct addr as [addr|]; [|eauto]. eexists. split; [apply lookup_insert_eq|done]. }
  assert (wc_ok w' c) as Hok'.
  { eapply wc_ok_world, Hok; subst w'; destruct addr as [addr|]; eauto; cbn.
    intros q' y Hy Hgy. destruct (decide (q = q')) as [<-|Hqq].
    - rewrite lookup_insert_eq. assert (y = x) as -> by congruence. by eexists.
    - rewrite lookup_insert_ne by done. eauto. }
  split.
  - eapply wc_ok_link_wl; eauto.
  - unfold get_wl. rewrite Hx'. cbn. rewrite Hg'. destruct addr as [addr|]; cbn.
    + done.
    + by rewrite Hga.
  - by destruct addr.
  - subst w'. destruct addr as [addr|]; eauto.
  - intros g0 Hg0 _. rewrite Hg in Hg0. injection Hg0 as <-. rewrite Hwn. unfold link_wl. cbn.
    rewrite lookup_alter_eq, Ea. cbn. eexists. split; [done|]. cbn.
    split; [apply lookup_insert_eq|]. destruct addr as [addr|]; cbn.
    + split; [|done]. intros _. exists addr. split; [done|]. unfold get_wl. by rewrite Hx'.
    + done.
Qed.

(** ... and of the workload. *)
Lemma wp_resolve_wl p sc q x g wn (Q : bool -> World -> waypointCache -> Prop) w c :
  wls w !! q = Some x -> wl_waypoint x = Some g ->
  wc_ok w c ->
  (forall addr c', wc_ok w c' -> workloadToWaypoint c' = workloadToWaypoint c ->
     address <$> associatedObjects c' !! wn = Some addr ->
     Q (bool_decide (is_Some addr))
       (match addr with
        | Some addr =>
            set_wls (<[q := set_wl_waypoint (Some (set_destination (GatewayAddress_Address addr) g)) x]>) w
        | None => w
        end) c') ->
  wp p (match associatedObjects c !! wn with
        | Some associated =>
            match waypointAddress associated with
            | Some addr => updateWorkloadWaypoint q addr;; mret true
            | None => mret false
            end
        | None =>
            addrs ← match GetService wn sc with
                    | Some ws => y ← load_svc ws; mret (svc_addresses y)
                    | None => mret []
                    end;
            match addrs with
            | addr :: _ =>
                updateWorkloadWaypoint q addr;;
                modify (set_associated (<[wn := newAssociatedObjects (Some addr)]>));;
                mret true
            | [] =>
                modify (set_associated (<[wn := newAssociatedObjects None]>));;
                mret false
            end
        end) Q w c.
Proof.
  intros Hq Hg Hok HQ.
  assert (forall addr (Q : unit -> World -> waypointCache -> Prop) c,
    Q tt (set_wls (<[q := set_wl_waypoint (Some (set_destination (GatewayAddress_Address addr) g)) x]>) w) c ->
    wp p (updateWorkloadWaypoint q addr) Q w c) as Hup.
  { intros addr Q' c' HQ'. unfold updateWorkloadWaypoint. wp_steps.
    unfold get_wl. rewrite Hq. cbn. by rewrite Hg. }
  destruct (associatedObjects c !! wn) as [a|] eqn:Ea.
  - destruct (waypointAddress a) as [addr|] eqn:Eaddr; wp_steps.
    + apply Hup. wp_steps. apply (HQ (Some addr)); [done|done|]. rewrite Ea. cbn. by rewrite <-Eaddr.
    + apply (HQ None); [done|done|]. rewrite Ea. cbn. by rewrite <-Eaddr.
  - wp_step.
    eapply (wp_mono _ _ (fun _ w' c' => w' = w /\ c' = c)).
    { destruct (GetService wn sc); wp_steps; done. }
    cbn. intros [|addr l] ? ? [-> ->]; wp_steps.
    + apply (HQ None); [by apply wc_ok_new_entry|done|]. cbn. by rewrite lookup_insert_eq.
    + apply Hup. wp_steps. apply (HQ (Some addr)); [by apply wc_ok_new_entry|done|]. cbn. by rewrite lookup_insert_eq.
Qed.

Lemma wp_wc_AddOrUpdateWorkload sc q x (Q : bool -> World -> waypointCache -> Prop) p w c :
  wls w !! q = Some x -> wc_ok w c ->
  (forall ret w' c', add_wl_post q x w c ret w' c' -> Q ret w' c') ->
  wp p (AddOrUpdateWorkload sc q) Q w c.
Proof.
  intros Hq Hok HQ. unfold AddOrUpdateWorkload. wp_steps.
  assert (get_wl q w = x) as Hx by (unfold get_wl; by rewrite Hq). rewrite Hx.
  set (n := wl_uid x) in *.
  assert (match wl_waypoint x with Some g => has_address g = true | None => True end ->
    wp p (waypoint ← gets (fun w => workloadToWaypoint w !! n);
          match waypoint with
          | Some waypoint =>
              modify (set_wlTo (delete n));; call_associated waypoint (deleteWorkload n)
          | None => mret tt
          end;; mret true) Q w c) as Hun.
  { intros Hres. wp_steps. apply wp_unlink_wl; [apply (wk_wl _ _ _ Hok)|]. wp_steps. apply HQ.
    destruct (wc_ok_unlink_wl n _ _ Hok) as [Hok' _]. split; [done| |done| |].
    - by rewrite Hx.
    - by left.
    - intros g Hg Hga. rewrite Hg in Hres. congruence. }
  destruct (wl_waypoint x) as [g|] eqn:Hg; [|by apply Hun].
  destruct (has_address g) eqn:Hga; [by apply Hun|]. clear Hun.
  assert (wp p (match workloadToWaypoint c !! n with
                | Some waypoint =>
                    if decide (waypoint <> waypoint_name g)
                    then modify (set_wlTo (delete n));; call_associated waypoint (deleteWorkload n)
                    else mret tt
                | None => mret tt
                end)
            (fun _ w' c' => w' = w /\ wc_ok w c' /\
               (workloadToWaypoint c' !! n = None \/ workloadToWaypoint c' !! n = Some (waypoint_name g)))
            w c) as Hfirst.
  { destruct (workloadToWaypoint c !! n) as [wn|] eqn:En; [|by wp_steps; auto].
    destruct (decide (wn <> waypoint_name g)) as [Hd|Hd].
    - pose proof (wp_unlink_wl p n (fun _ w' c' => w' = w /\ wc_ok w c' /\
         (workloadToWaypoint c' !! n = None \/ workloadToWaypoint c' !! n = Some (waypoint_name g))) w c) as Hu.
      rewrite En in Hu. apply Hu; [intros wn' [= <-]; by apply (wk_wl _ _ _ Hok n)|].
      destruct (wc_ok_unlink_wl n _ _ Hok) as [Hok' Hn]. split; [done|].
      by split; [|left].
    - wp_steps. apply dec_stable in Hd as ->. auto. }
  wp_steps. eapply wp_mono; [exact Hfirst|]. cbn. clear Hfirst. intros _ ? c1 (-> & Hok1 & Hto). wp_steps.
  eapply wp_resolve_wl; [done|done|done|]. intros addr c2 Hok2 Hto2 Ha2. wp_steps.
  apply wp_call_associated; [cbn; by destruct (associatedObjects c2 !! _)|]. wp_steps.
  apply HQ. eapply add_wl_link; try done. by rewrite Hto2.
Qed.

(** ** Refreshing the objects of a waypoint *)
Definition point_svc (addr : NetworkAddress) (x : Service) : Service :=
  set_svc_waypoint (set_destination (GatewayAddress_Address addr) <$> svc_waypoint x) x.
Definition point_wl (addr : NetworkAddress) (x : Workload) : Workload :=
  set_wl_waypoint (set_destination (GatewayAddress_Address addr) <$> wl_waypoint x) x.

Lemma point_svc_idem addr x : point_svc addr (point_svc addr x) = point_svc addr x.
Proof. unfold point_svc. by destruct x as [? ? ? ? ? [?|] ?]. Qed.
Lemma point_wl_idem addr x : point_wl addr (point_wl addr x) = point_wl addr x.
Proof. unfold point_wl. by destruct x as [? ? ? ? ? ? ? [?|] ? ? ? ? ? ? ?]. Qed.

Lemma wp_point_svcs {S} p addr (l : list ptr) (Q : unit -> World -> S -> Prop) w s :
  Forall (fun q => exists x, svcs w !! q = Some x /\ is_Some (svc_waypoint x)) l ->
  (forall w', wls w' = wls w ->
     (forall q, svcs w' !! q = if decide (q ∈ l) then point_svc addr <$> svcs w !! q else svcs w !! q) ->
     Q tt w' s) ->
  wp p (fold_each l tt (fun _ svc => updateServiceWaypoint svc addr)) Q w s.
Proof.
  revert w. induction l as [|q l IH]; intros w Hl HQ; cbn [fold_each].
  - wp_steps. apply HQ; [done|]. intros q. by rewrite decide_False by set_solver.
  - apply Forall_cons in Hl as [(x & Hx & g & Hg) Hl]. wp_step. unfold updateServiceWaypoint at 1.
    wp_steps. unfold get_svc at 1. rewrite Hx. cbn. rewrite Hg. unfold store_svc. wp_steps. unfold get_svc. rewrite Hx. cbn.
    assert (set_svc_waypoint (Some (set_destination (GatewayAddress_Address addr) g)) x
            = point_svc addr x) as -> by (unfold point_svc; by rewrite Hg).
    apply IH.
    + apply Forall_forall. intros q' Hq'. rewrite Forall_forall in Hl. cbn.
      destruct (Hl q' Hq') as (x' & Hx' & Hg'). destruct (decide (q = q')) as [<-|Hne].
      * rewrite lookup_insert_eq. eexists. split; [done|]. unfold point_svc. cbn. by rewrite Hg.
      * rewrite lookup_insert_ne by done. eauto.
    + intros w' Hw Hs. apply HQ; [done|]. intros q'. rewrite Hs. cbn. rewrite lookup_insert.
      destruct (decide (q = q')) as [<-|Hne].
      * rewrite (decide_True (P := q ∈ q :: l)) by set_solver. rewrite Hx. cbn.
        case_decide; [|done]. cbn. by rewrite point_svc_idem.
      * apply decide_ext. set_solver.
Qed.

Lemma wp_point_wls {S} p addr (l : list ptr) (Q : unit -> World -> S -> Prop) w s :
  Forall (fun q => exists x, wls w !! q = Some x /\ is_Some (wl_waypoint x)) l ->
  (forall w', svcs w' = svcs w ->
     (forall q, wls w' !! q = if decide (q ∈ l) then point_wl addr <$> wls w !! q else wls w !! q) ->
     Q tt w' s) ->
  wp p (fold_each l tt (fun _ wl => updateWorkloadWaypoint wl addr)) Q w s.
Proof.
  revert w. induction l as [|q l IH]; intros w Hl HQ; cbn [fold_each].
  - wp_steps. apply HQ; [done|]. intros q. by rewrite decide_False by set_solver.
  - apply Forall_cons in Hl as [(x & Hx & g & Hg) Hl]. wp_step. unfold updateWorkloadWaypoint at 1.
    wp_steps. unfold get_wl at 1. rewrite Hx. cbn. rewrite Hg. unfold store_wl. wp_steps. unfold get_wl. rewrite Hx. cbn.
    assert (set_wl_waypoint (Some (set_destination (GatewayAddress_Address addr) g)) x
            = point_wl addr x) as -> by (unfold point_wl; by rewrite Hg).
    apply IH.
    + apply Forall_forall. intros q' Hq'. rewrite Forall_forall in Hl. cbn.
      destruct (Hl q' Hq') as (x' & Hx' & Hg'). destruct (decide (q = q')) as [<-|Hne].
      * rewrite lookup_insert_eq. eexists. split; [done|]. unfold point_wl. cbn. by rewrite Hg.
      * rewrite lookup_insert_ne by done. eauto.
    + intros w' Hw Hs. apply HQ; [done|]. intros q'. rewrite Hs. cbn. rewrite lookup_insert.
      destruct (decide (q = q')) as [<-|Hne].
      * rewrite (decide_True (P := q ∈ q :: l)) by set_solver. rewrite Hx. cbn.
        case_decide; [|done]. cbn. by rewrite point_wl_idem.
      * apply decide_ext. set_solver.
Qed.

(** The result of a refresh of the entry [a] of [name] with [addr]. *)
Record refresh_post (name : string) (a : waypointAssociatedObjects) (addr : NetworkAddress)
    (w : World) (c : waypointCache) (ret : list ptr * list ptr) (w' : World) (c' : waypointCache)
    : Prop := {
  rf_ok : wc_ok w' c';
  rf_svcs : ret.1 ≡ₚ (map_to_list (services a)).*2;
  rf_wls : ret.2 ≡ₚ (map_to_list (workloads a)).*2;
  rf_entry : associatedObjects c' =
    <[name := mkAssociated (Some addr) (services a) (workloads a)]> (associatedObjects c);
  rf_links : serviceToWaypoint c' = serviceToWaypoint c /\ workloadToWaypoint c' = workloadToWaypoint c;
  rf_svc : forall q, svcs w' !! q =
    if decide (q ∈ ret.1) then point_svc addr <$> svcs w !! q else svcs w !! q;
  rf_wl : forall q, wls w' !! q =
    if decide (q ∈ ret.2) then point_wl addr <$> wls w !! q else wls w !! q
}.

Lemma wc_ok_pointed (f : ptr -> bool) (g : ptr -> bool) addr w w' c :
  (forall q, svcs w' !! q = if f q then point_svc addr <$> svcs w !! q else svcs w !! q) ->
  (forall q, wls w' !! q = if g q then point_wl addr <$> wls w !! q else wls w !! q) ->
  wc_ok w c -> wc_ok w' c.
Proof.
  intros Hs Hw. apply wc_ok_world.
  - intros q x Hq _ Hg. rewrite Hs, Hq. destruct (f q); [|eauto]. cbn. eexists. split; [done|].
    split; [done|]. unfold point_svc. cbn. by rewrite fmap_is_Some.
  - intros q x Hq Hg. rewrite Hw, Hq. destruct (g q); [|eauto]. cbn. eexists. split; [done|].
    split; [done|]. unfold point_wl. cbn. by rewrite fmap_is_Some.
Qed.

Lemma wp_wc_update `{Env} p name a addr (Q : list ptr * list ptr -> World -> waypointCache -> Prop) w c :
  wc_ok w c -> associatedObjects c !! name = Some a ->
  (forall ret w' c', refresh_post name a addr w c ret w' c' -> Q ret w' c') ->
  wp p (update name a addr) Q w c.
Proof.
  intros Hok Ha HQ. unfold update. wp_steps. rename l' into ss, H0 into Hss.
  apply wp_point_svcs.
  { apply Forall_forall. intros q Hq. rewrite Hss in Hq. apply list_elem_of_fmap in Hq as ([n q'] & -> & Hq).
    apply elem_of_map_to_list in Hq. destruct (wk_svc_obj _ _ _ Hok _ _ _ _ Ha Hq) as (x & ? & _ & ?); eauto. }
  intros w1 Hw1 Hs1. wp_steps. rename l' into ws, H0 into Hws. apply wp_point_wls.
  { apply Forall_forall. intros q Hq. rewrite Hws in Hq. apply list_elem_of_fmap in Hq as ([n q'] & -> & Hq).
    apply elem_of_map_to_list in Hq. destruct (wk_wl_obj _ _ _ Hok _ _ _ _ Ha Hq) as (x & ? & _ & ?).
    exists x. cbn. rewrite Hw1. done. }
  intros w2 Hs2 Hw2. wp_steps. cbn in Hs1, Hw1, Hs2, Hw2. apply HQ. split; try done; cbn.
  - assert (wc_ok w (set_associated (<[name := mkAssociated (Some addr) (services a) (workloads a)]>) c)) as Hok'.
    { destruct Hok as [A B C D E F]. split; cbn.
      - intros n wn Hn. apply lookup_insert_is_Some'. eauto.
      - intros wn b n q. rewrite lookup_insert_Some. intros [[<- <-]|[? ?]] Hn; eauto.
      - intros wn b n q. rewrite lookup_insert_Some. intros [[<- <-]|[? ?]] Hn; eauto.
      - intros n wn Hn. apply lookup_insert_is_Some'. eauto.
      - intros wn b n q. rewrite lookup_insert_Some. intros [[<- <-]|[? ?]] Hn; eauto.
      - intros wn b n q. rewrite lookup_insert_Some. intros [[<- <-]|[? ?]] Hn; eauto. }
    eapply (wc_ok_pointed (fun q => bool_decide (q ∈ ss.*2)) (fun q => bool_decide (q ∈ ws.*2)) addr), Hok'.
    + intros q. rewrite Hs2, Hs1. by rewrite decide_bool_decide.
    + intros q. rewrite Hw2, Hw1. by rewrite decide_bool_decide.
  - by rewrite Hss.
  - by rewrite Hws.
  - intros q. by rewrite Hs2, Hs1.
  - intros q. by rewrite Hw2, Hw1.
Qed.

(** ** Deletions *)
Lemma wp_wc_DeleteService p n (Q : unit -> World -> waypointCache -> Prop) w c :
  Q tt w (set_associated (delete n) (unlink_svc n c)) -> wp p (DeleteService n) Q w c.
Proof.
  intros HQ. unfold DeleteService, unlink_svc in *. wp_steps.
  destruct (serviceToWaypoint c !! n) as [wn|]; wp_steps; [|done]. cbn.
  unfold set_associated in HQ. cbn in HQ. rewrite alter_alt in HQ.
  destruct (associatedObjects c !! wn); wp_steps; done.
Qed.

Lemma wp_wc_DeleteWorkload p n (Q : unit -> World -> waypointCache -> Prop) w c :
  Q tt w (unlink_wl n c) -> wp p (DeleteWorkload n) Q w c.
Proof.
  intros HQ. unfold DeleteWorkload, unlink_wl in *. wp_steps.
  destruct (workloadToWaypoint c !! n) as [wn|]; wp_steps; [|done]. cbn.
  unfold set_associated in HQ. cbn in HQ. rewrite alter_alt in HQ.
  destruct (associatedObjects c !! wn) eqn:E; wp_steps; [done|by destruct c].
Qed.

(** No service but [n] itself and no workload names [n] as its waypoint. *)
Definition unreferenced (n : string) (c : waypointCache) : Prop :=
  (forall m, serviceToWaypoint c !! m = Some n -> m = n) /\
  (forall u, workloadToWaypoint c !! u <> Some n).

Lemma wc_ok_DeleteService n w c :
  wc_ok w c -> unreferenced n c -> wc_ok w (set_associated (delete n) (unlink_svc n c)).
Proof.
  intros Hok [Hs Hw].
  destruct (wc_ok_unlink_svc n w c) as [Hok' Hn]; [by eapply wc_ok_but_weaken, Hok|].
  assert (forall m, serviceToWaypoint (unlink_svc n c) !! m <> Some n) as Hs'.
  { intros m Hm. assert (m = n) as ->; [|congruence]. apply Hs. unfold unlink_svc in Hm.
    destruct (serviceToWaypoint c !! n); [|done]. cbn in Hm. by apply lookup_delete_Some in Hm as []. }
  assert (forall u, workloadToWaypoint (unlink_svc n c) !! u <> Some n) as Hw'.
  { intros u. unfold unlink_svc. destruct (serviceToWaypoint c !! n); apply Hw. }
  destruct Hok' as [A B C D E F]. split; cbn.
  - intros m wn Hm. apply lookup_delete_is_Some. split; [|eauto]. intros ->. by apply (Hs' m).
  - intros wn a m q [_ Ha]%lookup_delete_Some. eauto.
  - intros wn a m q [_ Ha]%lookup_delete_Some. eauto.
  - intros m wn Hm. apply lookup_delete_is_Some. split; [|eauto]. intros ->. by apply (Hw' m).
  - intros wn a m q [_ Ha]%lookup_delete_Some. eauto.
  - intros wn a m q [_ Ha]%lookup_delete_Some. eauto.
Qed.

(** ** Pointers along the operations, panics included *)
Definition assoc_valid (w : World) (a : waypointAssociatedObjects) : Prop :=
  (forall n q, services a !! n = Some q -> is_Some (svcs w !! q)) /\
  (forall n q, workloads a !! n = Some q -> is_Some (wls w !! q)).
Definition wc_ptrs (w : World) (c : waypointCache) : Prop :=
  forall wn a, associatedObjects c !! wn = Some a -> assoc_valid w a.

Lemma wc_ok_ptrs w c : wc_ok w c -> wc_ptrs w c.
Proof.
  intros [_ _ C _ _ F] wn a Ha. split; intros n q Hq.
  - destruct (C _ _ _ _ Ha Hq I) as (x & Hx & _). by eexists.
  - destruct (F _ _ _ _ Ha Hq) as (x & Hx & _). by eexists.
Qed.

Lemma valid_svc_le w w' q : heap_le w w' -> is_Some (svcs w !! q) -> is_Some (svcs w' !! q).
Proof. intros [Hs _] [x Hx]. destruct (Hs q x Hx). by eexists. Qed.
Lemma valid_wl_le w w' q : heap_le w w' -> is_Some (wls w !! q) -> is_Some (wls w' !! q).
Proof. intros [_ Hw] [x Hx]. destruct (Hw q x Hx). by eexists. Qed.
Lemma assoc_valid_le w w' a : heap_le w w' -> assoc_valid w a -> assoc_valid w' a.
Proof. intros Hh [Hs Hw]. split; intros n q Hq; [eapply valid_svc_le|eapply valid_wl_le]; eauto. Qed.
Lemma wc_ptrs_le w w' c : heap_le w w' -> wc_ptrs w c -> wc_ptrs w' c.
Proof. intros Hh Hc wn a Ha. by eapply assoc_valid_le, Hc. Qed.

Definition heap_R {S} (w : World) (_ : S) (w' : World) (_ : S) : Prop := heap_le w w'.
#[export] Instance heap_R_preorder {S} : PreorderR (@heap_R S).
Proof. unfold heap_R. split; intros; [done|by etrans]. Qed.

(** The invariant while the object at [sq] or [wq] is processed. *)
Definition ptrs_at (sq wq : option ptr) (w : World) (c : waypointCache) : Prop :=
  wc_ptrs w c /\ (forall q, sq = Some q -> is_Some (svcs w !! q)) /\
  (forall q, wq = Some q -> is_Some (wls w !! q)).

Lemma ptrs_at_le sq wq w w' c : heap_le w w' -> ptrs_at sq wq w c -> ptrs_at sq wq w' c.
Proof.
  intros Hh (A & B & C). split; [by eapply wc_ptrs_le|]. split; intros q Hq; [eapply valid_svc_le|eapply valid_wl_le]; eauto.
Qed.

Section pointers.
Context (sq wq : option ptr).
Abbreviation valid m := (stays true (ptrs_at sq wq) heap_R m).

Lemma valid_updateServiceWaypoint q addr : valid (updateServiceWaypoint q addr).
Proof.
  intros w s Hs. unfold updateServiceWaypoint. wp_steps. destruct (svc_waypoint _); [|by apply wp_panic].
  unfold store_svc. wp_steps. split; [|apply heap_le_store_svc]. eapply ptrs_at_le, Hs. apply heap_le_store_svc.
Qed.
Lemma valid_updateWorkloadWaypoint q addr : valid (updateWorkloadWaypoint q addr).
Proof.
  intros w s Hs. unfold updateWorkloadWaypoint. wp_steps. destruct (wl_waypoint _); [|by apply wp_panic].
  unfold store_wl. wp_steps. split; [|apply heap_le_store_wl]. eapply ptrs_at_le, Hs. apply heap_le_store_wl.
Qed.
Lemma valid_call wn f :
  (forall w c a, ptrs_at sq wq w c -> assoc_valid w a -> assoc_valid w (f a)) -> valid (call_associated wn f).
Proof.
  intros Hf w c Hc. unfold call_associated. wp_steps. destruct (_ !! wn) as [a|] eqn:Ha; [|by apply wp_panic].
  wp_steps. split; [|by red]. split; [|apply Hc]. intros wm b. cbn. rewrite lookup_insert_Some.
  intros [[<- <-]|[_ Hb]]; [|by apply Hc in Hb]. eapply Hf; [done|]. by apply Hc in Ha.
Qed.
Lemma valid_deleteService wn n : valid (call_associated wn (deleteService n)).
Proof.
  apply valid_call. intros w c a _ [Hs Hw]. split; [|done]. cbn. intros m q [_ Hm]%lookup_delete_Some. eauto.
Qed.
Lemma valid_deleteWorkload wn n : valid (call_associated wn (deleteWorkload n)).
Proof.
  apply valid_call. intros w c a _ [Hs Hw]. split; [done|]. cbn. intros m q [_ Hm]%lookup_delete_Some. eauto.
Qed.
Lemma valid_new wn addr : valid (modify (set_associated (<[wn := newAssociatedObjects addr]>))).
Proof.
  intros w c Hc. wp_steps. split; [|by red]. split; [|apply Hc]. intros wm b. cbn. rewrite lookup_insert_Some.
  intros [[<- <-]|[_ Hb]]; [|by apply Hc in Hb]. split; cbn; intros n q; by rewrite lookup_empty.
Qed.
Lemma valid_svcTo f : valid (modify (set_svcTo f)).
Proof. intros w c Hc. wp_steps. split; [done|by red]. Qed.
Lemma valid_wlTo f : valid (modify (set_wlTo f)).
Proof. intros w c Hc. wp_steps. split; [done|by red]. Qed.
End pointers.

Lemma valid_addService q wn n :
  stays true (ptrs_at (Some q) None) heap_R (call_associated wn (addService n q)).
Proof.
  apply valid_call. intros w c a (_ & Hq & _) [Hs Hw]. split; [|done]. cbn. intros m q'.
  rewrite lookup_insert_Some. intros [[_ <-]|[_ Hm]]; eauto.
Qed.
Lemma valid_addWorkload q wn n :
  stays true (ptrs_at None (Some q)) heap_R (call_associated wn (addWorkload n q)).
Proof.
  apply valid_call. intros w c a (_ & _ & Hq) [Hs Hw]. split; [done|]. cbn. intros m q'.
  rewrite lookup_insert_Some. intros [[_ <-]|[_ Hm]]; eauto.
Qed.
#[export] Hint Resolve valid_updateServiceWaypoint valid_updateWorkloadWaypoint valid_deleteService
  valid_deleteWorkload valid_new valid_svcTo valid_wlTo valid_addService valid_addWorkload : stays.

Lemma valid_AddOrUpdateService sc q :
  stays true (ptrs_at (Some q) None) heap_R (AddOrUpdateService sc q).
Proof. unfold AddOrUpdateService. stays_auto. Qed.
Lemma valid_AddOrUpdateWorkload sc q :
  stays true (ptrs_at None (Some q)) heap_R (AddOrUpdateWorkload sc q).
Proof. unfold AddOrUpdateWorkload. stays_auto. Qed.

(** The objects that a refresh returns exist. *)
Lemma valid_Refresh `{Env} q w c :
  wc_ptrs w c ->
  wp true (Refresh q) (fun ret w' c' => heap_le w w' /\ wc_ptrs w' c' /\
    Forall (fun q => is_Some (svcs w' !! q)) ret.1 /\ Forall (fun q => is_Some (wls w' !! q)) ret.2) w c.
Proof.
  intros Hc. unfold Refresh. wp_steps. destruct (svc_addresses _) as [|addr l]; wp_steps; [done|].
  destruct (associatedObjects _ !! _) as [a|] eqn:Ha; wp_steps; [|done].
  case_decide as Hd; wp_steps; [done|]. unfold update. wp_steps. rename l' into ss, H0 into Hss.
  destruct (Hc _ _ Ha) as [Va Vb].
  eapply wp_mono; [apply (stays_fold_each true (ptrs_at None None) heap_R); [intros; apply valid_updateServiceWaypoint|]|].
  { split; [|done]. intros wn b. cbn. rewrite lookup_insert_Some. intros [[<- <-]|[_ Hb]]; [done|by apply Hc in Hb]. }
  cbn. intros _ w1 c1 [[P1 _] Hh1]. wp_steps. rename l' into ws, H0 into Hws.
  eapply wp_mono; [apply (stays_fold_each true (ptrs_at None None) heap_R); [intros; apply valid_updateWorkloadWaypoint|done]|].
  cbn. intros _ w2 c2 [[P2 _] Hh2]. wp_steps. red in Hh1, Hh2.
  assert (heap_le w w2) as Hh by (etrans; [exact Hh1|exact Hh2]).
  split; [done|]. split; [done|]. split; apply Forall_forall; intros x Hx; cbn in Hx.
  - rewrite Hss in Hx. apply list_elem_of_fmap in Hx as ([n q1] & -> & Hq1%elem_of_map_to_list).
    eapply valid_svc_le; eauto.
  - rewrite Hws in Hx. apply list_elem_of_fmap in Hx as ([n q1] & -> & Hq1%elem_of_map_to_list).
    eapply valid_wl_le; eauto.
Qed.

(** Both views at once, for the processor: [p = false] rules panics out. *)
Lemma wp_AddOrUpdateService_any p sc q (Q : bool -> World -> waypointCache -> Prop) w c :
  is_Some (svcs w !! q) -> wc_ptrs w c ->
  (p = false -> forall x, svcs w !! q = Some x -> wc_ok_but (fun m => m <> Service_ResourceName x) w c) ->
  (forall ret w' c', heap_le w w' -> wc_ptrs w' c' -> (p = false -> wc_ok w' c') -> Q ret w' c') ->
  wp p (AddOrUpdateService sc q) Q w c.
Proof.
  intros [x Hx] Hc Hp HQ. destruct p.
  - eapply wp_mono; [apply valid_AddOrUpdateService|].
    { split; [done|]. split; [|done]. intros q' [= <-]. by eexists. }
    intros ret w' c' [[Hc' _] Hh]. by apply HQ.
  - eapply wp_wc_AddOrUpdateService; [done|by apply Hp|].
    intros ret w' c' [Ho _ _ Hf _]. apply HQ; [|by apply wc_ok_ptrs|done]. destruct Hf as [->|[g ->]]; [done|].
    pose proof (heap_le_store_svc q (Some g) w) as Hh. unfold get_svc in Hh. by rewrite Hx in Hh.
Qed.

Lemma wp_AddOrUpdateWorkload_any p sc q (Q : bool -> World -> waypointCache -> Prop) w c :
  is_Some (wls w !! q) -> wc_ptrs w c -> (p = false -> wc_ok w c) ->
  (forall ret w' c', heap_le w w' -> wc_ptrs w' c' -> (p = false -> wc_ok w' c') -> Q ret w' c') ->
  wp p (AddOrUpdateWorkload sc q) Q w c.
Proof.
  intros [x Hx] Hc Hp HQ. destruct p.
  - eapply wp_mono; [apply valid_AddOrUpdateWorkload|].
    { split; [done|]. split; [done|]. intros q' [= <-]. by eexists. }
    intros ret w' c' [[Hc' _] Hh]. by apply HQ.
  - eapply wp_wc_AddOrUpdateWorkload; [done|by apply Hp|].
    intros ret w' c' [Ho _ _ Hf _]. apply HQ; [|by apply wc_ok_ptrs|done]. destruct Hf as [->|[g ->]]; [done|].
    pose proof (heap_le_store_wl q (Some g) w) as Hh. unfold get_wl in Hh. by rewrite Hx in Hh.
Qed.

Lemma wp_Refresh `{Env} p q (Q : list ptr * list ptr -> World -> waypointCache -> Prop) w c :
  wc_ok w c -> Q ([], []) w c ->
  (forall a addr l ret w' c', svc_addresses (get_svc q w) = addr :: l ->
     associatedObjects c !! Service_ResourceName (get_svc q w) = Some a -> address a <> Some addr ->
     refresh_post (Service_ResourceName (get_svc q w)) a addr w c ret w' c' -> Q ret w' c') ->
  wp p (Refresh q) Q w c.
Proof.
  intros Hok Hnone Hsome. unfold Refresh. wp_steps.
  destruct (svc_addresses (get_svc q w)) as [|addr l] eqn:Ea; wp_steps; [done|].
  destruct (associatedObjects c !! _) as [a|] eqn:E; wp_steps; [|done].
  case_decide as Hd; wp_steps; [done|]. apply wp_wc_update; [done|done|]. eauto.
Qed.

Lemma refresh_heap name a addr w c ret w' c' :
  refresh_post name a addr w c ret w' c' -> heap_le w w'.
Proof.
  intros [_ _ _ _ _ Hs Hw]. split; intros q x Hq.
  - rewrite Hs, Hq. case_decide; [by eexists|]. exists (svc_waypoint x). by rewrite set_svc_waypoint_id.
  - rewrite Hw, Hq. case_decide; [by eexists|]. exists (wl_waypoint x). by rewrite set_wl_waypoint_id.
Qed.

Lemma wp_Refresh_any `{Env} p q (Q : list ptr * list ptr -> World -> waypointCache -> Prop) w c :
  wc_ptrs w c -> (p = false -> wc_ok w c) ->
  (forall ret w' c', heap_le w w' -> wc_ptrs w' c' -> (p = false -> wc_ok w' c') ->
     Forall (fun q => is_Some (svcs w' !! q)) ret.1 -> Forall (fun q => is_Some (wls w' !! q)) ret.2 ->
     Q ret w' c') ->
  wp p (Refresh q) Q w c.
Proof.
  intros Hc Hp HQ. destruct p.
  - eapply wp_mono; [by apply valid_Refresh|]. intros ret w' c' (? & ? & ? & ?). by apply HQ.
  - specialize (Hp eq_refl). apply wp_Refresh; [done|by apply HQ|]. intros a addr l ret w' c' _ Ha _ Hpost.
    pose proof (refresh_heap _ _ _ _ _ _ _ _ Hpost) as Hh. destruct Hpost as [Hok' R1 R2 _ _ _ _].
    destruct (wc_ok_ptrs _ _ Hp _ _ Ha) as [Va Vb].
    apply HQ; [done|by apply wc_ok_ptrs|done| |]; apply Forall_forall; intros x Hx.
    + rewrite R1 in Hx. apply list_elem_of_fmap in Hx as ([n q1] & -> & Hq1%elem_of_map_to_list).
      eapply valid_svc_le; eauto.
    + rewrite R2 in Hx. apply list_elem_of_fmap in Hx as ([n q1] & -> & Hq1%elem_of_map_to_list).
      eapply valid_wl_le; eauto.
Qed.

Lemma wc_ptrs_unlink_wl n w c : wc_ptrs w c -> wc_ptrs w (unlink_wl n c).
Proof.
  intros Hc. unfold unlink_wl. destruct (workloadToWaypoint c !! n) as [wn|]; [|done].
  intros wm a. cbn. rewrite lookup_alter_Some. intros [(-> & a' & Ha & ->)|[_ Ha]]; [|by apply Hc in Ha].
  destruct (Hc _ _ Ha) as [Vs Vw]. split; [done|]. cbn. intros m q [_ Hm]%lookup_delete_Some. eauto.
Qed.
Lemma wc_ptrs_DeleteService n w c : wc_ptrs w c -> wc_ptrs w (set_associated (delete n) (unlink_svc n c)).
Proof.
  intros Hc wm a. cbn. intros [_ Ha]%lookup_delete_Some. revert Ha. unfold unlink_svc.
  destruct (serviceToWaypoint c !! n) as [wn|]; [|apply Hc]. cbn.
  rewrite lookup_alter_Some. intros [(-> & a' & Ha & ->)|[_ Ha]]; [|by apply Hc in Ha].
  destruct (Hc _ _ Ha) as [Vs Vw]. split; [|done]. cbn. intros m q [_ Hm]%lookup_delete_Some. eauto.
Qed.

(** ** Theorems *)

(** on a consistent cache [AddOrUpdateService] returns, keeps the cache
    consistent, and answers [true] exactly when the service needs no waypoint
    or has an address for it afterwards; a hostname waypoint is recorded under
    its name, and when the waypoint is not known the object is left alone. *)
Theorem AddOrUpdateService_resolves (sc : serviceCache) (q : ptr) (x : Service) (w : World)
    (c : waypointCache) :
  svcs w !! q = Some x -> wc_ok w c ->
  exists ret w' c', AddOrUpdateService sc q w c = Done (ret, w', c') /\
    wc_ok w' c' /\ (ret = false -> w' = w) /\
    (ret = true <->
       match svc_waypoint (get_svc q w') with Some g => has_address g = true | None => True end) /\
    (forall g, svc_waypoint x = Some g -> has_address g = false ->
       exists a, associatedObjects c' !! waypoint_name g = Some a /\
         services a !! Service_ResourceName x = Some q /\ (ret = true <-> is_Some (address a))).
Proof.
  intros Hq Hok. apply wp_inv. eapply wp_wc_AddOrUpdateService; [done|by eapply wc_ok_but_weaken, Hok|].
  intros ret w' c' [H1 H2 H3 _ H5]. split_and!; [done|done|done|]. intros g Hg Hga.
  destruct (H5 g Hg Hga) as (a & Ha & Hs & Ht & Hf). exists a. split; [done|]. split; [done|].
  destruct ret.
  - destruct (Ht eq_refl) as (addr & -> & _). by eauto.
  - rewrite (Hf eq_refl). split; [done|]. by intros [].
Qed.

(** A service [default/app] that names the waypoint [default/wpt]. *)
Definition app_svc (g : option GatewayAddress) : Service :=
  mkService "app" "default" "app" [mkNetworkAddress "net" [10; 1; 0; 1]] [] g None.
Definition by_hostname : GatewayAddress :=
  mkGatewayAddress (Some (GatewayAddress_Hostname (mkNamespacedHostname "default" "wpt"))) 15008.
Definition wpt_svc (ip : bytes) : Service :=
  mkService "wpt" "default" "wpt" [mkNetworkAddress "net" ip] [] None None.

Lemma AddOrUpdateService_resolves_witness :
  let w := mkWorld 0 {[1%positive := app_svc (Some by_hostname)]} ∅ in
  exists ret w' c', AddOrUpdateService NewServiceCache 1 w NewWaypointCache = Done (ret, w', c') /\
    wc_ok w' c'.
Proof.
  intros w.
  destruct (AddOrUpdateService_resolves NewServiceCache 1 (app_svc (Some by_hostname)) w NewWaypointCache)
    as (ret & w' & c' & E & Hok & _); [reflexivity|apply wc_ok_new|].
  exists ret, w', c'. split; [exact E|exact Hok].
Defined.

(** when a waypoint service arrives with a first address that its entry does
    not have yet, [Refresh] returns each service and each workload recorded for
    it exactly once, every one of them now has this address as its waypoint,
    all other objects are unchanged, and the entry is resolved. *)
Theorem Refresh_points_all `{Env} (q : ptr) (x : Service) (addr : NetworkAddress)
    (l : list NetworkAddress) (a : waypointAssociatedObjects) (w : World) (c : waypointCache) :
  svcs w !! q = Some x -> svc_addresses x = addr :: l -> wc_ok w c ->
  associatedObjects c !! Service_ResourceName x = Some a -> address a <> Some addr ->
  exists ret w' c', Refresh q w c = Done (ret, w', c') /\ wc_ok w' c' /\
    ret.1 ≡ₚ (map_to_list (services a)).*2 /\ ret.2 ≡ₚ (map_to_list (workloads a)).*2 /\
    (forall s, s ∈ ret.1 -> exists g, svc_waypoint (get_svc s w') = Some g /\ GetAddress g = Some addr) /\
    (forall s, s ∉ ret.1 -> svcs w' !! s = svcs w !! s) /\
    (forall s, s ∈ ret.2 -> exists g, wl_waypoint (get_wl s w') = Some g /\ GetAddress g = Some addr) /\
    (forall s, s ∉ ret.2 -> wls w' !! s = wls w !! s) /\
    address <$> associatedObjects c' !! Service_ResourceName x = Some (Some addr).
Proof.
  intros Hq Hx Hok Ha Hne. apply wp_inv.
  assert (get_svc q w = x) as Hg by (unfold get_svc; by rewrite Hq).
  unfold Refresh. wp_steps. rewrite Hg, Hx. wp_steps. rewrite Ha, decide_False by done.
  apply wp_wc_update; [done|done|]. intros ret w' c' [H1 H2 H3 H4 _ H6 H7].
  split_and!; try done.
  - intros s Hs. pose proof Hs as Hs'. rewrite H2 in Hs'.
    apply list_elem_of_fmap in Hs' as ([n s'] & -> & Hm%elem_of_map_to_list).
    destruct (wk_svc_obj _ _ _ Hok _ _ _ _ Ha Hm) as (y & Hy & _ & g & Hgy); [done|].
    cbn in *. unfold get_svc. rewrite H6, decide_True, Hy by done. cbn. rewrite Hgy. cbn. by eexists.
  - intros s Hs. by rewrite H6, decide_False.
  - intros s Hs. pose proof Hs as Hs'. rewrite H3 in Hs'.
    apply list_elem_of_fmap in Hs' as ([n s'] & -> & Hm%elem_of_map_to_list).
    destruct (wk_wl_obj _ _ _ Hok _ _ _ _ Ha Hm) as (y & Hy & _ & g & Hgy).
    cbn in *. unfold get_wl. rewrite H7, decide_True, Hy by done. cbn. rewrite Hgy. cbn. by eexists.
  - intros s Hs. by rewrite H7, decide_False.
  - by rewrite H4, lookup_insert_eq.
Qed.

Definition refresh_world : World :=
  mkWorld 0 {[1%positive := app_svc (Some by_hostname); 2%positive := wpt_svc [10; 1; 0; 9]]} ∅.
Definition refresh_cache : waypointCache :=
  link_svc "default/app" "default/wpt" 1
    (set_associated (<["default/wpt" := newAssociatedObjects None]>) NewWaypointCache).

Lemma refresh_cache_ok : wc_ok refresh_world refresh_cache.
Proof.
  eapply wc_ok_link_svc; [|by left|by eexists|reflexivity|reflexivity|by eexists].
  apply wc_ok_new_entry; [done|]. eapply wc_ok_but_weaken, wc_ok_new. done.
Qed.

Lemma Refresh_points_all_witness :
  exists ret w' c', @Refresh EnvOk 2 refresh_world refresh_cache = Done (ret, w', c') /\
    exists g, svc_waypoint (get_svc 1 w') = Some g /\ GetAddress g = Some (mkNetworkAddress "net" [10; 1; 0; 9]).
Proof.
  destruct (@Refresh_points_all EnvOk 2 (wpt_svc [10; 1; 0; 9]) (mkNetworkAddress "net" [10; 1; 0; 9]) []
    (mkAssociated None {["default/app" := 1%positive]} ∅) refresh_world refresh_cache)
    as (ret & w' & c' & E & _ & H1 & _ & H3 & _); [reflexivity|reflexivity|exact refresh_cache_ok|reflexivity|discriminate|].
  exists ret, w', c'. split; [exact E|]. apply H3. rewrite H1. vm_compute. left.
Defined.

(** C39: removing a waypoint service that a service still refers to leaves a
    dangling reference: the next update of that service, by one that has no
    waypoint or one with an address, dereferences nil and crashes the daemon. *)
Theorem removed_waypoint_crashes (sc : serviceCache) (q : ptr) (x : Service) (wn : string)
    (w : World) (c : waypointCache) :
  svcs w !! q = Some x -> Service_ResourceName x <> wn ->
  serviceToWaypoint c !! Service_ResourceName x = Some wn ->
  match svc_waypoint x with Some g => has_address g = true | None => True end ->
  exists c', DeleteService wn w c = Done (tt, w, c') /\
    AddOrUpdateService sc q w c' = Panic "nil pointer dereference".
Proof.
  intros Hq Hne Hto Hg.
  assert (exists c', DeleteService wn w c = Done (tt, w, c') /\
    serviceToWaypoint c' !! Service_ResourceName x = Some wn /\ associatedObjects c' !! wn = None)
    as (c' & HE & Hto' & Hnone).
  { apply wp_run, wp_wc_DeleteService. split; [done|]. split; [|cbn; apply lookup_delete_eq].
    unfold unlink_svc. destruct (serviceToWaypoint c !! wn); cbn; [by rewrite lookup_delete_ne|done]. }
  exists c'. split; [done|]. unfold AddOrUpdateService, mbind, go_bind, load_svc, world, gets.
  unfold get_svc. rewrite Hq. cbn. destruct (svc_waypoint x) as [g|]; [rewrite Hg|].
  all: rewrite Hto'; cbn; unfold call_associated, mbind, go_bind, gets; cbn; by rewrite Hnone.
Qed.

Lemma removed_waypoint_crashes_witness :
  let w := mkWorld 0 {[1%positive := app_svc None]} ∅ in
  exists c', DeleteService "default/wpt" w refresh_cache = Done (tt, w, c') /\
    AddOrUpdateService NewServiceCache 1 w c' = Panic "nil pointer dereference".
Proof.
  intros w.
  apply (removed_waypoint_crashes NewServiceCache 1 (app_svc None) "default/wpt" w refresh_cache);
    [reflexivity|discriminate|reflexivity|exact I].
Defined.

(** a service whose waypoint was resolved late is processed a second time
    with the address filled in, and that second pass removes it from the
    waypoint's entry: when the waypoint service moves to another address,
    [Refresh] no longer returns the service, which keeps the old address. *)
Theorem deferred_service_not_tracked :
  let w := mkWorld 0 {[1%positive := app_svc (Some by_hostname);
                       2%positive := wpt_svc [10; 1; 0; 9];
                       3%positive := wpt_svc [10; 1; 0; 10]]} ∅ in
  exists w' c',
    (r1 ← AddOrUpdateService NewServiceCache 1;
     r2 ← @Refresh EnvOk 2;
     r3 ← AddOrUpdateService NewServiceCache 1;
     r4 ← @Refresh EnvOk 3;
     mret (r1, r2, r3, r4)) w NewWaypointCache
    = Done (false, ([1%positive], []), true, ([], []), w', c') /\
    svc_waypoint (get_svc 1 w') =
      Some (mkGatewayAddress (Some (GatewayAddress_Address (mkNetworkAddress "net" [10; 1; 0; 9]))) 15008).
Proof. vm_compute. do 2 eexists. split; reflexivity. Qed.
