(* ===== verification/Processor.v ===== *)
(** * The workload processor: [pkg/controller/workload/workload_processor.go]

    What the daemon does with the services and workloads the control plane
    sends: it keeps its caches, and writes the maps that the BPF programs
    read.  Every handler is a definition over the whole processor state;
    logging is left out, and so are the locks. *)
From stdpp Require Import sorting.
From S2P Require Import Prelude GoNet Nets HashName Api Runtime BpfCache Locality WorkloadCache ServiceCache EndpointCache WaypointCache.
Open Scope go_scope.

(** ** State *)

(** Calls into other components whose state is not the processor's. *)
Inductive Call : Type :=
  | DeleteWorkloadMetric (uid : string)       (* telemetry *)
  | DeleteServiceMetric (name : string)       (* telemetry *)
  | onWorkloadDeleted (workloadName : string) (* the DNS cache *).

Record Processor : Type := mkProcessor {
  hashName : HashName;
  bpf : Cache;
  nodeName : string;
  wlCache : WorkloadCache.cache;
  svcCache : serviceCache;
  epCache : endpointCache;
  wpCache : waypointCache;
  locality : LocalityCache;
  once : bool;                       (* whether once.Do has run *)
  restart : bool;                    (* kmeshbpf.GetStartType() == kmeshbpf.Restart *)
  dnsEnabled : bool;                 (* DnsResolverChan != nil, onWorkloadDeleted != nil *)
  ResolvedDomainChanMap : gset string;
  calls : list Call
}.

Definition set_hashName x p := mkProcessor x (bpf p) (nodeName p) (wlCache p) (svcCache p) (epCache p)
  (wpCache p) (locality p) (once p) (restart p) (dnsEnabled p) (ResolvedDomainChanMap p) (calls p).
Definition set_bpf x p := mkProcessor (hashName p) x (nodeName p) (wlCache p) (svcCache p) (epCache p)
  (wpCache p) (locality p) (once p) (restart p) (dnsEnabled p) (ResolvedDomainChanMap p) (calls p).
Definition set_wlCache x p := mkProcessor (hashName p) (bpf p) (nodeName p) x (svcCache p) (epCache p)
  (wpCache p) (locality p) (once p) (restart p) (dnsEnabled p) (ResolvedDomainChanMap p) (calls p).
Definition set_svcCache x p := mkProcessor (hashName p) (bpf p) (nodeName p) (wlCache p) x (epCache p)
  (wpCache p) (locality p) (once p) (restart p) (dnsEnabled p) (ResolvedDomainChanMap p) (calls p).
Definition set_epCache x p := mkProcessor (hashName p) (bpf p) (nodeName p) (wlCache p) (svcCache p) x
  (wpCache p) (locality p) (once p) (restart p) (dnsEnabled p) (ResolvedDomainChanMap p) (calls p).
Definition set_wpCache x p := mkProcessor (hashName p) (bpf p) (nodeName p) (wlCache p) (svcCache p)
  (epCache p) x (locality p) (once p) (restart p) (dnsEnabled p) (ResolvedDomainChanMap p) (calls p).
Definition set_locality x p := mkProcessor (hashName p) (bpf p) (nodeName p) (wlCache p) (svcCache p)
  (epCache p) (wpCache p) x (once p) (restart p) (dnsEnabled p) (ResolvedDomainChanMap p) (calls p).
Definition set_once x p := mkProcessor (hashName p) (bpf p) (nodeName p) (wlCache p) (svcCache p)
  (epCache p) (wpCache p) (locality p) x (restart p) (dnsEnabled p) (ResolvedDomainChanMap p) (calls p).
Definition set_chans x p := mkProcessor (hashName p) (bpf p) (nodeName p) (wlCache p) (svcCache p)
  (epCache p) (wpCache p) (locality p) (once p) (restart p) (dnsEnabled p) x (calls p).
Definition add_call x p := mkProcessor (hashName p) (bpf p) (nodeName p) (wlCache p) (svcCache p)
  (epCache p) (wpCache p) (locality p) (once p) (restart p) (dnsEnabled p) (ResolvedDomainChanMap p)
  (calls p ++ [x]).

Definition bpf_l := mkLens bpf set_bpf.
Definition wl_l := mkLens wlCache set_wlCache.
Definition svc_l := mkLens svcCache set_svcCache.
Definition wp_l := mkLens wpCache set_wpCache.

(** The answer of the DNS resolver for the [n]-th event: nothing before the
    timeout, or a workload, possibly nil. *)
Class Dns : Type := dns_answer : nat -> Workload -> option (option Workload).

Section processor.
Context `{Env} `{Persist} `{Dns}.

Abbreviation P := (Go Processor).

Definition hash (str : string) : P Z := fun w p =>
  match Hash str (hashName p) with
  | Done (num, h) => Done (num, w, set_hashName h p)
  | Panic why => Panic why
  | NoFuel => NoFuel
  end.
Definition hash_delete (str : string) : P unit := modify (fun p => set_hashName (Delete str (hashName p)) p).

Definition NewProcessor (h : HashName) (c : Cache) (node : string) (restart : bool) : Processor :=
  mkProcessor h c node NewWorkloadCache NewServiceCache NewEndpointCache NewWaypointCache
    NewLocalityCache false restart false ∅ [].

(** ** Sorting endpoint keys

    [sort.Slice] puts the larger priority, then the larger index first; the
    order of equal elements is not specified. *)
Definition before (x y : Z * Z) : Prop := y.1 < x.1 \/ (x.1 = y.1 /\ y.2 <= x.2).
#[local] Instance before_dec : RelDecision before.
Proof. intros x y. unfold before. apply _. Defined.

Definition rank_of (k : EndpointKey) : Z * Z := (Prio k, BackendIndex k).
Definition sort_keys (l : list EndpointKey) : P (list EndpointKey) :=
  l ← range l; mret (merge_sort (fun x y => before (rank_of x) (rank_of y)) l).

(** ** Endpoints *)

(** 1. replace the endpoint with the last one, 2. update the count of the
    service, 3. delete the last one. *)
Definition deleteEndpoint (ek : EndpointKey) (ev : EndpointValue) (sv : ServiceValue) (sk : ServiceKey)
    : Go Cache (option error) :=
  n ← array_get (EndpointCount sv) (Prio ek);
  err ← EndpointSwap (BackendIndex ek) ev n sk (Prio ek);
  match err with
  | Some err => mret (Some err)
  | None =>
      let n := n -32 1 in
      let sv := set_EndpointCount (<[Z.to_nat (Prio ek) := n]> (EndpointCount sv)) sv in
      err ← ServiceUpdate sk sv;
      match err with
      | Some err => mret (Some err)
      | None => EndpointDelete (mkEndpointKey sk (Prio ek) (n +32 1))
      end
  end.

(** The body of the loop of [deleteEndpointRecords]; every error is logged
    and the loop continues. *)
Definition deleteEndpointRecord (ek : EndpointKey) : P unit :=
  let sk := ServiceId ek in
  let forget ev := modify (fun p => set_epCache
        (DeleteEndpointWithPriority (ServiceId ek) ev (Prio ek) (epCache p)) p) in
  sv ← zoom bpf_l (ServiceLookup sk);
  match sv with
  | inl sv =>
      ev ← zoom bpf_l (EndpointLookup ek);
      match ev with
      | inr err => mret tt
      | inl ev =>
          err ← zoom bpf_l (deleteEndpoint ek ev sv sk);
          match err with
          | Some err => mret tt
          | None => forget ev
          end
      end
  | inr err =>
      ev ← zoom bpf_l (EndpointLookup ek);
      match ev with
      | inr err => mret tt
      | inl ev =>
          err ← zoom bpf_l (EndpointDelete ek);
          match err with
          | Some err => mret tt
          | None => forget ev
          end
      end
  end.

Definition deleteEndpointRecords (endpointKeys : list EndpointKey) : P (option error) :=
  if decide (length endpointKeys = 0%nat) then mret None
  else
    endpointKeys ← sort_keys endpointKeys;
    fold_each endpointKeys tt (fun _ ek => deleteEndpointRecord ek);;
    mret None.

Definition addWorkloadToService (sk : ServiceKey) (sv : ServiceValue) (workloadUid priority : Z)
    : P (EndpointKey * option error) :=
  n ← array_get (EndpointCount sv) priority;
  let n := n +32 1 in
  let sv := set_EndpointCount (<[Z.to_nat priority := n]> (EndpointCount sv)) sv in
  let ek := mkEndpointKey sk priority n in
  err ← zoom bpf_l (EndpointUpdate ek workloadUid);
  match err with
  | Some err => mret (ek, Some err)
  | None =>
      modify (fun p => set_epCache (AddEndpointToService (mkEndpoint sk priority n) workloadUid (epCache p)) p);;
      err ← zoom bpf_l (ServiceUpdate sk sv);
      mret (ek, err)
  end.

(** ** Frontends *)
Definition deletePodFrontendData (uid : Z) : P (option error) :=
  bv ← zoom bpf_l (BackendLookup uid);
  match bv with
  | inl bv => zoom bpf_l (FrontendDelete (bv_Ip bv))
  | inr _ => mret None
  end.

Definition storePodFrontendData (uid : Z) (ip : bytes) : P (option error) :=
  let fk := CopyIpByteFromSlice zero_ip ip in
  err ← zoom bpf_l (FrontendUpdate fk uid);
  match err with
  | Some err => mret (Some (Errorf "update frontend map failed"))
  | None => mret None
  end.

(** The key is one variable: a 4-byte address overwrites only the first bytes
    of the address before it. *)
Definition deleteFrontendByIp (addresses : list bytes) : P (option error) :=
  r ← fold_until addresses (zero_ip, None) (fun '(frontKey, _) address =>
    let frontKey := CopyIpByteFromSlice frontKey address in
    err ← zoom bpf_l (FrontendDelete frontKey);
    match err with
    | Some err => mret (frontKey, Some err, true)
    | None => mret (frontKey, None, false)
    end);
  mret r.2.

Definition updateServiceFrontendMap (serviceId : Z) (service : Service) : P (option error) :=
  r ← fold_until (svc_addresses service) (zero_ip, None) (fun '(fk, _) networkAddress =>
    let fk := CopyIpByteFromSlice fk (na_address networkAddress) in
    err ← zoom bpf_l (FrontendUpdate fk serviceId);
    match err with
    | Some err => mret (fk, Some err, true)
    | None => mret (fk, None, false)
    end);
  mret r.2.

Definition deleteServiceFrontendData (service : option Service) (id : Z) : P (option error) :=
  match service with
  | Some service =>
      fold_each (svc_addresses service) zero_ip (fun fk networkAddress =>
        let fk := CopyIpByteFromSlice fk (na_address networkAddress) in
        zoom bpf_l (FrontendDelete fk);;
        mret fk);;
      mret None
  | None =>
      fks ← zoom bpf_l (FrontendIterFindKey id);
      for_each fks (fun fk =>
        err ← zoom bpf_l (FrontendDelete fk);
        match err with
        | Some err => mret (Return err)
        | None => mret Continue
        end)
  end.

(** ** Workload policies *)
Definition storeWorkloadPolicies (uid : string) (polices : list string) : P unit :=
  if decide (length polices = 0%nat) then mret tt
  else
    key ← hash uid;
    r ← fold_until polices (replicate MaxPolicyNum 0, 0%nat) (fun '(ids, i) v =>
      if decide (i < length ids)%nat then
        num ← hash v;
        mret (<[i := num]> ids, S i, false)
      else mret (ids, i, true));
    zoom bpf_l (WorkloadPolicyUpdate key r.1);;
    mret tt.

Definition deleteWorkloadPolicies (uid : Z) : P unit :=
  zoom bpf_l (WorkloadPolicyDelete uid);;
  mret tt.

(** ** Removing workloads *)
Definition handleUnhealthyWorkload (workload : Workload) : P (option error) :=
  backendUid ← hash (wl_uid workload);
  eks ← gets (fun p => GetEndpointKeys backendUid (bpf p));
  if decide (0 < size eks)%nat then
    l ← range (elements eks);
    err ← deleteEndpointRecords l;
    mret (err ≫= fun _ => Some (Errorf "handleUnhealthyWorkload: deleteEndpointRecords failed"))
  else mret None.

Definition removeWorkloadFromBpfMap (workload : Workload) : P (option error) :=
  backendUid ← hash (wl_uid workload);
  err ← deletePodFrontendData backendUid;
  match err with
  | Some err => mret (Some err)
  | None =>
      eks ← gets (fun p => GetEndpointKeys backendUid (bpf p));
      err ← (if decide (0 < size eks)%nat then l ← range (elements eks); deleteEndpointRecords l
             else mret None);
      match err with
      | Some err => mret (Some err)
      | None =>
          err ← zoom bpf_l (BackendDelete backendUid);
          match err with
          | Some err => mret (Some err)
          | None =>
              node ← gets nodeName;
              (if decide (wl_node workload = node) then deleteWorkloadPolicies backendUid else mret tt);;
              hash_delete (wl_uid workload);;
              mret None
          end
      end
  end.

Definition removeWorkload (uid : string) : P (option error) :=
  zoom wp_l (WaypointCache.DeleteWorkload uid);;
  wl ← gets (fun p => GetWorkloadByUid uid (wlCache p));
  match wl with
  | None => mret None
  | Some wl =>
      x ← load_wl wl;
      dns ← gets dnsEnabled;
      (if decide (dns = true /\ wl_name x <> "") then modify (add_call (onWorkloadDeleted (wl_name x)))
       else mret tt);;
      zoom wl_l (WorkloadCache.DeleteWorkload uid);;
      modify (add_call (DeleteWorkloadMetric (wl_uid x)));;
      removeWorkloadFromBpfMap x
  end.

Definition removeWorkloadResources (removedResources : list string) : P (option error) :=
  fold_each removedResources tt (fun _ uid => removeWorkload uid;; mret tt);;
  mret None.

(** ** Removing services *)
Definition removeServiceResourceFromBpfMap (svc : option Service) (name : string) : P (option error) :=
  serviceId ← hash name;
  svDelete ← zoom bpf_l (ServiceLookup serviceId);
  match svDelete with
  | inl svDelete =>
      deleteServiceFrontendData svc serviceId;;
      zoom bpf_l (ServiceDelete serviceId);;
      fold_each (seqZ 0 (Z.of_nat PrioCount)) tt (fun _ j =>
        count ← array_get (EndpointCount svDelete) j;
        if decide (count = 0) then mret tt
        else for_upto count (fun i =>
               zoom bpf_l (EndpointDelete (mkEndpointKey serviceId j i));; mret tt))
  | inr _ => mret tt
  end;;
  modify (fun p => set_epCache (DeleteEndpointByServiceId serviceId (epCache p)) p);;
  hash_delete name;;
  mret None.

Definition removeServiceResources (resources : list string) : P (option error) :=
  fold_each resources tt (fun _ name =>
    zoom wp_l (WaypointCache.DeleteService name);;
    modify (add_call (DeleteServiceMetric name));;
    svc ← gets (fun p => GetService name (svcCache p));
    svc ← match svc with Some q => x ← load_svc q; mret (Some x) | None => mret None end;
    zoom svc_l (ServiceCache.DeleteService name);;
    removeServiceResourceFromBpfMap svc name;;
    mret tt);;
  mret None.

(** ** Binding workloads to services *)
Definition handleWorkloadUnboundServices (unboundedEndpointKeys : list EndpointKey) : P (option error) :=
  deleteEndpointRecords unboundedEndpointKeys.

(** The priority of a workload in a service with locality mode. *)
Definition calc_prio (wl : option Workload) (rp : list Z) : P Z := fun w p =>
  match CalcLocalityLBPrio (locality p) wl rp with
  | Done prio => Done (prio, w, p)
  | Panic why => Panic why
  | NoFuel => NoFuel
  end.

Definition bindNewService (workload : Workload) (workloadId svcUid : Z) : P (ctl error) :=
  let add sv prio :=
    r ← addWorkloadToService svcUid sv workloadId prio;
    match r.2 with
    | Some err => mret (Return err)
    | None => mret Continue
    end in
  sv ← zoom bpf_l (ServiceLookup svcUid);
  match sv with
  | inr _ => mret Continue
  | inl sv =>
      if decide (LbPolicy sv = LoadBalancing_UNSPECIFIED_MODE) then add sv 0
      else
        service ← gets (fun p => GetService (NumToStr svcUid (hashName p)) (svcCache p));
        match service with
        | None => mret Continue
        | Some q =>
            service ← load_svc q;
            info ← gets (fun p => LocalityInfo (locality p));
            prio ← match info with
                   | Some _ => calc_prio (Some workload) (GetRoutingPreference (svc_load_balancing service))
                   | None => mret 0
                   end;
            add sv prio
        end
  end.

Definition handleWorkloadNewBoundServices (workload : Workload) (newServices : list Z) : P (option error) :=
  if decide (length newServices = 0%nat) then mret None
  else
    workloadId ← hash (wl_uid workload);
    for_each newServices (bindNewService workload workloadId).

Definition updateWorkloadInBackendMap (workload : Workload) : P (option error) :=
  backendUid ← hash (wl_uid workload);
  let '(addr, port) :=
    match wl_waypoint workload with
    | Some waypoint =>
        match GetAddress waypoint with
        | Some a => (CopyIpByteFromSlice zero_ip (na_address a),
                     ConvertPortToBigEndian (ga_hbone_mtls_port waypoint))
        | None => (zero_ip, 0)
        end
    | None => (zero_ip, 0)
    end in
  svcs ← range (map_to_list (wl_services workload));
  r ← fold_until (svcs.*1) (replicate MaxServiceNum 0, 0%nat) (fun '(ids, count) serviceName =>
    num ← hash serviceName;
    let count' := S count in
    mret (<[count := num]> ids, count', bool_decide (MaxServiceNum <= count')%nat));
  let '(ids, count) := r in
  r ← fold_until (wl_addresses workload) (zero_ip, None) (fun '(bip, _) ip =>
    let bip := CopyIpByteFromSlice bip ip in
    err ← zoom bpf_l (BackendUpdate backendUid (mkBackendValue bip (Z.of_nat count) ids addr port));
    match err with
    | Some err => mret (bip, Some err, true)
    | None => mret (bip, None, false)
    end);
  mret r.2.

Definition getServiceByAddress (address : bytes) (p : Processor) : option ptr :=
  GetServiceByIP (AddrFromSlice address).1 (svcCache p).

Definition updateWorkloadInFrontendMap (workload : Workload) : P (option error) :=
  if decide (wl_network_mode workload = NetworkMode_HOST_NETWORK) then mret None
  else
    backendUid ← hash (wl_uid workload);
    for_each (wl_addresses workload) (fun ip =>
      svc ← gets (getServiceByAddress ip);
      match svc with
      | Some _ => mret Continue
      | None =>
          err ← storePodFrontendData backendUid ip;
          match err with
          | Some _ => mret (Return (Errorf "storePodFrontendData failed"))
          | None => mret Continue
          end
      end).

(** The endpoint keys of services the workload no longer has, and the new
    services. *)
Definition compareWorkloadServices (workload : Workload) : P (list EndpointKey * list Z) :=
  workloadUid ← hash (wl_uid workload);
  names ← range (map_to_list (wl_services workload));
  allServices ← fold_each (names.*1) (∅ : gset Z) (fun all svcKey =>
    num ← hash svcKey; mret ({[num]} ∪ all));
  eks ← gets (fun p => GetEndpointKeys workloadUid (bpf p));
  eks ← range (elements eks);
  r ← fold_each eks ([], allServices) (fun '(unbounded, all) ek =>
    let unbounded := if decide (ServiceId ek ∈ all) then unbounded else unbounded ++ [ek] in
    mret (unbounded, all ∖ {[ServiceId ek]}));
  newServices ← range (elements r.2);
  mret (r.1, newServices).

Definition handleWorkload (q : ptr) : P (option error) :=
  sc ← gets svcCache;
  resolved ← zoom wp_l (WaypointCache.AddOrUpdateWorkload sc q);
  if resolved : bool then
    workload ← load_wl q;
    oldWorkload ← gets (fun p => GetWorkloadByUid (wl_uid workload) (wlCache p));
    zoom wl_l (WorkloadCache.AddOrUpdateWorkload (Some q));;
    node ← gets nodeName;
    (if decide (node = wl_node workload)
     then storeWorkloadPolicies (wl_uid workload) (wl_authorization_policies workload)
     else mret tt);;
    info ← gets (fun p => LocalityInfo (locality p));
    (if decide (info = None /\ node = wl_node workload)
     then modify (fun p => set_locality (SetLocality node (wl_cluster_id workload) (wl_network workload)
                                           (wl_locality workload) (locality p)) p)
     else mret tt);;
    if decide (wl_status workload = WorkloadStatus_UNHEALTHY) then handleUnhealthyWorkload workload
    else
      err ← updateWorkloadInBackendMap workload;
      match err with
      | Some _ => mret (Some (Errorf "updateWorkloadInBackendMap failed"))
      | None =>
          r ← compareWorkloadServices workload;
          let '(unboundedEndpointKeys, newServices) := r in
          err ← handleWorkloadUnboundServices unboundedEndpointKeys;
          match err with
          | Some _ => mret (Some (Errorf "handleWorkloadUnboundServices failed"))
          | None =>
              err ← handleWorkloadNewBoundServices workload newServices;
              match err with
              | Some _ => mret (Some (Errorf "handleWorkloadNewBoundServices failed"))
              | None =>
                  err ← updateWorkloadInFrontendMap workload;
                  match err with
                  | Some _ => mret (Some (Errorf "updateWorkloadInFrontendMap failed"))
                  | None =>
                      match oldWorkload with
                      | None => mret None
                      | Some old =>
                          old ← load_wl old;
                          match wl_addresses workload, wl_addresses old with
                          | a :: _, b :: _ =>
                              if decide (a = b) then mret None
                              else
                                err ← deleteFrontendByIp (wl_addresses old);
                                mret (err ≫= fun _ => Some (Errorf "frontend map delete failed"))
                          | _, _ => mret None
                          end
                      end
                  end
              end
          end
      end
  else mret None.

(** ** Services *)

(** The order of the endpoints to move. *)
Definition ep_rank (e : Endpoint) : Z * Z := (ep_Prio e, ep_BackendIndex e).
Definition sort_endpoints (l : list Endpoint) : P (list Endpoint) :=
  l ← range l; mret (merge_sort (fun x y => before (ep_rank x) (ep_rank y)) l).

(** One endpoint: it is added to its new priority group, then deleted from the
    old one. *)
Definition moveEndpoint (serviceId : Z) (service : option Service) (toLLb : bool) (ep : Endpoint)
    : P (ctl error) :=
  let ek := mkEndpointKey (ep_ServiceId ep) (ep_Prio ep) (ep_BackendIndex ep) in
  ev ← zoom bpf_l (EndpointLookup ek);
  match ev with
  | inr _ => mret (Return (Errorf "lookup endpoint failed"))
  | inl ev =>
      prio ← (if toLLb then
                workload ← gets (fun p => GetWorkloadByUid (NumToStr ev (hashName p)) (wlCache p));
                workload ← match workload with Some q => x ← load_wl q; mret (Some x) | None => mret None end;
                match service with
                | None => panic "nil pointer dereference"
                | Some service => calc_prio workload (GetRoutingPreference (svc_load_balancing service))
                end
              else mret 0);
      if decide (Prio ek = prio) then mret Continue
      else
        sValue ← zoom bpf_l (ServiceLookup serviceId);
        match sValue with
        | inr _ => mret (Return (Errorf "lookup service failed"))
        | inl sValue =>
            r ← addWorkloadToService serviceId sValue ev prio;
            match r.2 with
            | Some _ => mret (Return (Errorf "update endpoint priority failed"))
            | None =>
                err ← deleteEndpointRecords [ek];
                match err with
                | Some _ => mret (Return (Errorf "delete endpoint from old priority group failed"))
                | None => mret Continue
                end
            end
        end
  end.

Definition updateEndpointOneByOne (serviceId : Z) (epsUpdate : list Endpoint) (toLLb : bool)
    : P (option error) :=
  if decide (length epsUpdate = 0%nat) then mret None
  else
    epsUpdate ← sort_endpoints epsUpdate;
    service ← gets (fun p => GetService (NumToStr serviceId (hashName p)) (svcCache p));
    service ← match service with Some q => x ← load_svc q; mret (Some x) | None => mret None end;
    for_each epsUpdate (moveEndpoint serviceId service toLLb).

Definition updateEndpointPriority (serviceId : Z) (toLLb : bool) : P (option error) :=
  endpoints ← gets (fun p => EndpointCache.List serviceId (epCache p));
  endpoints ← range (map_to_list endpoints);
  let endpointSlice := endpoints.*2 in
  if toLLb then updateEndpointOneByOne serviceId endpointSlice toLLb
  else updateEndpointOneByOne serviceId (filter (fun e => 0 < ep_Prio e) endpointSlice) toLLb.

(** [strings.Contains(serviceName, "waypoint")] *)
Definition is_waypoint_name (serviceName : string) : bool :=
  bool_decide (is_Some (String.index 0 "waypoint" serviceName)).

Definition KmeshWaypointPort : Z := 15019.

(** The ports of a service, at most [MaxPortNum] of them. *)
Definition target_port_of (serviceName : string) (port : Port) : Z :=
  if is_waypoint_name serviceName then ConvertPortToBigEndian KmeshWaypointPort
  else if decide (target_port port = 0) then ConvertPortToBigEndian (service_port port)
  else ConvertPortToBigEndian (target_port port).
Fixpoint fill_ports (serviceName : string) (i : nat) (ports : list Port) (sp tp : list Z)
    : list Z * list Z :=
  match ports with
  | [] => (sp, tp)
  | port :: ports =>
      if decide (MaxPortNum <= i)%nat then (sp, tp)
      else fill_ports serviceName (S i) ports
             (<[i := ConvertPortToBigEndian (service_port port)]> sp)
             (<[i := target_port_of serviceName port]> tp)
  end.

(** The value of the service map that a service message asks for, without its
    endpoint counts. *)
Definition newServiceInfo (service : Service) : ServiceValue :=
  let '(addr, port) :=
    match svc_waypoint service with
    | Some waypoint =>
        match GetAddress waypoint with
        | Some a => (CopyIpByteFromSlice zero_ip (na_address a),
                     ConvertPortToBigEndian (ga_hbone_mtls_port waypoint))
        | None => (zero_ip, 0)
        end
    | None => (zero_ip, 0)
    end in
  let '(sp, tp) := fill_ports (Service_ResourceName service) 0 (svc_ports service)
                     (replicate MaxPortNum 0) (replicate MaxPortNum 0) in
  {| EndpointCount := replicate PrioCount 0; LbPolicy := u32 (GetMode (svc_load_balancing service));
     ServicePort := sp; TargetPort := tp; sv_WaypointAddr := addr; sv_WaypointPort := port |}.

Definition set_LbPolicy (lb : Z) (sv : ServiceValue) : ServiceValue :=
  {| EndpointCount := EndpointCount sv; LbPolicy := lb; ServicePort := ServicePort sv;
     TargetPort := TargetPort sv; sv_WaypointAddr := sv_WaypointAddr sv;
     sv_WaypointPort := sv_WaypointPort sv |}.

Definition updateServiceMap (service : Service) (oldService : option Service) : P (option error) :=
  sk ← hash (Service_ResourceName service);
  let newInfo := newServiceInfo service in
  (* the normal update *)
  let finish newInfo :=
    err ← zoom bpf_l (ServiceUpdate sk newInfo);
    match err with
    | Some _ => mret (Some (Errorf "service map update failed"))
    | None =>
        err ← updateServiceFrontendMap sk service;
        mret (err ≫= fun _ => Some (Errorf "updateServiceFrontendMap failed"))
    end in
  old ← zoom bpf_l (ServiceLookup sk);
  match old with
  | inl oldInfo =>
      let newInfo := set_EndpointCount (EndpointCount oldInfo) newInfo in
      if decide (LbPolicy newInfo <> LbPolicy oldInfo /\ LbPolicy newInfo = LoadBalancing_UNSPECIFIED_MODE) then
        (* from locality load balancing to random *)
        err ← updateEndpointPriority sk false;
        match err with
        | Some _ => mret (Some (Errorf "update endpoint priority failed"))
        | None =>
            cur ← zoom bpf_l (ServiceLookup sk);
            match cur with
            | inr _ => mret (Some (Errorf "service map lookup failed"))
            | inl cur =>
                err ← zoom bpf_l (ServiceUpdate sk (set_LbPolicy (LbPolicy newInfo) cur));
                mret (err ≫= fun _ => Some (Errorf "service map update failed"))
            end
        end
      else if decide (LbPolicy newInfo <> LbPolicy oldInfo /\ LbPolicy oldInfo = LoadBalancing_UNSPECIFIED_MODE) then
        (* from random to locality load balancing *)
        err ← zoom bpf_l (ServiceUpdate sk newInfo);
        match err with
        | Some _ => mret (Some (Errorf "service map update lb policy failed"))
        | None =>
            err ← updateEndpointPriority sk true;
            mret (err ≫= fun _ => Some (Errorf "update endpoint priority failed"))
        end
      else
        err ← deleteFrontendByIp (CompareIpByte (GetIpAddresses (Some service)) (GetIpAddresses oldService));
        match err with
        | Some _ => mret (Some (Errorf "frontend map delete failed"))
        | None => finish newInfo
        end
  | inr _ => finish newInfo
  end.

Definition containsPort (service : Service) (port : Z) : bool :=
  existsb (fun p => service_port p =? port) (svc_ports service).

(** Whether the waypoint of a service is the service itself. *)
Definition is_own_waypoint (service : Service) : bool :=
  match svc_waypoint service with
  | Some waypoint =>
      match GetAddress waypoint, svc_addresses service with
      | Some a, first :: _ =>
          bool_decide (na_address a = na_address first) || containsPort service 15021
      | _, _ => false
      end
  | None => false
  end.

Definition handleService (q : ptr) : P (option error) :=
  service ← load_svc q;
  (if is_own_waypoint service then store_svc q (set_svc_waypoint None service) else mret tt);;
  sc ← gets svcCache;
  resolved ← zoom wp_l (WaypointCache.AddOrUpdateService sc q);
  if resolved : bool then
    service ← load_svc q;
    old ← gets (fun p => GetService (Service_ResourceName service) (svcCache p));
    zoom svc_l (ServiceCache.AddOrUpdateService q);;
    old ← match old with Some o => x ← load_svc o; mret (Some x) | None => mret None end;
    updateServiceMap service old
  else mret None.

(** ** Responses *)

(** [strings.Count(res, "/") > 2] *)
Definition count_slashes (res : string) : nat :=
  length (filter (fun b => b = 47) (bytes_of_string res)).
Definition is_workload_name (res : string) : bool := bool_decide (2 < count_slashes res)%nat.

Definition handleRemovedAddresses (removed : list string) : P unit :=
  let workloadNames := filter (fun res => is_workload_name res = true) removed in
  let serviceNames := filter (fun res => is_workload_name res = false) removed in
  removeWorkloadResources workloadNames;;
  removeServiceResources serviceNames;;
  mret tt.

(** Waiting for the DNS resolver; [None] when the workload is to be skipped. *)
Definition resolve_addresses (q : ptr) : P (option ptr) :=
  workload ← load_wl q;
  match wl_addresses workload with
  | _ :: _ => mret (Some q)
  | [] =>
      dns ← gets dnsEnabled;
      if dns : bool then
        modify (fun p => set_chans ({[wl_uid workload]} ∪ ResolvedDomainChanMap p) p);;
        answer ← world (fun w => dns_answer (clock w) workload);
        modify_world tick;;
        match answer with
        | None =>
            modify (fun p => set_chans (ResolvedDomainChanMap p ∖ {[wl_uid workload]}) p);;
            mret None
        | Some None => mret None
        | Some (Some x) =>
            match wl_addresses x with
            | [] => mret None
            | _ :: _ => q ← new_wl x; mret (Some q)
            end
        end
      else mret None
  end.

Definition handleServicesAndWorkloads (services workloads : list ptr) : P unit :=
  r ← fold_each services ([], workloads) (fun '(servicesToRefresh, workloads) service =>
    handleService service;;
    r ← zoom wp_l (Refresh service);
    mret (servicesToRefresh ++ r.1, workloads ++ r.2));
  let '(servicesToRefresh, workloads) := r in
  fold_each servicesToRefresh tt (fun _ service => handleService service;; mret tt);;
  fold_each workloads tt (fun _ workload =>
    q ← resolve_addresses workload;
    match q with
    | None => mret tt
    | Some q => handleWorkload q;; mret tt
    end).

(** The hash table is visited as it was when the loop started: the body
    deletes at most the entry it is at. *)
Definition handleRemovedAddressesDuringRestart : P unit :=
  isRestart ← gets restart;
  if isRestart : bool then
    m ← gets (fun p => GetStrToNum (hashName p));
    l ← range (map_to_list m);
    fold_each l tt (fun _ '(str, num) =>
      known ← gets (fun p => (GetWorkloadByUid str (wlCache p), GetService str (svcCache p)));
      match known with
      | (None, None) =>
          bv ← zoom bpf_l (BackendLookup num);
          match bv with
          | inl _ =>
              removeWorkloadFromBpfMap
                (mkWorkload str "" "" [] "" "" "" None "" ∅ [] 0 "" None 0 "" "" "" "");;
              mret tt
          | inr _ =>
              sv ← zoom bpf_l (ServiceLookup num);
              match sv with
              | inl _ => removeServiceResourceFromBpfMap None str;; mret tt
              | inr _ => mret tt
              end
          end
      | _ => mret tt
      end)
  else mret tt.

(** A decoded resource: an address of an unknown type is skipped. *)
Inductive Address_ : Type :=
  | Address_Workload (x : Workload)
  | Address_Service (x : Service)
  | Address_unknown.

(** [resources] are the results of unmarshalling; each message is a new object. *)
Definition handleAddressTypeResponse (resources : list (Address_ + error)) (removed : list string)
    : P (option error) :=
  r ← fold_each resources ([], [], None) (fun '(services, workloads, _) resource =>
    match resource with
    | inr err => mret (services, workloads, Some err)
    | inl (Address_Workload x) => q ← new_wl x; mret (services, workloads ++ [q], None)
    | inl (Address_Service x) => q ← new_svc x; mret (services ++ [q], workloads, None)
    | inl Address_unknown => mret (services, workloads, None)
    end);
  let '(services, workloads, err) := r in
  handleServicesAndWorkloads services workloads;;
  handleRemovedAddresses removed;;
  done ← gets once;
  (if done : bool then mret tt
   else modify (set_once true);; handleRemovedAddressesDuringRestart);;
  mret err.

(** [Close] unregisters the daemon. *)
Definition Close : P (option error) := zoom bpf_l (BackendDelete 0).
End processor.
