(* ===== verification/Endpoints.v ===== *)
(** * The endpoint tables

    The BPF load balancer draws a number up to the endpoint count of a service
    and looks the endpoint up.  This file states what it relies on, and shows
    what removing and adding an endpoint do to the tables. *)
From S2P Require Import Prelude Api Runtime BpfCache Processor.
Open Scope go_scope.

(** ** The invariant *)
Record ep_inv (c : Cache) : Prop := {
  ei_size : Z.of_nat (size (KmEndpoint c)) <= max_entries;
  ei_services : Z.of_nat (size (KmService c)) <= max_entries;
  ei_counts : forall sid sv, KmService c !! sid = Some sv ->
    length (EndpointCount sv) = PrioCount /\ Forall (fun n => 0 <= n) (EndpointCount sv);
  (* every number the load balancer can draw has an endpoint *)
  ei_served : forall sid sv p n i, KmService c !! sid = Some sv -> 0 <= p ->
    EndpointCount sv !! Z.to_nat p = Some n -> 1 <= i <= n ->
    is_Some (KmEndpoint c !! mkEndpointKey sid p i);
  ei_keys : forall k, is_Some (KmEndpoint c !! k) ->
    0 <= Prio k < Z.of_nat PrioCount /\ 1 <= BackendIndex k;
  ei_index : index_sup c
}.

(** No endpoint is beyond the count of its service. *)
Definition ep_exact (c : Cache) : Prop :=
  forall k, is_Some (KmEndpoint c !! k) ->
    exists sv n, KmService c !! ServiceId k = Some sv /\
      EndpointCount sv !! Z.to_nat (Prio k) = Some n /\ BackendIndex k <= n.

(** ** Counts are bounded by the size of the map *)
Lemma slots_le_size (m : gmap EndpointKey Z) sid p n :
  0 <= n -> (forall i, 1 <= i <= n -> is_Some (m !! mkEndpointKey sid p i)) ->
  n <= Z.of_nat (size m).
Proof.
  intros Hn Hm.
  assert (Z.to_nat n <= size (dom m))%nat as Hle; [|rewrite size_dom in Hle; lia].
  set (ks := list_to_set (mkEndpointKey sid p <$> seqZ 1 n) : gset EndpointKey).
  assert (size ks = Z.to_nat n) as <-.
  { unfold ks. rewrite size_list_to_set.
    - by rewrite length_fmap, length_seqZ.
    - apply NoDup_fmap_2; [|apply NoDup_seqZ]. by intros ? ? [=]. }
  apply subseteq_size. intros k Hk. unfold ks in Hk. apply elem_of_list_to_set in Hk.
  apply list_elem_of_fmap in Hk as (i & -> & Hi%elem_of_seqZ). apply elem_of_dom, Hm. lia.
Qed.

Lemma count_bound c sid sv p n :
  ep_inv c -> KmService c !! sid = Some sv -> EndpointCount sv !! p = Some n ->
  0 <= n <= max_entries.
Proof.
  intros [Hsz _ Hc Hs _ _] Hsv Hn. destruct (Hc _ _ Hsv) as [_ Hpos].
  assert (0 <= n) by (by eapply Forall_lookup_1 in Hpos). split; [done|].
  etrans; [apply (slots_le_size (KmEndpoint c) sid (Z.of_nat p) n); [done|]|lia].
  intros i Hi. eapply Hs; [done|lia|by rewrite Nat2Z.id|done].
Qed.

(** ** Removing a slot: the last one takes its place *)
Definition remove_slot (ek : EndpointKey) (n : Z) (m : gmap EndpointKey Z) : gmap EndpointKey Z :=
  let last := mkEndpointKey (ServiceId ek) (Prio ek) n in
  if decide (BackendIndex ek = n) then delete ek m
  else match m !! last with
       | Some v => delete last (<[ek := v]> m)
       | None => m
       end.

(** The backends of a priority group. *)
Definition members (m : gmap EndpointKey Z) (sid p : Z) : list Z :=
  (map_to_list (filter (fun kv => ServiceId kv.1 = sid /\ Prio kv.1 = p) m)).*2.

Lemma members_insert m k v sid p :
  m !! k = None ->
  members (<[k := v]> m) sid p ≡ₚ
  if decide (ServiceId k = sid /\ Prio k = p) then v :: members m sid p else members m sid p.
Proof.
  intros Hk. unfold members. case_decide as Hd.
  - rewrite map_filter_insert_True by done. rewrite map_to_list_insert; [done|].
    apply map_lookup_filter_None. by left.
  - rewrite map_filter_insert_False by done. by rewrite delete_id.
Qed.

Lemma members_delete m k v sid p :
  m !! k = Some v ->
  members m sid p ≡ₚ
  if decide (ServiceId k = sid /\ Prio k = p) then v :: members (delete k m) sid p
  else members (delete k m) sid p.
Proof.
  intros Hk. rewrite <-(insert_delete_id m k v) at 1 by done.
  apply members_insert, lookup_delete_eq.
Qed.

Lemma members_remove_slot m ek n u sid p :
  m !! ek = Some u -> is_Some (m !! mkEndpointKey (ServiceId ek) (Prio ek) n) ->
  members m sid p ≡ₚ
  if decide (ServiceId ek = sid /\ Prio ek = p) then u :: members (remove_slot ek n m) sid p
  else members (remove_slot ek n m) sid p.
Proof.
  intros Hek [v Hv]. unfold remove_slot. destruct (decide (BackendIndex ek = n)) as [Hn|Hn].
  - by apply members_delete.
  - rewrite Hv. set (last := mkEndpointKey (ServiceId ek) (Prio ek) n) in *.
    assert (ek <> last) as Hne by (intros E; apply Hn; by rewrite E).
    rewrite delete_insert_ne by done.
    rewrite (members_delete m ek u) by done.
    assert (members (delete ek m) sid p ≡ₚ members (<[ek := v]> (delete last m)) sid p) as Heq.
    { rewrite (members_delete (delete ek m) last v) by (by rewrite lookup_delete_ne).
      rewrite <-(insert_delete_eq (delete last m)).
      rewrite (members_insert (delete ek (delete last m)) ek v) by (apply lookup_delete_eq).
      change (ServiceId last) with (ServiceId ek). change (Prio last) with (Prio ek).
      by rewrite (delete_delete m ek last). }
    case_decide; by rewrite Heq.
Qed.

Lemma remove_slot_lookup m ek n k :
  is_Some (m !! mkEndpointKey (ServiceId ek) (Prio ek) n) ->
  remove_slot ek n m !! k =
  if decide (k = mkEndpointKey (ServiceId ek) (Prio ek) n) then None
  else if decide (k = ek) then m !! mkEndpointKey (ServiceId ek) (Prio ek) n
  else m !! k.
Proof.
  intros [v Hv]. unfold remove_slot. destruct (decide (BackendIndex ek = n)) as [Hn|Hn].
  - assert (mkEndpointKey (ServiceId ek) (Prio ek) n = ek) as -> by (destruct ek; cbn in *; by subst).
    rewrite lookup_delete. repeat case_decide; congruence.
  - rewrite Hv. set (last := mkEndpointKey (ServiceId ek) (Prio ek) n) in *.
    rewrite lookup_delete, lookup_insert. repeat case_decide; congruence.
Qed.

Lemma remove_slot_size m ek n :
  is_Some (m !! ek) -> is_Some (m !! mkEndpointKey (ServiceId ek) (Prio ek) n) ->
  size (remove_slot ek n m) = (size m - 1)%nat.
Proof.
  intros [u Hu] [v Hv]. unfold remove_slot. destruct (decide (BackendIndex ek = n)) as [Hn|Hn].
  - rewrite map_size_delete, Hu. lia.
  - rewrite Hv. set (last := mkEndpointKey (ServiceId ek) (Prio ek) n) in *.
    assert (ek <> last) as Hne by (intros E; apply Hn; by rewrite E).
    rewrite map_size_delete, lookup_insert_ne, Hv by done.
    rewrite map_size_insert_Some by (by eexists). lia.
Qed.

(** ** How often a workload is a backend of a service *)
Definition at_service (sid uid : Z) (kv : EndpointKey * Z) : Prop := ServiceId kv.1 = sid /\ kv.2 = uid.
#[export] Instance at_service_dec sid uid kv : Decision (at_service sid uid kv).
Proof. unfold at_service. apply _. Defined.
Definition occurrences (uid sid : Z) (m : gmap EndpointKey Z) : nat := size (filter (at_service sid uid) m).

Lemma occurrences_insert m k v uid sid :
  m !! k = None ->
  occurrences uid sid (<[k := v]> m) =
  ((if decide (at_service sid uid (k, v)) then 1 else 0) + occurrences uid sid m)%nat.
Proof.
  intros Hk. unfold occurrences. case_decide as Hd.
  - rewrite map_filter_insert_True by done. rewrite map_size_insert_None; [done|].
    apply map_lookup_filter_None. by left.
  - rewrite map_filter_insert_False by done. by rewrite delete_id.
Qed.

Lemma occurrences_delete m k v uid sid :
  m !! k = Some v ->
  occurrences uid sid m =
  ((if decide (at_service sid uid (k, v)) then 1 else 0) + occurrences uid sid (delete k m))%nat.
Proof.
  intros Hk. rewrite <-(insert_delete_id m k v) at 1 by done. apply occurrences_insert, lookup_delete_eq.
Qed.

Lemma occurrences_remove_slot m ek n u uid sid :
  m !! ek = Some u -> is_Some (m !! mkEndpointKey (ServiceId ek) (Prio ek) n) ->
  occurrences uid sid m =
  ((if decide (at_service sid uid (ek, u)) then 1 else 0) + occurrences uid sid (remove_slot ek n m))%nat.
Proof.
  intros Hek [v Hv]. unfold remove_slot. destruct (decide (BackendIndex ek = n)) as [Hn|Hn].
  - by apply occurrences_delete.
  - rewrite Hv. set (last := mkEndpointKey (ServiceId ek) (Prio ek) n) in *.
    assert (ek <> last) as Hne by (intros E; apply Hn; by rewrite E).
    rewrite (occurrences_delete m ek u) by done. f_equal.
    rewrite (occurrences_delete (delete ek m) last v) by (by rewrite lookup_delete_ne).
    rewrite delete_insert_ne by done. rewrite <-(insert_delete_eq (delete last m)).
    rewrite (occurrences_insert (delete ek (delete last m)) ek v) by (apply lookup_delete_eq).
    by rewrite (delete_delete m ek last).
Qed.

Lemma occurrences_zero m uid sid :
  occurrences uid sid m = 0%nat <-> forall k, ServiceId k = sid -> m !! k <> Some uid.
Proof.
  unfold occurrences. rewrite map_size_empty_iff, map_empty. split.
  - intros Hm k Hk Hu. specialize (Hm k). rewrite map_lookup_filter_None in Hm.
    destruct Hm as [Hm|Hm]; [congruence|]. by apply (Hm uid).
  - intros Hm k. apply map_lookup_filter_None. right. intros u Hu [Hk Heq]. cbn in *. subst. by apply (Hm k).
Qed.

(** ** Steps that keep the invariant *)

(** Slots are only filled, or refilled. *)
Lemma ep_inv_refill c c' :
  ep_inv c -> KmService c' = KmService c ->
  (forall k, is_Some (KmEndpoint c' !! k) <-> is_Some (KmEndpoint c !! k)) ->
  index_sup c' -> Z.of_nat (size (KmEndpoint c')) <= max_entries ->
  ep_inv c' /\ (ep_exact c -> ep_exact c').
Proof.
  intros [Hsz Hsz' Hc Hs Hk Hi] HS HE Hidx Hsize. split; [split|]; try done; rewrite ?HS; try done.
  - intros sid sv p n i. rewrite HE. by apply Hs.
  - intros k. rewrite HE. apply Hk.
  - intros Hex k. rewrite HE, HS. apply Hex.
Qed.

(** The counts of a service change to counts that are served. *)
Lemma ep_inv_counts c c' sid sv :
  ep_inv c -> KmService c' = <[sid := sv]> (KmService c) -> KmEndpoint c' = KmEndpoint c ->
  endpointKeys c' = endpointKeys c -> Z.of_nat (size (KmService c')) <= max_entries ->
  length (EndpointCount sv) = PrioCount -> Forall (fun n => 0 <= n) (EndpointCount sv) ->
  (forall p n i, 0 <= p -> EndpointCount sv !! Z.to_nat p = Some n -> 1 <= i <= n ->
     is_Some (KmEndpoint c !! mkEndpointKey sid p i)) ->
  ep_inv c'.
Proof.
  intros [Hsz Hsz' Hc Hs Hk Hi] HS HE HK Hsize Hlen Hpos Hserved. split.
  - by rewrite HE.
  - done.
  - intros s v. rewrite HS, lookup_insert_Some. intros [[<- <-]|[_ Hv]]; [done|]. eauto.
  - intros s v p n i. rewrite HS, HE, lookup_insert_Some. intros [[<- <-]|[_ Hv]]; eauto.
  - intros k. rewrite HE. apply Hk.
  - intros k u. rewrite HE. intros Hku. apply Hi in Hku. unfold GetEndpointKeys in *. by rewrite HK.
Qed.

(** A slot beyond the count of its service goes. *)
Lemma ep_inv_delete c c' ek :
  ep_inv c -> KmService c' = KmService c -> KmEndpoint c' = delete ek (KmEndpoint c) ->
  index_sup c' ->
  (forall sv n, KmService c !! ServiceId ek = Some sv ->
     EndpointCount sv !! Z.to_nat (Prio ek) = Some n -> 1 <= BackendIndex ek <= n -> 0 <= Prio ek -> False) ->
  ep_inv c'.
Proof.
  intros [Hsz Hsz' Hc Hs Hk Hi] HS HE Hidx Hbeyond. split; rewrite ?HS; try done.
  - rewrite HE, map_size_delete. destruct (KmEndpoint c !! ek); unfold id; lia.
  - intros sid sv p n i Hsv Hp Hn Hin. rewrite HE, lookup_delete_ne; [by eapply Hs|].
    intros ->. cbn in *. by eapply Hbeyond.
  - intros k. rewrite HE. intros [v Hv]. apply lookup_delete_Some in Hv as [_ Hv]. eauto.
Qed.

(** ** [deleteEndpoint] *)

(** The tables after a successful removal of the slot [ek] of a group of [n]. *)
Record deleted (ek : EndpointKey) (sv : ServiceValue) (n : Z) (c c' : Cache) : Prop := {
  dl_ep : KmEndpoint c' = remove_slot ek n (KmEndpoint c);
  dl_svc : KmService c' = <[ServiceId ek := set_EndpointCount
             (<[Z.to_nat (Prio ek) := n - 1]> (EndpointCount sv)) sv]> (KmService c);
  dl_rest : KmBackend c' = KmBackend c /\ KmFrontend c' = KmFrontend c /\ KmWlpolicy c' = KmWlpolicy c;
  dl_index : index_ok c -> index_ok c'
}.

Lemma set_EndpointCount_id sv : set_EndpointCount (EndpointCount sv) sv = sv.
Proof. by destruct sv. Qed.

(** After the swap: the slots are the same, and removing the last one now
    removes the backend of [ek]. *)
Lemma wp_swap `{E : Env} p ek ev n (Q : option error -> World -> Cache -> Prop) w c :
  ep_inv c -> KmEndpoint c !! ek = Some ev -> 1 <= BackendIndex ek <= n -> n <= max_entries ->
  (forall i, 1 <= i <= n -> is_Some (KmEndpoint c !! mkEndpointKey (ServiceId ek) (Prio ek) i)) ->
  (forall e, ~ Reliable E -> Q (Some e) (tick w) c) ->
  (forall w' c', w' = w \/ w' = tick w -> same_other c c' -> ep_inv c' -> (ep_exact c -> ep_exact c') ->
     (index_ok c -> index_ok c') ->
     delete (mkEndpointKey (ServiceId ek) (Prio ek) n) (KmEndpoint c') = remove_slot ek n (KmEndpoint c) ->
     (forall k, is_Some (KmEndpoint c' !! k) <-> is_Some (KmEndpoint c !! k)) ->
     Q None w' c') ->
  wp p (EndpointSwap (BackendIndex ek) ev n (ServiceId ek) (Prio ek)) Q w c.
Proof.
  intros Hinv Hek Hidx Hmax Hserved Herr Hok. pose proof max_entries_u32.
  destruct ek as [sid pr cur]; cbn in *.
  apply wp_EndpointSwap; [lia|lia|done|apply Hinv|..].
  - intros ->. assert (cur = 1) as -> by lia. apply Hok; auto; done.
  - intros Hn v c' Hv Hm Hkeys Hother.
    assert (forall k, is_Some (KmEndpoint c' !! k) <-> is_Some (KmEndpoint c !! k)) as Hdom.
    { intros k. rewrite Hm, lookup_insert. destruct (decide (_ = k)) as [<-|]; [|done].
      rewrite Hek. split; by eexists. }
    destruct (ep_inv_refill c c') as [Hinv' Hex']; try done.
    { by destruct Hother as (_ & _ & ? & _). }
    { eapply index_sup_swap; [done|exact Hkeys|apply Hinv]. }
    { rewrite Hm, map_size_insert_Some by (by eexists). apply Hinv. }
    apply Hok; auto.
    + intros Hiok. eapply index_ok_swap; [exact Hm|exact Hkeys|done|done].
    + rewrite Hm. unfold remove_slot. cbn. destruct (decide (cur = n)) as [->|Hne].
      * apply delete_insert_eq.
      * by rewrite Hv.
  - intros e He. apply (Herr e). intros [_ Hr]. rewrite Hr in He; [done|]. apply Hinv.
Qed.

Lemma ep_exact_deleted ek sv n c c' :
  ep_inv c -> KmService c !! ServiceId ek = Some sv -> is_Some (KmEndpoint c !! ek) ->
  EndpointCount sv !! Z.to_nat (Prio ek) = Some n ->
  is_Some (KmEndpoint c !! mkEndpointKey (ServiceId ek) (Prio ek) n) ->
  KmEndpoint c' = remove_slot ek n (KmEndpoint c) ->
  KmService c' = <[ServiceId ek := set_EndpointCount
             (<[Z.to_nat (Prio ek) := n - 1]> (EndpointCount sv)) sv]> (KmService c) ->
  ep_exact c -> ep_exact c'.
Proof.
  intros Hinv Hsv Hek Hn Hlast Hm HS Hex k. rewrite Hm, remove_slot_lookup by done.
  case_decide as Hkl; [by intros []|]. intros Hk.
  assert (is_Some (KmEndpoint c !! k)) as Hk' by (case_decide; by subst).
  destruct (Hex k Hk') as (svk & nk & Hsvk & Hnk & Hle). rewrite HS.
  destruct (decide (ServiceId ek = ServiceId k)) as [Hsid|Hsid].
  2: { rewrite lookup_insert_ne by done. eauto. }
  rewrite Hsid, lookup_insert_eq. rewrite Hsid in Hsv. assert (svk = sv) as -> by congruence.
  destruct (ei_keys _ Hinv k Hk') as [Hpk _], (ei_keys _ Hinv ek Hek) as [Hpe _].
  eexists. destruct (decide (Prio k = Prio ek)) as [Hpr|Hpr].
  - exists (n - 1). split; [done|]. rewrite Hpr. split.
    + cbn. apply list_lookup_insert_eq. by apply lookup_lt_Some in Hn.
    + rewrite Hpr in Hnk. assert (nk = n) as -> by congruence.
      assert (BackendIndex k <> n); [|lia]. intros Hbn. apply Hkl. destruct k; cbn in *. by subst.
  - exists nk. split; [done|]. split; [|done]. cbn. by rewrite list_lookup_insert_ne by lia.
Qed.

(** The removal, on a group whose counts are served: it succeeds unless the
    kernel refuses an update, and whatever happens the invariant is kept. *)
Lemma wp_deleteEndpoint `{E : Env} `{!DeletesSucceed E} p ek ev sv n
    (Q : option error -> World -> Cache -> Prop) w c :
  ep_inv c -> KmService c !! ServiceId ek = Some sv -> KmEndpoint c !! ek = Some ev ->
  EndpointCount sv !! Z.to_nat (Prio ek) = Some n -> BackendIndex ek <= n ->
  (forall w' c', same_heap w w' -> ep_inv c' -> (ep_exact c -> ep_exact c') -> deleted ek sv n c c' ->
     Q None w' c') ->
  (forall e w' c', same_heap w w' -> ~ Reliable E -> ep_inv c' -> (ep_exact c -> ep_exact c') ->
     KmService c' = KmService c -> Q (Some e) w' c') ->
  wp p (deleteEndpoint ek ev sv (ServiceId ek)) Q w c.
Proof.
  intros Hinv Hsv Hek Hn Hidx Hok Herr. pose proof max_entries_u32 as Hmax.
  destruct (ei_keys _ Hinv ek) as [Hprio Hlow]; [by eexists|].
  pose proof (count_bound _ _ _ _ _ Hinv Hsv Hn) as Hbound.
  assert (forall i, 1 <= i <= n -> is_Some (KmEndpoint c !! mkEndpointKey (ServiceId ek) (Prio ek) i)) as Hserved.
  { intros i Hi. eapply Hinv; [done|lia|done|done]. }
  unfold deleteEndpoint, array_get. rewrite decide_True by lia. rewrite Hn. wp_steps.
  apply wp_swap; [done|done|lia|lia|done|..].
  { intros e HR. wp_steps. by apply Herr. }
  intros w1 c1 Hw1 Ho1 Hinv1 Hex1 Hiok1 Hm1 Hdom1. destruct Ho1 as (HB & HF & HS & HW).
  assert (same_heap w w1) as Hw1' by (destruct Hw1 as [->| ->]; done).
  assert (n -32 1 = n - 1) as -> by (apply u32_small; unfold is_u32; lia).
  wp_steps. apply wp_ServiceUpdate.
  2: { intros e He. wp_steps. apply Herr; [by etrans; [|apply same_heap_tick]| |done|done|done].
       intros HR. destruct HR as [_ Hr]. rewrite Hr in He; [done|].
       rewrite map_size_insert_Some by (rewrite HS; by eexists). apply Hinv1. }
  intros _. wp_steps. assert (n - 1 +32 1 = n) as -> by (rewrite u32_small; unfold is_u32; lia).
  set (last := mkEndpointKey (ServiceId ek) (Prio ek) n) in *.
  set (sv' := set_EndpointCount _ sv). set (c2 := set_KmService _ c1).
  assert (Z.of_nat (size (KmService c2)) <= max_entries) as Hsz2.
  { cbn. rewrite map_size_insert_Some by (rewrite HS; by eexists). apply Hinv1. }
  destruct (ei_counts _ Hinv _ _ Hsv) as [Hlen Hpos].
  assert (ep_inv c2) as Hinv2.
  { eapply (ep_inv_counts c1); [done|done|done|done|done| | |].
    - cbn. by rewrite length_insert.
    - cbn. apply Forall_insert; [done|lia].
    - cbn. intros p' n' i Hp' Hn' Hi. apply Hdom1.
      destruct (decide (Z.to_nat (Prio ek) = Z.to_nat p')) as [Hpp|Hpp].
      + rewrite <-Hpp, list_lookup_insert_eq in Hn' by (apply lookup_lt_Some in Hn; lia).
        injection Hn' as <-. assert (p' = Prio ek) as -> by lia. apply Hserved. lia.
      + rewrite list_lookup_insert_ne in Hn' by done. eapply Hinv; [done|lia|done|done]. }
  assert (is_Some (KmEndpoint c1 !! last)) as [v Hv] by (apply Hdom1, Hserved; lia).
  apply wp_EndpointDelete; [done|cbn; congruence|].
  intros uid c3 Huid Hm3 Hk3 (HB3 & HF3 & HS3 & HW3). cbn in Huid, Hm3, HB3, HF3, HS3, HW3.
  assert (KmEndpoint c3 = remove_slot ek n (KmEndpoint c)) as Hm3' by (by rewrite Hm3).
  assert (EndpointCount sv' !! Z.to_nat (Prio ek) = Some (n - 1)) as Hcount'.
  { cbn. apply list_lookup_insert_eq. apply lookup_lt_Some in Hn. lia. }
  apply Hok.
  - destruct Hw1 as [->| ->]; done.
  - eapply (ep_inv_delete c2 c3 last); [done|done|done| |].
    + eapply index_sup_delete; [apply Hinv2|done|done].
    + cbn. rewrite lookup_insert_eq. intros ? n' [= <-] Hn'. cbn in Hn', Hcount'.
      rewrite Hcount' in Hn'. injection Hn' as <-. lia.
  - intros Hex. eapply ep_exact_deleted; [exact Hinv|done|by eexists|done|apply Hserved; lia|done| |done].
    rewrite HS3. cbn. by rewrite HS.
  - split; [done| | |].
    + rewrite HS3. cbn. by rewrite HS.
    + split_and!; congruence.
    + intros Hiok. eapply (index_ok_delete last uid c2); [|exact Huid|exact Hm3|exact Hk3].
      intros k u. by apply Hiok1.
Qed.

(** ** Adding an endpoint at the end of a group *)
Record added (ek : EndpointKey) (uid : Z) (sv : ServiceValue) (n : Z) (c c' : Cache) : Prop := {
  ad_ep : KmEndpoint c' = <[ek := uid]> (KmEndpoint c);
  ad_svc : KmService c' = <[ServiceId ek := set_EndpointCount
             (<[Z.to_nat (Prio ek) := n + 1]> (EndpointCount sv)) sv]> (KmService c);
  ad_rest : KmBackend c' = KmBackend c /\ KmFrontend c' = KmFrontend c /\ KmWlpolicy c' = KmWlpolicy c;
  ad_index : index_ok c -> KmEndpoint c !! ek = None -> index_ok c'
}.

(** A new endpoint that the count does not cover yet. *)
Lemma ep_inv_insert c c' ek uid :
  ep_inv c -> 0 <= Prio ek < Z.of_nat PrioCount -> 1 <= BackendIndex ek ->
  KmService c' = KmService c ->
  KmEndpoint c' = <[ek := uid]> (KmEndpoint c) \/ KmEndpoint c' = KmEndpoint c ->
  endpointKeys c' = endpointKeys (index_insert uid ek c) ->
  Z.of_nat (size (KmEndpoint c')) <= max_entries -> ep_inv c'.
Proof.
  intros [Hsz Hsz' Hc Hs Hk Hi] Hp Hb HS HE HK Hsize.
  assert (forall k, is_Some (KmEndpoint c !! k) -> is_Some (KmEndpoint c' !! k)) as Hmono.
  { intros k. destruct HE as [->| ->]; [|done]. rewrite lookup_insert. by case_decide. }
  split; rewrite ?HS; try done.
  - intros. by eapply Hmono, Hs.
  - intros k. destruct HE as [->| ->]; [|apply Hk]. rewrite lookup_insert.
    case_decide; subst; [done|apply Hk].
  - by eapply index_sup_insert.
Qed.

Lemma ep_inv_added c c1 c' ek sv n :
  ep_inv c1 -> ep_inv c -> KmService c1 = KmService c ->
  KmService c !! ServiceId ek = Some sv -> EndpointCount sv !! Z.to_nat (Prio ek) = Some n ->
  0 <= Prio ek -> BackendIndex ek = n + 1 -> is_Some (KmEndpoint c1 !! ek) ->
  KmService c' = <[ServiceId ek := set_EndpointCount
     (<[Z.to_nat (Prio ek) := n + 1]> (EndpointCount sv)) sv]> (KmService c1) ->
  KmEndpoint c' = KmEndpoint c1 -> endpointKeys c' = endpointKeys c1 -> ep_inv c'.
Proof.
  intros Hinv1 Hinv HS1 Hsv Hn Hp Hb Hek HS HE HK.
  destruct (ei_counts _ Hinv _ _ Hsv) as [Hlen Hpos].
  assert (0 <= n) by (by eapply Forall_lookup_1 in Hpos).
  eapply (ep_inv_counts c1); [done|done|done|done| | | |].
  - rewrite HS, map_size_insert_Some by (rewrite HS1; by eexists). apply Hinv1.
  - cbn. by rewrite length_insert.
  - cbn. apply Forall_insert; [done|lia].
  - cbn. intros p n' i Hp' Hn' Hi. destruct (decide (Z.to_nat (Prio ek) = Z.to_nat p)) as [Hpp|Hpp].
    + rewrite <-Hpp, list_lookup_insert_eq in Hn' by (by apply lookup_lt_Some in Hn).
      injection Hn' as <-. assert (p = Prio ek) as -> by lia.
      destruct (decide (i = n + 1)) as [->|Hi'].
      * destruct ek; cbn in *; by subst.
      * eapply Hinv1; [by rewrite HS1|lia|done|lia].
    + rewrite list_lookup_insert_ne in Hn' by done. eapply Hinv1; [by rewrite HS1|lia|done|done].
Qed.

Lemma ep_exact_added c c' ek uid sv n :
  ep_inv c -> KmService c !! ServiceId ek = Some sv -> EndpointCount sv !! Z.to_nat (Prio ek) = Some n ->
  0 <= Prio ek -> BackendIndex ek = n + 1 -> added ek uid sv n c c' -> ep_exact c -> ep_exact c'.
Proof.
  intros Hinv Hsv Hn Hp Hb [HE HS _ _] Hex k. rewrite HE, HS.
  assert (EndpointCount (set_EndpointCount (<[Z.to_nat (Prio ek) := n + 1]> (EndpointCount sv)) sv)
            !! Z.to_nat (Prio ek) = Some (n + 1)) as Hnew.
  { cbn. apply list_lookup_insert_eq. by apply lookup_lt_Some in Hn. }
  destruct (decide (ek = k)) as [<-|Hne].
  - intros _. rewrite lookup_insert_eq. do 2 eexists. split; [done|]. split; [done|]. lia.
  - rewrite lookup_insert_ne by done. intros Hk. destruct (Hex k Hk) as (svk & nk & Hsvk & Hnk & Hle).
    destruct (ei_keys _ Hinv k Hk) as [Hpk _].
    destruct (decide (ServiceId ek = ServiceId k)) as [Hsid|Hsid].
    2: { rewrite lookup_insert_ne by done. eauto. }
    rewrite Hsid in *. rewrite lookup_insert_eq. assert (svk = sv) as -> by congruence.
    eexists. destruct (decide (Prio ek = Prio k)) as [Hpr|Hpr].
    + exists (n + 1). split; [done|]. rewrite <-Hpr in *. split; [done|]. assert (nk = n) as -> by congruence. lia.
    + exists nk. split; [done|]. split; [|done]. cbn. by rewrite list_lookup_insert_ne by lia.
Qed.

(** In an exact table the slot after the last one is free. *)
Lemma ep_exact_free c ek sv n :
  ep_exact c -> KmService c !! ServiceId ek = Some sv -> EndpointCount sv !! Z.to_nat (Prio ek) = Some n ->
  n < BackendIndex ek -> KmEndpoint c !! ek = None.
Proof.
  intros Hex Hsv Hn Hlt. destruct (KmEndpoint c !! ek) eqn:Ek; [|done].
  destruct (Hex ek) as (sv' & n' & Hsv' & Hn' & Hle); [by eexists|]. simplify_eq. lia.
Qed.
