(* ===== verification/ProcessorInv.v ===== *)
(** * The invariant of the processor

    Every handler of the processor keeps the endpoint tables servable, the
    name table injective and the caches consistent, whatever updates the
    kernel refuses and in whatever order maps are visited.  [keeps] is closed
    under the control structures of the code, so that most handlers follow
    from the operations they call. *)
From S2P Require Import Prelude GoNet Nets HashName Api Runtime BpfCache Locality WorkloadCache ServiceCache EndpointCache WaypointCache Processor Endpoints.
Open Scope go_scope.

(** A call of one BPF map operation. *)
Ltac map_op := intros [] [] ; cbn; wp_steps;
  first [apply wp_map_Update|apply wp_map_Delete|apply wp_map_Lookup]; cbn; intros; wp_steps; done.

Section inv.
Context `{E : Env} `{!DeletesSucceed E} `{Persist} `{Dns}.

(** Routing preferences that fit in the priority groups. *)
Definition prefs_ok (x : Service) : Prop :=
  (length (GetRoutingPreference (svc_load_balancing x)) < PrioCount)%nat.

(** [p = true] admits runs that crash; [p = false] asks for what rules them
    out, besides; [loc = true] says that the locality of the node is known. *)
Record p_inv (p loc : bool) (w : World) (P : Processor) : Prop := {
  pi_hash : hash_wf (hashName P);
  pi_ep : ep_inv (bpf P);
  pi_exact : Reliable E -> ep_exact (bpf P);
  pi_uids : uids_ok w (wlCache P);
  pi_names : names_ok w (svcCache P);
  pi_ptrs : wc_ptrs w (wpCache P);
  pi_safe : p = false -> wc_ok w (wpCache P) /\
    forall name q x, servicesByResourceName (svcCache P) !! name = Some q -> svcs w !! q = Some x ->
      prefs_ok x;
  pi_loc : loc = true -> is_Some (LocalityInfo (locality P))
}.

(** An operation that keeps the invariant. *)
Definition heap_rel (w : World) (_ : Processor) (w' : World) (_ : Processor) : Prop := heap_le w w'.
#[export] Instance heap_rel_preorder : PreorderR heap_rel.
Proof. unfold heap_rel. split; intros; [done|by etrans]. Qed.
#[local] Hint Unfold heap_rel : kmesh.
Abbreviation keeps p loc m := (stays p (p_inv p loc) heap_rel m).

Section rules.
Context (p loc : bool).

(** The invariant does not depend on the clock. *)
Lemma p_inv_heap w w' P : same_heap w w' -> p_inv p loc w P -> p_inv p loc w' P.
Proof.
  intros [Hs Hw] [A B C D F T G L]. split; try done.
  - intros uid q. rewrite Hw. apply D.
  - intros n q. rewrite Hs. apply F.
  - eapply wc_ptrs_le, T. by apply same_heap_le.
  - intros Hp. destruct (G Hp) as [G1 G2]. split; [|by rewrite Hs].
    eapply wc_ok_world, G1; rewrite ?Hs, ?Hw; eauto.
Qed.

Lemma keeps_range {A} (l : list A) : keeps p loc (range l).
Proof.
  intros w P HP. apply wp_range. intros l' _. split; [|auto with kmesh]. by eapply p_inv_heap, HP.
Qed.

(** A change of fields that the invariant does not mention. *)
Lemma keeps_modify f :
  (forall P, hashName (f P) = hashName P /\ bpf (f P) = bpf P /\ wlCache (f P) = wlCache P /\
     svcCache (f P) = svcCache P /\ wpCache (f P) = wpCache P /\ locality (f P) = locality P) ->
  keeps p loc (modify f).
Proof.
  intros Hf w P HP. apply wp_modify. split; [|by red]. destruct (Hf P) as (A & B & C & D & F & L), HP.
  split; rewrite ?A, ?B, ?C, ?D, ?F, ?L; done.
Qed.

Lemma keeps_hash s : keeps p loc (hash s).
Proof.
  intros w P [A B C D F T G L]. unfold wp, hash. destruct (Hash_spec s (hashName P) A) as (n & h & -> & Hwf & _).
  split; [|by red]. by split.
Qed.
Lemma keeps_hash_delete s : keeps p loc (hash_delete s).
Proof.
  intros w P [A B C D F T G L]. apply wp_modify. split; [|by red]. split; try done. by apply Delete_wf.
Qed.

(** Writes of the maps that the invariant leaves open. *)
Lemma keeps_bpf {A} (m : Go Cache A) :
  (forall w c, ep_inv c -> wp p m (fun _ w' c' => same_heap w w' /\ ep_inv c' /\
     (Reliable E -> ep_exact c -> ep_exact c')) w c) ->
  keeps p loc (zoom bpf_l m).
Proof.
  intros Hm w P [A1 B C D F T G L]. apply wp_zoom. eapply wp_mono; [by apply Hm|]. cbn.
  intros a w' c' (Hh & Hinv & Hex). split; [|by auto with kmesh].
  eapply p_inv_heap; [done|]. split; try done. auto.
Qed.

Definition ep_same (c c' : Cache) : Prop :=
  KmEndpoint c' = KmEndpoint c /\ KmService c' = KmService c /\ endpointKeys c' = endpointKeys c.

Lemma ep_inv_same c c' : ep_same c c' -> ep_inv c -> ep_inv c' /\ (ep_exact c -> ep_exact c').
Proof.
  intros (HE & HS & HK) Hinv. assert (index_sup c') as Hidx.
  { intros k u. rewrite HE. intros Hk. apply Hinv in Hk. unfold GetEndpointKeys in *. by rewrite HK. }
  eapply ep_inv_refill; try done; rewrite HE; [done|]. apply Hinv.
Qed.

Lemma keeps_bpf_same {A} (m : Go Cache A) :
  (forall w c, wp p m (fun _ w' c' => same_heap w w' /\ ep_same c c') w c) -> keeps p loc (zoom bpf_l m).
Proof.
  intros Hm. apply keeps_bpf. intros w c Hc. eapply wp_mono; [by apply Hm|]. cbn.
  intros a w' c' [Hh Hs]. destruct (ep_inv_same _ _ Hs Hc). auto.
Qed.

Lemma keeps_BackendUpdate k v : keeps p loc (zoom bpf_l (BackendUpdate k v)).
Proof. apply keeps_bpf_same. unfold BackendUpdate. map_op. Qed.
Lemma keeps_BackendDelete k : keeps p loc (zoom bpf_l (BackendDelete k)).
Proof. apply keeps_bpf_same. unfold BackendDelete. map_op. Qed.
Lemma keeps_BackendLookup k : keeps p loc (zoom bpf_l (BackendLookup k)).
Proof. apply keeps_bpf_same. unfold BackendLookup. map_op. Qed.
Lemma keeps_FrontendUpdate k v : keeps p loc (zoom bpf_l (FrontendUpdate k v)).
Proof. apply keeps_bpf_same. unfold FrontendUpdate. map_op. Qed.
Lemma keeps_FrontendDelete k : keeps p loc (zoom bpf_l (FrontendDelete k)).
Proof. apply keeps_bpf_same. unfold FrontendDelete. map_op. Qed.
Lemma keeps_FrontendIterFindKey id : keeps p loc (zoom bpf_l (FrontendIterFindKey id)).
Proof.
  apply keeps_bpf_same. intros [] []. unfold FrontendIterFindKey, map_Iterate. by wp_steps.
Qed.
Lemma keeps_WorkloadPolicyUpdate k v : keeps p loc (zoom bpf_l (WorkloadPolicyUpdate k v)).
Proof. apply keeps_bpf_same. unfold WorkloadPolicyUpdate. map_op. Qed.
Lemma keeps_WorkloadPolicyDelete k : keeps p loc (zoom bpf_l (WorkloadPolicyDelete k)).
Proof. apply keeps_bpf_same. unfold WorkloadPolicyDelete. map_op. Qed.
Lemma keeps_ServiceLookup k : keeps p loc (zoom bpf_l (ServiceLookup k)).
Proof. apply keeps_bpf_same. unfold ServiceLookup. map_op. Qed.
Lemma keeps_EndpointLookup k : keeps p loc (zoom bpf_l (EndpointLookup k)).
Proof. apply keeps_bpf_same. unfold EndpointLookup. map_op. Qed.
End rules.
End inv.
Abbreviation keeps p loc m := (stays p (p_inv p loc) heap_rel m).
#[export] Hint Unfold heap_rel : kmesh.

#[export] Hint Resolve keeps_range keeps_hash
  keeps_hash_delete keeps_BackendUpdate keeps_BackendDelete keeps_BackendLookup keeps_FrontendUpdate
  keeps_FrontendDelete keeps_FrontendIterFindKey keeps_WorkloadPolicyUpdate
  keeps_WorkloadPolicyDelete keeps_ServiceLookup keeps_EndpointLookup : stays.

Lemma set_bpf_id P : set_bpf (bpf P) P = P.
Proof. by destruct P. Qed.
Lemma set_hashName_id P : set_hashName (hashName P) P = P.
Proof. by destruct P. Qed.

Section handlers.
Context `{E : Env} `{!DeletesSucceed E} `{Persist} `{Dns} (p loc : bool).

(** Lookups, with what they find. *)
Lemma wp_service_lookup k (Q : ServiceValue + error -> World -> Processor -> Prop) w P :
  (forall v, KmService (bpf P) !! k = Some v -> Q (inl v) w P) ->
  (KmService (bpf P) !! k = None -> Q (inr ErrKeyNotExist) w P) ->
  wp p (zoom bpf_l (ServiceLookup k)) Q w P.
Proof. intros H1 H2. wp_steps. apply wp_ServiceLookup; cbn; rewrite set_bpf_id; auto. Qed.
Lemma wp_endpoint_lookup k (Q : Z + error -> World -> Processor -> Prop) w P :
  (forall v, KmEndpoint (bpf P) !! k = Some v -> Q (inl v) w P) ->
  (KmEndpoint (bpf P) !! k = None -> Q (inr ErrKeyNotExist) w P) ->
  wp p (zoom bpf_l (EndpointLookup k)) Q w P.
Proof. intros H1 H2. wp_steps. apply wp_EndpointLookup; cbn; rewrite set_bpf_id; auto. Qed.

(** ** Deleting endpoints *)
Lemma p_inv_bpf w P c : p_inv p loc w P -> ep_inv c -> (Reliable E -> ep_exact c) -> p_inv p loc w (set_bpf c P).
Proof. intros [A B C D F T G L] Hc He. by split. Qed.

Lemma p_inv_epCache w P x : p_inv p loc w P -> p_inv p loc w (set_epCache x P).
Proof. intros [A B C D F T G L]. by split. Qed.

Lemma keeps_forget f : keeps p loc (modify (fun P => set_epCache (f P) P)).
Proof. by apply keeps_modify. Qed.

Lemma wp_deleteEndpoint_out_of_range ek ev sv n (Q : option error -> World -> Cache -> Prop) w c :
  0 <= Prio ek -> EndpointCount sv !! Z.to_nat (Prio ek) = Some n -> n < BackendIndex ek ->
  (forall e, Q (Some e) w c) -> wp p (deleteEndpoint ek ev sv (ServiceId ek)) Q w c.
Proof.
  intros Hp Hn Hlt HQ. unfold deleteEndpoint, array_get, EndpointSwap.
  rewrite decide_True by done. rewrite Hn. wp_steps. rewrite decide_True by lia. by wp_steps.
Qed.

Lemma keeps_deleteEndpointRecord ek : keeps p loc (deleteEndpointRecord ek).
Proof.
  intros w P HP. unfold deleteEndpointRecord. apply wp_bind, wp_service_lookup.
  - intros sv Hsv. apply wp_bind, wp_endpoint_lookup; [intros ev Hev|intros _; by wp_steps; auto with kmesh].
    destruct (ei_counts _ (pi_ep _ _ _ _ HP) _ _ Hsv) as [Hlen Hpos].
    destruct (ei_keys _ (pi_ep _ _ _ _ HP) ek) as [Hprio _]; [by eexists|].
    destruct (lookup_lt_is_Some_2 (EndpointCount sv) (Z.to_nat (Prio ek))) as [n Hn]; [lia|].
    apply wp_bind, wp_zoom. destruct (decide (BackendIndex ek <= n)) as [Hle|Hgt].
    + eapply wp_deleteEndpoint; [apply HP|done|done|done|done|..]; cbn [lset bpf_l].
      * intros w' c' Hh Hinv Hex _. apply stays_from; [apply _|apply keeps_forget| |unfold heap_rel; auto with kmesh].
        eapply p_inv_heap; [done|]. apply p_inv_bpf; auto. intros. apply Hex, HP. done.
      * intros e w' c' Hh HR Hinv _ _. apply stays_from; [apply _|apply stays_ret, _| |unfold heap_rel; auto with kmesh].
        eapply p_inv_heap; [done|]. by apply p_inv_bpf.
    + apply (wp_deleteEndpoint_out_of_range _ _ _ n); [lia|done|lia|]. cbn. intros e.
      rewrite set_bpf_id. by wp_steps; auto with kmesh.
  - intros Hnone. apply wp_bind, wp_endpoint_lookup; [intros ev Hev|intros _; by wp_steps; auto with kmesh].
    apply wp_bind, wp_zoom, wp_EndpointDelete; [done|cbn; congruence|].
    intros uid c' Huid Hm Hk (_ & _ & HS & _). cbn [lset lget bpf_l] in *.
    apply stays_from; [apply _|apply keeps_forget| |unfold heap_rel; auto with kmesh].
    apply (p_inv_heap _ _ w); [done|]. apply p_inv_bpf; [done| |].
    + eapply ep_inv_delete; [apply HP|done|done| |].
      * eapply index_sup_delete; [apply HP|done|done].
      * intros sv n Hsv. congruence.
    + intros HR. pose proof (pi_exact _ _ _ _ HP HR) as Hex. destruct (Hex ek) as (sv & _ & Hsv & _); [by eexists|].
      congruence.
Qed.

Lemma keeps_deleteEndpointRecords l : keeps p loc (deleteEndpointRecords l).
Proof.
  unfold deleteEndpointRecords, sort_keys. pose proof keeps_deleteEndpointRecord. stays_auto.
Qed.

(** ** Adding an endpoint *)
Lemma wp_addWorkloadToService p' sk sv uid prio n (Q : EndpointKey * option error -> World -> Processor -> Prop) w P :
  p_inv p loc w P -> KmService (bpf P) !! sk = Some sv -> EndpointCount sv !! Z.to_nat prio = Some n ->
  0 <= prio ->
  let ek := mkEndpointKey sk prio (n + 1) in
  (forall w' c', same_heap w w' -> ep_inv c' -> (ep_exact (bpf P) -> ep_exact c') ->
     added ek uid sv n (bpf P) c' ->
     Q (ek, None) w' (set_epCache (AddEndpointToService (mkEndpoint sk prio (n + 1)) uid (epCache P)) (set_bpf c' P))) ->
  (forall e w' P', same_heap w w' -> p_inv p loc w' P' -> hashName P' = hashName P -> svcCache P' = svcCache P ->
     ~ (Reliable E /\ Z.of_nat (size (KmEndpoint (bpf P))) < max_entries) -> Q (ek, Some e) w' P') ->
  wp p' (addWorkloadToService sk sv uid prio) Q w P.
Proof.
  intros HP Hsv Hn Hp ek Hok Herr. pose proof (pi_ep _ _ _ _ HP) as Hinv. pose proof max_entries_u32.
  pose proof (count_bound _ _ _ _ _ Hinv Hsv Hn) as Hbound.
  destruct (ei_counts _ Hinv _ _ Hsv) as [Hlen Hpos]. pose proof (lookup_lt_Some _ _ _ Hn) as Hlt.
  assert (0 <= prio < Z.of_nat PrioCount) as Hp7 by lia.
  unfold addWorkloadToService, array_get. rewrite decide_True by done. rewrite Hn. wp_steps.
  assert (n +32 1 = n + 1) as -> by (apply u32_small; unfold is_u32; lia). fold ek.
  apply wp_EndpointUpdate; cbn [lget bpf_l lset].
  - intros c1 Hm1 Hk1 (HB & HF & HS & HW) Hsz _. wp_steps.
    assert (ep_inv c1) as Hinv1.
    { apply (ep_inv_insert (bpf P) c1 ek uid); [exact Hinv|done|cbn; lia|done|by left|done|done]. }
    apply wp_ServiceUpdate; cbn [lget bpf_l lset bpf set_bpf set_epCache].
    + intros _. wp_steps. set (c2 := set_KmService _ c1).
      assert (ep_inv c2) as Hinv2.
      { eapply (ep_inv_added (bpf P) c1 c2 ek); [done|done|done|exact Hsv|exact Hn|done|done| |done|done|done].
        rewrite Hm1, lookup_insert_eq. by eexists. }
      assert (added ek uid sv n (bpf P) c2) as Hadd.
      { split; [done|cbn; by rewrite HS|done|]. intros Hiok Hfree.
        assert (index_ok c1) as Hiok1 by (eapply index_ok_insert; [done|by left|done|done]).
        intros k u. apply Hiok1. }
      apply (Hok _ c2); [done|done| |done]. intros Hex. eapply ep_exact_added; [exact Hinv| | | | |exact Hadd|done]; done.
    + intros e He. wp_steps. cbn [lset bpf_l].
      assert (~ Reliable E) as HnR.
      { intros [_ HR]. rewrite HR in He; [done|].
        rewrite map_size_insert_Some by (rewrite HS; by eexists). apply Hinv1. }
      apply Herr; [done| |done|done|].
      * apply (p_inv_heap _ _ w); [done|]. apply (p_inv_epCache w (set_bpf c1 P)), p_inv_bpf; [done|done|tauto].
      * tauto.
  - intros e c1 Hm1 Hk1 (HB & HF & HS & HW) He. wp_steps. apply Herr; [done| |done|done|].
    + apply (p_inv_heap _ _ w); [done|]. apply p_inv_bpf; [done| |].
      * apply (ep_inv_insert (bpf P) c1 ek uid); [exact Hinv|done|cbn; lia|done|by right|done|]. rewrite Hm1. apply Hinv.
      * intros HR k. rewrite Hm1, HS. by apply (pi_exact _ _ _ _ HP).
    + intros [[_ HR] Hroom]. rewrite HR in He; [done|].
      rewrite map_size_insert. case_match; unfold id; lia.
Qed.

Lemma wp_add sk sv uid prio (Q : EndpointKey * option error -> World -> Processor -> Prop) w P :
  p_inv p loc w P -> KmService (bpf P) !! sk = Some sv -> 0 <= prio ->
  (p = false -> prio < Z.of_nat PrioCount) ->
  (forall r w' P', p_inv p loc w' P' -> heap_le w w' -> Q r w' P') ->
  wp p (addWorkloadToService sk sv uid prio) Q w P.
Proof.
  intros HP Hsv Hp0 Hp7 HQ.
  destruct (ei_counts _ (pi_ep _ _ _ _ HP) _ _ Hsv) as [Hlen _].
  destruct (EndpointCount sv !! Z.to_nat prio) as [n|] eqn:Hn.
  - eapply wp_addWorkloadToService; [done|done|done|done| |].
    + intros w' c' Hh Hinv Hex _. apply HQ; [|auto with kmesh]. apply (p_inv_heap _ _ w); [done|].
      apply (p_inv_epCache w (set_bpf c' P)), p_inv_bpf; [done|done|]. intros HR. by apply Hex, HP.
    + intros e w' P' Hh HP' _ _ _. apply HQ; auto with kmesh.
  - unfold addWorkloadToService, array_get. rewrite decide_True by done. rewrite Hn.
    wp_steps. apply wp_panic. destruct p; [done|]. apply lookup_ge_None in Hn. specialize (Hp7 eq_refl). lia.
Qed.

(** A cached service has preferences that fit. *)
Lemma cached_prefs w P name q :
  p_inv p loc w P -> GetService name (svcCache P) = Some q -> p = false -> prefs_ok (get_svc q w).
Proof.
  intros HP Hq Hp. destruct (pi_names _ _ _ _ HP _ _ Hq) as (x & Hx & _).
  unfold get_svc. rewrite Hx. by eapply (pi_safe _ _ _ _ HP).
Qed.

Lemma wp_calc_prio wl x (Q : Z -> World -> Processor -> Prop) w P :
  (p = false -> is_Some (LocalityInfo (locality P)) /\ prefs_ok x) ->
  (forall prio, 0 <= prio -> (p = false -> prio < Z.of_nat PrioCount) -> Q prio w P) ->
  wp p (calc_prio wl (GetRoutingPreference (svc_load_balancing x))) Q w P.
Proof.
  intros Hp HQ. unfold wp, calc_prio. set (rp := GetRoutingPreference _).
  destruct (decide (is_Some (LocalityInfo (locality P)))) as [Hl|Hl].
  - destruct (CalcLocalityLBPrio_total (locality P) wl rp Hl) as (prio & -> & H0' & Hle).
    apply HQ; [done|]. intros Hpf. destruct (Hp Hpf) as [_ Hx]. unfold prefs_ok in Hx. fold rp in Hx.
    unfold PrioCount in *. lia.
  - destruct p; [|by destruct (Hp eq_refl)].
    destruct (CalcLocalityLBPrio (locality P) wl rp) as [prio| |] eqn:Ep; [|done|].
    + apply HQ; [|done]. unfold CalcLocalityLBPrio in Ep.
      destruct (rank_loop _ _ _ _); [|done|done]. injection Ep as <-. apply u32_is.
    + exfalso. revert Ep. unfold CalcLocalityLBPrio. generalize 0 at 1. intros r.
      assert (forall rp r, rank_loop (locality P) wl rp r <> NoFuel) as Hnf.
      { clear. intros rp. induction rp as [|s rp IH]; intros r; cbn [rank_loop]; [done|].
        unfold scope_match. repeat case_match; try done. cbn. by destruct (bool_decide _). }
      specialize (Hnf rp r). destruct (rank_loop _ _ rp r); done.
Qed.

Lemma keeps_bindNewService wl id sid : keeps p loc (bindNewService wl id sid).
Proof.
  intros w P HP. unfold bindNewService. apply wp_bind, wp_service_lookup; [intros sv Hsv|intros _; by wp_steps; auto with kmesh].
  case_decide as Hlb.
  - wp_step. eapply wp_add; [done|done|done|unfold PrioCount; lia|]. intros [ek [e|]] w' P' HP' Hh; by wp_steps; auto with kmesh.
  - wp_steps. destruct (GetService _ _) as [q|] eqn:Hq; wp_steps; [|by auto with kmesh].
    destruct (LocalityInfo (locality P)) as [info|] eqn:Hl.
    + apply wp_calc_prio.
      { intros Hp. rewrite Hl. split; [by eexists|]. by eapply cached_prefs. }
      intros prio Hp0 Hp7. wp_steps. eapply wp_add; [done|done|done|done|].
      intros [ek [e|]] w' P' HP' Hh; by wp_steps; auto with kmesh.
    + wp_steps. eapply wp_add; [done|done|done|unfold PrioCount; lia|].
      intros [ek [e|]] w' P' HP' Hh; by wp_steps; auto with kmesh.
Qed.
End handlers.

#[export] Hint Resolve keeps_deleteEndpointRecords keeps_bindNewService : stays.

Section handlers2.
Context `{E : Env} `{!DeletesSucceed E} `{Persist} `{Dns} (p loc : bool).

Lemma keeps_deletePodFrontendData uid : keeps p loc (deletePodFrontendData uid).
Proof. unfold deletePodFrontendData. stays_auto. Qed.
Lemma keeps_storePodFrontendData uid ip : keeps p loc (storePodFrontendData uid ip).
Proof. unfold storePodFrontendData. stays_auto. Qed.
Lemma keeps_deleteFrontendByIp l : keeps p loc (deleteFrontendByIp l).
Proof. unfold deleteFrontendByIp. stays_auto. Qed.
Lemma keeps_updateServiceFrontendMap sid x : keeps p loc (updateServiceFrontendMap sid x).
Proof. unfold updateServiceFrontendMap. stays_auto. Qed.
Lemma keeps_deleteServiceFrontendData x id : keeps p loc (deleteServiceFrontendData x id).
Proof. unfold deleteServiceFrontendData. stays_auto. Qed.
Lemma keeps_storeWorkloadPolicies uid l : keeps p loc (storeWorkloadPolicies uid l).
Proof. unfold storeWorkloadPolicies. stays_auto. Qed.
Lemma keeps_deleteWorkloadPolicies uid : keeps p loc (deleteWorkloadPolicies uid).
Proof. unfold deleteWorkloadPolicies. stays_auto. Qed.
Lemma keeps_handleUnhealthyWorkload x : keeps p loc (handleUnhealthyWorkload x).
Proof. unfold handleUnhealthyWorkload. stays_auto. Qed.
Lemma keeps_handleWorkloadNewBoundServices x l : keeps p loc (handleWorkloadNewBoundServices x l).
Proof. unfold handleWorkloadNewBoundServices. stays_auto. Qed.
Lemma keeps_updateWorkloadInBackendMap x : keeps p loc (updateWorkloadInBackendMap x).
Proof. unfold updateWorkloadInBackendMap. stays_auto. Qed.
Lemma keeps_compareWorkloadServices x : keeps p loc (compareWorkloadServices x).
Proof. unfold compareWorkloadServices. stays_auto. Qed.
Lemma keeps_updateWorkloadInFrontendMap x : keeps p loc (updateWorkloadInFrontendMap x).
Proof. unfold updateWorkloadInFrontendMap. pose proof keeps_storePodFrontendData. stays_auto. Qed.
Lemma keeps_removeWorkloadFromBpfMap x : keeps p loc (removeWorkloadFromBpfMap x).
Proof.
  unfold removeWorkloadFromBpfMap. pose proof keeps_deletePodFrontendData.
  pose proof keeps_deleteWorkloadPolicies. stays_auto.
Qed.
End handlers2.

#[export] Hint Resolve keeps_deletePodFrontendData keeps_storePodFrontendData keeps_deleteFrontendByIp
  keeps_updateServiceFrontendMap keeps_deleteServiceFrontendData keeps_storeWorkloadPolicies
  keeps_deleteWorkloadPolicies keeps_handleUnhealthyWorkload keeps_handleWorkloadNewBoundServices
  keeps_updateWorkloadInBackendMap keeps_compareWorkloadServices keeps_updateWorkloadInFrontendMap
  keeps_removeWorkloadFromBpfMap : stays.

(** ** Removing a service *)
Section remove_service.
Context `{E : Env} `{!DeletesSucceed E} `{Persist} `{Dns} (p loc : bool).

(** The service [sid] is gone; of its endpoints at most those from priority
    [j] and, in that group, from index [i] on are left. *)
Definition todo (j i : Z) (k : EndpointKey) : Prop := j < Prio k \/ (Prio k = j /\ i <= BackendIndex k).
Record removing (sid : Z) (svd : ServiceValue) (j i : Z) (c : Cache) : Prop := {
  rm_inv : ep_inv c;
  rm_gone : KmService c !! sid = None;
  rm_rest : Reliable E -> forall k, is_Some (KmEndpoint c !! k) ->
    if decide (ServiceId k = sid)
    then todo j i k /\ exists n, EndpointCount svd !! Z.to_nat (Prio k) = Some n /\ BackendIndex k <= n
    else exists sv n, KmService c !! ServiceId k = Some sv /\
           EndpointCount sv !! Z.to_nat (Prio k) = Some n /\ BackendIndex k <= n
}.

Lemma removing_delete sid svd j i c (Q : option error -> World -> Cache -> Prop) w :
  removing sid svd j i c ->
  (forall w' c', same_heap w w' -> removing sid svd j (i + 1) c' -> Q None w' c') ->
  wp p (EndpointDelete (mkEndpointKey sid j i)) Q w c.
Proof.
  intros [Hinv Hgone Hrest] HQ. apply wp_EndpointDelete; [done|..].
  - intros Hnone. apply HQ; [done|]. split; [done|done|]. intros HR k Hk. specialize (Hrest HR k Hk).
    case_decide as Hs; [|done]. destruct Hrest as [Ht Hn]. split; [|done].
    unfold todo in *. assert (k <> mkEndpointKey sid j i) as Hne by (intros ->; rewrite Hnone in Hk; by destruct Hk).
    destruct Ht as [?|[Hj Hi]]; [by left|]. right. split; [done|].
    assert (BackendIndex k <> i); [|lia]. intros <-. apply Hne. destruct k; cbn in *; by subst.
  - intros uid c' Huid Hm Hk (_ & _ & HS & _). apply HQ; [done|]. split.
    + eapply ep_inv_delete; [done|done|done| |].
      * eapply index_sup_delete; [apply Hinv|done|done].
      * cbn. intros sv n. by rewrite Hgone.
    + by rewrite HS.
    + intros HR k. rewrite Hm, HS. intros [v Hv]. apply lookup_delete_Some in Hv as [Hne Hv].
      specialize (Hrest HR k (mk_is_Some _ _ Hv)). case_decide as Hs; [|done]. destruct Hrest as [Ht Hn].
      split; [|done]. unfold todo in *. destruct Ht as [?|[Hj Hi]]; [by left|]. right. split; [done|].
      assert (BackendIndex k <> i); [|lia]. intros <-. apply Hne. destruct k; cbn in *; by subst.
Qed.

(** The two loops that delete the endpoints of the service. *)
Lemma removing_loops sid svd (Q : unit -> World -> Processor -> Prop) w P :
  length (EndpointCount svd) = PrioCount -> Forall (fun n => 0 <= n < MaxUint32) (EndpointCount svd) ->
  removing sid svd 0 1 (bpf P) ->
  (forall w' c', same_heap w w' -> ep_inv c' -> (Reliable E -> ep_exact c') -> KmService c' !! sid = None ->
     Q tt w' (set_bpf c' P)) ->
  wp p (fold_each (seqZ 0 (Z.of_nat PrioCount)) tt (fun _ j =>
          count ← array_get (EndpointCount svd) j;
          if decide (count = 0) then mret tt
          else for_upto count (fun i => zoom bpf_l (EndpointDelete (mkEndpointKey sid j i));; mret tt))) Q w P.
Proof.
  intros Hlen Hcounts Hrm HQ.
  apply (wp_fold_seqZ p (fun j w' P' => same_heap w w' /\ exists c, P' = set_bpf c P /\ removing sid svd j 1 c)).
  - done.
  - split; [done|]. exists (bpf P). by rewrite set_bpf_id.
  - intros j w1 P1 Hj (Hh1 & c1 & -> & Hrm1).
    destruct (lookup_lt_is_Some_2 (EndpointCount svd) (Z.to_nat j)) as [n Hn]; [lia|].
    pose proof (Forall_lookup_1 _ _ _ _ Hcounts Hn) as Hrange. cbn in Hrange.
    unfold array_get. rewrite decide_True by lia. rewrite Hn. wp_steps.
    assert (forall c, removing sid svd j (n + 1) c -> removing sid svd (j + 1) 1 c) as Hnext.
    { intros c [A B C]. split; [done|done|]. intros HR k Hk. specialize (C HR k Hk).
      case_decide as Hs; [|done]. destruct C as [Ht (m & Hm & Hle)]. split; [|by eauto].
      destruct (ei_keys _ A k Hk) as [Hpk Hbk]. unfold todo in *.
      destruct Ht as [?|[Hj' Hi]]; [lia|]. rewrite Hj' in Hm. assert (m = n) as -> by congruence. lia. }
    destruct (decide (n = 0)) as [->|Hn0].
    + wp_steps. split; [done|]. exists c1. split; [done|]. by apply Hnext.
    + unfold for_upto. rewrite decide_False by lia.
      apply (wp_fold_seqZ p (fun i w' P' => same_heap w w' /\ exists c, P' = set_bpf c P /\ removing sid svd j i c)).
      * lia.
      * split; [done|]. by exists c1.
      * intros i w2 P2 Hi (Hh2 & c2 & -> & Hrm2). wp_steps. apply (removing_delete sid svd j i); [done|].
        intros w3 c3 Hh3 Hrm3. wp_steps. split; [by etrans|]. exists c3. by destruct P.
      * intros w2 P2 (Hh2 & c2 & -> & Hrm2). split; [done|]. exists c2. split; [done|]. apply Hnext.
        by rewrite Z.add_comm.
  - intros w1 P1 (Hh1 & c1 & -> & [A B C]). apply HQ; [done|done| |done].
    intros HR k Hk. specialize (C HR k Hk). case_decide as Hs; [|done]. destruct C as [Ht _].
    destruct (ei_keys _ A k Hk) as [Hpk _]. unfold todo in Ht. lia.
Qed.

Lemma wp_ServiceDelete sid (Q : option error -> World -> Cache -> Prop) w c :
  (forall w' c', same_heap w w' -> KmService c' = delete sid (KmService c) -> KmEndpoint c' = KmEndpoint c ->
     endpointKeys c' = endpointKeys c -> KmBackend c' = KmBackend c -> KmFrontend c' = KmFrontend c ->
     KmWlpolicy c' = KmWlpolicy c -> Q None w' c') ->
  wp p (ServiceDelete sid) Q w c.
Proof.
  intros HQ. unfold ServiceDelete. wp_steps. apply wp_map_Delete; cbn.
  - intros _ _. wp_steps. by apply HQ.
  - intros _ Hn. wp_steps. apply HQ; try done. by rewrite delete_id.
  - intros e He. by rewrite deletes_succeed in He.
Qed.

Lemma removing_start sid svd c c' :
  ep_inv c -> (Reliable E -> ep_exact c) -> KmService c !! sid = Some svd ->
  KmService c' = delete sid (KmService c) -> KmEndpoint c' = KmEndpoint c ->
  endpointKeys c' = endpointKeys c -> removing sid svd 0 1 c'.
Proof.
  intros [A A' B C D F] Hex Hsv HS HE HK. split.
  - split; rewrite ?HE; try done.
    + rewrite HS, map_size_delete. destruct (KmService c !! sid); unfold id; lia.
    + intros s sv. rewrite HS. intros [_ Hs]%lookup_delete_Some. eauto.
    + intros s sv p' n i. rewrite HS. intros [_ Hs]%lookup_delete_Some. eauto.
    + intros k u. rewrite HE. intros Hk. apply F in Hk. unfold GetEndpointKeys in *. by rewrite HK.
  - rewrite HS. apply lookup_delete_eq.
  - intros HR k. rewrite HE. intros Hk. destruct (Hex HR k Hk) as (sv & n & Hsvk & Hn & Hle).
    destruct (D k Hk) as [Hp Hb]. case_decide as Hs.
    + subst sid. assert (sv = svd) as -> by congruence. split; [unfold todo; lia|eauto].
    + rewrite HS, lookup_delete_ne by done. eauto.
Qed.
End remove_service.

(** ** Operations on the maps without endpoints *)
Definition no_state (_ : World) (_ : Processor) : Prop := True.
Definition outside_ep (w : World) (P : Processor) (w' : World) (P' : Processor) : Prop :=
  same_heap w w' /\ P' = set_bpf (bpf P') P /\ ep_same (bpf P) (bpf P').
#[export] Instance outside_ep_preorder : PreorderR outside_ep.
Proof.
  split.
  - intros w P. split; [done|]. by rewrite set_bpf_id.
  - intros w1 P1 w2 P2 w3 P3 (H1 & E1 & A1 & B1 & C1) (H2 & E2 & A2 & B2 & C2).
    split; [by etrans|]. split; [rewrite E2, E1; by destruct P1|]. split_and!; congruence.
Qed.

Section services.
Context `{E : Env} `{!DeletesSucceed E} `{Persist} `{Dns} (p loc : bool).

Lemma outside_bpf {A} (m : Go Cache A) :
  (forall w c, wp p m (fun _ w' c' => same_heap w w' /\ ep_same c c') w c) ->
  stays p no_state outside_ep (zoom bpf_l m).
Proof.
  intros Hm w P _. apply wp_zoom. eapply wp_mono; [apply Hm|]. intros a w' c' [Hh Hs]. by destruct P.
Qed.
Lemma outside_FrontendDelete k : stays p no_state outside_ep (zoom bpf_l (FrontendDelete k)).
Proof. apply outside_bpf. unfold FrontendDelete. map_op. Qed.
Lemma outside_FrontendIterFindKey id : stays p no_state outside_ep (zoom bpf_l (FrontendIterFindKey id)).
Proof. apply outside_bpf. intros [] []. unfold FrontendIterFindKey, map_Iterate. by wp_steps. Qed.

Lemma outside_deleteServiceFrontendData x id :
  stays p no_state outside_ep (deleteServiceFrontendData x id).
Proof.
  unfold deleteServiceFrontendData. pose proof outside_FrontendDelete.
  pose proof outside_FrontendIterFindKey. stays_auto.
Qed.

Lemma outside_deleteFrontendByIp l : stays p no_state outside_ep (deleteFrontendByIp l).
Proof. unfold deleteFrontendByIp. pose proof outside_FrontendDelete. stays_auto. Qed.

Lemma outside_inv w P w' P' : outside_ep w P w' P' -> p_inv p loc w P -> p_inv p loc w' P'.
Proof.
  intros (Hh & -> & Hs) HP. destruct (ep_inv_same _ _ Hs (pi_ep _ _ _ _ HP)) as [Hinv Hex].
  eapply p_inv_heap; [done|]. cbn in *. apply p_inv_bpf; [done|done|]. intros HR. by apply Hex, HP.
Qed.

Lemma keeps_removeServiceResourceFromBpfMap x name :
  keeps p loc (removeServiceResourceFromBpfMap x name).
Proof.
  unfold removeServiceResourceFromBpfMap. apply stays_bind; [apply _|auto with stays|]. intros sid.
  assert (keeps p loc (modify (fun P => set_epCache (DeleteEndpointByServiceId sid (epCache P)) P);;
                 hash_delete name;; mret (None : option error))) as Hrest.
  { apply stays_bind; [apply _|by apply keeps_modify|]. intros _. stays_auto. }
  intros w P HP. apply wp_bind, wp_service_lookup.
  2: { intros _. wp_step. wp_step. by apply Hrest. }
  intros svd Hsvd. wp_step. wp_step. eapply wp_mono; [by apply outside_deleteServiceFrontendData|].
  intros _ w1 P1 (_ & Hout). pose proof (outside_inv _ _ _ _ Hout HP) as HP1. destruct Hout as (Hh1 & HP1' & _ & HS1 & _).
  wp_step. apply wp_zoom, wp_ServiceDelete. intros w2 c2 Hh2 HS2 HE2 HK2 _ _ _. cbn in HS2, HE2, HK2.
  rewrite <-HS1 in Hsvd.
  destruct (ei_counts _ (pi_ep _ _ _ _ HP1) _ _ Hsvd) as [Hlen Hpos].
  apply removing_loops.
  - done.
  - apply Forall_lookup_2. intros j n Hn. pose proof (count_bound _ _ _ _ _ (pi_ep _ _ _ _ HP1) Hsvd Hn).
    pose proof max_entries_u32. unfold MaxUint32. lia.
  - cbn. eapply removing_start; [apply HP1|apply HP1|exact Hsvd|done|done|done].
  - intros w3 c3 Hh3 Hinv3 Hex3 _. cbn. assert (set_bpf c3 (set_bpf c2 P1) = set_bpf c3 P1) as -> by done.
    apply stays_from; [apply _|done| |].
    + apply (p_inv_heap _ _ w1); [by etrans|]. by apply p_inv_bpf.
    + apply same_heap_le. etrans; [exact Hh1|]. by etrans.
Qed.
End services.

#[export] Hint Resolve keeps_removeServiceResourceFromBpfMap : stays.

(** ** The caches *)
Section caches.
Context `{E : Env} `{!DeletesSucceed E} `{Persist} `{Dns} (p loc : bool).

Lemma uids_ok_le w w' c : heap_le w w' -> uids_ok w c -> uids_ok w' c.
Proof.
  intros [_ Hw] Hok uid q Hq. destruct (Hok uid q Hq) as (x & Hx & Hu). destruct (Hw q x Hx) as [g Hg].
  eexists. split; [exact Hg|done].
Qed.
Lemma names_ok_le w w' c : heap_le w w' -> names_ok w c -> names_ok w' c.
Proof.
  intros [Hs _] Hok name q Hq. destruct (Hok name q Hq) as (x & Hx & Hn). destruct (Hs q x Hx) as [g Hg].
  eexists. split; [exact Hg|done].
Qed.

Lemma p_inv_le w w' P wc :
  p_inv p loc w P -> heap_le w w' -> wc_ptrs w' wc -> (p = false -> wc_ok w' wc) ->
  p_inv p loc w' (set_wpCache wc P).
Proof.
  intros [A B C D F T G L] Hh Hptr Hwc. split; cbn; try done.
  - by eapply uids_ok_le.
  - by eapply names_ok_le.
  - intros Hp. split; [auto|]. intros name q x' Hq Hx'. destruct (F name q Hq) as (x & Hx & _).
    destruct Hh as [Hs _]. destruct (Hs q x Hx) as [g Hg]. rewrite Hx' in Hg. injection Hg as ->.
    destruct (G Hp) as [_ G2]. by apply (G2 name q x).
Qed.

Lemma set_wpCache_id P : set_wpCache (wpCache P) P = P.
Proof. by destruct P. Qed.

Lemma keeps_removed_wl uid : keeps p loc (zoom wp_l (WaypointCache.DeleteWorkload uid)).
Proof.
  intros w P HP. apply wp_zoom, WaypointCache.wp_wc_DeleteWorkload. split; [|by red].
  apply (p_inv_le w); [done|done|by apply wc_ptrs_unlink_wl, HP|]. intros Hp.
  destruct (pi_safe _ _ _ _ HP Hp) as [Hok _]. by apply wc_ok_unlink_wl.
Qed.

Lemma keeps_uncached_wl uid : keeps p loc (zoom wl_l (WorkloadCache.DeleteWorkload uid)).
Proof.
  intros w P [A B C D F T G L]. apply wp_zoom, WorkloadCache.wp_DeleteWorkload.
  - intros _. split; [|by red]. by destruct P.
  - intros q c Hq Hu _. split; [|by red]. split; try done. cbn. intros u q'. rewrite Hu.
    intros [_ Hq']%lookup_delete_Some. by apply D.
Qed.

Lemma keeps_uncached_svc name : keeps p loc (zoom svc_l (ServiceCache.DeleteService name)).
Proof.
  intros w P [A B C D F T G L]. apply wp_zoom, ServiceCache.wp_DeleteService.
  - intros _. split; [|by red]. by destruct P.
  - intros q c Hq Hu _ _ _. split; [|by red]. split; try done; cbn.
    + intros n q'. rewrite Hu. intros [_ Hq']%lookup_delete_Some. by apply F.
    + intros Hp. destruct (G Hp) as [G1 G2]. split; [done|]. intros n q' x. rewrite Hu.
      intros [_ Hq']%lookup_delete_Some. by apply (G2 n q').
Qed.

Lemma keeps_add_call x : keeps p loc (modify (add_call x)).
Proof. by apply keeps_modify. Qed.

Lemma keeps_cached_wl q w P :
  p_inv p loc w P -> is_Some (wls w !! q) ->
  wp p (zoom wl_l (WorkloadCache.AddOrUpdateWorkload (Some q)))
    (fun _ w' P' => p_inv p loc w' P' /\ heap_rel w P w' P') w P.
Proof.
  intros [A B C D F T G L] [x Hx]. apply wp_zoom, WorkloadCache.wp_AddOrUpdateWorkload. intros c Hu _.
  split; [|by red]. split; try done. cbn. intros uid q'. rewrite Hu, lookup_insert_Some.
  intros [[<- <-]|[_ Hq]]; [|by apply D]. exists x. unfold get_wl. by rewrite Hx.
Qed.

Lemma keeps_cached_svc q x w P :
  p_inv p loc w P -> svcs w !! q = Some x -> (p = false -> prefs_ok x) ->
  wp p (zoom svc_l (ServiceCache.AddOrUpdateService q))
    (fun _ w' P' => p_inv p loc w' P' /\ w' = w /\ P' = set_svcCache (svcCache P') P /\
       servicesByResourceName (svcCache P') =
         <[Service_ResourceName x := q]> (servicesByResourceName (svcCache P))) w P.
Proof.
  intros [A B C D F T G L] Hx Hprefs. apply wp_zoom, ServiceCache.wp_AddOrUpdateService.
  assert (get_svc q w = x) as -> by (unfold get_svc; by rewrite Hx). intros c Hu _ _.
  split; [|by destruct P]. split; try done; cbn.
  - intros n q'. rewrite Hu, lookup_insert_Some. intros [[<- <-]|[_ Hq]]; [by exists x|by apply F].
  - intros Hp. destruct (G Hp) as [G1 G2]. split; [done|]. intros n q' x'. rewrite Hu, lookup_insert_Some.
    intros [[_ <-]|[_ Hq]] Hx'; [|by eapply (G2 n)]. assert (x' = x) as -> by congruence. auto.
Qed.
End caches.

#[export] Hint Resolve keeps_removed_wl keeps_uncached_wl keeps_uncached_svc keeps_add_call : stays.

(** ** Handlers of workloads *)
Section workloads.
Context `{E : Env} `{!DeletesSucceed E} `{Persist} `{Dns} (p loc : bool).

Lemma keeps_removeWorkload uid : keeps p loc (removeWorkload uid).
Proof. unfold removeWorkload. stays_auto. Qed.

Lemma keeps_removeWorkloadResources l : keeps p loc (removeWorkloadResources l).
Proof. unfold removeWorkloadResources. pose proof keeps_removeWorkload. stays_auto. Qed.

Lemma keeps_set_locality a b c d : keeps p loc (modify (fun P => set_locality (SetLocality a b c d (locality P)) P)).
Proof.
  intros w P [A B C D F T G L]. apply wp_modify. split; [|by red]. by split.
Qed.

Lemma keeps_handleWorkload q w P :
  p_inv p loc w P -> is_Some (wls w !! q) ->
  wp p (handleWorkload q) (fun _ w' P' => p_inv p loc w' P' /\ heap_rel w P w' P') w P.
Proof.
  intros HP Hq. unfold handleWorkload. wp_steps. apply wp_AddOrUpdateWorkload_any.
  { done. }
  { apply HP. }
  { intros Hp. by apply (pi_safe _ _ _ _ HP). }
  intros ret w1 wc Hh1 Hptr Hwc. cbn [lset wp_l].
  pose proof (p_inv_le p loc w w1 P wc HP Hh1 Hptr Hwc) as HP1.
  destruct ret; [|by wp_steps]. do 5 wp_step. eapply wp_mono.
  { apply (keeps_cached_wl p loc); [exact HP1|]. destruct Hq as [x Hx]. destruct Hh1 as [_ Hw].
    destruct (Hw _ _ Hx) as [g Hg]. by eexists. }
  intros _ w2 P2 [HP2 Hh2]. set (x := get_wl q w1). set (old := GetWorkloadByUid _ _).
  apply stays_from; [apply _| |done|red in Hh2 |- *; by etrans].
  pose proof keeps_set_locality. stays_auto.
Qed.
End workloads.

(** ** Handlers of services *)
Section services2.
Context `{E : Env} `{!DeletesSucceed E} `{Persist} `{Dns} (p loc : bool).

(** A service map update that leaves the counts alone, or enters a service
    with none. *)
Lemma keeps_service_update sk sv w P :
  p_inv p loc w P ->
  match KmService (bpf P) !! sk with
  | Some old => EndpointCount sv = EndpointCount old
  | None => EndpointCount sv = replicate PrioCount 0
  end ->
  wp p (zoom bpf_l (ServiceUpdate sk sv)) (fun _ w' P' => p_inv p loc w' P' /\ heap_rel w P w' P' /\
    P' = set_bpf (bpf P') P) w P.
Proof.
  intros HP Hsv. pose proof (pi_ep _ _ _ _ HP) as Hinv. apply wp_zoom, wp_ServiceUpdate; cbn [lget lset bpf_l].
  2: { intros e _. rewrite set_bpf_id. split; [by apply (p_inv_heap _ _ w)|].
       split; [by auto with kmesh|by rewrite set_bpf_id]. }
  intros Hu. apply upd_capacity in Hu. split; [|split; [by auto with kmesh|by destruct P]].
  apply (p_inv_heap _ _ w); [done|]. apply p_inv_bpf; [done| |].
  - eapply ep_inv_counts; [exact Hinv|done|done|done|done|..]; cbn.
    + destruct (KmService (bpf P) !! sk) as [old|] eqn:Eo; rewrite Hsv; [by eapply Hinv|by rewrite length_replicate].
    + destruct (KmService (bpf P) !! sk) as [old|] eqn:Eo; rewrite Hsv; [by eapply Hinv|by apply Forall_replicate].
    + intros p' n i Hp Hn Hi. destruct (KmService (bpf P) !! sk) as [old|] eqn:Eo; rewrite Hsv in Hn.
      * by eapply Hinv.
      * apply lookup_replicate in Hn as [-> _]. lia.
  - intros HR k Hk. destruct (pi_exact _ _ _ _ HP HR k Hk) as (sv' & n & Hsv' & Hn & Hle). cbn.
    destruct (decide (sk = ServiceId k)) as [->|Hne].
    + rewrite lookup_insert_eq. rewrite Hsv' in Hsv. exists sv, n. by rewrite Hsv.
    + rewrite lookup_insert_ne by done. eauto.
Qed.

Lemma keeps_moveEndpoint sid service toLLb ep :
  (p = false -> toLLb = true -> loc = true /\ exists x, service = Some x /\ prefs_ok x) ->
  keeps p loc (moveEndpoint sid service toLLb ep).
Proof.
  intros Hsafe w P HP. unfold moveEndpoint. set (ek := mkEndpointKey _ _ _).
  apply wp_bind, wp_endpoint_lookup; [intros ev Hev|intros _; by wp_steps; auto with kmesh].
  assert (forall prio, 0 <= prio -> (p = false -> prio < Z.of_nat PrioCount) ->
    wp p (if decide (Prio ek = prio) then mret Continue
          else
            sValue ← zoom bpf_l (ServiceLookup sid);
            match sValue with
            | inr _ => mret (Return (Errorf "lookup service failed"))
            | inl sValue =>
                r ← addWorkloadToService sid sValue ev prio;
                match r.2 with
                | Some _ => mret (Return (Errorf "update endpoint priority failed"))
                | None =>
                    err ← deleteEndpointRecords [ek];
                    match err with
                    | Some _ => mret (Return (Errorf "delete endpoint from old priority group failed"))
                    | None => mret Continue
                    end
                end
            end) (fun _ w' P' => p_inv p loc w' P' /\ heap_rel w P w' P') w P) as Hmove.
  { intros prio Hp0 Hp7. case_decide; [by wp_steps; auto with kmesh|].
    apply wp_bind, wp_service_lookup; [intros sv Hsv|intros _; by wp_steps; auto with kmesh].
    wp_step. eapply wp_add; [done|done|done|done|]. intros [ek' [e|]] w' P' HP' Hh; cbn [snd].
    - by wp_steps; auto with kmesh.
    - apply stays_from; [apply _|stays_auto|done|done]. }
  apply wp_bind. destruct toLLb.
  - wp_steps. assert (forall (wl : option ptr) (Q : option Workload -> World -> Processor -> Prop),
      (forall x, Q x w P) ->
      wp p (match wl with Some q => x ← load_wl q; mret (Some x) | None => mret None end) Q w P) as Hload.
    { intros [q|] Q HQ; by wp_steps. }
    apply Hload. intros wl. destruct service as [x|].
    + apply wp_calc_prio; [|done]. intros Hp. destruct (Hsafe Hp eq_refl) as [Hloc (x' & [= <-] & Hx)].
      split; [|done]. by apply (pi_loc _ _ _ _ HP).
    + apply wp_panic. destruct p; [done|]. by destruct (Hsafe eq_refl eq_refl) as [_ (x & ? & _)].
  - wp_steps. apply Hmove; [done|]. unfold PrioCount. lia.
Qed.

Lemma keeps_updateEndpointOneByOne sid l toLLb w P :
  p_inv p loc w P ->
  (p = false -> toLLb = true -> loc = true /\ is_Some (GetService (NumToStr sid (hashName P)) (svcCache P))) ->
  wp p (updateEndpointOneByOne sid l toLLb) (fun _ w' P' => p_inv p loc w' P' /\ heap_rel w P w' P') w P.
Proof.
  intros HP Hsafe. unfold updateEndpointOneByOne. case_decide; [by wp_steps; auto with kmesh|].
  unfold sort_endpoints. wp_steps. rename l' into l1.
  assert (p_inv p loc (tick w) P) as HP1 by (by apply (p_inv_heap _ _ w)).
  destruct (GetService _ _) as [q|] eqn:Hq; wp_steps.
  - apply stays_from; [apply _| |done|by auto with kmesh]. apply stays_for_each; [apply _|]. intros ep.
    apply keeps_moveEndpoint. intros Hp HL. destruct (Hsafe Hp HL) as [-> _]. split; [done|]. eexists.
    split; [done|]. by eapply cached_prefs.
  - apply stays_from; [apply _| |done|by auto with kmesh]. apply stays_for_each; [apply _|]. intros ep.
    apply keeps_moveEndpoint. intros Hp HL. by destruct (Hsafe Hp HL) as [_ [? ?]].
Qed.

Lemma keeps_updateEndpointPriority sid toLLb w P :
  p_inv p loc w P ->
  (p = false -> toLLb = true -> loc = true /\ is_Some (GetService (NumToStr sid (hashName P)) (svcCache P))) ->
  wp p (updateEndpointPriority sid toLLb) (fun _ w' P' => p_inv p loc w' P' /\ heap_rel w P w' P') w P.
Proof.
  intros HP Hsafe. unfold updateEndpointPriority. wp_steps.
  assert (p_inv p loc (tick w) P) as HP1 by (by apply (p_inv_heap _ _ w)).
  destruct toLLb; (eapply wp_mono; [by apply keeps_updateEndpointOneByOne|]); done.
Qed.
End services2.

Section services3.
Context `{E : Env} `{!DeletesSucceed E} `{Persist} `{Dns} (p loc : bool).

Lemma wp_hash s (Q : Z -> World -> Processor -> Prop) w P :
  p_inv p loc w P ->
  (forall n h, Hash s (hashName P) = Done (n, h) -> p_inv p loc w (set_hashName h P) ->
     (n < MaxUint32 -> NumToStr n h = s) -> Q n w (set_hashName h P)) ->
  wp p (hash s) Q w P.
Proof.
  intros [A B C D F T G L] HQ. unfold wp, hash.
  destruct (Hash_spec s (hashName P) A) as (n & h & Hh & Hwf & _ & Hlt & _). rewrite Hh.
  apply HQ; [done|by split|]. intros Hn. apply Hlt, Hwf in Hn. unfold NumToStr. by rewrite Hn.
Qed.

(** What rules crashes out when a service changes its load balancing mode. *)
Definition svc_safe (name : string) (P : Processor) : Prop :=
  p = false -> loc = true /\ is_Some (GetService name (svcCache P)) /\
    forall n h, Hash name (hashName P) = Done (n, h) -> n < MaxUint32.

Lemma keeps_finish sk sv service w P :
  p_inv p loc w P ->
  match KmService (bpf P) !! sk with
  | Some old => EndpointCount sv = EndpointCount old
  | None => EndpointCount sv = replicate PrioCount 0
  end ->
  wp p (err ← zoom bpf_l (ServiceUpdate sk sv);
        match err with
        | Some _ => mret (Some (Errorf "service map update failed"))
        | None =>
            err ← updateServiceFrontendMap sk service;
            mret (err ≫= fun _ => Some (Errorf "updateServiceFrontendMap failed"))
        end) (fun _ w' P' => p_inv p loc w' P' /\ heap_rel w P w' P') w P.
Proof.
  intros HP Hsv. wp_step. eapply wp_mono; [by apply keeps_service_update|].
  intros [e|] w1 P1 (HP1 & Hh1 & _); [by wp_steps|].
  apply stays_from; [apply _|stays_auto|done|done].
Qed.

Lemma EndpointCount_new service : EndpointCount (newServiceInfo service) = replicate PrioCount 0.
Proof. unfold newServiceInfo. by repeat case_match. Qed.

Lemma keeps_updateServiceMap service old w P :
  p_inv p loc w P -> svc_safe (Service_ResourceName service) P ->
  wp p (updateServiceMap service old) (fun _ w' P' => p_inv p loc w' P' /\ heap_rel w P w' P') w P.
Proof.
  intros HP Hsafe. unfold updateServiceMap. wp_step. apply wp_hash; [done|].
  intros sk h Hhash HP0 Hname. set (P0 := set_hashName h P) in *.
  change (heap_rel w P) with (heap_rel w P0).
  assert (p = false -> loc = true /\ is_Some (GetService (NumToStr sk (hashName P0)) (svcCache P0))) as Hloc.
  { intros Hp. destruct (Hsafe Hp) as (Hl & Hs & Hn). split; [done|]. cbn. by rewrite Hname by (by eapply Hn). }
  apply wp_bind, wp_service_lookup.
  2: { intros Hnone. apply keeps_finish; [done|]. rewrite Hnone. apply EndpointCount_new. }
  intros info Hinfo. set (new := set_EndpointCount (EndpointCount info) (newServiceInfo service)).
  case_decide as Hd1; [|case_decide as Hd2].
  - wp_step. eapply wp_mono; [apply keeps_updateEndpointPriority; [done|done]|].
    intros [e|] w1 P1 [HP1 Hh1]; [by wp_steps|].
    apply wp_bind, wp_service_lookup; [intros cur Hcur|intros _; by wp_steps].
    wp_step. eapply wp_mono; [apply keeps_service_update; [done|by rewrite Hcur]|].
    intros e w2 P2 (HP2 & Hh2 & _). wp_steps. split; [done|]. red in Hh1, Hh2 |- *. by etrans.
  - wp_step. eapply wp_mono; [apply keeps_service_update; [done|by rewrite Hinfo]|].
    intros [e|] w1 P1 (HP1 & Hh1 & HP1'); [by wp_steps|].
    wp_step. eapply wp_mono; [apply keeps_updateEndpointPriority; [done|]|].
    { intros Hp _. rewrite HP1'. by apply Hloc. }
    intros e w2 P2 (HP2 & Hh2). wp_steps. split; [done|]. red in Hh1, Hh2 |- *. by etrans.
  - wp_step. eapply wp_mono; [by apply outside_deleteFrontendByIp|].
    intros [e|] w1 P1 (_ & Hout); pose proof (outside_inv _ _ _ _ _ _ Hout HP0) as HP1;
      destruct Hout as (Hh1 & _ & _ & HS1 & _).
    + wp_steps. auto with kmesh.
    + eapply wp_mono; [apply keeps_finish; [done|]|].
      * by rewrite HS1, Hinfo.
      * intros e w2 P2 [HP2 Hh2]. split; [done|]. red in Hh2 |- *. etrans; [|exact Hh2]. by apply same_heap_le.
Qed.
End services3.

Section services4.
Context `{E : Env} `{!DeletesSucceed E} `{Persist} `{Dns} (p loc : bool).

(** Rewriting one service object puts the waypoint cache in doubt only for
    that service. *)
Lemma wc_ok_but_store q x x1 w c :
  svcs w !! q = Some x -> Service_ResourceName x1 = Service_ResourceName x -> wc_ok w c ->
  wc_ok_but (fun m => m <> Service_ResourceName x1) (set_svcs (<[q := x1]>) w) c.
Proof.
  intros Hq Hn Hok. eapply wc_ok_world; [| |by eapply wc_ok_but_weaken, Hok]; cbn; [|eauto].
  intros q' y Hy Hne Hg. destruct (decide (q = q')) as [<-|Hqq].
  - congruence.
  - rewrite lookup_insert_ne by done. eauto.
Qed.

Lemma wp_preprocess q x (Q : unit -> World -> Processor -> Prop) w P :
  svcs w !! q = Some x ->
  (forall w1 g, heap_le w w1 -> svcs w1 !! q = Some (set_svc_waypoint g x) ->
     (wc_ok w (wpCache P) -> wc_ok_but (fun m => m <> Service_ResourceName x) w1 (wpCache P)) -> Q tt w1 P) ->
  wp p (if is_own_waypoint x then store_svc q (set_svc_waypoint None x) else mret tt) Q w P.
Proof.
  intros Hq HQ. destruct (is_own_waypoint x); unfold store_svc; wp_steps.
  - apply (HQ _ None).
    + pose proof (heap_le_store_svc q None w) as Hh. unfold get_svc in Hh. by rewrite Hq in Hh.
    + apply lookup_insert_eq.
    + intros Hok. by apply (wc_ok_but_store q x (set_svc_waypoint None x)).
  - apply (HQ _ (svc_waypoint x)); [done|by rewrite set_svc_waypoint_id|].
    intros Hok. by eapply wc_ok_but_weaken, Hok.
Qed.

Lemma keeps_handleService q x w P :
  p_inv p loc w P -> svcs w !! q = Some x ->
  (p = false -> prefs_ok x /\ loc = true /\
     forall n h, Hash (Service_ResourceName x) (hashName P) = Done (n, h) -> n < MaxUint32) ->
  wp p (handleService q) (fun _ w' P' => p_inv p loc w' P' /\ heap_rel w P w' P') w P.
Proof.
  intros HP Hq Hsafe. unfold handleService. wp_steps.
  assert (get_svc q w = x) as -> by (unfold get_svc; by rewrite Hq). apply (wp_preprocess q x); [done|].
  intros w1 g Hh1 Hq1 Hwc1. do 4 wp_step.
  apply wp_AddOrUpdateService_any.
  { by eexists. }
  { eapply wc_ptrs_le; [done|apply HP]. }
  { intros Hp x1. rewrite Hq1. intros [= <-]. by apply Hwc1, (pi_safe _ _ _ _ HP). }
  intros ret w2 wc Hh2 Hptr Hwc. cbn [lset wp_l]. assert (heap_le w w2) as Hh by (by etrans).
  pose proof (p_inv_le p loc w w2 P wc HP Hh Hptr Hwc) as HP2. destruct ret; [|by wp_steps].
  destruct (proj1 Hh _ _ Hq) as [g2 Hq2]. do 5 wp_step.
  eapply wp_mono; [apply (keeps_cached_svc p loc q (set_svc_waypoint g2 x)); [done|done|by intros Hp; apply Hsafe]|].
  intros _ ? P3 (HP3 & -> & HP3' & Hnames).
  assert (get_svc q w2 = set_svc_waypoint g2 x) as -> by (unfold get_svc; by rewrite Hq2).
  wp_step. assert (forall (o : option ptr) (Q : option Service -> World -> Processor -> Prop),
    (forall y, Q y w2 P3) ->
    wp p (match o with Some q => y ← load_svc q; mret (Some y) | None => mret None end) Q w2 P3) as Hload.
  { intros [q'|] Q HQ; by wp_steps. }
  apply Hload. intros old. eapply wp_mono; [apply keeps_updateServiceMap; [done|]|].
  - intros Hp. destruct (Hsafe Hp) as (_ & Hloc & Hn). split; [done|]. split.
    + unfold GetService. rewrite Hnames. exists q. apply lookup_insert_eq.
    + rewrite HP3'. apply Hn.
  - intros e w3 P4 [HP4 Hh4]. split; [done|]. red in Hh4 |- *. by etrans.
Qed.
End services4.

(** ** Responses *)
Section responses.
Context `{E : Env} `{!DeletesSucceed E} `{Persist} `{Dns}.
Abbreviation inv := (p_inv true false).
Abbreviation keep m := (keeps true false m).

Lemma keeps_removed_svc name : keep (zoom wp_l (WaypointCache.DeleteService name)).
Proof.
  intros w P HP. apply wp_zoom, WaypointCache.wp_wc_DeleteService. split; [|by red].
  apply (p_inv_le _ _ w); [done|done|by apply wc_ptrs_DeleteService, HP|done].
Qed.

Lemma keeps_removeServiceResources l : keep (removeServiceResources l).
Proof. unfold removeServiceResources. pose proof keeps_removed_svc. stays_auto. Qed.

Lemma keeps_handleRemovedAddresses l : keep (handleRemovedAddresses l).
Proof.
  unfold handleRemovedAddresses. pose proof keeps_removeServiceResources.
  pose proof (keeps_removeWorkloadResources true false). stays_auto.
Qed.

Lemma keeps_handleRemovedAddressesDuringRestart : keep handleRemovedAddressesDuringRestart.
Proof. unfold handleRemovedAddressesDuringRestart. stays_auto. Qed.

(** The lists of pointers that the handlers work through stay valid. *)
Definition svcs_valid (w : World) : list ptr -> Prop := Forall (fun q => is_Some (svcs w !! q)).
Definition wls_valid (w : World) : list ptr -> Prop := Forall (fun q => is_Some (wls w !! q)).
Lemma svcs_valid_le w w' l : heap_le w w' -> svcs_valid w l -> svcs_valid w' l.
Proof. intros Hh Hl. eapply Forall_impl; [exact Hl|]. intros q. by apply valid_svc_le. Qed.
Lemma wls_valid_le w w' l : heap_le w w' -> wls_valid w l -> wls_valid w' l.
Proof. intros Hh Hl. eapply Forall_impl; [exact Hl|]. intros q. by apply valid_wl_le. Qed.

Lemma inv_handleService q w P (Q : option error -> World -> Processor -> Prop) :
  inv w P -> is_Some (svcs w !! q) -> (forall e w' P', inv w' P' -> heap_le w w' -> Q e w' P') ->
  wp true (handleService q) Q w P.
Proof.
  intros HP [x Hx] HQ. eapply wp_mono; [by apply (keeps_handleService true false q x)|].
  intros e w' P' [HP' Hh]. by apply HQ.
Qed.

Lemma inv_first_loop l w P ws (Q : list ptr * list ptr -> World -> Processor -> Prop) :
  inv w P -> svcs_valid w l -> wls_valid w ws ->
  (forall r w' P', inv w' P' -> heap_le w w' -> svcs_valid w' r.1 -> wls_valid w' r.2 -> Q r w' P') ->
  wp true (fold_each l ([], ws) (fun '(servicesToRefresh, workloads) service =>
    handleService service;;
    r ← zoom wp_l (Refresh service);
    mret (servicesToRefresh ++ r.1, workloads ++ r.2))) Q w P.
Proof.
  intros HP Hl Hws HQ. apply (wp_fold_each true (fun l' acc w' P' => inv w' P' /\ heap_le w w' /\
    svcs_valid w' l' /\ svcs_valid w' acc.1 /\ wls_valid w' acc.2)).
  - split_and!; try done. constructor.
  - clear HP Hl Hws HQ. intros q l' [ss ws'] w1 P1 (HP & Hh & Hl & Hss & Hws).
    apply Forall_cons in Hl as [Hq Hl]. cbn in Hss, Hws. wp_step. apply inv_handleService; [done|done|].
    intros _ w2 P2 HP2 Hh2. wp_steps. apply wp_Refresh_any; [apply HP2|done|].
    intros r w3 c Hh3 Hptr _ Hr1 Hr2. wp_steps. assert (heap_le w1 w3) as Hh13 by (by etrans).
    split_and!; cbn.
    + by apply (p_inv_le _ _ w2).
    + by etrans.
    + by eapply svcs_valid_le.
    + apply Forall_app_2; [by eapply svcs_valid_le|done].
    + apply Forall_app_2; [by eapply wls_valid_le|done].
  - intros acc w' P' (? & ? & _ & ? & ?). by apply HQ.
Qed.

Lemma keeps_set_chans f : keep (modify (fun P => set_chans (f P) P)).
Proof. by apply keeps_modify. Qed.

Lemma inv_resolve q w P (Q : option ptr -> World -> Processor -> Prop) :
  inv w P -> is_Some (wls w !! q) ->
  (forall r w' P', inv w' P' -> heap_le w w' -> (forall q', r = Some q' -> is_Some (wls w' !! q')) -> Q r w' P') ->
  wp true (resolve_addresses q) Q w P.
Proof.
  intros HP Hq HQ. unfold resolve_addresses. wp_steps.
  destruct (wl_addresses (get_wl q w)); [|wp_steps; apply HQ; [done|done|by intros ? [= <-]]].
  wp_steps. destruct (dnsEnabled P); wp_steps; [|by apply HQ].
  set (P1 := set_chans _ P). assert (inv (tick w) P1) as HP1 by (destruct HP; by split).
  assert (heap_le w (tick w)) as Ht by auto with kmesh.
  destruct (dns_answer _ _) as [[x|]|]; wp_steps.
  - destruct (wl_addresses x); wp_steps; [by apply HQ|]. unfold new_wl, store_wl. wp_steps.
    pose proof (heap_le_new_wl x (tick w)) as Hn. apply HQ.
    + rewrite <-(set_wpCache_id P1). apply (p_inv_le _ _ (tick w)); [done|done| |done].
      eapply wc_ptrs_le; [done|apply HP1].
    + by etrans.
    + intros q' [= <-]. cbn. rewrite lookup_insert_eq. by eexists.
  - by apply HQ.
  - apply HQ; [destruct HP1; by split|done|done].
Qed.

Lemma inv_handleServicesAndWorkloads ss ws w P (Q : unit -> World -> Processor -> Prop) :
  inv w P -> svcs_valid w ss -> wls_valid w ws ->
  (forall w' P', inv w' P' -> heap_le w w' -> Q tt w' P') ->
  wp true (handleServicesAndWorkloads ss ws) Q w P.
Proof.
  intros HP Hss Hws HQ. unfold handleServicesAndWorkloads. wp_step. apply inv_first_loop; [done|done|done|].
  intros [rs rw] w1 P1 HP1 Hh1 Hrs Hrw. cbn in Hrs, Hrw. wp_step.
  apply (wp_fold_each true (fun l _ w' P' => inv w' P' /\ heap_le w w' /\ svcs_valid w' l /\ wls_valid w' rw)).
  - done.
  - intros q l [] w2 P2 (HP2 & Hh2 & Hl & Hw2). apply Forall_cons in Hl as [Hq Hl]. wp_step.
    apply inv_handleService; [done|done|]. intros _ w3 P3 HP3 Hh3. wp_steps. split; [done|]. split; [by etrans|].
    split; [by eapply svcs_valid_le|by eapply wls_valid_le].
  - intros [] w2 P2 (HP2 & Hh2 & _ & Hw2).
    apply (wp_fold_each true (fun l _ w' P' => inv w' P' /\ heap_le w w' /\ wls_valid w' l)).
    + done.
    + intros q l [] w3 P3 (HP3 & Hh3 & Hl). apply Forall_cons in Hl as [Hq Hl]. wp_step.
      apply inv_resolve; [done|done|]. intros [q'|] w4 P4 HP4 Hh4 Hv4; wp_steps.
      * eapply wp_mono; [apply (keeps_handleWorkload true false); [done|by apply Hv4]|].
        intros _ w5 P5 [HP5 Hh5]. red in Hh5. wp_steps. assert (heap_le w3 w5) by (by etrans).
        split; [done|]. split; [by etrans|]. by eapply wls_valid_le.
      * split; [done|]. split; [by etrans|]. by eapply wls_valid_le.
    + intros [] w3 P3 (HP3 & Hh3 & _). by apply HQ.
Qed.
End responses.
