(* ===== verification/Reach.v ===== *)
(** * Reachable states of the processor

    The daemon starts with empty maps, handles responses one after the other,
    and may be restarted between them: the BPF maps and the name file stay,
    the caches are empty and the endpoint index is rebuilt.  In every state it
    can reach, the tables the BPF programs read are consistent. *)
From S2P Require Import Prelude GoNet Nets HashName Api Runtime BpfCache Locality WorkloadCache ServiceCache EndpointCache WaypointCache Processor Endpoints ProcessorInv.
Open Scope go_scope.

Section reach.
Context `{E : Env} `{!DeletesSucceed E} `{Persist} `{Dns}.
Abbreviation inv := (p_inv true false).

(** Decoding allocates new objects. *)
Lemma inv_decode resources w P (Q : list ptr * list ptr * option error -> World -> Processor -> Prop) :
  inv w P ->
  (forall ss ws err w' P', inv w' P' -> svcs_valid w' ss -> wls_valid w' ws -> Q (ss, ws, err) w' P') ->
  wp true (fold_each resources ([], [], None) (fun '(services, workloads, _) resource =>
    match resource with
    | inr err => mret (services, workloads, Some err)
    | inl (Address_Workload x) => q ← new_wl x; mret (services, workloads ++ [q], None)
    | inl (Address_Service x) => q ← new_svc x; mret (services ++ [q], workloads, None)
    | inl Address_unknown => mret (services, workloads, None)
    end)) Q w P.
Proof.
  intros HP HQ. apply (wp_fold_each true (fun _ acc w' P' => inv w' P' /\
    svcs_valid w' acc.1.1 /\ wls_valid w' acc.1.2)).
  - split; [done|]. split; constructor.
  - clear HP HQ. intros r l [[ss ws] err] w1 P1 (HP & Hs & Hw). cbn in Hs, Hw.
    assert (forall w', heap_le w1 w' -> inv w' P1) as Hmono.
    { intros w' Hh. rewrite <-(set_wpCache_id P1). apply (p_inv_le _ _ w1); [done|done| |done].
      eapply wc_ptrs_le; [done|apply HP]. }
    destruct r as [[x|x|]|e]; wp_steps; try done; unfold new_wl, new_svc, store_wl, store_svc; wp_steps.
    + pose proof (heap_le_new_wl x w1) as Hh. split; [by apply Hmono|]. cbn. split; [by eapply svcs_valid_le|].
      apply Forall_app_2; [by eapply wls_valid_le|]. constructor; [|done]. cbn. rewrite lookup_insert_eq. by eexists.
    + pose proof (heap_le_new_svc x w1) as Hh. split; [by apply Hmono|]. cbn. split; [|by eapply wls_valid_le].
      apply Forall_app_2; [by eapply svcs_valid_le|]. constructor; [|done]. cbn. rewrite lookup_insert_eq. by eexists.
  - intros [[ss ws] err] w' P' (? & ? & ?). by apply HQ.
Qed.

Lemma inv_handleAddressTypeResponse resources removed w P :
  inv w P ->
  wp true (handleAddressTypeResponse resources removed) (fun _ w' P' => inv w' P') w P.
Proof.
  intros HP. unfold handleAddressTypeResponse. wp_step. apply inv_decode; [done|].
  intros ss ws err w1 P1 HP1 Hs Hw. wp_step. apply inv_handleServicesAndWorkloads; [done|done|done|].
  intros w2 P2 HP2 _.
  assert (keeps true false (modify (set_once true))) as Hset by (by apply keeps_modify).
  pose proof keeps_handleRemovedAddresses. pose proof keeps_handleRemovedAddressesDuringRestart.
  assert (keeps true false (handleRemovedAddresses removed;;
    done ← gets once;
    (if done : bool then mret tt else modify (set_once true);; handleRemovedAddressesDuringRestart);;
    mret err)) as Hk by stays_auto.
  eapply wp_mono; [by apply Hk|]. by intros e w3 P3 [HP3 _].
Qed.

(** ** The steps of the daemon *)
Inductive step : World * Processor -> World * Processor -> Prop :=
  | step_response resources removed w P err w' P' :
      handleAddressTypeResponse resources removed w P = Done (err, w', P') ->
      step (w, P) (w', P')
  | step_restart w P h w' c' :
      hash_wf h ->
      RestoreEndpointKeys w
        (NewCache (KmBackend (bpf P)) (KmEndpoint (bpf P)) (KmFrontend (bpf P)) (KmService (bpf P))
           (KmWlpolicy (bpf P))) = Done (tt, w', c') ->
      step (w, P) (w', NewProcessor h c' (nodeName P) true).

Inductive reachable : World * Processor -> Prop :=
  | reach_start h node :
      hash_wf h ->
      reachable (mkWorld 0 ∅ ∅, NewProcessor h (NewCache ∅ ∅ ∅ ∅ ∅) node false)
  | reach_step s s' : reachable s -> step s s' -> reachable s'.

Lemma inv_NewProcessor h c node r w :
  hash_wf h -> ep_inv c -> (Reliable E -> ep_exact c) -> inv w (NewProcessor h c node r).
Proof.
  intros Hh Hc He. by split.
Qed.

Lemma ep_inv_empty : ep_inv (NewCache ∅ ∅ ∅ ∅ ∅) /\ ep_exact (NewCache ∅ ∅ ∅ ∅ ∅).
Proof.
  split; [split|]; cbn.
  - rewrite map_size_empty. unfold max_entries. lia.
  - rewrite map_size_empty. unfold max_entries. lia.
  - intros sid sv. by rewrite lookup_empty.
  - intros sid sv p n i. by rewrite lookup_empty.
  - intros k. rewrite lookup_empty. by intros [].
  - intros k u. cbn. by rewrite lookup_empty.
  - intros k. cbn. rewrite lookup_empty. by intros [].
Qed.

Lemma inv_restart w P w' c' :
  inv w P ->
  RestoreEndpointKeys w
    (NewCache (KmBackend (bpf P)) (KmEndpoint (bpf P)) (KmFrontend (bpf P)) (KmService (bpf P))
       (KmWlpolicy (bpf P))) = Done (tt, w', c') ->
  ep_inv c' /\ (Reliable E -> ep_exact c').
Proof.
  intros HP HE. set (c0 := NewCache _ _ _ _ _) in HE.
  assert (index_ok c' /\ KmEndpoint c' = KmEndpoint c0 /\ same_other c0 c') as (Hi & HE' & HO).
  { eapply (wp_elim true _ (fun _ _ c' => index_ok c' /\ KmEndpoint c' = KmEndpoint c0 /\ same_other c0 c')).
    - by apply wp_RestoreEndpointKeys.
    - exact HE. }
  cbn in HE'. destruct HO as (_ & _ & HS & _). cbn in HS.
  destruct (ep_inv_refill (bpf P) c') as [Hinv Hex]; try done.
  - apply HP.
  - by rewrite HE'.
  - by apply index_ok_sup.
  - rewrite HE'. apply HP.
  - split; [done|]. intros HR. by apply Hex, HP.
Qed.

Lemma reachable_inv s : reachable s -> inv s.1 s.2.
Proof.
  induction 1 as [h node Hh|s s' _ IH Hstep].
  - apply inv_NewProcessor; [done|apply ep_inv_empty|]. intros _. apply ep_inv_empty.
  - destruct Hstep as [resources removed w P err w' P' HE|w P h w' c' Hh HE]; cbn in *.
    + eapply wp_elim in HE; [|by apply inv_handleAddressTypeResponse]. done.
    + destruct (inv_restart _ _ _ _ IH HE). by apply inv_NewProcessor.
Qed.
End reach.

(** ** Theorems *)

(** C1: in every state the daemon can reach, whatever updates the kernel refuses
    and in whatever order maps are visited, each number that the load balancer
    can draw for a service, from 1 to the count of a priority group, has an
    endpoint in the endpoint map, and the counts never exceed what the map
    holds. *)
Theorem every_drawn_endpoint_exists `{E : Env} `{!DeletesSucceed E} `{Persist} `{Dns}
    (w : World) (P : Processor) (sid prio n : Z) (sv : ServiceValue) :
  reachable (w, P) -> KmService (bpf P) !! sid = Some sv ->
  0 <= prio -> EndpointCount sv !! Z.to_nat prio = Some n ->
  0 <= n <= max_entries /\
  forall i, 1 <= i <= n -> exists uid, KmEndpoint (bpf P) !! mkEndpointKey sid prio i = Some uid.
Proof.
  intros HR Hsv Hp Hn. apply reachable_inv in HR as HP. pose proof (pi_ep _ _ _ _ HP) as Hinv. cbn in Hinv.
  split; [by eapply count_bound|]. intros i Hi. by apply (ei_served _ Hinv sid sv prio n i).
Qed.

(** when no deletion fails and updates fail only on a full map, no endpoint
    is left behind either: each one belongs to a service in the map and lies
    within its count. *)
Theorem no_stray_endpoint `{E : Env} `{!Reliable E} `{Persist} `{Dns}
    (w : World) (P : Processor) (k : EndpointKey) :
  reachable (w, P) -> is_Some (KmEndpoint (bpf P) !! k) ->
  exists sv n, KmService (bpf P) !! ServiceId k = Some sv /\
    EndpointCount sv !! Z.to_nat (Prio k) = Some n /\ 1 <= BackendIndex k <= n.
Proof.
  intros HR Hk. apply reachable_inv in HR as HP. cbn in HP.
  destruct (pi_exact _ _ _ _ HP _ k Hk) as (sv & n & Hsv & Hn & Hle).
  destruct (ei_keys _ (pi_ep _ _ _ _ HP) k Hk) as [_ Hb]. eauto 10.
Qed.

(** C25: handling a response always comes to an end: no loop of the handlers runs
    forever in a state the daemon can reach. *)
Theorem response_terminates `{E : Env} `{!DeletesSucceed E} `{Persist} `{Dns}
    (w : World) (P : Processor) (resources : list (Address_ + error)) (removed : list string) :
  reachable (w, P) -> handleAddressTypeResponse resources removed w P <> NoFuel.
Proof.
  intros HR HN. apply reachable_inv in HR as HP.
  pose proof (inv_handleAddressTypeResponse resources removed w P HP) as Hwp.
  unfold wp in Hwp. by rewrite HN in Hwp.
Qed.

(** in every reachable state the index knows every endpoint, so that the
    removal of a workload finds all of them, and two names never share a
    number of the table. *)
Theorem index_and_names_complete `{E : Env} `{!DeletesSucceed E} `{Persist} `{Dns}
    (w : World) (P : Processor) :
  reachable (w, P) ->
  (forall k uid, KmEndpoint (bpf P) !! k = Some uid -> k ∈ GetEndpointKeys uid (bpf P)) /\
  (forall s1 s2 n, strToNum (hashName P) !! s1 = Some n -> strToNum (hashName P) !! s2 = Some n -> s1 = s2).
Proof.
  intros HR. apply reachable_inv in HR as HP. cbn in HP. split; [apply (ei_index _ (pi_ep _ _ _ _ HP))|].
  intros s1 s2 n H1 H2. destruct (pi_hash _ _ _ _ HP) as [Hw _]. apply Hw in H1, H2. congruence.
Qed.

(** ** A concrete run

    A service and a pod behind it arrive in one response on an empty node. *)
Definition demo_dns : Dns := fun _ _ => None.
Definition demo_service : Service :=
  mkService "app" "default" "app.default.svc" [mkNetworkAddress "net" [10; 1; 0; 1]]
    [mkPort 80 8080] None None.
Definition demo_workload : Workload :=
  mkWorkload "cluster//Pod/default/app-1" "app-1" "default" [[10; 0; 0; 1]] "net" "" "" None "n1"
    {["default/app.default.svc" := [mkPort 80 8080]]} [] 0 "c1" None 0 "" "" "" "".
Definition demo_hash : HashName := mkHashName ∅ ∅ None.

Definition demo_run : outcome (option error * World * Processor) :=
  @handleAddressTypeResponse EnvOk PersistOk demo_dns
    [inl (Address_Service demo_service); inl (Address_Workload demo_workload)] []
    (mkWorld 0 ∅ ∅) (NewProcessor demo_hash (NewCache ∅ ∅ ∅ ∅ ∅) "n1" false).
Definition demo_end : World * Processor :=
  match demo_run with
  | Done (_, w, P) => (w, P)
  | _ => (mkWorld 0 ∅ ∅, NewProcessor demo_hash (NewCache ∅ ∅ ∅ ∅ ∅) "n1" false)
  end.
Definition demo_sid : Z := fnv32a (bytes_of_string "default/app.default.svc").

Lemma hash_wf_demo : hash_wf demo_hash.
Proof. split; cbn; intros *; rewrite !lookup_empty; done. Qed.

Lemma demo_reachable : @reachable EnvOk PersistOk demo_dns demo_end.
Proof.
  eapply reach_step; [apply (reach_start demo_hash "n1" hash_wf_demo)|].
  assert (exists err, demo_run = Done (err, demo_end.1, demo_end.2)) as [err Hrun].
  { unfold demo_end. assert (match demo_run with Done _ => true | _ => false end = true) as Hd.
    { vm_compute. reflexivity. }
    destruct demo_run as [[[e w] P]| |]; [by eexists|done|done]. }
  rewrite (surjective_pairing demo_end). eapply step_response. exact Hrun.
Qed.

Lemma every_drawn_endpoint_exists_witness :
  exists uid, KmEndpoint (bpf demo_end.2) !! mkEndpointKey demo_sid 0 1 = Some uid.
Proof.
  destruct (KmService (bpf demo_end.2) !! demo_sid) as [sv|] eqn:Hsv; [|vm_compute in Hsv; discriminate].
  assert (EndpointCount sv !! Z.to_nat 0 = Some 1) as Hn.
  { vm_compute in Hsv. injection Hsv as <-. reflexivity. }
  destruct (@every_drawn_endpoint_exists EnvOk _ PersistOk demo_dns demo_end.1 demo_end.2 demo_sid 0 1 sv)
    as [_ Hi].
  - rewrite <-surjective_pairing. exact demo_reachable.
  - exact Hsv.
  - lia.
  - exact Hn.
  - apply Hi. lia.
Defined.

Lemma no_stray_endpoint_witness :
  exists sv n, KmService (bpf demo_end.2) !! demo_sid = Some sv /\
    EndpointCount sv !! Z.to_nat 0 = Some n /\ 1 <= 1 <= n.
Proof.
  apply (@no_stray_endpoint EnvOk _ PersistOk demo_dns demo_end.1 demo_end.2 (mkEndpointKey demo_sid 0 1)).
  - rewrite <-surjective_pairing. exact demo_reachable.
  - vm_compute. eexists. reflexivity.
Defined.

Lemma response_terminates_witness :
  @handleAddressTypeResponse EnvOk PersistOk demo_dns [] ["default/app.default.svc"] demo_end.1 demo_end.2
  <> NoFuel.
Proof.
  apply (@response_terminates EnvOk _ PersistOk demo_dns demo_end.1 demo_end.2).
  rewrite <-surjective_pairing. exact demo_reachable.
Defined.

Lemma index_and_names_complete_witness :
  exists uid, KmEndpoint (bpf demo_end.2) !! mkEndpointKey demo_sid 0 1 = Some uid /\
    mkEndpointKey demo_sid 0 1 ∈ GetEndpointKeys uid (bpf demo_end.2).
Proof.
  destruct (@index_and_names_complete EnvOk _ PersistOk demo_dns demo_end.1 demo_end.2) as [Hi _].
  - rewrite <-surjective_pairing. exact demo_reachable.
  - destruct (KmEndpoint (bpf demo_end.2) !! mkEndpointKey demo_sid 0 1) as [uid|] eqn:Hu;
      [|vm_compute in Hu; discriminate].
    exists uid. split; [reflexivity|]. apply Hi. exact Hu.
Defined.
