(* ===== verification/Spec.v ===== *)
(** * What the handlers achieve

    Functional specifications, for a kernel that refuses updates only when a
    map is full: removing endpoints takes out exactly the backend that is
    meant, in every group; removing a workload leaves no trace of it in the
    maps; adding one makes it reachable. *)
From stdpp Require Import sorting.
From S2P Require Import Prelude GoNet Nets HashName Api Runtime BpfCache Locality WorkloadCache ServiceCache EndpointCache WaypointCache Processor Endpoints ProcessorInv Reach.
Open Scope go_scope.

(** ** Deleting a list of endpoint keys *)
#[export] Instance before_total : Total before.
Proof. intros [a b] [c d]. unfold before. cbn. lia. Qed.
#[export] Instance before_trans : Transitive before.
Proof. intros [a b] [c d] [e f]. unfold before. cbn. lia. Qed.

(** The services keep everything but their counts. *)
Definition same_services (c c' : Cache) : Prop :=
  forall sid, (fun sv => set_EndpointCount [] sv) <$> KmService c' !! sid =
              (fun sv => set_EndpointCount [] sv) <$> KmService c !! sid.

(** [uid] loses [ek]s and nothing else happens to the groups. *)
Record pruned (uid : Z) (c c' : Cache) : Prop := {
  pr_inv : ep_inv c';
  pr_exact : ep_exact c';
  pr_index : index_ok c';
  pr_members : forall sid p, exists j, members (KmEndpoint c) sid p ≡ₚ
    replicate j uid ++ members (KmEndpoint c') sid p;
  pr_services : same_services c c';
  pr_size : (size (KmEndpoint c') <= size (KmEndpoint c))%nat;
  pr_rest : KmBackend c' = KmBackend c /\ KmFrontend c' = KmFrontend c /\ KmWlpolicy c' = KmWlpolicy c
}.

Lemma pruned_refl uid c : ep_inv c -> ep_exact c -> index_ok c -> pruned uid c c.
Proof. intros. split; try done. intros sid p. by exists 0%nat. Qed.

Lemma pruned_trans uid c1 c2 c3 : pruned uid c1 c2 -> pruned uid c2 c3 -> pruned uid c1 c3.
Proof.
  intros [_ _ _ M1 S1 Z1 (A1 & B1 & C1)] [I2 E2 X2 M2 S2 Z2 (A2 & B2 & C2)]. split; try done; [| |lia|].
  - intros sid p. destruct (M1 sid p) as [j1 H1], (M2 sid p) as [j2 H2]. exists (j1 + j2)%nat.
    by rewrite replicate_add, <-app_assoc, <-H2, <-H1.
  - intros sid. by rewrite S2, S1.
  - split_and!; congruence.
Qed.

Lemma pruned_deleted ek uid sv n c c' :
  ep_inv c' -> ep_exact c' -> index_ok c -> KmService c !! ServiceId ek = Some sv ->
  KmEndpoint c !! ek = Some uid -> is_Some (KmEndpoint c !! mkEndpointKey (ServiceId ek) (Prio ek) n) ->
  deleted ek sv n c c' -> pruned uid c c'.
Proof.
  intros Hinv Hex Hidx Hsv Hek Hlast [HE HS HR HI]. split; try done; [auto| | |].
  - intros sid p. rewrite HE. pose proof (members_remove_slot _ _ n _ sid p Hek Hlast) as Hm.
    case_decide; [by exists 1%nat|by exists 0%nat].
  - intros sid. rewrite HS, lookup_insert. case_decide; subst; [|done]. by rewrite Hsv.
  - rewrite HE, remove_slot_size by eauto. lia.
Qed.

Section spec.
Context `{E : Env} `{!Reliable E} `{Persist} `{Dns} (p loc : bool).

(** Only the BPF maps and the endpoint cache change. *)
Definition only_maps (P P' : Processor) : Prop :=
  P' = set_epCache (epCache P') (set_bpf (bpf P') P).
#[export] Instance only_maps_refl : Reflexive only_maps.
Proof. by intros []. Qed.
#[export] Instance only_maps_trans : Transitive only_maps.
Proof. unfold only_maps. intros P1 P2 P3 H12 H23. rewrite H23, H12. by destruct P1. Qed.

(** One key that is in the tables. *)
Lemma wp_deleteEndpointRecord ek uid (Q : unit -> World -> Processor -> Prop) w P :
  ep_inv (bpf P) -> ep_exact (bpf P) -> index_ok (bpf P) -> KmEndpoint (bpf P) !! ek = Some uid ->
  (forall w' P' n, same_heap w w' -> only_maps P P' -> pruned uid (bpf P) (bpf P') ->
     is_Some (KmEndpoint (bpf P) !! mkEndpointKey (ServiceId ek) (Prio ek) n) -> BackendIndex ek <= n ->
     KmEndpoint (bpf P') = remove_slot ek n (KmEndpoint (bpf P)) -> Q tt w' P') ->
  wp p (deleteEndpointRecord ek) Q w P.
Proof.
  intros Hinv Hex Hidx Hek HQ. destruct (Hex ek) as (sv & n & Hsv & Hn & Hle); [by eexists|].
  destruct (ei_keys _ Hinv ek) as [Hp Hb]; [by eexists|].
  assert (is_Some (KmEndpoint (bpf P) !! mkEndpointKey (ServiceId ek) (Prio ek) n)) as Hlast.
  { eapply Hinv; [done|lia|done|lia]. }
  unfold deleteEndpointRecord. apply wp_bind, wp_service_lookup; [|congruence].
  intros sv' Hsv'. assert (sv' = sv) as -> by congruence.
  apply wp_bind, wp_endpoint_lookup; [|congruence]. intros uid' Hek'. assert (uid' = uid) as -> by congruence.
  apply wp_bind, wp_zoom. eapply wp_deleteEndpoint; [done|done|done|done|done|..]; cbn [lset bpf_l].
  - intros w' c' Hh Hinv' Hex' Hdel. wp_steps. apply (HQ w' _ n); [done|by destruct P| |done|done|apply Hdel].
    cbn. by eapply pruned_deleted; auto.
  - intros e w' c' _ HR. by destruct (HR _).
Qed.

Definition of_service (sid : Z) (k : EndpointKey) : Prop := ServiceId k = sid.
#[export] Instance of_service_dec sid k : Decision (of_service sid k).
Proof. unfold of_service. apply _. Defined.

(** The state of the loop of [deleteEndpointRecords] before the keys [l]. *)
Record pruning (uid : Z) (S : Z -> Prop) (l0 : list EndpointKey) (w0 : World) (P0 : Processor)
    (l : list EndpointKey) (w : World) (P : Processor) : Prop := {
  pg_heap : same_heap w0 w;
  pg_frame : only_maps P0 P;
  pg_pruned : pruned uid (bpf P0) (bpf P);
  pg_sorted : StronglySorted (fun x y => before (rank_of x) (rank_of y)) l;
  pg_nodup : NoDup l;
  pg_sub : l ⊆ l0;
  pg_there : Forall (fun k => KmEndpoint (bpf P) !! k = Some uid) l;
  pg_all : forall k, S (ServiceId k) -> KmEndpoint (bpf P) !! k = Some uid -> k ∈ l;
  pg_other : forall k, (forall k', k' ∈ l0 -> ServiceId k' <> ServiceId k) ->
    KmEndpoint (bpf P) !! k = KmEndpoint (bpf P0) !! k;
  pg_count : forall sid, (occurrences uid sid (KmEndpoint (bpf P0)) + length (filter (of_service sid) l) =
    length (filter (of_service sid) l0) + occurrences uid sid (KmEndpoint (bpf P)))%nat
}.

(** Removing the slot [ek] does not disturb the keys that come after it. *)
Lemma later_keys ek l n k :
  StronglySorted (fun x y => before (rank_of x) (rank_of y)) (ek :: l) -> NoDup (ek :: l) ->
  BackendIndex ek <= n -> k ∈ l ->
  k <> ek /\ k <> mkEndpointKey (ServiceId ek) (Prio ek) n.
Proof.
  intros Hs Hnd Hle Hk. apply NoDup_cons in Hnd as [Hnin Hnd].
  apply StronglySorted_inv in Hs as [_ Hall]. rewrite Forall_forall in Hall. specialize (Hall k Hk).
  assert (k <> ek) as Hne by (by intros ->). split; [done|]. intros ->. apply Hne.
  unfold before, rank_of in Hall. cbn in Hall. destruct ek; cbn in *. f_equal. lia.
Qed.

Lemma pruning_step uid S l0 w0 P0 ek l w P (Q : unit -> World -> Processor -> Prop) :
  pruning uid S l0 w0 P0 (ek :: l) w P ->
  (forall w' P', pruning uid S l0 w0 P0 l w' P' -> Q tt w' P') ->
  wp p (deleteEndpointRecord ek) Q w P.
Proof.
  intros [Hh Hf Hp Hs Hnd Hsub Hth Hall Hoth Hcnt] HQ. pose proof Hp as [Hinv Hex Hidx _ _ _ _].
  apply Forall_cons in Hth as [Hek Hth].
  eapply (wp_deleteEndpointRecord ek uid); [done|done|done|done|]. intros w' P' n Hh' Hf' Hp' Hlast Hle HE.
  pose proof (remove_slot_lookup (KmEndpoint (bpf P)) ek n) as Hrs. rewrite <-HE in Hrs.
  apply HQ. split.
  - by etrans.
  - by etrans.
  - by eapply pruned_trans.
  - by apply StronglySorted_inv in Hs as [].
  - by apply NoDup_cons in Hnd as [].
  - intros k Hk. apply Hsub. by right.
  - apply Forall_forall. intros k Hk. destruct (later_keys ek l n k Hs Hnd Hle Hk) as [H1' H2'].
    rewrite Hrs, decide_False, decide_False by done. rewrite Forall_forall in Hth. by apply Hth.
  - intros k HS. rewrite Hrs by done. case_decide as Hkl; [done|]. case_decide as Hke.
    + subst k. intros Hv.
      assert (mkEndpointKey (ServiceId ek) (Prio ek) n ∈ ek :: l) as Hin by (by apply Hall).
      apply elem_of_cons in Hin as [Hin|Hin]; [by rewrite Hin in Hkl|].
      by destruct (later_keys ek l n _ Hs Hnd Hle Hin).
    + intros Hv. apply Hall in Hv; [|done]. apply elem_of_cons in Hv as [->|]; done.
  - intros k Hk. specialize (Hoth k Hk). assert (ek ∈ l0) as Hin by (apply Hsub; left).
    specialize (Hk ek Hin). rewrite Hrs by done.
    by rewrite !decide_False by (by intros ->).
  - intros sid. specialize (Hcnt sid). rewrite HE.
    rewrite (occurrences_remove_slot (KmEndpoint (bpf P)) ek n uid uid) in Hcnt by done.
    revert Hcnt. rewrite filter_cons. unfold at_service, of_service. cbn. repeat case_decide; cbn; lia || tauto.
Qed.

Lemma wp_deleteEndpointRecords l uid (S : Z -> Prop) (Q : option error -> World -> Processor -> Prop) w P :
  ep_inv (bpf P) -> ep_exact (bpf P) -> index_ok (bpf P) ->
  NoDup l -> Forall (fun k => KmEndpoint (bpf P) !! k = Some uid) l ->
  (forall k, S (ServiceId k) -> KmEndpoint (bpf P) !! k = Some uid -> k ∈ l) ->
  (forall w' P', same_heap w w' -> only_maps P P' -> pruned uid (bpf P) (bpf P') ->
     (forall k, S (ServiceId k) -> KmEndpoint (bpf P') !! k <> Some uid) ->
     (forall k, (forall k', k' ∈ l -> ServiceId k' <> ServiceId k) ->
        KmEndpoint (bpf P') !! k = KmEndpoint (bpf P) !! k) ->
     (forall sid, occurrences uid sid (KmEndpoint (bpf P)) =
        length (filter (of_service sid) l) + occurrences uid sid (KmEndpoint (bpf P')))%nat -> Q None w' P') ->
  wp p (deleteEndpointRecords l) Q w P.
Proof.
  intros Hinv Hex Hidx Hnd Hth Hall HQ. unfold deleteEndpointRecords. case_decide as Hlen.
  { apply length_zero_iff_nil in Hlen as ->. wp_steps. apply HQ; [done|done|by apply pruned_refl| |done|done].
    intros k HS Hk. by apply Hall, elem_of_nil in Hk. }
  unfold sort_keys. wp_steps. rename l' into l1. set (l2 := merge_sort _ l1).
  assert (l2 ≡ₚ l) as Hperm by (unfold l2; by rewrite merge_sort_Permutation).
  apply (wp_fold_each p (fun l' _ w' P' => pruning uid S l w P l' w' P')).
  - split; [done|done|by apply pruned_refl| | | | | |done|].
    + apply Sorted_StronglySorted; [intros x y z; apply before_trans|]. apply Sorted_merge_sort.
      intros x y. apply before_total.
    + by rewrite Hperm.
    + intros k. by rewrite Hperm.
    + by rewrite Hperm.
    + intros k. rewrite Hperm. apply Hall.
    + intros sid. rewrite Hperm. lia.
  - intros ek l' [] w1 P1 HI. eapply pruning_step; [exact HI|]. done.
  - intros [] w1 P1 [Hh Hf Hp _ _ _ _ Hal Ho Hc]. wp_steps. apply HQ; try done.
    + intros k HS Hk. by apply Hal, elem_of_nil in Hk.
    + intros sid. specialize (Hc sid). cbn in Hc. lia.
Qed.

(** ** Single map operations *)
Lemma wp_backend_lookup k (Q : BackendValue + error -> World -> Processor -> Prop) w P :
  (forall v, KmBackend (bpf P) !! k = Some v -> Q (inl v) w P) ->
  (KmBackend (bpf P) !! k = None -> Q (inr ErrKeyNotExist) w P) ->
  wp p (zoom bpf_l (BackendLookup k)) Q w P.
Proof.
  intros H1 H2. unfold BackendLookup. wp_steps. apply wp_map_Lookup; cbn; destruct P as [? [] ]; auto.
Qed.
Lemma wp_delete {K V} `{Countable K} (l : lens Cache (gmap K V)) k (Q : option error -> World -> Processor -> Prop) w P :
  (forall w', same_heap w w' -> Q None w' (set_bpf (lset l (delete k (lget l (bpf P))) (bpf P)) P)) ->
  wp p (zoom bpf_l (err ← zoom l (map_Delete k); mret (ignore_missing err))) Q w P.
Proof.
  intros HQ. wp_steps. apply wp_map_Delete; cbn.
  - intros _ _. wp_steps. by apply HQ.
  - intros _ Hn. wp_steps. cbn. rewrite <-(delete_id (lget l (bpf P)) k) by done. by apply HQ.
  - intros e He. by rewrite deletes_succeed in He.
Qed.
(** An update of a map that has room for the key. *)
Definition has_room {K V} `{Countable K} (k : K) (m : gmap K V) : Prop :=
  Z.of_nat (size (delete k m)) < max_entries.
Lemma wp_update {K V} `{Countable K} (l : lens Cache (gmap K V)) k v (Q : option error -> World -> Processor -> Prop) w P :
  has_room k (lget l (bpf P)) ->
  Q None (tick w) (set_bpf (lset l (<[k := v]> (lget l (bpf P))) (bpf P)) P) ->
  wp p (zoom bpf_l (zoom l (map_Update k v))) Q w P.
Proof.
  intros Hroom HQ. wp_steps. apply wp_map_Update; cbn; [done|]. intros e He. unfold has_room in Hroom.
  rewrite updates_succeed in He; [done|]. rewrite <-insert_delete_eq, map_size_insert_None by (apply lookup_delete_eq). lia.
Qed.
Lemma wp_FrontendDelete k (Q : option error -> World -> Processor -> Prop) w P :
  (forall w', same_heap w w' ->
     Q None w' (set_bpf (set_KmFrontend (delete k (KmFrontend (bpf P))) (bpf P)) P)) ->
  wp p (zoom bpf_l (FrontendDelete k)) Q w P.
Proof. apply (wp_delete frontend_map). Qed.
Lemma wp_BackendDelete k (Q : option error -> World -> Processor -> Prop) w P :
  (forall w', same_heap w w' ->
     Q None w' (set_bpf (set_KmBackend (delete k (KmBackend (bpf P))) (bpf P)) P)) ->
  wp p (zoom bpf_l (BackendDelete k)) Q w P.
Proof. apply (wp_delete backend_map). Qed.
Lemma wp_WorkloadPolicyDelete k (Q : option error -> World -> Processor -> Prop) w P :
  (forall w', same_heap w w' ->
     Q None w' (set_bpf (set_KmWlpolicy (delete k (KmWlpolicy (bpf P))) (bpf P)) P)) ->
  wp p (zoom bpf_l (WorkloadPolicyDelete k)) Q w P.
Proof. apply (wp_delete wlpolicy_map). Qed.

(** ** Removing a workload from the maps *)
Record wl_removed (x : Workload) (n : Z) (P P' : Processor) : Prop := {
  wr_gone : forall k, KmEndpoint (bpf P') !! k <> Some n;
  wr_members : forall sid prio, exists j, members (KmEndpoint (bpf P)) sid prio ≡ₚ
    replicate j n ++ members (KmEndpoint (bpf P')) sid prio;
  wr_services : same_services (bpf P) (bpf P');
  wr_tables : ep_inv (bpf P') /\ ep_exact (bpf P') /\ index_ok (bpf P');
  wr_backend : KmBackend (bpf P') = delete n (KmBackend (bpf P));
  wr_frontend : KmFrontend (bpf P') =
    match KmBackend (bpf P) !! n with
    | Some bv => delete (bv_Ip bv) (KmFrontend (bpf P))
    | None => KmFrontend (bpf P)
    end;
  wr_policy : KmWlpolicy (bpf P') =
    if decide (wl_node x = nodeName P) then delete n (KmWlpolicy (bpf P)) else KmWlpolicy (bpf P);
  wr_name : forall s, strToNum (hashName P') !! s =
    if decide (s = wl_uid x) then None else strToNum (hashName P) !! s
}.

(** The endpoints of one workload, all of them. *)
Lemma wp_delete_all n (Q : option error -> World -> Processor -> Prop) w P :
  ep_inv (bpf P) -> ep_exact (bpf P) -> index_ok (bpf P) ->
  (forall w' P', same_heap w w' -> only_maps P P' -> pruned n (bpf P) (bpf P') ->
     (forall k, KmEndpoint (bpf P') !! k <> Some n) -> Q None w' P') ->
  wp p (let eks := GetEndpointKeys n (bpf P) in
        if decide (0 < size eks)%nat then l ← range (elements eks); deleteEndpointRecords l else mret None) Q w P.
Proof.
  intros Hinv Hex Hidx HQ. cbn zeta. case_decide as Hsz.
  - wp_steps. rename l' into l, H1 into Hl.
    apply (wp_deleteEndpointRecords l n (fun _ => True)); [done|done|done|..].
    + rewrite Hl. apply NoDup_elements.
    + apply Forall_forall. intros k. rewrite Hl, elem_of_elements. apply Hidx.
    + intros k _ Hk. rewrite Hl, elem_of_elements. by apply Hidx.
    + intros w' P' Hh Ho Hp Hg _ _. apply HQ; [done|done|done|]. intros k. by apply Hg.
  - wp_steps. apply HQ; [done|done|by apply pruned_refl|].
    intros k Hk. apply Hidx in Hk. assert (size (GetEndpointKeys n (bpf P)) = 0%nat) as Hs0 by lia.
    apply size_empty_inv in Hs0. set_solver.
Qed.

(** The pieces put together: [P2] after the frontend, [P3] after the endpoints,
    [P5] before the name is given back. *)
Lemma removed_intro x n h P P2 P3 P5 :
  hash_wf h -> (forall s, s <> wl_uid x -> strToNum h !! s = strToNum (hashName P) !! s) ->
  P2 = set_bpf (set_KmFrontend (match KmBackend (bpf P) !! n with
                                | Some bv => delete (bv_Ip bv) (KmFrontend (bpf P))
                                | None => KmFrontend (bpf P)
                                end) (bpf P)) (set_hashName h P) ->
  only_maps P2 P3 -> pruned n (bpf P2) (bpf P3) -> (forall k, KmEndpoint (bpf P3) !! k <> Some n) ->
  P5 = set_bpf (set_KmWlpolicy
    (if decide (wl_node x = nodeName P) then delete n (KmWlpolicy (bpf P)) else KmWlpolicy (bpf P))
    (set_KmBackend (delete n (KmBackend (bpf P3))) (bpf P3))) P3 ->
  wl_removed x n P (set_hashName (Delete (wl_uid x) (hashName P5)) P5).
Proof.
  intros Hwf Hother HP2 Ho3 [Hinv3 Hex3 Hidx3 Hm3 Hs3 _ (HB3 & HF3 & HW3)] Hgone HP5.
  destruct (ep_inv_same (bpf P3) (bpf P5)) as [Hinv5 Hex5]; [subst P5; done|done|].
  assert (hashName P5 = h) as Hh5 by (rewrite HP5, Ho3, HP2; done).
  split; cbn [bpf set_hashName].
  - rewrite HP5. apply Hgone.
  - intros sid prio. rewrite HP5. destruct (Hm3 sid prio) as [j Hj]. exists j. by rewrite HP2 in Hj.
  - intros sid. rewrite HP5. cbn. rewrite Hs3. by rewrite HP2.
  - split; [done|]. split; [auto|]. rewrite HP5. intros k u. apply Hidx3.
  - rewrite HP5. cbn. by rewrite HB3, HP2.
  - rewrite HP5. cbn. by rewrite HF3, HP2.
  - by rewrite HP5.
  - intros s. cbn. rewrite Delete_strToNum, Hh5. repeat case_decide; auto.
Qed.

Lemma wp_removeWorkloadFromBpfMap x (Q : option error -> World -> Processor -> Prop) w P :
  hash_wf (hashName P) -> ep_inv (bpf P) -> ep_exact (bpf P) -> index_ok (bpf P) ->
  (forall n h w' P', Hash (wl_uid x) (hashName P) = Done (n, h) -> same_heap w w' -> wl_removed x n P P' ->
     wlCache P' = wlCache P -> Q None w' P') ->
  wp p (removeWorkloadFromBpfMap x) Q w P.
Proof.
  intros Hwf Hinv Hex Hidx HQ. unfold removeWorkloadFromBpfMap.
  destruct (Hash_spec (wl_uid x) (hashName P) Hwf) as (n & h & Hh & Hwf' & Hr & Hn & _ & Hother & _).
  apply wp_bind. unfold hash. eapply wp_done; [by rewrite Hh|]. set (P1 := set_hashName h P).
  wp_step. eapply (wp_mono _ _ (fun err w' P' => err = None /\ same_heap w w' /\
    P' = set_bpf (set_KmFrontend (match KmBackend (bpf P) !! n with
                                  | Some bv => delete (bv_Ip bv) (KmFrontend (bpf P))
                                  | None => KmFrontend (bpf P)
                                  end) (bpf P)) P1)).
  { unfold deletePodFrontendData. apply wp_bind, wp_backend_lookup; cbn [bpf set_hashName P1].
    - intros bv Hbv. apply wp_FrontendDelete. intros w' Hh'. split; [done|]. split; [done|]. by rewrite Hbv.
    - intros Hbv. wp_steps. split; [done|]. split; [done|]. rewrite Hbv. by destruct P as [? []]. }
  intros ? w2 P2 (-> & Hh2 & HP2). wp_steps.
  assert (ep_inv (bpf P2) /\ (ep_exact (bpf P) -> ep_exact (bpf P2))) as [Hinv2 Hex2].
  { apply ep_inv_same; [|done]. by rewrite HP2. }
  assert (index_ok (bpf P2)) as Hidx2 by (rewrite HP2; intros k u; apply Hidx).
  apply (wp_delete_all n); [done|auto|done|].
  intros w3 P3 Hh3 Ho3 Hp3 Hgone. wp_step. apply wp_BackendDelete. intros w4 Hh4.
  pose proof Hp3 as [Hinv3 Hex3 Hidx3 Hm3 Hs3 _ (HB3 & HF3 & HW3)].
  set (c4 := set_KmBackend _ (bpf P3)). wp_steps.
  eapply (wp_mono _ _ (fun _ w' P' => same_heap w w' /\ P' = set_bpf (set_KmWlpolicy
    (if decide (wl_node x = nodeName P) then delete n (KmWlpolicy (bpf P)) else KmWlpolicy (bpf P)) c4) P3)).
  { assert (KmWlpolicy (bpf P3) = KmWlpolicy (bpf P)) as HW by (rewrite HW3, HP2; done).
    assert (nodeName P3 = nodeName P) as HN by (rewrite Ho3, HP2; done). cbn. rewrite HN. case_decide.
    - unfold deleteWorkloadPolicies. wp_step. apply wp_WorkloadPolicyDelete. intros w5 Hh5. wp_steps.
      split; [|cbn; by rewrite HW]. etrans; [exact Hh2|]. etrans; [exact Hh3|]. by etrans.
    - wp_steps. split; [|rewrite <-HW; by destruct P3 as [? []]]. etrans; [exact Hh2|]. by etrans. }
  intros _ w5 P5 [Hh5 HP5]. unfold hash_delete. wp_steps.
  apply (HQ n h); [done|done| |by rewrite HP5, Ho3, HP2].
  apply (removed_intro x n h P P2 P3 P5); try done.
  intros s0 Hs0. apply option_eq. intros m. by apply Hother.
Qed.
End spec.

(** The groups without the removed backend. *)
Lemma elem_of_members m sid prio u :
  u ∈ members m sid prio <-> exists i, m !! mkEndpointKey sid prio i = Some u.
Proof.
  unfold members. rewrite list_elem_of_fmap. split.
  - intros ([k v] & -> & Hk). apply elem_of_map_to_list, map_lookup_filter_Some in Hk as [Hk [<- <-]].
    exists (BackendIndex k). by destruct k.
  - intros [i Hi]. exists (mkEndpointKey sid prio i, u). split; [done|].
    by apply elem_of_map_to_list, map_lookup_filter_Some.
Qed.

Lemma members_without m m' sid prio j n :
  members m sid prio ≡ₚ replicate j n ++ members m' sid prio ->
  (forall k, m' !! k <> Some n) ->
  members m' sid prio ≡ₚ filter (.≠ n) (members m sid prio).
Proof.
  intros Hm Hgone. rewrite Hm, filter_app.
  assert (filter (.≠ n) (replicate j n) = []) as ->.
  { clear Hm. induction j as [|j IH]; [done|]. cbn. rewrite decide_False by (by intros ?). done. }
  rewrite app_nil_l, filter_keep; [done|]. apply Forall_forall. intros u Hu ->.
  apply elem_of_members in Hu as [i Hi]. by apply (Hgone (mkEndpointKey sid prio i)).
Qed.

(** A name of the table keeps its number. *)
Lemma Hash_known `{Persist} str h n m h' :
  hash_wf h -> strToNum h !! str = Some n -> Hash str h = Done (m, h') -> m = n.
Proof.
  intros Hwf Hn HE. destruct (Hash_spec str h Hwf) as (m' & h1 & HE' & _ & Hr & Hlow & Htop & _ & Hkeep).
  rewrite HE' in HE. injection HE as -> ->. apply Hkeep in Hn as Hn'.
  destruct (decide (m = MaxUint32)) as [Hm|Hm]; [destruct (Htop Hm); congruence|].
  rewrite Hlow in Hn' by lia. congruence.
Qed.

(** The address index without the addresses of the object [q] that still lead to
    the workload [uid]; an address that another workload has taken over is left
    to it. *)
Definition addrs_removed (uid : string) (q : ptr) (w : World) (P P' : Processor) : Prop :=
  forall b, byAddr (wlCache P') !! b =
    if decide (b ∈ WorkloadCache.addr_keys (get_wl q w) /\
               (fun q => wl_uid (get_wl q w)) <$> byAddr (wlCache P) !! b = Some uid)
    then None else byAddr (wlCache P) !! b.

Section removal.
Context `{E : Env} `{!Reliable E} `{Persist} `{Dns} (p : bool).

Lemma wp_removeWorkload uid q n (Q : option error -> World -> Processor -> Prop) w P :
  p_inv true false w P -> index_ok (bpf P) ->
  GetWorkloadByUid uid (wlCache P) = Some q -> strToNum (hashName P) !! uid = Some n ->
  (forall w' P', same_heap w w' -> wl_removed (get_wl q w) n P P' ->
     byUid (wlCache P') = delete uid (byUid (wlCache P)) -> addrs_removed uid q w P P' -> Q None w' P') ->
  wp p (removeWorkload uid) Q w P.
Proof.
  intros HP Hidx Hq Hn HQ. destruct (pi_uids _ _ _ _ HP uid q Hq) as (x & Hx & Hux).
  assert (get_wl q w = x) as Hget by (unfold get_wl; by rewrite Hx).
  assert (wl_uid (get_wl q w) = uid) as Hu by (by rewrite Hget).
  unfold removeWorkload. do 2 wp_step. apply WaypointCache.wp_wc_DeleteWorkload. cbn [lset lget wp_l].
  do 2 wp_step. cbn [wlCache set_wpCache]. rewrite Hq. do 5 wp_step.
  set (P1 := set_wpCache _ P).
  eapply (wp_mono _ _ (fun _ w' P' => w' = w /\ wlCache P' = wlCache P /\ hashName P' = hashName P /\
    bpf P' = bpf P /\ nodeName P' = nodeName P)).
  { case_decide; wp_steps; done. }
  intros [] w2 P2 (-> & HW2 & HH2 & HB2 & HN2). do 2 wp_step.
  apply WorkloadCache.wp_DeleteWorkload; cbn [lget lset wl_l]; rewrite HW2.
  { unfold GetWorkloadByUid in Hq. congruence. }
  intros q' c Hq' Hc Haddr. do 2 wp_step.
  apply wp_removeWorkloadFromBpfMap; cbn; rewrite ?HH2, ?HB2.
  - apply HP.
  - apply HP.
  - apply HP. apply _.
  - done.
  - intros m h w' P' HE Hh Hrem HW. rewrite Hu in HE.
    assert (m = n) as -> by (eapply Hash_known; [apply HP|exact Hn|exact HE]).
    assert (q' = q) as -> by (unfold GetWorkloadByUid in Hq; congruence).
    apply HQ; [done| |by rewrite HW|by intros b; rewrite HW; apply Haddr]. destruct Hrem as [A B C D F G I J]. cbn in *.
    rewrite ?HB2, ?HH2, ?HN2 in *. by split.
Qed.
End removal.


(** in every reachable state [deleteEndpoint] of a recorded endpoint comes to
    an end without a crash and, whichever of its updates the kernel refuses,
    leaves every number the load balancer can draw with an endpoint: the last
    endpoint is copied before the count goes down, and deleted after it.  When
    no update is refused it succeeds: exactly that backend leaves its priority
    group, the count goes down by one and nothing else changes. *)
Theorem deleteEndpoint_safe `{E : Env} `{!DeletesSucceed E} `{Persist} `{Dns}
    (w : World) (P : Processor) (ek : EndpointKey) (uid : Z) (sv : ServiceValue) (n : Z) :
  reachable (w, P) -> KmEndpoint (bpf P) !! ek = Some uid ->
  KmService (bpf P) !! ServiceId ek = Some sv -> EndpointCount sv !! Z.to_nat (Prio ek) = Some n ->
  BackendIndex ek <= n ->
  exists err w' c', deleteEndpoint ek uid sv (ServiceId ek) w (bpf P) = Done (err, w', c') /\
    ep_inv c' /\ (Reliable E -> err = None) /\
    (err = None ->
       KmService c' = <[ServiceId ek := set_EndpointCount
         (<[Z.to_nat (Prio ek) := n - 1]> (EndpointCount sv)) sv]> (KmService (bpf P)) /\
       members (KmEndpoint (bpf P)) (ServiceId ek) (Prio ek) ≡ₚ
         uid :: members (KmEndpoint c') (ServiceId ek) (Prio ek) /\
       (forall k, (ServiceId k, Prio k) <> (ServiceId ek, Prio ek) ->
          KmEndpoint c' !! k = KmEndpoint (bpf P) !! k)).
Proof.
  intros HR Hek Hsv Hn Hle. apply reachable_inv in HR as HP. pose proof (pi_ep _ _ _ _ HP) as Hinv. cbn in Hinv.
  destruct (ei_keys _ Hinv ek) as [Hp Hb]; [by eexists|].
  assert (is_Some (KmEndpoint (bpf P) !! mkEndpointKey (ServiceId ek) (Prio ek) n)) as Hlast.
  { eapply Hinv; [done|lia|done|lia]. }
  apply wp_inv. eapply wp_deleteEndpoint; try done.
  intros w' c' _ Hinv' _ [HE HS _ _]. split; [done|]. split; [done|]. intros _. split; [done|]. split.
  - rewrite HE. rewrite (members_remove_slot _ _ n uid) by done. by rewrite decide_True.
  - intros k Hk. rewrite HE, remove_slot_lookup by done.
    rewrite !decide_False; [done| |]; by intros ->.
Qed.

(** adding a workload to a priority group of a service, when the endpoint map
    has room, succeeds: the group gains the workload at the number after its
    last, the count goes up by one, and no other group changes. *)
Theorem addWorkloadToService_spec `{E : Env} `{!Reliable E} `{Persist} `{Dns}
    (w : World) (P : Processor) (sk : Z) (sv : ServiceValue) (uid prio n : Z) :
  reachable (w, P) -> KmService (bpf P) !! sk = Some sv -> 0 <= prio ->
  EndpointCount sv !! Z.to_nat prio = Some n -> Z.of_nat (size (KmEndpoint (bpf P))) < max_entries ->
  exists w' P', addWorkloadToService sk sv uid prio w P = Done ((mkEndpointKey sk prio (n + 1), None), w', P') /\
    KmService (bpf P') = <[sk := set_EndpointCount
      (<[Z.to_nat prio := n + 1]> (EndpointCount sv)) sv]> (KmService (bpf P)) /\
    (forall sid pr, members (KmEndpoint (bpf P')) sid pr ≡ₚ
       if decide (sk = sid /\ prio = pr) then uid :: members (KmEndpoint (bpf P)) sid pr
       else members (KmEndpoint (bpf P)) sid pr) /\
    ep_inv (bpf P') /\ ep_exact (bpf P') /\ (index_ok (bpf P) -> index_ok (bpf P')).
Proof.
  intros HR Hsv Hp Hn Hroom. apply reachable_inv in HR as HP. cbn in HP.
  assert (ep_exact (bpf P)) as Hex by (apply HP; apply _).
  assert (KmEndpoint (bpf P) !! mkEndpointKey sk prio (n + 1) = None) as Hfree.
  { eapply ep_exact_free; [exact Hex|exact Hsv|exact Hn|cbn; lia]. }
  edestruct (wp_inv (addWorkloadToService sk sv uid prio) (fun r _ P' =>
    r = (mkEndpointKey sk prio (n + 1), None) /\ ep_inv (bpf P') /\ ep_exact (bpf P') /\
    added (mkEndpointKey sk prio (n + 1)) uid sv n (bpf P) (bpf P')) w P)
    as (r & w' & P' & HE & -> & Hinv' & Hex' & [HE' HS _ HI]).
  { eapply wp_addWorkloadToService; [exact HP|done|done|done| |].
    - intros w' c' _ Hi He Ha. by auto.
    - intros e w' P' _ _ _ _ Hno. by destruct Hno. }
  exists w', P'. split; [done|]. split; [done|]. split; [|by auto].
  intros sid pr. rewrite HE', members_insert by done. done.
Qed.

Definition demo_uid : string := "cluster//Pod/default/app-1".
Lemma demo_index_ok : index_ok (bpf demo_end.2).
Proof. apply index_ok_intro; apply (bool_decide_unpack _); vm_compute; exact I. Qed.


Lemma demo_slot : exists uid sv,
  KmEndpoint (bpf demo_end.2) !! mkEndpointKey demo_sid 0 1 = Some uid /\
  KmService (bpf demo_end.2) !! demo_sid = Some sv /\ EndpointCount sv !! Z.to_nat 0 = Some 1.
Proof.
  destruct (KmService (bpf demo_end.2) !! demo_sid) as [sv|] eqn:Hsv; [|vm_compute in Hsv; discriminate].
  destruct (KmEndpoint (bpf demo_end.2) !! mkEndpointKey demo_sid 0 1) as [uid|] eqn:Hu;
    [|vm_compute in Hu; discriminate].
  exists uid, sv. split; [done|]. split; [done|]. vm_compute in Hsv. injection Hsv as <-. reflexivity.
Qed.

Lemma deleteEndpoint_safe_witness :
  exists uid sv w' c', @deleteEndpoint EnvOk (mkEndpointKey demo_sid 0 1) uid sv demo_sid demo_end.1 (bpf demo_end.2)
    = Done (None, w', c') /\ ep_inv c'.
Proof.
  destruct demo_slot as (uid & sv & Hu & Hsv & Hn).
  destruct (@deleteEndpoint_safe EnvOk _ PersistOk demo_dns demo_end.1 demo_end.2 (mkEndpointKey demo_sid 0 1)
    uid sv 1) as (err & w' & c' & HE & Hinv & Herr & _).
  - rewrite <-surjective_pairing. exact demo_reachable.
  - exact Hu.
  - exact Hsv.
  - exact Hn.
  - cbn. lia.
  - rewrite (Herr _) in HE. exists uid, sv, w', c'. split; [exact HE|exact Hinv].
Defined.

Lemma addWorkloadToService_spec_witness :
  exists sv w' P', @addWorkloadToService EnvOk demo_sid sv 77 0 demo_end.1 demo_end.2
    = Done ((mkEndpointKey demo_sid 0 2, None), w', P') /\ ep_exact (bpf P').
Proof.
  destruct demo_slot as (uid & sv & Hu & Hsv & Hn).
  destruct (@addWorkloadToService_spec EnvOk _ PersistOk demo_dns demo_end.1 demo_end.2 demo_sid sv 77 0 1)
    as (w' & P' & HE & _ & _ & _ & Hex & _).
  - rewrite <-surjective_pairing. exact demo_reachable.
  - exact Hsv.
  - lia.
  - exact Hn.
  - vm_compute. reflexivity.
  - exists sv, w', P'. split; [exact HE|exact Hex].
Defined.
