(* ===== verification/Binding.v ===== *)
(** * Workloads and the services they belong to

    What [handleWorkload] promises: when a healthy workload is handled, each
    of its services has it as a backend exactly once, no other service has it
    at all, and no other backend moves. *)
From stdpp Require Import sorting.
From S2P Require Import Prelude GoNet Nets HashName Api Runtime BpfCache Locality WorkloadCache ServiceCache EndpointCache WaypointCache Processor Endpoints ProcessorInv Reach Spec.
Open Scope go_scope.

(** ** Names that have their number *)
Section names.
Context `{Persist}.

(** Hashing [s] gives [n] and does not change the table: [s] is in it, or
    every number from its hash value on is in use. *)
Definition settled (h : HashName) (s : string) (n : Z) : Prop := Hash s h = Done (n, h).

Lemma settled_Hash s n h h' : hash_wf h -> Hash s h = Done (n, h') -> settled h' s n.
Proof.
  intros Hwf HE. destruct (Hash_spec s h Hwf) as (n' & h1 & HE' & Hwf' & Hr & Hlow & Htop & _).
  rewrite HE' in HE. injection HE as -> ->. destruct (decide (n = MaxUint32)) as [Hn|Hn].
  - destruct (Htop Hn) as [-> _]. done.
  - unfold settled, Hash. by rewrite Hlow by lia.
Qed.

(** A table without room above the hash value of [s]. *)
Lemma settled_none s n h :
  hash_wf h -> strToNum h !! s = None -> settled h s n ->
  n = MaxUint32 /\ forall k, fnv32a (bytes_of_string s) <= k < MaxUint32 -> is_Some (numToStr h !! k).
Proof.
  intros Hwf Hs HE. destruct (Hash_spec s h Hwf) as (n' & h1 & HE' & _ & Hr & Hlow & Htop & _).
  unfold settled in HE. rewrite HE' in HE. injection HE as -> ->.
  destruct (decide (n < MaxUint32)) as [Hn|Hn]; [rewrite Hlow in Hs by done; done|].
  split; [lia|]. unfold Hash in HE'. rewrite Hs in HE'.
  pose proof (fnv32a_is (bytes_of_string s)) as Hu. unfold is_u32 in Hu.
  destruct (probe_spec (size (numToStr h)) (numToStr h) (fnv32a (bytes_of_string s)))
    as (num & found & Hp & _ & Hk & Hf); [unfold MaxUint32; lia|apply probe_fuel|].
  rewrite Hp in HE'. cbn in HE'. destruct found; [injection HE' as -> _; lia|].
  injection HE' as ->. by subst n.
Qed.

Lemma Hash_full s h :
  hash_wf h -> strToNum h !! s = None ->
  (forall k, fnv32a (bytes_of_string s) <= k < MaxUint32 -> is_Some (numToStr h !! k)) ->
  settled h s MaxUint32.
Proof.
  intros Hwf Hs Hfull. unfold settled, Hash. rewrite Hs.
  pose proof (fnv32a_is (bytes_of_string s)) as Hu. unfold is_u32 in Hu.
  destruct (probe_spec (size (numToStr h)) (numToStr h) (fnv32a (bytes_of_string s)))
    as (num & found & Hp & Hr & _ & Hf); [unfold MaxUint32; lia|apply probe_fuel|].
  rewrite Hp. cbn. destruct found; [|by subst num].
  destruct Hf as [Hlt Hnone]. destruct (Hfull num) as [? Hsome]; [lia|]. congruence.
Qed.

(** Hashing other names does not change it. *)
Lemma settled_mono s n t m h h' :
  hash_wf h -> settled h s n -> Hash t h = Done (m, h') -> settled h' s n.
Proof.
  intros Hwf Hs Ht. destruct (Hash_spec t h Hwf) as (m' & h1 & HE' & Hwf' & _ & _ & _ & Hother & Hkeep).
  rewrite HE' in Ht. injection Ht as -> ->.
  destruct (decide (s = t)) as [->|Hne].
  { unfold settled in Hs. rewrite Hs in HE'. injection HE' as -> ->. done. }
  unfold settled in Hs. destruct (strToNum h !! s) as [n'|] eqn:Es.
  - unfold Hash in Hs. rewrite Es in Hs. injection Hs as ->. unfold settled, Hash. by rewrite (Hkeep _ _ Es).
  - destruct (settled_none _ _ _ Hwf Es Hs) as [-> Hf].
    apply Hash_full; [done| |].
    + destruct (strToNum h' !! s) eqn:E'; [|done]. apply Hother in E'; [congruence|done].
    + intros k Hk. destruct (Hf k Hk) as [v Hv]. exists v. by apply Hwf', Hkeep, Hwf.
Qed.

(** The number that [Hash] answers. *)
Definition number (h : HashName) (s : string) : Z :=
  match Hash s h with Done (n, _) => n | _ => MaxUint32 end.
Lemma number_settled h s n : settled h s n -> number h s = n.
Proof. unfold settled, number. by intros ->. Qed.
End names.

(** ** Steps that leave the endpoint tables alone

    [f] is what else they leave alone. *)
Definition settles `{Persist} (h h' : HashName) : Prop :=
  hash_wf h' /\ forall s n, settled h s n -> settled h' s n.
Definition named (_ : World) (P : Processor) : Prop := hash_wf (hashName P).
Definition aside `{Persist} {T} (f : Cache -> T) (w : World) (P : Processor) (w' : World) (P' : Processor) : Prop :=
  same_heap w w' /\ P' = set_hashName (hashName P') (set_bpf (bpf P') P) /\
  ep_same (bpf P) (bpf P') /\ f (bpf P') = f (bpf P) /\
  (hash_wf (hashName P) -> settles (hashName P) (hashName P')).
#[export] Instance aside_preorder `{Persist} {T} (f : Cache -> T) : PreorderR (aside f).
Proof.
  split.
  - intros w P. split; [done|]. split; [by destruct P|]. split; [done|]. split; [done|]. by split.
  - intros w1 P1 w2 P2 w3 P3 (H1 & E1 & (A1 & B1 & C1) & F1 & S1) (H2 & E2 & (A2 & B2 & C2) & F2 & S2).
    split; [by etrans|]. split; [rewrite E2, E1; by destruct P1|]. split; [split_and!; congruence|].
    split; [congruence|]. intros Hwf. destruct (S1 Hwf) as [Hwf2 S1']. destruct (S2 Hwf2) as [Hwf3 S2'].
    split; [done|]. auto.
Qed.

Lemma aside_ticks `{Persist} {T} (f : Cache -> T) w0 w1 P w2 P' w3 :
  same_heap w0 w1 -> same_heap w2 w3 -> aside f w1 P w2 P' -> aside f w0 P w3 P'.
Proof. intros H01 H23 [H12 Hr]. split; [|done]. etrans; [exact H01|]. by etrans. Qed.

Section aside.
Context `{E : Env} `{!Reliable E} `{Persist} `{Dns} (p : bool).

Lemma aside_inv {T} (f : Cache -> T) loc w P w' P' :
  aside f w P w' P' -> p_inv p loc w P -> p_inv p loc w' P'.
Proof.
  intros (Hh & -> & Hs & _ & Hset) HP. destruct (ep_inv_same _ _ Hs (pi_ep _ _ _ _ HP)) as [Hinv Hex].
  eapply p_inv_heap; [done|]. destruct HP as [A B C D F G I J]. split; try done.
  - by apply Hset.
  - cbn. auto.
Qed.

Lemma wp_hash_settled s (Q : Z -> World -> Processor -> Prop) w P :
  hash_wf (hashName P) ->
  (forall n h, hash_wf h -> settled h s n -> settles (hashName P) h -> Q n w (set_hashName h P)) ->
  wp p (hash s) Q w P.
Proof.
  intros Hwf HQ. unfold wp, hash. destruct (Hash_spec s (hashName P) Hwf) as (n & h & HE & Hwf' & _).
  rewrite HE. apply HQ; [done|eapply settled_Hash; [exact Hwf|exact HE]|]. split; [done|].
  intros t m Ht. eapply settled_mono; [exact Hwf|done|exact HE].
Qed.

Lemma aside_hash {T} (f : Cache -> T) s : stays p named (aside f) (hash s).
Proof.
  intros w P Hwf. apply wp_hash_settled; [done|]. intros n h Hwf' _ Hs. split; [done|].
  split; [done|]. by destruct P.
Qed.
Lemma aside_range {A T} (f : Cache -> T) (l : list A) : stays p named (aside f) (range l).
Proof.
  intros w P Hwf. apply wp_range. intros l' _. split; [done|]. split; [done|]. split; [by destruct P|].
  split; [done|]. split; [done|]. intros _. by split.
Qed.
Lemma aside_bpf {A T} (f : Cache -> T) (m : Go Cache A) :
  (forall w c, wp p m (fun _ w' c' => same_heap w w' /\ ep_same c c' /\ f c' = f c) w c) ->
  stays p named (aside f) (zoom bpf_l m).
Proof.
  intros Hm w P Hwf. apply wp_zoom. eapply wp_mono; [apply Hm|]. intros a w' c' (Hh & Hs & Hf). cbn.
  split; [done|]. split; [done|]. split; [by destruct P|]. split; [done|]. split; [done|]. by split.
Qed.

Lemma aside_WorkloadPolicyUpdate k v :
  stays p named (aside (fun c => (KmBackend c, KmFrontend c))) (zoom bpf_l (WorkloadPolicyUpdate k v)).
Proof. apply aside_bpf. unfold WorkloadPolicyUpdate. map_op. Qed.
Lemma aside_BackendUpdate k v : stays p named (aside KmFrontend) (zoom bpf_l (BackendUpdate k v)).
Proof. apply aside_bpf. unfold BackendUpdate. map_op. Qed.
Lemma aside_FrontendUpdate k v : stays p named (aside KmBackend) (zoom bpf_l (FrontendUpdate k v)).
Proof. apply aside_bpf. unfold FrontendUpdate. map_op. Qed.
Lemma aside_FrontendDelete k : stays p named (aside KmBackend) (zoom bpf_l (FrontendDelete k)).
Proof. apply aside_bpf. unfold FrontendDelete. map_op. Qed.

Lemma aside_storeWorkloadPolicies uid l :
  stays p named (aside (fun c => (KmBackend c, KmFrontend c))) (storeWorkloadPolicies uid l).
Proof.
  unfold storeWorkloadPolicies. pose proof aside_WorkloadPolicyUpdate.
  pose proof (@aside_hash (gmap Z BackendValue * gmap bytes Z)). stays_auto.
Qed.
End aside.

(** ** The backend and the frontends of the workload *)
Section maps.
Context `{E : Env} `{!Reliable E} `{Persist} `{Dns} (p : bool).

Lemma has_room_lt {K V} `{Countable K} (k : K) (m : gmap K V) : Z.of_nat (size m) < max_entries -> has_room k m.
Proof. intros Hm. unfold has_room. rewrite map_size_delete. destruct (m !! k); unfold id; lia. Qed.
Lemma has_room_insert {K V} `{Countable K} (k : K) v (m : gmap K V) : has_room k m -> has_room k (<[k := v]> m).
Proof. unfold has_room. by rewrite delete_insert_eq. Qed.

Lemma wp_updateWorkloadInBackendMap x (Q : option error -> World -> Processor -> Prop) w P :
  hash_wf (hashName P) -> Z.of_nat (size (KmBackend (bpf P))) < max_entries ->
  (forall n w' P', aside KmFrontend w P w' P' -> settled (hashName P') (wl_uid x) n -> Q None w' P') ->
  wp p (updateWorkloadInBackendMap x) Q w P.
Proof.
  intros Hwf Hroom HQ. unfold updateWorkloadInBackendMap. wp_step.
  pose proof (aside_hash p (fun c => (KmFrontend c, KmBackend c))) as Hh. eapply wp_mono.
  { apply wp_and; [by apply Hh|].
    apply (wp_hash_settled p _ (fun n _ P' => settled (hashName P') (wl_uid x) n)); [done|]. by intros. }
  intros n w1 P1 [[Hwf1 Ha1] Hn1].
  destruct (match wl_waypoint x with Some _ => _ | None => _ end) as [addr port]. wp_step.
  set (R := aside (fun c => (KmFrontend c, KmBackend c))) in *.
  apply wp_range. intros l _.
  assert (stays p named R (fold_until (l.*1) (replicate MaxServiceNum 0, 0%nat) (fun '(ids, count) serviceName =>
    num ← hash serviceName;
    let count' := S count in
    mret (<[count := num]> ids, count', bool_decide (MaxServiceNum <= count')%nat)))) as Hids by stays_auto.
  wp_step. eapply wp_mono; [by apply Hids|]. intros [ids count] w2 P2 [Hwf2 Ha2]. wp_step.
  assert (R w P w2 P2) as Ha.
  { eapply R_trans; [exact Ha1|]. eapply R_trans; [|exact Ha2]. apply (R_refl (R := R) w1 P1). }
  apply (wp_fold_until p (fun _ r w' P' => r.2 = None /\ aside KmFrontend w P w' P' /\
    has_room n (KmBackend (bpf P')) /\ settled (hashName P') (wl_uid x) n)).
  - destruct Ha2 as (_ & _ & _ & _ & Hset). destruct Ha as (A & B & C & D & F). injection D as D1 D2.
    split; [done|]. split; [by split_and!|]. split.
    + rewrite D2. by apply has_room_lt.
    + by apply Hset.
  - clear -Reliable0. intros ip l' [bip err] w' P' (_ & Ha & Hr & Hn). wp_step.
    apply (wp_update p backend_map); [done|]. wp_steps. cbn. split; [done|]. split.
    + eapply R_trans; [exact Ha|]. split; [done|]. split; [by destruct P'|]. split; [done|]. split; [done|]. by split.
    + split; [by apply has_room_insert|done].
  - intros [bip err] w' P' (Herr & Ha' & _ & Hn'). wp_steps. cbn in Herr. subst. by apply (HQ n).
Qed.

Lemma outside_frontend (m : gmap bytes Z) w w' P :
  same_heap w w' -> outside_ep w P w' (set_bpf (set_KmFrontend m (bpf P)) P).
Proof. intros Hh. by destruct P. Qed.

Lemma wp_updateWorkloadInFrontendMap x n (Q : option error -> World -> Processor -> Prop) w P :
  settled (hashName P) (wl_uid x) n ->
  Z.of_nat (size (KmFrontend (bpf P)) + length (wl_addresses x)) <= max_entries ->
  (forall w' P', outside_ep w P w' P' -> Q None w' P') ->
  wp p (updateWorkloadInFrontendMap x) Q w P.
Proof.
  intros Hn Hroom HQ. unfold updateWorkloadInFrontendMap. case_decide; [wp_steps; by apply HQ, R_refl|].
  wp_step. eapply wp_done; [unfold hash; unfold settled in Hn; by rewrite Hn|]. rewrite set_hashName_id.
  apply (wp_for_each p (fun l w' P' => outside_ep w P w' P' /\
    Z.of_nat (size (KmFrontend (bpf P')) + length l) <= max_entries)).
  - split; [apply R_refl|done].
  - clear -Reliable0. intros ip l w1 P1 [Ha Hr]. wp_steps. destruct (getServiceByAddress ip P1); wp_steps.
    { split; [done|]. cbn in Hr. lia. }
    unfold storePodFrontendData. wp_step. apply (wp_update p frontend_map).
    { apply has_room_lt. cbn in *. lia. }
    wp_steps. split.
    + eapply R_trans; [exact Ha|]. by apply outside_frontend.
    + cbn in *. rewrite map_size_insert. destruct (_ !! _); unfold id; lia.
  - intros w' P' [Ha _]. by apply HQ.
Qed.

Lemma wp_deleteFrontendByIp l (Q : option error -> World -> Processor -> Prop) w P :
  (forall w' P', outside_ep w P w' P' -> Q None w' P') -> wp p (deleteFrontendByIp l) Q w P.
Proof.
  intros HQ. unfold deleteFrontendByIp. wp_step.
  apply (wp_fold_until p (fun _ r w' P' => r.2 = None /\ outside_ep w P w' P')).
  - split; [done|apply R_refl].
  - intros ip l' [k e] w1 P1 [_ Ha]. wp_step. apply wp_FrontendDelete. intros w2 Hh. wp_steps. cbn.
    split; [done|]. eapply R_trans; [exact Ha|]. by apply outside_frontend.
  - intros [k e] w1 P1 [He Ha]. cbn in He. subst. wp_steps. by apply HQ.
Qed.
End maps.

(** ** Comparing the services of the workload with its endpoints *)
Section compare.
Context `{E : Env} `{!Reliable E} `{Persist} `{Dns} (p : bool).

(** The number of keys of a service. *)
Definition keys_at (sid : Z) (l : list EndpointKey) : nat := length (filter (of_service sid) l).
Definition sids (l : list EndpointKey) : gset Z := list_to_set (ServiceId <$> l).

Lemma keys_at_app sid l ek :
  keys_at sid (l ++ [ek]) = (keys_at sid l + if decide (ServiceId ek = sid) then 1 else 0)%nat.
Proof.
  unfold keys_at. rewrite filter_app, length_app, filter_cons, filter_nil. unfold of_service at 2.
  by destruct (decide (ServiceId ek = sid)).
Qed.

Lemma elem_of_sids sid l : sid ∈ sids l <-> (0 < keys_at sid l)%nat.
Proof.
  unfold sids, keys_at. rewrite elem_of_list_to_set, list_elem_of_fmap. split.
  - intros (k & -> & Hk). assert (k ∈ filter (of_service (ServiceId k)) l) as Hin by (by apply list_elem_of_filter).
    destruct (filter _ l); [by apply elem_of_nil in Hin|cbn; lia].
  - intros Hf. destruct (filter (of_service sid) l) as [|k l'] eqn:Hk; [cbn in Hf; lia|].
    assert (k ∈ filter (of_service sid) l) as Hin by (rewrite Hk; left).
    apply list_elem_of_filter in Hin as [<- Hin]. by exists k.
Qed.

(** Of the endpoints [l], the ones to remove: all but the first of a service in
    [all], and all of the other services. *)
Definition unbound_of (all : gset Z) (l unbounded : list EndpointKey) : Prop :=
  unbounded ⊆ l /\ (NoDup l -> NoDup unbounded) /\
  forall sid, (keys_at sid unbounded + (if decide (sid ∈ all /\ (0 < keys_at sid l)%nat) then 1 else 0) =
    keys_at sid l)%nat.

Lemma unbound_of_step all l u ek :
  unbound_of all l u ->
  unbound_of all (l ++ [ek]) (if decide (ServiceId ek ∈ all ∖ sids l) then u else u ++ [ek]).
Proof.
  intros (Hsub & Hnd & Hcount). split; [|split].
  - case_decide; set_solver.
  - intros (Hl & Hdis & _)%NoDup_app. case_decide; [by auto|]. apply NoDup_app. split; [by auto|].
    split; [|apply NoDup_singleton]. intros k Hk. apply Hdis. by apply Hsub.
  - intros sid. specialize (Hcount sid). rewrite keys_at_app.
    assert (ServiceId ek ∈ all ∖ sids l <-> ServiceId ek ∈ all /\ keys_at (ServiceId ek) l = 0%nat) as Hiff.
    { rewrite elem_of_difference, elem_of_sids. split; intros [? ?]; (split; [done|lia]). }
    destruct (decide (ServiceId ek ∈ all ∖ sids l)) as [Hin|Hin]; rewrite Hiff in Hin; rewrite ?keys_at_app.
    all: revert Hcount; destruct (decide (ServiceId ek = sid)) as [Hs|Hne]; [rewrite Hs in Hin|].
    all: destruct (decide (sid ∈ all /\ (0 < keys_at sid l)%nat)), (decide (sid ∈ all /\ (0 < keys_at sid l + _)%nat)).
    all: intuition lia.
Qed.

(** [all] are the numbers of the names [l]. *)
Definition numbers (h : HashName) (l : list string) (all : gset Z) : Prop :=
  (forall m, m ∈ all -> exists s, s ∈ l /\ settled h s m) /\
  (forall s, s ∈ l -> exists m, m ∈ all /\ settled h s m).

Lemma numbers_settles h h' l all : settles h h' -> numbers h l all -> numbers h' l all.
Proof.
  intros [_ Hs] [H1' H2']. split.
  - intros m (s & Hl & Hm)%H1'. exists s. auto.
  - intros s (m & Hm & Hsm)%H2'. exists m. auto.
Qed.

Lemma numbers_equiv h l l' all : (forall s, s ∈ l <-> s ∈ l') -> numbers h l all -> numbers h l' all.
Proof.
  intros Hl [N1 N2]. split.
  - intros m (s & Hs & Hm)%N1. exists s. by rewrite <-Hl.
  - intros s Hs. apply N2. by rewrite Hl.
Qed.

Lemma wp_number_all names (Q : gset Z -> World -> Processor -> Prop) w P :
  hash_wf (hashName P) ->
  (forall all w' P', aside (fun c => (KmBackend c, KmFrontend c)) w P w' P' ->
     numbers (hashName P') names all -> Q all w' P') ->
  wp p (fold_each names (∅ : gset Z) (fun all svcKey => num ← hash svcKey; mret ({[num]} ∪ all))) Q w P.
Proof.
  intros Hwf HQ. set (R := aside _) in *.
  apply (wp_fold_each p (fun l all w' P' => exists seen, names = seen ++ l /\ named w' P' /\ R w P w' P' /\
    numbers (hashName P') seen all)).
  - exists []. split; [done|]. split; [done|]. split; [apply R_refl|]. split; intros ?; set_solver.
  - intros s l all w1 P1 (seen & Hl & Hn & Ha & Hnum). wp_step.
    eapply wp_mono.
    { apply wp_and; [by apply (aside_hash p (fun c => (KmBackend c, KmFrontend c)))|].
      apply (wp_hash_settled p s (fun n _ P' => settled (hashName P') s n /\ settles (hashName P1) (hashName P'))); [done|].
      by intros. }
    intros n w2 P2 ([Hn2 Ha2] & Hs & Hset). wp_steps. exists (seen ++ [s]). rewrite <-app_assoc. split; [done|].
    split; [done|]. split; [by eapply R_trans|]. apply (numbers_settles _ _ _ _ Hset) in Hnum as [N1 N2]. split.
    + intros m. rewrite elem_of_union, elem_of_singleton. intros [->|(t & Ht & Hm)%N1].
      * exists s. split; [set_solver|done].
      * exists t. split; [set_solver|done].
    + intros t. rewrite elem_of_app, list_elem_of_singleton. intros [(m & Hm & Ht)%N2| ->].
      * exists m. split; [set_solver|done].
      * exists n. split; [set_solver|done].
  - intros all w1 P1 (seen & Hl & _ & Ha & Hnum). rewrite app_nil_r in Hl. subst seen. by apply HQ.
Qed.

Lemma wp_compareWorkloadServices x n (Q : list EndpointKey * list Z -> World -> Processor -> Prop) w P :
  hash_wf (hashName P) -> settled (hashName P) (wl_uid x) n ->
  (forall unb news all l w' P', aside (fun c => (KmBackend c, KmFrontend c)) w P w' P' ->
     numbers (hashName P') (elements (dom (wl_services x))) all ->
     l ≡ₚ elements (GetEndpointKeys n (bpf P)) -> unbound_of all l unb ->
     news ≡ₚ elements (all ∖ sids l) -> Q (unb, news) w' P') ->
  wp p (compareWorkloadServices x) Q w P.
Proof.
  intros Hwf Hn HQ. unfold compareWorkloadServices. wp_step.
  eapply wp_done; [unfold hash; unfold settled in Hn; by rewrite Hn|]. rewrite set_hashName_id.
  wp_step. apply wp_range. intros names Hnames. wp_step. apply wp_number_all; [done|].
  intros all w1 P1 Ha1 Hnum. do 3 wp_step. apply wp_range. intros l Hl. wp_step.
  assert (GetEndpointKeys n (bpf P1) = GetEndpointKeys n (bpf P)) as HK.
  { destruct Ha1 as (_ & _ & (_ & _ & HK) & _). by apply keys_eq. }
  apply (wp_fold_each p (fun l' r w' P' => w' = tick w1 /\ P' = P1 /\
    exists seen, l = seen ++ l' /\ unbound_of all seen r.1 /\ r.2 = all ∖ sids seen)).
  - split; [done|]. split; [done|]. exists []. split; [done|]. split; [|cbn; set_solver].
    split; [set_solver|]. split; [done|]. intros sid. rewrite decide_False; [done|]. unfold keys_at. cbn. lia.
  - intros ek l' [u all'] w2 P2 (-> & -> & seen & Hs & Hu & Hall). cbn in Hu, Hall. subst all'. wp_steps.
    split; [done|]. split; [done|]. exists (seen ++ [ek]). rewrite <-app_assoc. split; [done|]. split.
    + by apply unbound_of_step.
    + cbn. unfold sids. rewrite fmap_app, list_to_set_app_L. cbn. set_solver.
  - intros [u all'] w2 P2 (-> & -> & seen & Hs & Hu & Hall). rewrite app_nil_r in Hs. subst seen. cbn in Hu, Hall.
    subst all'. wp_step. apply wp_range. intros news Hnews. wp_steps.
    apply (HQ u news all l); [by eapply aside_ticks| |by rewrite Hl, HK|done|done].
    eapply numbers_equiv, Hnum. intros s. rewrite elem_of_elements, elem_of_dom, Hnames, list_elem_of_fmap. split.
    + intros ([s' ps] & -> & Hin%elem_of_map_to_list). by eexists.
    + intros [ps Hps]. exists (s, ps). split; [done|]. by apply elem_of_map_to_list.
Qed.
End compare.

(** The endpoints of a workload, counted by the index. *)
Lemma occurrences_index n c l sid :
  index_ok c -> l ≡ₚ elements (GetEndpointKeys n c) -> occurrences n sid (KmEndpoint c) = keys_at sid l.
Proof.
  intros Hidx Hl. unfold occurrences, keys_at. rewrite <-length_map_to_list.
  rewrite <-(length_fmap fst). apply Permutation_length, NoDup_Permutation.
  - apply NoDup_fst_map_to_list.
  - apply NoDup_filter. rewrite Hl. apply NoDup_elements.
  - intros k. rewrite list_elem_of_filter, Hl, elem_of_elements, list_elem_of_fmap, (Hidx k n). split.
    + intros ([k' u] & -> & Hin%elem_of_map_to_list). apply map_lookup_filter_Some in Hin as [Hk [Hs Hu]].
      cbn in *. by subst.
    + intros [Hs Hk]. exists (k, n). split; [done|]. apply elem_of_map_to_list, map_lookup_filter_Some.
      split; [done|]. by split.
Qed.

(** ** Entering the workload in its new services *)
Definition bindable (P : Processor) (sid : Z) : bool :=
  match KmService (bpf P) !! sid with
  | Some sv => bool_decide (LbPolicy sv = LoadBalancing_UNSPECIFIED_MODE) ||
               bool_decide (is_Some (GetService (NumToStr sid (hashName P)) (svcCache P)))
  | None => false
  end.

Section bind.
Context `{E : Env} `{!Reliable E} `{Persist} `{Dns} (p loc : bool).

(** From [P0] to [P]: [n] was entered in the services [seen] that take it. *)
Record bound (n : Z) (seen : list Z) (w0 : World) (P0 : Processor) (w : World) (P : Processor) : Prop := {
  bd_inv : p_inv p loc w P;
  bd_index : index_ok (bpf P);
  bd_heap : same_heap w0 w;
  bd_frame : only_maps P0 P;
  bd_rest : KmBackend (bpf P) = KmBackend (bpf P0) /\ KmFrontend (bpf P) = KmFrontend (bpf P0);
  bd_services : same_services (bpf P0) (bpf P);
  bd_size : (size (KmEndpoint (bpf P)) <= size (KmEndpoint (bpf P0)) + length seen)%nat;
  bd_count : forall sid, occurrences n sid (KmEndpoint (bpf P)) =
    (occurrences n sid (KmEndpoint (bpf P0)) + if decide (sid ∈ seen /\ bindable P0 sid = true) then 1 else 0)%nat;
  bd_members : forall sid prio, exists j,
    members (KmEndpoint (bpf P)) sid prio ≡ₚ replicate j n ++ members (KmEndpoint (bpf P0)) sid prio
}.

Lemma same_services_lb c c' sid :
  same_services c c' -> LbPolicy <$> KmService c' !! sid = LbPolicy <$> KmService c !! sid.
Proof.
  intros Hs. specialize (Hs sid). destruct (KmService c !! sid), (KmService c' !! sid); try done.
  cbn in *. by injection Hs as ->.
Qed.

Lemma bindable_frame P P' sid :
  only_maps P P' -> same_services (bpf P) (bpf P') -> bindable P' sid = bindable P sid.
Proof.
  intros Ho Hs. unfold bindable.
  assert (hashName P' = hashName P /\ svcCache P' = svcCache P) as [-> ->] by (by rewrite Ho).
  pose proof (same_services_lb _ _ sid Hs) as Hl.
  destruct (KmService (bpf P) !! sid), (KmService (bpf P') !! sid); try done. by injection Hl as ->.
Qed.

(** Adding to one group. *)
Lemma wp_bind_add n seen w0 P0 sid sv prio (Q : EndpointKey * option error -> World -> Processor -> Prop) w P :
  bound n seen w0 P0 w P -> sid ∉ seen -> bindable P0 sid = true ->
  Z.of_nat (size (KmEndpoint (bpf P0)) + length seen) < max_entries ->
  KmService (bpf P) !! sid = Some sv -> 0 <= prio < Z.of_nat PrioCount ->
  (forall ek w' P', bound n (seen ++ [sid]) w0 P0 w' P' -> Q (ek, None) w' P') ->
  wp p (addWorkloadToService sid sv n prio) Q w P.
Proof.
  intros [Hinv Hidx Hh Hf Hr Hs Hsz Hc Hm] Hnew Hb Hroom Hsv Hp HQ.
  pose proof (pi_ep _ _ _ _ Hinv) as Hep. destruct (ei_counts _ Hep _ _ Hsv) as [Hlen _].
  destruct (EndpointCount sv !! Z.to_nat prio) as [m|] eqn:Hn; [|apply lookup_ge_None in Hn; unfold PrioCount in *; lia].
  assert (ep_exact (bpf P)) as Hex by (apply Hinv; apply _).
  set (ek := mkEndpointKey sid prio (m + 1)).
  assert (KmEndpoint (bpf P) !! ek = None) as Hfree.
  { eapply ep_exact_free; [exact Hex|exact Hsv|exact Hn|cbn; lia]. }
  eapply wp_addWorkloadToService; [exact Hinv|done|exact Hn|lia| |].
  2: { intros e w' P' _ _ _ _ Hno. destruct Hno. split; [done|]. lia. }
  intros w' c' Hh' Hep' Hex' [HE HS HR HI]. fold ek in HE, HI. apply HQ. split; cbn.
  - apply (p_inv_heap _ _ w); [done|]. apply (p_inv_epCache _ _ w (set_bpf c' P)), p_inv_bpf; auto.
  - by apply HI.
  - by etrans.
  - etrans; [exact Hf|]. by destruct P.
  - destruct HR as (-> & -> & _). done.
  - intros s. rewrite HS, lookup_insert. case_decide as Hd; [|by apply Hs]. cbn in Hd. subst s.
    specialize (Hs sid). rewrite Hsv in Hs. rewrite <-Hs. done.
  - rewrite HE, map_size_insert_None by done. rewrite length_app. cbn. lia.
  - intros s. rewrite HE, occurrences_insert by done. rewrite Hc. unfold at_service. cbn.
    assert (s ∈ seen ++ [sid] <-> s ∈ seen \/ s = sid) as Hin by (by rewrite elem_of_app, list_elem_of_singleton).
    repeat case_decide; first [lia | exfalso; naive_solver].
  - intros s pr. destruct (Hm s pr) as [j Hj]. rewrite HE.
    pose proof (members_insert _ _ n s pr Hfree) as Hi. case_decide; [exists (S j)|exists j]; by rewrite Hi, Hj.
Qed.
End bind.

Section bind_all.
Context `{E : Env} `{!Reliable E} `{Persist} `{Dns} (loc : bool).

Lemma bound_skip n seen w0 P0 sid w P :
  bound false loc n seen w0 P0 w P -> bindable P0 sid = false -> bound false loc n (seen ++ [sid]) w0 P0 w P.
Proof.
  intros [Hinv Hidx Hh Hf Hr Hs Hsz Hc Hm] Hb. split; try done.
  - rewrite length_app. lia.
  - intros s. rewrite Hc. f_equal.
    assert (s ∈ seen ++ [sid] <-> s ∈ seen \/ s = sid) as Hin by (by rewrite elem_of_app, list_elem_of_singleton).
    repeat case_decide; first [done | exfalso; intuition congruence].
Qed.

Lemma wp_bindNewService x n seen w0 P0 sid (Q : ctl error -> World -> Processor -> Prop) w P :
  bound false loc n seen w0 P0 w P -> sid ∉ seen ->
  Z.of_nat (size (KmEndpoint (bpf P0)) + length seen) < max_entries ->
  (forall w' P', bound false loc n (seen ++ [sid]) w0 P0 w' P' -> Q Continue w' P') ->
  wp false (bindNewService x n sid) Q w P.
Proof.
  intros HB Hnew Hroom HQ. pose proof HB as [Hinv _ _ Hf _ Hs _ _ _].
  pose proof (bindable_frame _ _ sid Hf Hs) as Hbind.
  assert (forall sv prio, KmService (bpf P) !! sid = Some sv -> bindable P sid = true ->
    0 <= prio < Z.of_nat PrioCount ->
    wp false (r ← addWorkloadToService sid sv n prio;
              match r.2 with Some err => mret (Return err) | None => mret Continue end) Q w P) as Hadd.
  { intros sv prio Hsv Hb Hp. wp_step. eapply wp_bind_add; [exact HB|done|congruence|done|done|done|].
    intros ek w' P' HB'. wp_steps. by apply HQ. }
  unfold bindNewService. wp_step. apply wp_service_lookup.
  2: { intros Hsv. wp_steps. apply HQ, bound_skip; [done|]. rewrite <-Hbind. unfold bindable. by rewrite Hsv. }
  intros sv Hsv. assert (bindable P sid = bool_decide (LbPolicy sv = LoadBalancing_UNSPECIFIED_MODE) ||
    bool_decide (is_Some (GetService (NumToStr sid (hashName P)) (svcCache P)))) as Hdef.
  { unfold bindable. by rewrite Hsv. }
  destruct (decide (LbPolicy sv = LoadBalancing_UNSPECIFIED_MODE)) as [Hlb|Hlb].
  { apply Hadd; [done| |unfold PrioCount; lia]. rewrite Hdef. by rewrite bool_decide_true. }
  rewrite bool_decide_false in Hdef by done. cbn in Hdef. wp_steps.
  destruct (GetService _ _) as [q|] eqn:Hq; wp_steps.
  2: { apply HQ, bound_skip; [done|]. rewrite <-Hbind, Hdef. by apply bool_decide_eq_false. }
  rewrite bool_decide_true in Hdef by eauto.
  destruct (LocalityInfo (locality P)) as [info|] eqn:Hl; [|wp_step; by apply Hadd].
  apply wp_calc_prio; [intros _; rewrite Hl; split; [by eexists|by eapply cached_prefs]|].
  intros prio Hp0 Hp7. apply Hadd; auto.
Qed.

Lemma wp_handleWorkloadNewBoundServices x n news (Q : option error -> World -> Processor -> Prop) w P :
  p_inv false loc w P -> index_ok (bpf P) -> settled (hashName P) (wl_uid x) n -> NoDup news ->
  Z.of_nat (size (KmEndpoint (bpf P)) + length news) <= max_entries ->
  (forall w' P', bound false loc n news w P w' P' -> Q None w' P') ->
  wp false (handleWorkloadNewBoundServices x news) Q w P.
Proof.
  intros HP Hidx Hn Hnd Hroom HQ.
  assert (bound false loc n [] w P w P) as HB0.
  { split; try done.
    - cbn. lia.
    - intros sid prio. by exists 0%nat. }
  unfold handleWorkloadNewBoundServices. case_decide as Hlen.
  { apply length_zero_iff_nil in Hlen as ->. wp_steps. by apply HQ. }
  wp_step. eapply wp_done; [unfold hash; unfold settled in Hn; by rewrite Hn|]. rewrite set_hashName_id.
  apply (wp_for_each false (fun l w' P' => exists seen, news = seen ++ l /\ bound false loc n seen w P w' P')).
  - exists []. by split.
  - intros sid l w1 P1 (seen & Hs & HB). rewrite Hs in Hnd, Hroom.
    apply NoDup_app in Hnd as (_ & Hdis & _). rewrite length_app in Hroom. cbn in Hroom.
    eapply wp_bindNewService; [exact HB| |lia|].
    + intros Hin. apply (Hdis sid Hin). left.
    + intros w2 P2 HB2. exists (seen ++ [sid]). by rewrite <-app_assoc.
  - intros w1 P1 (seen & Hs & HB). rewrite app_nil_r in Hs. subst seen. by apply HQ.
Qed.
End bind_all.

(** ** The three steps together *)
Section rebind.
Context `{E : Env} `{!Reliable E} `{Persist} `{Dns} (loc : bool).

Record rebound (x : Workload) (n : Z) (w : World) (P : Processor) (w' : World) (P' : Processor) : Prop := {
  rb_inv : p_inv false loc w' P';
  rb_index : index_ok (bpf P');
  rb_heap : same_heap w w';
  rb_frame : P' = set_hashName (hashName P') (set_epCache (epCache P') (set_bpf (bpf P') P));
  rb_names : settles (hashName P) (hashName P');
  rb_frontend : KmFrontend (bpf P') = KmFrontend (bpf P);
  rb_count : exists all, numbers (hashName P') (elements (dom (wl_services x))) all /\
    forall sid, occurrences n sid (KmEndpoint (bpf P')) =
      if decide (sid ∈ all /\ (bindable P' sid = true \/ (0 < occurrences n sid (KmEndpoint (bpf P)))%nat))
      then 1%nat else 0%nat;
  rb_members : forall sid prio, filter (.≠ n) (members (KmEndpoint (bpf P')) sid prio) ≡ₚ
    filter (.≠ n) (members (KmEndpoint (bpf P)) sid prio)
}.

Lemma filter_out_replicate j n l : filter (.≠ n) (replicate j n ++ l) = filter (.≠ n) (l : list Z).
Proof.
  rewrite filter_app. induction j as [|j IH]; [done|]. cbn. rewrite decide_False by (by intros ?). done.
Qed.

(** There are at most as many numbers as names. *)
Lemma numbers_size h names all : numbers h names all -> (size all <= length names)%nat.
Proof.
  intros [N1 _]. rewrite <-(length_fmap (number h) names).
  change (size all) with (length (elements all)). apply submseteq_length, NoDup_submseteq; [apply NoDup_elements|].
  intros m (s & Hs & Hm%number_settled)%elem_of_elements%N1. apply list_elem_of_fmap. by exists s.
Qed.

Lemma rebound_intro x n w P w1 P1 w2 P2 w3 P3 all l unb news :
  aside (fun c => (KmBackend c, KmFrontend c)) w P w1 P1 -> hash_wf (hashName P) ->
  index_ok (bpf P) ->
  numbers (hashName P1) (elements (dom (wl_services x))) all ->
  l ≡ₚ elements (GetEndpointKeys n (bpf P)) -> unbound_of all l unb -> news ≡ₚ elements (all ∖ sids l) ->
  same_heap w1 w2 -> only_maps P1 P2 -> pruned n (bpf P1) (bpf P2) ->
  (forall sid, occurrences n sid (KmEndpoint (bpf P1)) =
     length (filter (of_service sid) unb) + occurrences n sid (KmEndpoint (bpf P2)))%nat ->
  bound false loc n news w2 P2 w3 P3 -> rebound x n w P w3 P3.
Proof.
  intros (Hh1 & HP1 & (HE1 & HS1 & HK1) & Hf1 & Hset1) Hwf Hidx Hnum Hl (_ & _ & Hunb) Hnews Hh2 Ho2 Hp2 Hc2
    [Hinv3 Hidx3 Hh3 Ho3 Hr3 Hs3 Hz3 Hc3 Hm3].
  assert (only_maps P1 P3) as Ho by (by etrans).
  assert (hashName P3 = hashName P1) as HH by (by rewrite Ho).
  split; try done.
  - etrans; [exact Hh1|]. by etrans.
  - rewrite HH, Ho, HP1. by destruct P.
  - rewrite HH. by apply Hset1.
  - destruct Hr3 as [_ ->]. destruct Hp2 as [_ _ _ _ _ _ (_ & -> & _)]. by injection Hf1.
  - exists all. rewrite HH. split; [done|]. intros sid. specialize (Hc2 sid). specialize (Hunb sid).
    rewrite HE1 in Hc2. rewrite Hc3. rewrite (occurrences_index n (bpf P) l sid Hidx Hl) in Hc2 |- *.
    assert (sid ∈ news <-> sid ∈ all /\ keys_at sid l = 0%nat) as Hin.
    { rewrite Hnews, elem_of_elements, elem_of_difference, elem_of_sids. split; intros [? ?]; (split; [done|lia]). }
    pose proof (bindable_frame _ _ sid Ho3 Hs3) as Hb. fold (keys_at sid unb) in Hc2.
    assert (keys_at sid l = 0 \/ 0 < keys_at sid l)%nat as Hz by lia.
    repeat case_decide; rewrite ?Hin, ?Hb in *; intuition lia.
  - intros sid prio. destruct (Hm3 sid prio) as [j3 ->]. rewrite filter_out_replicate.
    rewrite <-HE1. destruct (pr_members _ _ _ Hp2 sid prio) as [j2 ->]. by rewrite filter_out_replicate.
Qed.
End rebind.

(** ** [handleWorkload] *)
Section handle.
Context `{E : Env} `{!Reliable E} `{Persist} `{Dns} (loc : bool).

(** The waypoint of the workload, if it has one, is given by its address. *)
Definition waypoint_known (x : Workload) : Prop :=
  match wl_waypoint x with Some g => has_address g = true | None => True end.

Lemma wp_waypoint_known p sc q x (Q : bool -> World -> waypointCache -> Prop) w c :
  wls w !! q = Some x -> waypoint_known x -> wc_ok w c -> Q true w (unlink_wl (wl_uid x) c) ->
  wp p (WaypointCache.AddOrUpdateWorkload sc q) Q w c.
Proof.
  intros Hx Hk Hok HQ. unfold WaypointCache.AddOrUpdateWorkload. wp_step.
  assert (get_wl q w = x) as Hget by (unfold get_wl; by rewrite Hx). wp_step. rewrite Hget.
  unfold waypoint_known in Hk. destruct (wl_waypoint x) as [g|]; [rewrite Hk|].
  all: do 3 wp_step; apply wp_unlink_wl; [apply (wk_wl _ _ _ Hok)|]; by wp_steps.
Qed.

(** The maps have room for the workload. *)
Record room_for (x : Workload) (c : Cache) : Prop := {
  rf_backend : Z.of_nat (size (KmBackend c)) < max_entries;
  rf_frontend : Z.of_nat (size (KmFrontend c) + length (wl_addresses x)) <= max_entries;
  rf_endpoint : Z.of_nat (size (KmEndpoint c) + size (wl_services x)) <= max_entries
}.

(** What the handler achieves, from [P] to [P']. *)
Record handled (x : Workload) (q : ptr) (n : Z) (c : Cache) (w' : World) (P' : Processor) : Prop := {
  hd_inv : p_inv false loc w' P';
  hd_index : index_ok (bpf P');
  hd_cached : GetWorkloadByUid (wl_uid x) (wlCache P') = Some q;
  hd_name : settled (hashName P') (wl_uid x) n;
  hd_count : exists all, numbers (hashName P') (elements (dom (wl_services x))) all /\
    forall sid, occurrences n sid (KmEndpoint (bpf P')) =
      if decide (sid ∈ all /\ (bindable P' sid = true \/ (0 < occurrences n sid (KmEndpoint c))%nat))
      then 1%nat else 0%nat;
  hd_members : forall sid prio, filter (.≠ n) (members (KmEndpoint (bpf P')) sid prio) ≡ₚ
    filter (.≠ n) (members (KmEndpoint c) sid prio)
}.

(** Frontend updates at the end do not matter. *)
Lemma handled_outside x q n c w P w' P' :
  outside_ep w P w' P' -> handled x q n c w P -> handled x q n c w' P'.
Proof.
  intros Ho [A B C D F G]. pose proof (outside_inv _ _ _ _ _ _ Ho A) as A'.
  destruct Ho as (Hh & HP & HE & HS & HK). 
  assert (forall sid, bindable P' sid = bindable P sid) as Hb.
  { intros sid. unfold bindable. rewrite HS, HP. done. }
  split; try done.
  - intros k u. rewrite HE, (keys_eq u _ _ HK). apply B.
  - by rewrite HP.
  - by rewrite HP.
  - destruct F as (all & Hn & Hc). exists all. split; [by rewrite HP|]. intros sid. rewrite HE, Hc.
    specialize (Hb sid). repeat case_decide; try done; rewrite Hb in *; tauto.
  - intros sid prio. by rewrite HE.
Qed.

(** The tail of the handler, after the backend map. *)
Lemma wp_bind_services x q n (old : option ptr) c (Q : option error -> World -> Processor -> Prop) w P :
  p_inv false loc w P -> index_ok (bpf P) -> settled (hashName P) (wl_uid x) n ->
  GetWorkloadByUid (wl_uid x) (wlCache P) = Some q -> KmEndpoint (bpf P) = KmEndpoint c ->
  KmFrontend (bpf P) = KmFrontend c -> room_for x c ->
  (forall w' P', handled x q n c w' P' -> Q None w' P') ->
  wp false (r ← compareWorkloadServices x;
    let '(unboundedEndpointKeys, newServices) := r in
    err ← handleWorkloadUnboundServices unboundedEndpointKeys;
    match err with
    | Some _ => mret (Some (Errorf "handleWorkloadUnboundServices failed"))
    | None =>
        err ← handleWorkloadNewBoundServices x newServices;
        match err with
        | Some _ => mret (Some (Errorf "handleWorkloadNewBoundServices failed"))
        | None =>
            err ← updateWorkloadInFrontendMap x;
            match err with
            | Some _ => mret (Some (Errorf "updateWorkloadInFrontendMap failed"))
            | None =>
                match old with
                | None => mret None
                | Some old =>
                    old ← load_wl old;
                    match wl_addresses x, wl_addresses old with
                    | a :: _, b :: _ =>
                        if decide (a = b) then mret None
                        else
                          err ← deleteFrontendByIp (wl_addresses old);
                          mret (err ≫= fun _ => Some (Errorf "frontend map delete failed"))
                    | _, _ => mret None
                    end
                end
            end
        end
    end) Q w P.
Proof.
  intros HP Hidx Hn Hq HEc HFc [_ Hroom2 Hroom3] HQ.
  wp_step. eapply wp_compareWorkloadServices; [apply HP|exact Hn|].
  intros unb news all l w1 P1 Ha Hnum Hl Hunb Hnews.
  pose proof (aside_inv false _ _ _ _ _ _ Ha HP) as HP1.
  pose proof Ha as (Hh1 & HP1eq & (HE1 & HS1 & HK1) & Hf1 & Hset1).
  assert (index_ok (bpf P1)) as Hidx1 by (intros k u; rewrite HE1, (keys_eq u _ _ HK1); apply Hidx).
  pose proof Hunb as (Hsub & Hnd & _).
  assert (NoDup l) as Hndl by (rewrite Hl; apply NoDup_elements).
  wp_step. unfold handleWorkloadUnboundServices.
  apply (wp_deleteEndpointRecords _ unb n (fun _ => False)); [apply HP1|apply HP1; apply _|done|by apply Hnd| |done|].
  { apply Forall_forall. intros k Hk%Hsub. rewrite HE1. apply Hidx. by rewrite <-elem_of_elements, <-Hl. }
  intros w2 P2 Hh2 Ho2 Hp2 _ _ Hc2.
  assert (p_inv false loc w2 P2) as HP2.
  { apply (p_inv_heap _ _ w1); [done|]. rewrite Ho2. apply p_inv_epCache, p_inv_bpf; [done|apply Hp2|intros _; apply Hp2]. }
  assert (settled (hashName P2) (wl_uid x) n) as Hn2.
  { rewrite Ho2. apply Hset1; [apply HP|done]. }
  wp_steps. eapply (wp_handleWorkloadNewBoundServices loc x n); [done|apply Hp2|done| | |].
  { rewrite Hnews. apply NoDup_elements. }
  { pose proof (pr_size _ _ _ Hp2) as Hz. rewrite HE1, HEc in Hz.
    assert (length news <= size (wl_services x))%nat as Hlen; [|lia].
    pose proof (numbers_size _ _ _ Hnum) as Hsz. rewrite Hnews.
    etrans; [apply (subseteq_size (all ∖ sids l) all); set_solver|]. etrans; [exact Hsz|].
    change (size (dom (wl_services x)) <= size (wl_services x))%nat. by rewrite size_dom. }
  intros w3 P3 HB. pose proof (rebound_intro _ _ _ _ _ _ _ _ _ _ _ _ _ _ _ Ha (pi_hash _ _ _ _ HP) Hidx Hnum Hl Hunb Hnews
    Hh2 Ho2 Hp2 Hc2 HB) as [R1 R2 R3 R4 R5 R6 R7 R8].
  assert (handled x q n c w3 P3) as Hdone.
  { split; [done|done|by rewrite R4|by apply R5|by rewrite <-HEc|by rewrite <-HEc]. }
  wp_step. apply (wp_updateWorkloadInFrontendMap false x n); [by apply R5|by rewrite R6, HFc|].
  intros w4 P4 Ho4. pose proof (handled_outside _ _ _ _ _ _ _ _ Ho4 Hdone) as Hdone4.
  destruct old as [old|]; wp_steps; [|by apply HQ].
  destruct (wl_addresses x) as [|a l1]; [wp_steps; by apply HQ|].
  destruct (wl_addresses (get_wl old w4)) as [|b l2]; [wp_steps; by apply HQ|].
  case_decide; wp_steps; [by apply HQ|]. apply wp_deleteFrontendByIp. intros w5 P5 Ho5. wp_steps.
  apply HQ. by eapply handled_outside.
Qed.

Lemma wp_cache_wl q x (Q : unit -> World -> Processor -> Prop) w P :
  p_inv false loc w P -> wls w !! q = Some x ->
  (forall c, p_inv false loc w (set_wlCache c P) -> byUid c !! wl_uid x = Some q -> Q tt w (set_wlCache c P)) ->
  wp false (zoom wl_l (WorkloadCache.AddOrUpdateWorkload (Some q))) Q w P.
Proof.
  intros [A B C D F T G L] Hx HQ. apply wp_zoom, WorkloadCache.wp_AddOrUpdateWorkload. intros c Hu _. cbn.
  assert (get_wl q w = x) as Hget by (unfold get_wl; by rewrite Hx). rewrite Hget in Hu. apply HQ.
  - split; try done. cbn. intros uid q'. rewrite Hu, lookup_insert_Some.
    intros [[<- <-]|[_ Hq]]; [by exists x|by apply D].
  - by rewrite Hu, lookup_insert_eq.
Qed.

(** Before the backend map is written nothing happens to the tables. *)
Record prepared (x : Workload) (q : ptr) (c : Cache) (w' : World) (P' : Processor) : Prop := {
  pp_inv : p_inv false loc w' P';
  pp_cached : GetWorkloadByUid (wl_uid x) (wlCache P') = Some q;
  pp_same : ep_same c (bpf P');
  pp_backend : KmBackend (bpf P') = KmBackend c;
  pp_frontend : KmFrontend (bpf P') = KmFrontend c
}.

Lemma wp_policies (b : Prop) `{Decision b} x q (Q : unit -> World -> Processor -> Prop) w P :
  p_inv false loc w P -> GetWorkloadByUid (wl_uid x) (wlCache P) = Some q ->
  (forall w' P', prepared x q (bpf P) w' P' -> Q tt w' P') ->
  wp false (if decide b then storeWorkloadPolicies (wl_uid x) (wl_authorization_policies x) else mret tt) Q w P.
Proof.
  intros HP Hq HQ. case_decide; [|wp_steps; by apply HQ].
  eapply wp_mono; [apply aside_storeWorkloadPolicies, HP|]. intros [] w1 P1 [_ Ha].
  pose proof (aside_inv _ _ _ _ _ _ _ Ha HP) as HP1. destruct Ha as (_ & HPeq & Hs & Hf & _).
  injection Hf as HfB HfF. apply HQ. split; try done. by rewrite HPeq.
Qed.

Lemma wp_locality (b : Prop) `{Decision b} x q c f (Q : unit -> World -> Processor -> Prop) w P :
  prepared x q c w P -> (forall l, is_Some (LocalityInfo (f l))) ->
  (forall w' P', prepared x q c w' P' -> Q tt w' P') ->
  wp false (if decide b then modify (fun p => set_locality (f (locality p)) p) else mret tt) Q w P.
Proof.
  intros [HP Hq Hs HB HF] Hf HQ. case_decide; wp_steps; [|by apply HQ]. apply HQ. split; try done.
  destruct HP as [A B C D F T G L]. split; try done. intros _. apply Hf.
Qed.

(** The whole handler. *)
Lemma wp_handleWorkload q x (Q : option error -> World -> Processor -> Prop) w P :
  p_inv false loc w P -> index_ok (bpf P) -> wls w !! q = Some x -> waypoint_known x ->
  wl_status x <> WorkloadStatus_UNHEALTHY -> room_for x (bpf P) ->
  (forall n w' P', handled x q n (bpf P) w' P' -> Q None w' P') ->
  wp false (handleWorkload q) Q w P.
Proof.
  intros HP Hidx Hx Hk Hhealthy Hroom HQ.
  assert (get_wl q w = x) as Hget by (unfold get_wl; by rewrite Hx).
  unfold handleWorkload. do 4 wp_step. eapply wp_waypoint_known; [done|done|by apply (pi_safe _ _ _ _ HP)|].
  cbn [lset wp_l lget]. set (P1 := set_wpCache _ P).
  assert (p_inv false loc w P1) as HP1.
  { apply (p_inv_le _ _ w); [done|done|by apply wc_ptrs_unlink_wl, HP|]. intros Hp.
    destruct (pi_safe _ _ _ _ HP Hp) as [Hok _]. by apply wc_ok_unlink_wl. }
  do 4 wp_step. rewrite Hget. set (old := GetWorkloadByUid _ _). wp_step.
  apply (wp_cache_wl q x); [done|done|]. intros c HP2 Hq. do 3 wp_step.
  apply (wp_policies _ x q); [done|done|]. intros w3 P3 Hp3. do 3 wp_step.
  eapply (wp_locality _ x q (bpf P)); [exact Hp3|done|]. clear Hp3. intros w4 P4 [HP4 Hq4 (HE4 & HS4 & HK4) HB4 HF4].
  rewrite decide_False by done. wp_step.
  apply (wp_updateWorkloadInBackendMap false); [apply HP4|rewrite HB4; apply Hroom|]. intros n w5 P5 Ha Hn5.
  pose proof (aside_inv _ _ _ _ _ _ _ Ha HP4) as HP5. destruct Ha as (_ & HPeq & (HE5 & HS5 & HK5) & HF5 & _).
  apply (wp_bind_services x q n old (bpf P)); [done| |done|by rewrite HPeq|congruence|congruence|done|eauto].
  intros k u. rewrite HE5, HE4, (keys_eq u (bpf P)) by congruence. apply Hidx.
Qed.
End handle.

(** C3: handling a healthy workload whose waypoint is known, when the maps have
    room and the kernel refuses nothing else, succeeds, and afterwards the
    workload is cached and is a backend of each of its services that the node
    knows exactly once, over all priority groups; it is a backend of no other
    service, and of none twice.  In every group the other backends are the ones
    that were there before.  The invariant of the processor still holds. *)
Theorem handleWorkload_binds `{E : Env} `{!Reliable E} `{Persist} `{Dns} (loc : bool)
    (w : World) (P : Processor) (q : ptr) (x : Workload) :
  p_inv false loc w P -> index_ok (bpf P) -> wls w !! q = Some x -> waypoint_known x ->
  wl_status x <> WorkloadStatus_UNHEALTHY -> room_for x (bpf P) ->
  exists w' P', handleWorkload q w P = Done (None, w', P') /\
    let n := number (hashName P') (wl_uid x) in
    let ids := number (hashName P') <$> elements (dom (wl_services x)) in
    GetWorkloadByUid (wl_uid x) (wlCache P') = Some q /\
    (forall sid, sid ∈ ids -> bindable P' sid = true -> occurrences n sid (KmEndpoint (bpf P')) = 1%nat) /\
    (forall sid, sid ∉ ids -> occurrences n sid (KmEndpoint (bpf P')) = 0%nat) /\
    (forall sid, (occurrences n sid (KmEndpoint (bpf P')) <= 1)%nat) /\
    (forall sid prio, filter (.≠ n) (members (KmEndpoint (bpf P')) sid prio) ≡ₚ
       filter (.≠ n) (members (KmEndpoint (bpf P)) sid prio)) /\
    p_inv false loc w' P' /\ index_ok (bpf P').
Proof.
  intros HP Hidx Hx Hk Hhealthy Hroom.
  edestruct (wp_inv (handleWorkload q) (fun err w' P' => err = None /\
    exists n, handled loc x q n (bpf P) w' P') w P) as (? & w' & P' & HE & -> & n & [A B C D F G]).
  { eapply (wp_handleWorkload loc); try done. intros n w' P' Hd. split; [done|]. by exists n. }
  exists w', P'. split; [done|]. rewrite (number_settled _ _ _ D). cbn.
  destruct F as (all & [N1 N2] & Hcount).
  assert (forall sid, sid ∈ number (hashName P') <$> elements (dom (wl_services x)) <-> sid ∈ all) as Hids.
  { intros sid. rewrite list_elem_of_fmap. split.
    - intros (s & -> & Hs). destruct (N2 s Hs) as (m & Hm & Hsm). by rewrite (number_settled _ _ _ Hsm).
    - intros (s & Hs & Hsm)%N1. exists s. by rewrite (number_settled _ _ _ Hsm). }
  split_and!; try done; intros sid; rewrite ?Hcount.
  - intros Hin Hb. apply Hids in Hin. by rewrite decide_True by tauto.
  - intros Hin. rewrite Hids in Hin. by rewrite decide_False by tauto.
  - case_decide; lia.
Qed.

(** The demo pod arrives on a node that knows its service. *)
Definition bind_world : World := mkWorld 0 ∅ {[1%positive := demo_workload]}.
Definition bind_start : Processor :=
  NewProcessor demo_hash (NewCache ∅ ∅ ∅ {[demo_sid := newServiceInfo demo_service]} ∅) "n1" false.

Lemma bind_start_inv `{E : Env} : p_inv false false bind_world bind_start.
Proof.
  assert (KmService (bpf bind_start) = {[demo_sid := newServiceInfo demo_service]}) as HS by reflexivity.
  assert (KmEndpoint (bpf bind_start) = ∅) as HE by reflexivity.
  assert (ep_inv (bpf bind_start) /\ ep_exact (bpf bind_start)) as [Hinv Hex].
  { split; [split|].
    - by vm_compute.
    - by vm_compute.
    - intros sid sv. rewrite HS. intros [_ <-]%lookup_singleton_Some. rewrite EndpointCount_new. split; [done|]. by repeat constructor.
    - intros sid sv pr n i. rewrite HS. intros [_ <-]%lookup_singleton_Some _. rewrite EndpointCount_new.
      intros [-> _]%lookup_replicate Hi. lia.
    - intros k. rewrite HE, lookup_empty. by intros [].
    - intros k u. by rewrite HE, lookup_empty.
    - intros k. rewrite HE, lookup_empty. by intros []. }
  by split.
Qed.

Lemma handleWorkload_binds_witness :
  exists w' P', @handleWorkload EnvOk PersistOk 1%positive bind_world bind_start = Done (None, w', P') /\
    occurrences (@number PersistOk (hashName P') demo_uid) demo_sid (KmEndpoint (bpf P')) = 1%nat.
Proof.
  destruct (@handleWorkload_binds EnvOk _ PersistOk demo_dns false bind_world bind_start 1%positive demo_workload)
    as (w' & P' & HE & _ & Hone & _).
  - exact bind_start_inv.
  - apply index_ok_intro; apply (bool_decide_unpack _); vm_compute; exact I.
  - reflexivity.
  - exact I.
  - discriminate.
  - split; vm_compute; congruence.
  - exists w', P'. split; [exact HE|].
    assert (demo_sid ∈ @number PersistOk (hashName P') <$> elements (dom (wl_services demo_workload)) /\
      bindable P' demo_sid = true) as [Hin Hb]; [|by apply Hone].
    vm_compute in HE. injection HE as _ <-. split; [|vm_compute; reflexivity].
    vm_compute. left.
Defined.
