(* ===== verification/Services.v ===== *)
(** * Publishing and removing services

    What [handleService] and [removeServiceResources] do to the maps: the value
    a service gets, the addresses that lead to it, and what is left when it
    goes. *)
From S2P Require Import Prelude GoNet Nets HashName Api Runtime BpfCache Locality WorkloadCache ServiceCache EndpointCache WaypointCache Processor Endpoints ProcessorInv Reach Spec Binding.
Open Scope go_scope.

(** ** Frontend keys

    The key of an address, and the keys that a loop over addresses visits: it
    copies each address over the previous key. *)
Definition ip_key (a : bytes) : bytes := CopyIpByteFromSlice zero_ip a.
Fixpoint scan_keys (fk : bytes) (l : list bytes) : list bytes :=
  match l with
  | [] => []
  | a :: l => CopyIpByteFromSlice fk a :: scan_keys (CopyIpByteFromSlice fk a) l
  end.

Definition insert_all (ks : list bytes) (v : Z) (m : gmap bytes Z) : gmap bytes Z :=
  foldl (fun m k => <[k := v]> m) m ks.
Definition delete_all (ks : list bytes) (m : gmap bytes Z) : gmap bytes Z :=
  foldl (fun m k => delete k m) m ks.

Lemma lookup_insert_all ks v m k : insert_all ks v m !! k = if decide (k ∈ ks) then Some v else m !! k.
Proof.
  revert m. induction ks as [|k' ks IH]; intros m; cbn; [by rewrite decide_False by set_solver|].
  fold (insert_all ks v (<[k' := v]> m)). rewrite IH, lookup_insert. repeat case_decide; set_solver.
Qed.
Lemma lookup_delete_all ks m k : delete_all ks m !! k = if decide (k ∈ ks) then None else m !! k.
Proof.
  revert m. induction ks as [|k' ks IH]; intros m; cbn; [by rewrite decide_False by set_solver|].
  fold (delete_all ks (delete k' m)). rewrite IH, lookup_delete. repeat case_decide; set_solver.
Qed.
Lemma delete_all_size ks m : (size (delete_all ks m) <= size m)%nat.
Proof.
  revert m. induction ks as [|k ks IH]; intros m; cbn; [done|]. fold (delete_all ks (delete k m)).
  etrans; [apply IH|]. rewrite map_size_delete. destruct (m !! k); unfold id; lia.
Qed.

(** IPv4 addresses come before IPv6 ones. *)
Definition v4_then_v6 (l : list bytes) : Prop :=
  exists l4 l6, l = l4 ++ l6 /\ Forall (fun a => length a = 4%nat) l4 /\ Forall (fun a => length a = 16%nat) l6.

Lemma scan_keys_v6 l : forall fk, length fk = 16%nat ->
  Forall (fun a => length a = 16%nat) l -> scan_keys fk l = ip_key <$> l.
Proof.
  induction l as [|a l IH]; intros fk Hf Hl; [done|]. apply Forall_cons in Hl as [Ha Hl]. cbn.
  unfold ip_key. rewrite !(CopyIp_16 _ a) by done. f_equal. by apply IH.
Qed.

(** Then each address is entered under its own key. *)
Lemma scan_keys_clean l : v4_then_v6 l -> scan_keys zero_ip l = ip_key <$> l.
Proof.
  intros (l4 & l6 & -> & H4 & H6).
  assert (forall fk, length fk = 16%nat -> drop 4 fk = drop 4 zero_ip ->
    scan_keys fk (l4 ++ l6) = ip_key <$> l4 ++ l6) as Hgen; [|by apply Hgen].
  induction H4 as [|a l4 Ha _ IH]; intros fk Hf Hd; [by apply scan_keys_v6|]. cbn.
  assert (CopyIpByteFromSlice fk a = ip_key a) as ->.
  { unfold ip_key. rewrite !(CopyIp_4 _ a) by done. by rewrite Hd. }
  f_equal. apply IH.
  - unfold ip_key. by apply length_CopyIpByteFromSlice.
  - unfold ip_key. rewrite CopyIp_4 by done. rewrite drop_app_length' by done. done.
Qed.

(** ** The loops over addresses *)
Section frontends.
Context `{E : Env} `{!Reliable E} `{Persist} `{Dns} (p : bool).

Abbreviation with_frontend m P := (set_bpf (set_KmFrontend m (bpf P)) P).

Lemma wp_updateServiceFrontendMap sid x (Q : option error -> World -> Processor -> Prop) w P :
  Z.of_nat (size (KmFrontend (bpf P)) + length (svc_addresses x)) <= max_entries ->
  (forall w', same_heap w w' ->
     Q None w' (with_frontend (insert_all (scan_keys zero_ip (na_address <$> svc_addresses x)) sid
       (KmFrontend (bpf P))) P)) ->
  wp p (updateServiceFrontendMap sid x) Q w P.
Proof.
  intros Hroom HQ. unfold updateServiceFrontendMap. wp_step. set (final := insert_all _ _ _) in HQ.
  apply (wp_fold_until p (fun l r w' P' => r.2 = None /\ same_heap w w' /\ exists m,
    P' = with_frontend m P /\ Z.of_nat (size m + length l) <= max_entries /\
    insert_all (scan_keys r.1 (na_address <$> l)) sid m = final)).
  - split; [done|]. split; [done|]. exists (KmFrontend (bpf P)). split; [by destruct P as [? []]|done].
  - intros a l [fk e] w1 P1 (_ & Hh & m & -> & Hr & Hf). wp_step.
    apply (wp_update p frontend_map); [apply has_room_lt; cbn in *; lia|]. wp_steps. cbn in *.
    split; [done|]. split; [by etrans|]. eexists. split; [done|]. split; [|done].
    rewrite map_size_insert. destruct (m !! _); unfold id; lia.
  - intros [fk e] w1 P1 (He & Hh & m & -> & _ & Hf). wp_steps. cbn in *. subst. by apply HQ.
Qed.

Lemma wp_delete_frontends l (Q : option error -> World -> Processor -> Prop) w P :
  (forall w', same_heap w w' ->
     Q None w' (with_frontend (delete_all (scan_keys zero_ip l) (KmFrontend (bpf P))) P)) ->
  wp p (deleteFrontendByIp l) Q w P.
Proof.
  intros HQ. unfold deleteFrontendByIp. wp_step. set (final := delete_all _ _) in HQ.
  apply (wp_fold_until p (fun l r w' P' => r.2 = None /\ same_heap w w' /\ exists m,
    P' = with_frontend m P /\ delete_all (scan_keys r.1 l) m = final)).
  - split; [done|]. split; [done|]. exists (KmFrontend (bpf P)). split; [by destruct P as [? []]|done].
  - intros a l' [fk e] w1 P1 (_ & Hh & m & -> & Hf). wp_step.
    apply wp_FrontendDelete. intros w2 Hh2. wp_steps. cbn in *.
    split; [done|]. split; [by etrans|]. eexists. by split.
  - intros [fk e] w1 P1 (He & Hh & m & -> & Hf). wp_steps. cbn in *. subst. by apply HQ.
Qed.

Lemma wp_deleteServiceFrontendData x id (Q : option error -> World -> Processor -> Prop) w P :
  (forall w', same_heap w w' ->
     Q None w' (with_frontend (delete_all (scan_keys zero_ip (na_address <$> svc_addresses x))
       (KmFrontend (bpf P))) P)) ->
  wp p (deleteServiceFrontendData (Some x) id) Q w P.
Proof.
  intros HQ. unfold deleteServiceFrontendData. wp_step. set (final := delete_all _ _) in HQ.
  apply (wp_fold_each p (fun l fk w' P' => same_heap w w' /\ exists m,
    P' = with_frontend m P /\ delete_all (scan_keys fk (na_address <$> l)) m = final)).
  - split; [done|]. exists (KmFrontend (bpf P)). split; [by destruct P as [? []]|done].
  - intros a l' fk w1 P1 (Hh & m & -> & Hf). wp_step.
    apply wp_FrontendDelete. intros w2 Hh2. wp_steps. cbn in *.
    split; [by etrans|]. eexists. by split.
  - intros fk w1 P1 (Hh & m & -> & Hf). wp_steps. cbn in *. subst. by apply HQ.
Qed.
End frontends.

(** ** Publishing *)
Section publish.
Context `{E : Env} `{!Reliable E} `{Persist} `{Dns} (loc : bool).

(** Neither from locality load balancing to random nor back. *)
Definition keeps_mode (new old : Z) : Prop :=
  new = old \/ (new <> LoadBalancing_UNSPECIFIED_MODE /\ old <> LoadBalancing_UNSPECIFIED_MODE).

(** The value a service gets: its counts stay. *)
Definition published (x : Service) (old : option ServiceValue) : ServiceValue :=
  match old with
  | Some info => set_EndpointCount (EndpointCount info) (newServiceInfo x)
  | None => newServiceInfo x
  end.

(** The addresses whose frontend entry is removed first. *)
Definition dropped (x : Service) (old : option Service) (info : option ServiceValue) : list bytes :=
  match info with
  | Some _ => CompareIpByte (GetIpAddresses (Some x)) (GetIpAddresses old)
  | None => []
  end.

Record svc_room (x : Service) (c : Cache) : Prop := {
  sr_service : Z.of_nat (size (KmService c)) < max_entries;
  sr_frontend : Z.of_nat (size (KmFrontend c) + length (svc_addresses x)) <= max_entries
}.

Lemma wp_finish sid x info (Q : option error -> World -> Processor -> Prop) w P :
  svc_room x (bpf P) ->
  (forall w', same_heap w w' ->
     Q None w' (set_bpf (set_KmFrontend (insert_all (scan_keys zero_ip (na_address <$> svc_addresses x)) sid
       (KmFrontend (bpf P))) (set_KmService (<[sid := info]> (KmService (bpf P))) (bpf P))) P)) ->
  wp false (err ← zoom bpf_l (ServiceUpdate sid info);
            match err with
            | Some _ => mret (Some (Errorf "service map update failed"))
            | None =>
                err ← updateServiceFrontendMap sid x;
                mret (err ≫= fun _ => Some (Errorf "updateServiceFrontendMap failed"))
            end) Q w P.
Proof.
  intros [H1' H2'] HQ. wp_step. apply (wp_update false service_map); [by apply has_room_lt|].
  wp_step. apply wp_updateServiceFrontendMap; [done|]. intros w' Hh. wp_steps. cbn. apply HQ. by etrans; [|exact Hh].
Qed.

Lemma svc_room_delete x ks c : svc_room x c -> svc_room x (set_KmFrontend (delete_all ks (KmFrontend c)) c).
Proof. intros [A B]. split; [done|]. cbn. pose proof (delete_all_size ks (KmFrontend c)). lia. Qed.

Lemma wp_updateServiceMap x old h sid (Q : option error -> World -> Processor -> Prop) w P :
  Hash (Service_ResourceName x) (hashName P) = Done (sid, h) ->
  match KmService (bpf P) !! sid with
  | Some info => keeps_mode (LbPolicy (newServiceInfo x)) (LbPolicy info)
  | None => True
  end ->
  svc_room x (bpf P) ->
  (forall w', same_heap w w' ->
     Q None w' (set_bpf (set_KmFrontend (insert_all (scan_keys zero_ip (na_address <$> svc_addresses x)) sid
         (delete_all (scan_keys zero_ip (dropped x old (KmService (bpf P) !! sid))) (KmFrontend (bpf P))))
       (set_KmService (<[sid := published x (KmService (bpf P) !! sid)]> (KmService (bpf P))) (bpf P)))
       (set_hashName h P))) ->
  wp false (updateServiceMap x old) Q w P.
Proof.
  intros Hh Hmode Hroom HQ. unfold updateServiceMap. wp_step.
  eapply wp_done; [unfold hash; by rewrite Hh|]. set (P1 := set_hashName h P).
  wp_step. apply wp_service_lookup; cbn [bpf set_hashName P1].
  - intros info Hinfo. rewrite Hinfo in Hmode, HQ. cbn in Hmode.
    assert (forall c, LbPolicy (set_EndpointCount c (newServiceInfo x)) = LbPolicy (newServiceInfo x)) as HL by done.
    rewrite !decide_False by (rewrite HL; unfold keeps_mode in Hmode; tauto).
    wp_step. apply wp_delete_frontends. intros w1 Hh1. apply wp_finish; [by apply svc_room_delete|].
    intros w2 Hh2. cbn. apply HQ. by etrans; [|exact Hh2].
  - intros Hnone. rewrite Hnone in HQ. apply wp_finish; [done|]. intros w1 Hh1. by apply HQ.
Qed.

(** The waypoint of the service, if it has one, is given by its address. *)
Definition svc_waypoint_known (x : Service) : Prop :=
  match svc_waypoint x with Some g => has_address g = true | None => True end.

Lemma wp_svc_waypoint_known sc q x (Q : bool -> World -> waypointCache -> Prop) w c :
  svcs w !! q = Some x -> svc_waypoint_known x -> wc_ok w c -> Q true w (unlink_svc (Service_ResourceName x) c) ->
  wp false (WaypointCache.AddOrUpdateService sc q) Q w c.
Proof.
  intros Hx Hk Hok HQ. unfold WaypointCache.AddOrUpdateService. wp_step.
  assert (get_svc q w = x) as Hget by (unfold get_svc; by rewrite Hx). wp_step. rewrite Hget.
  unfold svc_waypoint_known in Hk. destruct (svc_waypoint x) as [g|]; [rewrite Hk|].
  all: do 3 wp_step; apply wp_unlink_svc; [apply (wk_svc _ _ _ Hok)|]; by wp_steps.
Qed.

(** The service that was cached under the name. *)
Definition old_service (w : World) (P : Processor) (name : string) : option Service :=
  (fun o => get_svc o w) <$> GetService name (svcCache P).

Lemma wp_handleService q x h sid (Q : option error -> World -> Processor -> Prop) w P :
  wc_ok w (wpCache P) -> svcs w !! q = Some x -> is_own_waypoint x = false -> svc_waypoint_known x ->
  Hash (Service_ResourceName x) (hashName P) = Done (sid, h) ->
  match KmService (bpf P) !! sid with
  | Some info => keeps_mode (LbPolicy (newServiceInfo x)) (LbPolicy info)
  | None => True
  end ->
  svc_room x (bpf P) ->
  (forall w' P', same_heap w w' -> hashName P' = h ->
     GetService (Service_ResourceName x) (svcCache P') = Some q ->
     bpf P' = set_KmFrontend (insert_all (scan_keys zero_ip (na_address <$> svc_addresses x)) sid
         (delete_all (scan_keys zero_ip (dropped x (old_service w P (Service_ResourceName x))
            (KmService (bpf P) !! sid))) (KmFrontend (bpf P))))
       (set_KmService (<[sid := published x (KmService (bpf P) !! sid)]> (KmService (bpf P))) (bpf P)) ->
     Q None w' P') ->
  wp false (handleService q) Q w P.
Proof.
  intros Hok Hx Hown Hk Hh Hmode Hroom HQ.
  assert (get_svc q w = x) as Hget by (unfold get_svc; by rewrite Hx).
  unfold handleService. do 2 wp_step. rewrite Hget, Hown. do 6 wp_step.
  eapply wp_svc_waypoint_known; [done|done|done|]. cbn [lset lget wp_l]. do 4 wp_step. rewrite Hget.
  set (P1 := set_wpCache _ P). do 2 wp_step. apply ServiceCache.wp_AddOrUpdateService. rewrite Hget.
  intros sc Hnames _ _. cbn [lset svc_l]. wp_step.
  eapply (wp_mono _ _ (fun o w' P' => w' = w /\ P' = set_svcCache sc P1 /\ o = old_service w P (Service_ResourceName x))).
  { unfold old_service. cbn. destruct (GetService _ (svcCache P)); by wp_steps. }
  intros ? ? ? (-> & -> & ->). eapply (wp_updateServiceMap x _ h sid); [done|done|done|].
  intros w' Hh'. apply HQ; [done|done| |done]. cbn. unfold GetService. rewrite Hnames. apply lookup_insert_eq.
Qed.
End publish.

(** ** What a service message asks for *)

(** A number of a map that holds a port in network byte order. *)
Definition wire_port (port v : Z) : Prop := le_bytes 2 v = be_bytes 2 (u16 port) /\ is_u16 v.

(** The port that the backends of the service listen on. *)
Definition backend_port (name : string) (p : Port) : Z :=
  if is_waypoint_name name then KmeshWaypointPort
  else if decide (target_port p = 0) then service_port p else target_port p.

(** A map value says what the message says: the mode, the first ten ports each
    beside its target, zeros behind them, and the waypoint if its address is
    known. *)
Record serves (x : Service) (sv : ServiceValue) : Prop := {
  sv_mode : LbPolicy sv = u32 (GetMode (svc_load_balancing x));
  sv_len : length (ServicePort sv) = MaxPortNum /\ length (TargetPort sv) = MaxPortNum;
  sv_ports : forall i p, (i < MaxPortNum)%nat -> svc_ports x !! i = Some p ->
    exists v t, ServicePort sv !! i = Some v /\ TargetPort sv !! i = Some t /\
      wire_port (service_port p) v /\ wire_port (backend_port (Service_ResourceName x) p) t;
  sv_rest : forall i, (i < MaxPortNum)%nat -> svc_ports x !! i = None ->
    ServicePort sv !! i = Some 0 /\ TargetPort sv !! i = Some 0;
  sv_waypoint : match svc_waypoint x ≫= GetAddress with
    | Some a => sv_WaypointAddr sv = ip_key (na_address a) /\
                exists g, svc_waypoint x = Some g /\ wire_port (ga_hbone_mtls_port g) (sv_WaypointPort sv)
    | None => sv_WaypointAddr sv = zero_ip /\ sv_WaypointPort sv = 0
    end
}.

Lemma wire_port_convert port : wire_port port (ConvertPortToBigEndian port).
Proof.
  unfold wire_port, ConvertPortToBigEndian. rewrite be_bytes_2. set (a := u16 port / 256 mod 256). set (b := u16 port mod 256).
  assert (is_u8 a /\ is_u8 b) as [Ha Hb] by (unfold is_u8, a, b; split; apply Z.mod_pos_bound; lia). split.
  - apply (le_bytes_le_uint [a; b]). constructor; [exact Ha|]. constructor; [exact Hb|constructor].
  - unfold is_u8, is_u16 in *. cbn [le_uint]. lia.
Qed.

Lemma fill_ports_spec name ports : forall i sp tp,
  length sp = MaxPortNum -> length tp = MaxPortNum ->
  let r := fill_ports name i ports sp tp in
  (length r.1 = MaxPortNum /\ length r.2 = MaxPortNum) /\
  forall j, (j < MaxPortNum)%nat ->
    match (if decide (i <= j)%nat then ports !! (j - i)%nat else None) with
    | Some p => r.1 !! j = Some (ConvertPortToBigEndian (service_port p)) /\ r.2 !! j = Some (target_port_of name p)
    | None => r.1 !! j = sp !! j /\ r.2 !! j = tp !! j
    end.
Proof.
  induction ports as [|p ports IH]; intros i sp tp Hs Ht; cbn [fill_ports].
  { split; [done|]. intros j _. by destruct (decide (i <= j)%nat). }
  case_decide as Hi.
  { split; [done|]. intros j Hj. by rewrite decide_False by lia. }
  destruct (IH (S i) (<[i := ConvertPortToBigEndian (service_port p)]> sp) (<[i := target_port_of name p]> tp)) as [Hl Hr];
    [by rewrite length_insert|by rewrite length_insert|]. split; [done|]. intros j Hj. specialize (Hr j Hj).
  destruct (decide (j = i)) as [->|Hne].
  - rewrite decide_True by lia. rewrite decide_False in Hr by lia. rewrite Nat.sub_diag. cbn [lookup list_lookup].
    by rewrite !list_lookup_insert_eq in Hr by lia.
  - rewrite !list_lookup_insert_ne in Hr by done. destruct (decide (i <= j)%nat).
    + rewrite decide_True in Hr by lia. by replace (j - i)%nat with (S (j - S i)) by lia.
    + by rewrite decide_False in Hr by lia.
Qed.

Lemma target_port_convert name p : wire_port (backend_port name p) (target_port_of name p).
Proof. unfold backend_port, target_port_of. repeat case_match; apply wire_port_convert. Qed.

Lemma newServiceInfo_serves x : serves x (newServiceInfo x).
Proof.
  pose proof (fill_ports_spec (Service_ResourceName x) (svc_ports x) 0 (replicate MaxPortNum 0) (replicate MaxPortNum 0))
    as Hf. cbn zeta in Hf. destruct Hf as [Hl Hf]; [done..|]. unfold newServiceInfo.
  destruct (fill_ports _ _ _ _ _) as [sp tp]. cbn [fst snd] in *.
  destruct (match svc_waypoint x with Some _ => _ | None => _ end) as [addr port] eqn:Ew.
  split; cbn [LbPolicy ServicePort TargetPort sv_WaypointAddr sv_WaypointPort]; [done|done|..].
  - intros i p Hi Hp. specialize (Hf i Hi). rewrite decide_True, Nat.sub_0_r, Hp in Hf by lia. destruct Hf as [H1 H2].
    eexists _, _. split; [exact H1|]. split; [exact H2|]. split; [apply wire_port_convert|apply target_port_convert].
  - intros i Hi Hp. specialize (Hf i Hi). rewrite decide_True, Nat.sub_0_r, Hp in Hf by lia.
    by rewrite !lookup_replicate_2 in Hf by done.
  - destruct (svc_waypoint x) as [g|]; cbn [mbind option_bind]; [|by injection Ew as <- <-].
    destruct (GetAddress g) as [a|]; injection Ew as <- <-; [|done]. split; [done|]. exists g. split; [done|].
    apply wire_port_convert.
Qed.
Lemma published_serves x old : serves x (published x old).
Proof. destruct (newServiceInfo_serves x) as [H1 H2 H3 H4 H5]. by destruct old; split. Qed.
Lemma published_counts x old :
  EndpointCount (published x old) = from_option EndpointCount (replicate PrioCount 0) old.
Proof. destruct old; [done|]. apply EndpointCount_new. Qed.

(** C9: handling a service that keeps its load balancing mode, whose waypoint is
    known and whose IPv4 addresses come first, succeeds when the maps have
    room: the service is cached, its map value says what its message says (mode,
    ports in network order beside their targets, waypoint) with the endpoint
    counts it had, every address of the service leads to it,
    and no endpoint, no other service and no frontend but the ones of its new
    and dropped addresses changes. *)
Theorem handleService_publishes `{E : Env} `{!Reliable E} `{Persist} `{Dns}
    (w : World) (P : Processor) (q : ptr) (x : Service) (h : HashName) (sid : Z) :
  wc_ok w (wpCache P) -> svcs w !! q = Some x -> is_own_waypoint x = false -> svc_waypoint_known x ->
  Hash (Service_ResourceName x) (hashName P) = Done (sid, h) ->
  match KmService (bpf P) !! sid with
  | Some info => keeps_mode (LbPolicy (newServiceInfo x)) (LbPolicy info)
  | None => True
  end ->
  svc_room x (bpf P) -> v4_then_v6 (GetIpAddresses (Some x)) ->
  exists w' P', handleService q w P = Done (None, w', P') /\
    GetService (Service_ResourceName x) (svcCache P') = Some q /\
    (exists sv, KmService (bpf P') = <[sid := sv]> (KmService (bpf P)) /\ serves x sv /\
       EndpointCount sv = from_option EndpointCount (replicate PrioCount 0) (KmService (bpf P) !! sid)) /\
    KmEndpoint (bpf P') = KmEndpoint (bpf P) /\
    (forall a, a ∈ GetIpAddresses (Some x) -> KmFrontend (bpf P') !! ip_key a = Some sid) /\
    (forall k, k ∉ ip_key <$> GetIpAddresses (Some x) ->
       KmFrontend (bpf P') !! k =
       if decide (k ∈ scan_keys zero_ip (dropped x (old_service w P (Service_ResourceName x))
                        (KmService (bpf P) !! sid)))
       then None else KmFrontend (bpf P) !! k).
Proof.
  intros Hok Hx Hown Hk Hh Hmode Hroom Hclean.
  set (fr := insert_all (scan_keys zero_ip (GetIpAddresses (Some x))) sid
    (delete_all (scan_keys zero_ip (dropped x (old_service w P (Service_ResourceName x)) (KmService (bpf P) !! sid)))
       (KmFrontend (bpf P)))).
  destruct (wp_inv (handleService q) (fun err w' P' => err = None /\
    GetService (Service_ResourceName x) (svcCache P') = Some q /\
    bpf P' = set_KmFrontend fr (set_KmService (<[sid := published x (KmService (bpf P) !! sid)]>
      (KmService (bpf P))) (bpf P))) w P) as (err & w' & P' & HE & -> & Hc & Hb).
  { by eapply (wp_handleService q x h sid). }
  exists w', P'. split; [done|]. split; [done|]. rewrite Hb. cbn [KmService KmEndpoint KmFrontend set_KmFrontend set_KmService].
  unfold fr. rewrite (scan_keys_clean _ Hclean).
  split; [|split; [done|split]].
  - eexists. split; [done|]. split; [apply published_serves|apply published_counts].
  - intros a Ha. rewrite lookup_insert_all, decide_True; [done|]. by apply list_elem_of_fmap_2.
  - intros k Hk'. rewrite lookup_insert_all, decide_False by done. apply lookup_delete_all.
Qed.

Definition publish_world : World := mkWorld 0 {[1%positive := demo_service]} ∅.
Definition publish_start : Processor := NewProcessor demo_hash (NewCache ∅ ∅ ∅ ∅ ∅) "n1" false.

Lemma handleService_publishes_witness :
  exists w' P', @handleService EnvOk PersistOk 1%positive publish_world publish_start = Done (None, w', P') /\
    KmFrontend (bpf P') !! ip_key [10; 1; 0; 1] = Some demo_sid.
Proof.
  destruct (@Hash PersistOk (Service_ResourceName demo_service) (hashName publish_start)) as [[sid h]| |] eqn:Hh;
    [|vm_compute in Hh; discriminate|vm_compute in Hh; discriminate].
  assert (sid = demo_sid) as -> by (vm_compute in Hh; injection Hh as <- _; reflexivity).
  destruct (@handleService_publishes EnvOk _ PersistOk demo_dns publish_world publish_start 1%positive demo_service h
    demo_sid) as (w' & P' & HE & _ & _ & _ & Hfr & _).
  - apply wc_ok_new.
  - reflexivity.
  - reflexivity.
  - exact I.
  - exact Hh.
  - exact I.
  - split; vm_compute; congruence.
  - exists [[10; 1; 0; 1]], []. split; [reflexivity|]. split; repeat constructor.
  - exists w', P'. split; [exact HE|]. apply Hfr. left.
Defined.
