(* ===== verification/Scenarios.v ===== *)
(** * Histories in which the tables and the services part

    Runs of the daemon, and states it can be in, where what the maps hold is
    not what the control plane asked for. *)
From S2P Require Import Prelude GoNet Nets HashName Api Runtime BpfCache Locality WorkloadCache ServiceCache EndpointCache WaypointCache Processor Endpoints ProcessorInv Reach Spec Binding Services.
Open Scope go_scope.

(** ** Running a list of responses from an empty node *)
Definition response : Type := (list (Address_ + error) * list string).
Definition run_responses (E : Env) (l : list response) : outcome (World * Processor) :=
  foldl (fun o r => o ≫= fun '(w, P) =>
           '(_, w, P) ← @handleAddressTypeResponse E PersistOk demo_dns r.1 r.2 w P; Done (w, P))
    (Done (mkWorld 0 ∅ ∅, NewProcessor demo_hash (NewCache ∅ ∅ ∅ ∅ ∅) "n1" false)) l.

Definition pod (uid node : string) (ip : bytes) : Workload :=
  mkWorkload uid "pod" "default" [ip] "net" "" "" None node
    {["default/app.default.svc" := [mkPort 80 8080]]} [] 0 "c1" None 0 "" "" "" "".
Definition pod_a : Workload := pod "c//Pod/default/a" "n1" [10; 0; 0; 1].
Definition pod_b : Workload := pod "c//Pod/default/b" "n2" [10; 0; 0; 2].
(** The demo service, now preferring endpoints of the same node. *)
Definition failover_service : Service :=
  mkService "app" "default" "app.default.svc" [mkNetworkAddress "net" [10; 1; 0; 1]]
    [mkPort 80 8080] None (Some (mkLoadBalancing [LoadBalancing_NODE] 2)).

(** The endpoints in the map, with the names of their workloads. *)
Definition endpoints_of (P : Processor) : list (EndpointKey * string) :=
  (fun kv => (kv.1, NumToStr kv.2 (hashName P))) <$> map_to_list (KmEndpoint (bpf P)).
Definition mode_of (P : Processor) : option Z := LbPolicy <$> KmService (bpf P) !! demo_sid.
Definition observe {A} (f : Processor -> A) (o : outcome (World * Processor)) : option A :=
  match o with Done (_, P) => Some (f P) | _ => None end.

(** the endpoint cache keeps the old slot of an endpoint that a removal has
    moved.  Pods [a] and [b] back a service, [a] is removed and [b] moves to the
    first slot; when the service then turns to locality load balancing, [b],
    which runs on another node and belongs in the group 1, is looked up in its
    old slot, is not found and stays in the group 0.  Without the removal it
    is moved. *)
Theorem moved_endpoint_is_lost :
  observe (fun P => (mode_of P, endpoints_of P,
      CalcLocalityLBPrio (locality P) (Some pod_b) [LoadBalancing_NODE]))
    (run_responses EnvOk
      [([inl (Address_Service demo_service); inl (Address_Workload pod_a); inl (Address_Workload pod_b)], []);
       ([], [wl_uid pod_a]);
       ([inl (Address_Service failover_service)], [])])
  = Some (Some 2, [(mkEndpointKey demo_sid 0 1, wl_uid pod_b)], Done 1) /\
  observe (fun P => (mode_of P, list_to_set (endpoints_of P) : gset (EndpointKey * string)))
    (run_responses EnvOk
      [([inl (Address_Service demo_service); inl (Address_Workload pod_a); inl (Address_Workload pod_b)], []);
       ([inl (Address_Service failover_service)], [])])
  = Some (Some 2, {[(mkEndpointKey demo_sid 0 1, wl_uid pod_a); (mkEndpointKey demo_sid 1 1, wl_uid pod_b)]}).
Proof. split; vm_compute; reflexivity. Qed.

(** ** A kernel that refuses one update *)
Definition fail_at (m n sz : nat) : option error :=
  if decide (n = m) then Some (ErrSys 12) else upd_err_full sz.
Lemma fail_at_capacity m n sz : fail_at m n sz = None -> Z.of_nat sz <= max_entries.
Proof. unfold fail_at. case_decide; [done|]. apply upd_err_full_capacity. Qed.
Definition EnvFail (m : nat) : Env := {|
  upd_err := fail_at m;
  upd_capacity := fail_at_capacity m;
  del_err := fun _ => None;
  del_err_other := fun _ H => match H with end;
  range_order := fun _ A l => l;
  range_order_perm := fun _ A l => reflexivity l
|}.

(** the index is written before the endpoint map and is not corrected when
    the kernel refuses the update.  The endpoint of pod [a] is refused once
    (event 7), pod [b] gets the slot, and the removal of [a] then removes the
    endpoint of [b], which is healthy and still cached: the service is left
    without a backend.  With no update refused [b] stays. *)
Theorem refused_update_evicts_other :
  let history := [([inl (Address_Service demo_service); inl (Address_Workload pod_a)], []);
                  ([inl (Address_Workload pod_b)], []); ([], [wl_uid pod_a])] in
  observe (fun P => (endpoints_of P, bool_decide (is_Some (GetWorkloadByUid (wl_uid pod_b) (wlCache P)))))
    (run_responses (EnvFail 7) history) = Some ([], true) /\
  observe endpoints_of (run_responses EnvOk history) = Some [(mkEndpointKey demo_sid 0 1, wl_uid pod_b)].
Proof. split; vm_compute; reflexivity. Qed.

(** ** Addresses of both families *)

(** when an IPv6 address of a service precedes an IPv4 one, the key of the
    IPv4 address keeps the tail of the IPv6 address: it is entered under a key
    that no packet has, and its own key is left as it was. *)
Theorem dual_stack_address_unpublished `{E : Env} `{!Reliable E} `{Persist} `{Dns}
    (w : World) (P : Processor) (sid : Z) (x : Service) (v6 v4 : bytes) :
  GetIpAddresses (Some x) = [v6; v4] -> length v6 = 16%nat -> length v4 = 4%nat ->
  drop 4 v6 <> drop 4 zero_ip ->
  Z.of_nat (size (KmFrontend (bpf P)) + 2) <= max_entries ->
  exists w' P', updateServiceFrontendMap sid x w P = Done (None, w', P') /\
    KmFrontend (bpf P') !! ip_key v4 = KmFrontend (bpf P) !! ip_key v4 /\
    KmFrontend (bpf P') !! (v4 ++ drop 4 v6) = Some sid.
Proof.
  intros Ha H6 H4 Hne Hroom.
  assert (scan_keys zero_ip (GetIpAddresses (Some x)) = [v6; v4 ++ drop 4 v6]) as Hk.
  { rewrite Ha. cbn. rewrite CopyIp_16 by done. by rewrite CopyIp_4. }
  assert (ip_key v4 = v4 ++ drop 4 zero_ip) as Hv4 by (unfold ip_key; by rewrite CopyIp_4).
  assert (drop 4 (ip_key v4) = drop 4 zero_ip) as Hd by (by rewrite Hv4, drop_app_length' by done).
  assert (length (svc_addresses x) = 2%nat) as Hlen.
  { cbn in Ha. rewrite <-(length_fmap na_address). by rewrite Ha. }
  destruct (wp_inv (updateServiceFrontendMap sid x) (fun err w' P' => err = None /\
    KmFrontend (bpf P') = insert_all [v6; v4 ++ drop 4 v6] sid (KmFrontend (bpf P))) w P)
    as (err & w' & P' & HE & -> & HF).
  { apply wp_updateServiceFrontendMap; [by rewrite Hlen|]. intros w' _. split; [done|]. cbn in Hk |- *. by rewrite Hk. }
  exists w', P'. split; [done|]. rewrite HF, !lookup_insert_all. split.
  - rewrite decide_False; [done|]. intros Hin. apply elem_of_cons in Hin as [Hin|Hin].
    + apply Hne. by rewrite <-Hin, Hd.
    + apply list_elem_of_singleton in Hin. apply Hne. rewrite Hv4 in Hin. by apply app_inv_head in Hin.
  - rewrite decide_True; [done|]. right. left.
Qed.

Definition dual_service : Service :=
  mkService "app" "default" "app.default.svc"
    [mkNetworkAddress "net" [32; 1; 13; 184; 0; 0; 0; 0; 0; 0; 0; 0; 0; 0; 0; 1]; mkNetworkAddress "net" [10; 1; 0; 1]]
    [mkPort 80 8080] None None.

Lemma dual_stack_address_unpublished_witness :
  exists w' P', @updateServiceFrontendMap EnvOk 7 dual_service publish_world publish_start = Done (None, w', P') /\
    KmFrontend (bpf P') !! ip_key [10; 1; 0; 1] = None.
Proof.
  destruct (@dual_stack_address_unpublished EnvOk _ PersistOk demo_dns publish_world publish_start 7 dual_service
    [32; 1; 13; 184; 0; 0; 0; 0; 0; 0; 0; 0; 0; 0; 0; 1] [10; 1; 0; 1]) as (w' & P' & HE & Hk & _).
  - reflexivity.
  - reflexivity.
  - reflexivity.
  - discriminate.
  - vm_compute. congruence.
  - exists w', P'. split; [exact HE|]. rewrite Hk. reflexivity.
Defined.

(** ** Leaving locality load balancing *)

(** a service message that turns locality load balancing off is used for the
    mode only: when no endpoint is recorded for the service in the endpoint
    cache, as after a restart, [updateServiceMap] reports success and the map
    keeps the old ports, waypoint and addresses, and every endpoint its
    priority group, while random load balancing only reads the group 0. *)
Theorem random_mode_update_is_partial `{E : Env} `{!Reliable E} `{Persist} `{Dns}
    (w : World) (P : Processor) (x : Service) (old : option Service) (h : HashName) (sid : Z) (info : ServiceValue) :
  Hash (Service_ResourceName x) (hashName P) = Done (sid, h) ->
  KmService (bpf P) !! sid = Some info ->
  LbPolicy info <> LoadBalancing_UNSPECIFIED_MODE ->
  LbPolicy (newServiceInfo x) = LoadBalancing_UNSPECIFIED_MODE ->
  EndpointCache.List sid (epCache P) = ∅ ->
  Z.of_nat (size (KmService (bpf P))) <= max_entries ->
  exists w' P', updateServiceMap x old w P = Done (None, w', P') /\
    KmService (bpf P') = <[sid := set_LbPolicy LoadBalancing_UNSPECIFIED_MODE info]> (KmService (bpf P)) /\
    KmFrontend (bpf P') = KmFrontend (bpf P) /\ KmEndpoint (bpf P') = KmEndpoint (bpf P).
Proof.
  intros Hh Hinfo Hold Hnew Hlist Hsize.
  destruct (wp_inv (updateServiceMap x old) (fun err w' P' => err = None /\ bpf P' =
    set_KmService (<[sid := set_LbPolicy LoadBalancing_UNSPECIFIED_MODE info]> (KmService (bpf P))) (bpf P)) w P)
    as (err & w' & P' & HE & -> & HB); [|exists w', P'; by rewrite HB].
  unfold updateServiceMap. wp_step. eapply wp_done; [unfold hash; by rewrite Hh|].
  wp_step. apply wp_service_lookup; cbn [bpf set_hashName]; [|congruence].
  intros info' Hinfo'. assert (info' = info) as -> by congruence.
  assert (forall c, LbPolicy (set_EndpointCount c (newServiceInfo x)) = LbPolicy (newServiceInfo x)) as HL by done.
  rewrite decide_True by (rewrite HL; by rewrite Hnew).
  wp_step. unfold updateEndpointPriority. do 3 wp_step. cbn [epCache set_hashName]. rewrite Hlist.
  apply wp_range. intros l Hl. apply Permutation_nil_r in Hl as ->. unfold updateEndpointOneByOne.
  rewrite decide_True by done. do 2 wp_step. apply wp_service_lookup; cbn [bpf set_hashName]; [|congruence].
  intros cur Hcur. assert (cur = info) as -> by congruence.
  wp_step. apply (wp_update false service_map).
  { unfold has_room. cbn. rewrite map_size_delete, Hinfo.
    assert (size (KmService (bpf P)) <> 0%nat); [|lia].
    intros Hz. apply map_size_empty_inv in Hz. by rewrite Hz in Hinfo. }
  wp_steps. split; [done|]. cbn. by rewrite Hnew.
Qed.

(** The demo service in locality mode, turned to random with another port. *)
Definition failover_start : Processor :=
  NewProcessor demo_hash (NewCache ∅ ∅ ∅ {[demo_sid := newServiceInfo failover_service]} ∅) "n1" true.
Definition moved_port_service : Service :=
  mkService "app" "default" "app.default.svc" [mkNetworkAddress "net" [10; 1; 0; 2]] [mkPort 81 8081] None None.

Lemma random_mode_update_is_partial_witness :
  exists w' P', @updateServiceMap EnvOk PersistOk moved_port_service None publish_world failover_start
    = Done (None, w', P') /\
    ServicePort <$> KmService (bpf P') !! demo_sid = Some (ServicePort (newServiceInfo failover_service)) /\
    ServicePort (newServiceInfo failover_service) <> ServicePort (newServiceInfo moved_port_service).
Proof.
  destruct (@Hash PersistOk (Service_ResourceName moved_port_service) (hashName failover_start)) as [[sid h]| |] eqn:Hh;
    [|vm_compute in Hh; discriminate|vm_compute in Hh; discriminate].
  assert (sid = demo_sid) as -> by (vm_compute in Hh; injection Hh as <- _; reflexivity).
  destruct (@random_mode_update_is_partial EnvOk _ PersistOk demo_dns publish_world failover_start moved_port_service
    None h demo_sid (newServiceInfo failover_service)) as (w' & P' & HE & HS & _).
  - exact Hh.
  - vm_compute. reflexivity.
  - vm_compute. discriminate.
  - vm_compute. reflexivity.
  - reflexivity.
  - vm_compute. congruence.
  - exists w', P'. split; [exact HE|]. split; [|vm_compute; discriminate]. rewrite HS, lookup_insert_eq. reflexivity.
Defined.
