(* ===== verification/Backends.v ===== *)
(** * Every endpoint has a backend

    The balancer follows an endpoint to the backend map.  With a kernel that
    refuses updates only on a full map, no reachable state has an endpoint
    whose workload is not in that map: a workload is entered before it is bound
    and leaves after its last endpoint. *)
From stdpp Require Import sorting.
From S2P Require Import Prelude GoNet Nets HashName Api Runtime BpfCache Locality WorkloadCache ServiceCache EndpointCache WaypointCache Processor Endpoints ProcessorInv Reach Spec Binding.
Open Scope go_scope.

(** ** What a finished run has done

    [ends R m]: if [m] returns, [R] relates the states before and after. *)
Definition ends {S A} (R : S -> S -> Prop) (m : Go S A) : Prop :=
  forall w s a w' s', m w s = Done (a, w', s') -> R s s'.

Section ends.
Context {S : Type} (R : S -> S -> Prop) `{!Reflexive R, !Transitive R}.

Lemma ends_ret {A} (a : A) : ends R (mret a).
Proof. by intros w s ? ? ? [= <- <- <-]. Qed.
Lemma ends_gets {A} (f : S -> A) : ends R (gets f).
Proof. by intros w s ? ? ? [= <- <- <-]. Qed.
Lemma ends_world {A} (f : World -> A) : ends R (world f).
Proof. by intros w s ? ? ? [= <- <- <-]. Qed.
Lemma ends_modify_world f : ends R (modify_world f).
Proof. by intros w s ? ? ? [= <- <- <-]. Qed.
Lemma ends_panic {A} why : ends R (panic (A := A) why).
Proof. by intros w s ? ? ? [=]. Qed.
Lemma ends_range `{Env} {A} (l : list A) : ends R (range l).
Proof. by intros w s ? ? ? [= <- <- <-]. Qed.
Lemma ends_array_get {A} (l : list A) i : ends R (array_get l i).
Proof. unfold array_get. repeat case_match; try apply ends_ret; apply ends_panic. Qed.
Lemma ends_modify f : (forall s, R s (f s)) -> ends R (modify f).
Proof. by intros Hf w s ? ? ? [= <- <- <-]. Qed.

Lemma run_bind {A B} (m : Go S A) (f : A -> Go S B) w s r :
  (m ≫= f) w s = Done r -> exists a w1 s1, m w s = Done (a, w1, s1) /\ f a w1 s1 = Done r.
Proof. unfold mbind, go_bind. destruct (m w s) as [[[a w1] s1]| |]; [eauto|done|done]. Qed.

Lemma ends_bind {A B} (m : Go S A) (f : A -> Go S B) : ends R m -> (forall a, ends R (f a)) -> ends R (m ≫= f).
Proof.
  intros Hm Hf w s b w' s' Hr. apply run_bind in Hr as (a & w1 & s1 & H1 & H2).
  etrans; [by eapply Hm|by eapply Hf].
Qed.
Lemma ends_for_each {A B} (l : list A) (body : A -> Go S (ctl B)) :
  (forall a, ends R (body a)) -> ends R (for_each l body).
Proof.
  intros Hb. induction l as [|a l IH]; cbn; [apply ends_ret|].
  apply ends_bind; [done|]. intros [| |r]; [done|apply ends_ret|apply ends_ret].
Qed.
Lemma ends_fold_each {A B} (l : list A) (acc : B) (body : B -> A -> Go S B) :
  (forall acc a, ends R (body acc a)) -> ends R (fold_each l acc body).
Proof.
  intros Hb. revert acc. induction l as [|a l IH]; intros acc; cbn; [apply ends_ret|].
  apply ends_bind; [done|]. intros acc'. apply IH.
Qed.
Lemma ends_fold_until {A B} (l : list A) (acc : B) (body : B -> A -> Go S (B * bool)) :
  (forall acc a, ends R (body acc a)) -> ends R (fold_until l acc body).
Proof.
  intros Hb. revert acc. induction l as [|a l IH]; intros acc; cbn; [apply ends_ret|].
  apply ends_bind; [done|]. intros [acc' []]; [apply ends_ret|apply IH].
Qed.
Lemma ends_for_upto n (body : Z -> Go S unit) : (forall i, ends R (body i)) -> ends R (for_upto n body).
Proof.
  intros Hb. unfold for_upto. case_decide; [by intros w s ? ? ? [=]|]. apply ends_fold_each. auto.
Qed.
Lemma ends_zoom {T A} (R' : T -> T -> Prop) (l : lens S T) (m : Go T A) :
  ends R' m -> (forall s t, R' (lget l s) t -> R s (lset l t s)) -> ends R (zoom l m).
Proof.
  intros Hm Hl w s a w' s'. unfold zoom. destruct (m w (lget l s)) as [[[a1 w1] t]| |] eqn:E; [|done|done].
  intros [= <- <- <-]. by eapply Hl, Hm.
Qed.
End ends.

Lemma run_zoom {S T A} (l : lens S T) (m : Go T A) w s a w' s' :
  zoom l m w s = Done (a, w', s') -> exists t, m w (lget l s) = Done (a, w', t) /\ s' = lset l t s.
Proof.
  unfold zoom. destruct (m w (lget l s)) as [[[a1 w1] t]| |]; [|done|done]. intros [= <- <- <-]. eauto.
Qed.

Create HintDb ends.
#[export] Hint Resolve ends_ret ends_gets ends_world ends_modify_world ends_panic ends_range ends_array_get : ends.
#[export] Hint Extern 0 (Reflexive _) => apply _ : ends.
#[export] Hint Extern 0 (Transitive _) => apply _ : ends.
Ltac ends_step :=
  first [ solve [eauto with ends nocore]
        | apply ends_bind; [apply _| |intros ?]
        | apply ends_for_each; [apply _|apply _|intros ?]
        | apply ends_fold_each; [apply _|apply _|intros ? ?]
        | apply ends_fold_until; [apply _|apply _|intros ? ?]
        | apply ends_for_upto; [apply _|apply _|intros ?]
        | case_match | case_decide ].
Ltac ends_auto := repeat ends_step.

(** ** Backends stay, and endpoints come from backends *)
Definition backed (c : Cache) (u : Z) : Prop := is_Some (KmBackend c !! u).
Definition listed (c : Cache) (u : Z) : Prop := exists k, KmEndpoint c !! k = Some u.
Definition be_inv (c : Cache) : Prop := forall u, listed c u -> backed c u.
Definition be_rel (c c' : Cache) : Prop :=
  (forall u, backed c u -> backed c' u) /\ (forall u, listed c' u -> listed c u \/ backed c' u).
#[export] Instance be_rel_refl : Reflexive be_rel.
Proof. split; auto. Qed.
#[export] Instance be_rel_trans : Transitive be_rel.
Proof.
  intros a b c [B1 U1] [B2 U2]. split; [auto|]. intros u Hu. destruct (U2 u Hu) as [Hu'|]; [|auto].
  destruct (U1 u Hu'); auto.
Qed.
Lemma be_rel_inv c c' : be_rel c c' -> be_inv c -> be_inv c'.
Proof. intros [HB HU] Hc u Hu. destruct (HU u Hu); auto. Qed.
Lemma be_rel_same c c' : KmEndpoint c' = KmEndpoint c -> KmBackend c' = KmBackend c -> be_rel c c'.
Proof. intros HE HB. unfold be_rel, backed, listed. rewrite HE, HB. auto. Qed.
Lemma be_rel_insert c c' k u :
  KmBackend c' = KmBackend c -> KmEndpoint c' = <[k := u]> (KmEndpoint c) -> listed c u \/ backed c u -> be_rel c c'.
Proof.
  intros HB HE Hu. unfold be_rel, backed, listed in *. rewrite HE, HB. split; [done|]. intros u' [k' Hk'].
  apply lookup_insert_Some in Hk' as [[_ <-]|[_ Hk']]; [done|]. left. by exists k'.
Qed.
Lemma be_rel_delete c c' k :
  KmBackend c' = KmBackend c -> KmEndpoint c' = delete k (KmEndpoint c) -> be_rel c c'.
Proof.
  intros HB HE. unfold be_rel, backed, listed. rewrite HE, HB. split; [done|]. intros u' [k' Hk'].
  apply lookup_delete_Some in Hk' as [_ Hk']. left. by exists k'.
Qed.

Definition be_p (P P' : Processor) : Prop := be_rel (bpf P) (bpf P').
#[export] Instance be_p_refl : Reflexive be_p.
Proof. intros P. unfold be_p. reflexivity. Qed.
#[export] Instance be_p_trans : Transitive be_p.
Proof. intros P1 P2 P3. unfold be_p. apply be_rel_trans. Qed.

Section operations.
Context `{E : Env} `{Persist} `{Dns}.

Lemma ends_bpf {A} (m : Go Cache A) : ends be_rel m -> ends be_p (zoom bpf_l m).
Proof. intros Hm. eapply ends_zoom; [exact Hm|]. done. Qed.

Lemma ends_other {T A} (l : lens Processor T) (m : Go T A) :
  (forall t P, bpf (lset l t P) = bpf P) -> ends be_p (zoom l m).
Proof.
  intros Hl. apply (ends_zoom be_p (fun _ _ => True)); [done|]. intros P t _. unfold be_p. by rewrite Hl.
Qed.
Lemma ends_mod f : (forall P, bpf (f P) = bpf P) -> ends be_p (modify f).
Proof. intros Hf. apply ends_modify. intros P. unfold be_p. by rewrite Hf. Qed.

Lemma ends_hash s : ends be_p (hash s).
Proof.
  intros w P a w' P'. unfold hash. destruct (Hash s (hashName P)) as [[n h]| |]; [|done|done].
  intros [= <- <- <-]. unfold be_p. reflexivity.
Qed.
Lemma ends_hash_delete s : ends be_p (hash_delete s).
Proof. by apply ends_mod. Qed.

(** A map operation leaves its map, or inserts, or deletes. *)
Lemma ends_map_Update {K V} `{Countable K} (k : K) (v : V) : ends (fun m m' => m' = m \/ m' = <[k := v]> m) (map_Update k v).
Proof. intros w m a w' m'. unfold map_Update. case_match; intros [= <- <- <-]; auto. Qed.
Lemma ends_map_Delete {K V} `{Countable K} (k : K) : ends (fun m m' : gmap K V => m' = m \/ m' = delete k m) (map_Delete k).
Proof. intros w m a w' m'. unfold map_Delete. repeat case_match; intros [= <- <- <-]; auto. Qed.
Lemma ends_map_Lookup {K V} `{Countable K} (k : K) : ends (fun m m' : gmap K V => m' = m) (map_Lookup k).
Proof. intros w m a w' m'. unfold map_Lookup. case_match; by intros [= <- <- <-]. Qed.
Lemma ends_map_Iterate {K V} `{Countable K} : ends (fun m m' : gmap K V => m' = m) map_Iterate.
Proof. intros w m a w' m'. unfold map_Iterate. by intros [= <- <- <-]. Qed.

(** Maps other than the two. *)
Definition aside_map {T} (l : lens Cache T) : Prop :=
  forall t c, KmEndpoint (lset l t c) = KmEndpoint c /\ KmBackend (lset l t c) = KmBackend c.
Lemma ends_aside {T A} (l : lens Cache T) (m : Go T A) : aside_map l -> ends be_rel (zoom l m).
Proof.
  intros Hl. apply (ends_zoom be_rel (fun _ _ => True)); [done|]. intros c t _. by apply be_rel_same; apply Hl.
Qed.
Lemma aside_service : aside_map service_map. Proof. done. Qed.
Lemma aside_frontend : aside_map frontend_map. Proof. done. Qed.
Lemma aside_policy : aside_map wlpolicy_map. Proof. done. Qed.
#[local] Hint Resolve ends_aside aside_service aside_frontend aside_policy : ends.

Lemma ends_ServiceLookup k : ends be_rel (ServiceLookup k).
Proof. unfold ServiceLookup. ends_auto. Qed.
Lemma ends_ServiceUpdate k v : ends be_rel (ServiceUpdate k v).
Proof. unfold ServiceUpdate. ends_auto. Qed.
Lemma ends_ServiceDelete k : ends be_rel (ServiceDelete k).
Proof. unfold ServiceDelete. ends_auto. Qed.
Lemma ends_FrontendUpdate k v : ends be_rel (FrontendUpdate k v).
Proof. unfold FrontendUpdate. ends_auto. Qed.
Lemma ends_FrontendDelete k : ends be_rel (FrontendDelete k).
Proof. unfold FrontendDelete. ends_auto. Qed.
Lemma ends_FrontendIterFindKey k : ends be_rel (FrontendIterFindKey k).
Proof. unfold FrontendIterFindKey. ends_auto. Qed.
Lemma ends_WorkloadPolicyUpdate k v : ends be_rel (WorkloadPolicyUpdate k v).
Proof. unfold WorkloadPolicyUpdate. ends_auto. Qed.
Lemma ends_WorkloadPolicyDelete k : ends be_rel (WorkloadPolicyDelete k).
Proof. unfold WorkloadPolicyDelete. ends_auto. Qed.
Lemma ends_BackendLookup k : ends be_rel (BackendLookup k).
Proof.
  unfold BackendLookup. eapply ends_zoom; [apply ends_map_Lookup|]. cbn. intros [] t ->. reflexivity.
Qed.
Lemma ends_BackendUpdate k v : ends be_rel (BackendUpdate k v).
Proof.
  unfold BackendUpdate. eapply ends_zoom; [apply ends_map_Update|]. cbn. intros c t Ht.
  split; [|intros u Hu; by left]. intros u Hu. unfold backed in *. cbn.
  destruct Ht as [->| ->]; [done|]. rewrite lookup_insert. case_decide; [by eexists|done].
Qed.
Lemma ends_EndpointLookup k : ends be_rel (EndpointLookup k).
Proof. unfold EndpointLookup. eapply ends_zoom; [apply ends_map_Lookup|]. cbn. intros [] t ->. reflexivity. Qed.

Lemma ends_index (f : Cache -> Cache) :
  (forall c, KmEndpoint (f c) = KmEndpoint c /\ KmBackend (f c) = KmBackend c) -> ends be_rel (modify f).
Proof. intros Hf. apply ends_modify. intros c. apply be_rel_same; apply Hf. Qed.

Lemma ends_EndpointDelete k : ends be_rel (EndpointDelete k).
Proof.
  unfold EndpointDelete. apply ends_bind; [apply _|apply ends_EndpointLookup|]. intros [v|e]; [|ends_auto].
  apply ends_bind; [apply _|..].
  - apply ends_index. intros c. unfold index_delete. by case_decide.
  - intros _. apply ends_bind; [apply _| |intros; ends_auto].
    eapply ends_zoom; [apply ends_map_Delete|]. cbn. intros c t [->| ->]; [by apply be_rel_same|by eapply be_rel_delete].
Qed.

(** Inserting an endpoint of a workload that is there. *)
Lemma run_endpoint_update k u w c a w' c' :
  zoom endpoint_map (map_Update k u) w c = Done (a, w', c') -> listed c u \/ backed c u -> be_rel c c'.
Proof.
  intros Hr Hu. eapply (ends_zoom (fun c c' => listed c u \/ backed c u -> be_rel c c')); [| |exact Hr|exact Hu].
  - apply ends_map_Update.
  - cbn. intros c1 t [->| ->] Hu1; [by apply be_rel_same|by eapply be_rel_insert].
Qed.

Lemma ends_EndpointSwap i u n sid prio : ends be_rel (EndpointSwap i u n sid prio).
Proof.
  unfold EndpointSwap. case_decide; [ends_auto|]. case_decide; [ends_auto|]. set (k := if decide _ then _ else _).
  intros w c a w' c' Hr. apply run_bind in Hr as (v & w1 & c1 & Hl & Hr).
  assert (c1 = c /\ forall v', v = inl v' -> listed c v') as [-> Hv].
  { revert Hl. unfold EndpointLookup, zoom, map_Lookup. cbn. destruct (KmEndpoint c !! k) eqn:Ek; intros [= <- <- <-].
    - split; [by destruct c|]. intros v' [= <-]. by exists k.
    - split; [by destruct c|]. done. }
  destruct v as [v|e]; [|by injection Hr as <- <- <-]. specialize (Hv v eq_refl).
  apply run_bind in Hr as (err & w2 & c2 & Hu & Hr).
  apply run_endpoint_update in Hu; [|by left]. etrans; [exact Hu|].
  destruct err; [by injection Hr as <- <- <-|].
  clear Hu. revert w2 c2 a w' c' Hr. change (ends be_rel (modify (index_delete u (mkEndpointKey sid prio i));;
    s ← gets (fun c => endpointKeys c !! v);
    match s with
    | None => panic (A := option error) "assignment to entry in nil map"
    | Some s => modify (fun c => set_endpointKeys (<[v := {[mkEndpointKey sid prio i]} ∪ s]> (endpointKeys c)) c);; mret None
    end)).
  apply ends_bind; [apply _|apply ends_index|intros _].
  { intros c1. unfold index_delete. by case_decide. }
  ends_auto. by apply ends_index.
Qed.
End operations.

#[export] Hint Resolve ends_hash ends_hash_delete : ends.
#[export] Hint Extern 1 (ends be_p (zoom bpf_l _)) => apply ends_bpf : ends.
#[export] Hint Extern 1 (ends be_p (zoom wl_l _)) => by apply ends_other : ends.
#[export] Hint Extern 1 (ends be_p (zoom svc_l _)) => by apply ends_other : ends.
#[export] Hint Extern 1 (ends be_p (zoom wp_l _)) => by apply ends_other : ends.
#[export] Hint Extern 1 (ends be_p (modify _)) => by apply ends_mod : ends.
#[export] Hint Resolve ends_ServiceLookup ends_ServiceUpdate ends_ServiceDelete ends_FrontendUpdate ends_FrontendDelete
  ends_FrontendIterFindKey ends_WorkloadPolicyUpdate ends_WorkloadPolicyDelete ends_BackendLookup ends_BackendUpdate
  ends_EndpointLookup ends_EndpointDelete ends_EndpointSwap : ends.

(** ** The handlers that keep every backend *)
Section handlers.
Context `{E : Env} `{Persist} `{Dns}.

Lemma ends_deleteEndpoint ek ev sv sk : ends be_rel (deleteEndpoint ek ev sv sk).
Proof. unfold deleteEndpoint. ends_auto. Qed.
#[local] Hint Resolve ends_deleteEndpoint : ends.
Lemma ends_deleteEndpointRecords l : ends be_p (deleteEndpointRecords l).
Proof. unfold deleteEndpointRecords, sort_keys, deleteEndpointRecord. ends_auto. Qed.
Lemma ends_deletePodFrontendData u : ends be_p (deletePodFrontendData u).
Proof. unfold deletePodFrontendData. ends_auto. Qed.
Lemma ends_storePodFrontendData u ip : ends be_p (storePodFrontendData u ip).
Proof. unfold storePodFrontendData. ends_auto. Qed.
Lemma ends_deleteFrontendByIp l : ends be_p (deleteFrontendByIp l).
Proof. unfold deleteFrontendByIp. ends_auto. Qed.
Lemma ends_updateServiceFrontendMap id x : ends be_p (updateServiceFrontendMap id x).
Proof. unfold updateServiceFrontendMap. ends_auto. Qed.
Lemma ends_deleteServiceFrontendData x id : ends be_p (deleteServiceFrontendData x id).
Proof. unfold deleteServiceFrontendData. ends_auto. Qed.
Lemma ends_storeWorkloadPolicies u l : ends be_p (storeWorkloadPolicies u l).
Proof. unfold storeWorkloadPolicies. ends_auto. Qed.
Lemma ends_deleteWorkloadPolicies u : ends be_p (deleteWorkloadPolicies u).
Proof. unfold deleteWorkloadPolicies. ends_auto. Qed.
#[local] Hint Resolve ends_deleteEndpointRecords ends_deletePodFrontendData ends_storePodFrontendData
  ends_deleteFrontendByIp ends_updateServiceFrontendMap ends_deleteServiceFrontendData
  ends_storeWorkloadPolicies ends_deleteWorkloadPolicies : ends.
Lemma ends_handleUnhealthyWorkload x : ends be_p (handleUnhealthyWorkload x).
Proof. unfold handleUnhealthyWorkload. ends_auto. Qed.
Lemma ends_compareWorkloadServices x : ends be_p (compareWorkloadServices x).
Proof. unfold compareWorkloadServices. ends_auto. Qed.
Lemma ends_updateWorkloadInFrontendMap x : ends be_p (updateWorkloadInFrontendMap x).
Proof. unfold updateWorkloadInFrontendMap. ends_auto. Qed.
Lemma ends_removeServiceResourceFromBpfMap x name : ends be_p (removeServiceResourceFromBpfMap x name).
Proof. unfold removeServiceResourceFromBpfMap. ends_auto. Qed.
#[local] Hint Resolve ends_removeServiceResourceFromBpfMap : ends.
Lemma ends_removeServiceResources l : ends be_p (removeServiceResources l).
Proof. unfold removeServiceResources. ends_auto. Qed.
Lemma ends_calc_prio wl rp : ends be_p (calc_prio wl rp).
Proof.
  intros w P a w' P'. unfold calc_prio. case_match; [|done|done]. intros [= <- <- <-]. unfold be_p. reflexivity.
Qed.

(** Adding an endpoint of a workload that is there. *)
Lemma run_addWorkloadToService sk sv u prio w P r w' P' :
  addWorkloadToService sk sv u prio w P = Done (r, w', P') -> listed (bpf P) u \/ backed (bpf P) u -> be_p P P'.
Proof.
  intros Hr Hu. unfold addWorkloadToService in Hr.
  apply run_bind in Hr as (n & w1 & P1 & H1 & Hr). apply (ends_array_get eq) in H1 as <-.
  apply run_bind in Hr as (err & w2 & P2 & H2 & Hr).
  assert (be_p P P2) as H12.
  { revert H2. unfold EndpointUpdate, zoom at 1. cbn [lget bpf_l].
    destruct ((modify _;; _) w1 (bpf P)) as [[[a wa] c]| |] eqn:Em; [|done|done]. intros [= <- <- <-].
    apply run_bind in Em as ([] & w3 & c3 & [= <- <-] & Hz).
    destruct (index_insert_maps u (mkEndpointKey sk prio (n +32 1)) (bpf P)) as (HE & HB & _).
    apply run_endpoint_update in Hz.
    - change (be_rel (bpf P) c). etrans; [|exact Hz]. by apply be_rel_same.
    - unfold listed, backed in *. by rewrite HE, HB. }
  etrans; [exact H12|]. destruct err; [by injection Hr as <- <- <-|].
  revert w2 P2 H12 H2 Hr. intros w2 P2 _ _.
  match goal with |- ?m w2 P2 = _ -> _ => enough (ends be_p m) as Hm; [apply Hm|] end.
  ends_auto.
Qed.
End handlers.

#[export] Hint Resolve ends_deleteEndpointRecords ends_deletePodFrontendData ends_storePodFrontendData
  ends_deleteFrontendByIp ends_updateServiceFrontendMap ends_deleteServiceFrontendData
  ends_storeWorkloadPolicies ends_deleteWorkloadPolicies ends_handleUnhealthyWorkload ends_compareWorkloadServices
  ends_updateWorkloadInFrontendMap ends_removeServiceResourceFromBpfMap ends_removeServiceResources
  ends_calc_prio : ends.

Section services.
Context `{E : Env} `{Persist} `{Dns}.

Lemma same_service_lookup k : ends eq (zoom bpf_l (ServiceLookup k)).
Proof.
  apply (ends_zoom eq eq); [apply (ends_zoom eq (fun m m' => m' = m)); [apply ends_map_Lookup|]|]; cbn.
  - by intros [] t ->.
  - by intros [] t <-.
Qed.
Lemma run_endpoint_lookup k w P a w' P' :
  zoom bpf_l (EndpointLookup k) w P = Done (a, w', P') -> P' = P /\ forall v, a = inl v -> listed (bpf P) v.
Proof.
  unfold EndpointLookup, zoom, map_Lookup. cbn. destruct (KmEndpoint (bpf P) !! k) eqn:Ek; intros [= <- <- <-];
    (split; [by destruct P as [? []]|]); [|done]. intros v [= <-]. by exists k.
Qed.
Lemma same_calc_prio wl rp : ends eq (calc_prio wl rp).
Proof. intros w P a w' P'. unfold calc_prio. case_match; [|done|done]. by intros [= <- <- <-]. Qed.

Lemma ends_moveEndpoint sid service toLLb ep : ends be_p (moveEndpoint sid service toLLb ep).
Proof.
  intros w P a w' P' Hr. unfold moveEndpoint in Hr. set (ek := mkEndpointKey _ _ _) in Hr.
  apply run_bind in Hr as (ev & w1 & P1 & H1 & Hr). apply run_endpoint_lookup in H1 as [-> Hev].
  destruct ev as [ev|e]; [|by injection Hr as <- <- <-]. specialize (Hev ev eq_refl).
  apply run_bind in Hr as (prio & w2 & P2 & H2 & Hr).
  assert (P2 = P) as ->.
  { pose proof same_calc_prio. symmetry. revert H2. match goal with |- ?m _ _ = _ -> _ => enough (ends eq m) as Hm; [apply Hm|] end.
    unfold load_wl. ends_auto. }
  case_decide; [by injection Hr as <- <- <-|].
  apply run_bind in Hr as (sv & w3 & P3 & H3 & Hr). apply same_service_lookup in H3 as <-.
  destruct sv as [sv|e]; [|by injection Hr as <- <- <-].
  apply run_bind in Hr as (r & w4 & P4 & H4 & Hr). apply run_addWorkloadToService in H4; [|by left].
  etrans; [exact H4|]. clear H4.
  revert Hr. match goal with |- ?m _ _ = _ -> _ => enough (ends be_p m) as Hm; [apply Hm|] end. ends_auto.
Qed.

Lemma ends_updateEndpointOneByOne sid l toLLb : ends be_p (updateEndpointOneByOne sid l toLLb).
Proof. unfold updateEndpointOneByOne, sort_endpoints, load_svc. pose proof ends_moveEndpoint. ends_auto. Qed.
Lemma ends_updateEndpointPriority sid toLLb : ends be_p (updateEndpointPriority sid toLLb).
Proof. unfold updateEndpointPriority. pose proof ends_updateEndpointOneByOne. ends_auto. Qed.
Lemma ends_updateServiceMap service old : ends be_p (updateServiceMap service old).
Proof. unfold updateServiceMap. pose proof ends_updateEndpointPriority. ends_auto. Qed.
Lemma ends_handleService q : ends be_p (handleService q).
Proof. unfold handleService, load_svc, store_svc. pose proof ends_updateServiceMap. ends_auto. Qed.
End services.

(** ** Handling a workload *)
Section workloads.
Context `{E : Env} `{Persist} `{Dns}.

(** The names that have their number keep it. *)
Definition settle_p (P P' : Processor) : Prop := hash_wf (hashName P) -> settles (hashName P) (hashName P').
#[export] Instance settle_p_refl : Reflexive settle_p.
Proof. intros P Hwf. by split. Qed.
#[export] Instance settle_p_trans : Transitive settle_p.
Proof. intros P1 P2 P3 H12 H23 Hwf. destruct (H12 Hwf) as [Hwf2 S2], (H23 Hwf2) as [Hwf3 S3]. split; auto. Qed.

Lemma run_hash s w P n w' P' :
  hash_wf (hashName P) -> hash s w P = Done (n, w', P') ->
  w' = w /\ P' = set_hashName (hashName P') P /\ settled (hashName P') s n /\ settles (hashName P) (hashName P').
Proof.
  intros Hwf Hr. unfold hash in Hr. destruct (Hash s (hashName P)) as [[m h]| |] eqn:EH; [|done|done].
  injection Hr as <- <- <-. split; [done|]. split; [done|]. cbn.
  split; [by eapply settled_Hash|]. destruct (Hash_spec s (hashName P) Hwf) as (? & ? & EH' & Hwf' & _).
  rewrite EH in EH'. injection EH' as <- <-. split; [done|]. intros t k Ht.
  eapply settled_mono; [exact Hwf|exact Ht|exact EH].
Qed.
Lemma settle_hash s : ends settle_p (hash s).
Proof. intros w P n w' P' Hr Hwf. by eapply run_hash. Qed.
Lemma settle_bpf {A} (m : Go Cache A) : ends settle_p (zoom bpf_l m).
Proof. apply (ends_zoom settle_p (fun _ _ => True)); [done|]. intros P c _ Hwf. by split. Qed.
Lemma settle_mod f : (forall P, hashName (f P) = hashName P) -> ends settle_p (modify f).
Proof. intros Hf. apply ends_modify. intros P Hwf. rewrite Hf. by split. Qed.
#[local] Hint Resolve settle_hash settle_bpf : ends.
#[local] Hint Extern 1 (ends settle_p (modify _)) => by apply settle_mod : ends.

Lemma settle_deleteEndpointRecords l : ends settle_p (deleteEndpointRecords l).
Proof. unfold deleteEndpointRecords, sort_keys, deleteEndpointRecord. ends_auto. Qed.
Lemma settle_compareWorkloadServices x : ends settle_p (compareWorkloadServices x).
Proof. unfold compareWorkloadServices. ends_auto. Qed.
Lemma settle_storeWorkloadPolicies u l : ends settle_p (storeWorkloadPolicies u l).
Proof. unfold storeWorkloadPolicies. ends_auto. Qed.

(** A workload with an address is in the backend map when its update succeeds. *)
Lemma run_update_loop (l : list bytes) n f bip0 w P bip err w' P' :
  fold_until l (bip0, None) (fun '(bip, _) ip =>
    let bip := CopyIpByteFromSlice bip ip in
    err ← zoom bpf_l (BackendUpdate n (f bip));
    match err with
    | Some err => mret (bip, Some err, true)
    | None => mret (bip, None, false)
    end) w P = Done (bip, err, w', P') ->
  be_p P P' /\ hashName P' = hashName P /\ (err = None -> l <> [] \/ backed (bpf P) n -> backed (bpf P') n).
Proof.
  revert bip0 w P. induction l as [|ip l IH]; intros bip0 w P Hr; cbn [fold_until] in Hr.
  { injection Hr as <- <- <- <-. split; [reflexivity|]. split; [done|]. by intros _ [?|?]. }
  apply run_bind in Hr as ([[bip1 err1] stop] & w1 & P1 & H1 & Hr).
  apply run_bind in H1 as (e & w2 & P2 & H2 & H1).
  assert (be_p P P2 /\ hashName P2 = hashName P /\ (e = None -> backed (bpf P2) n)) as (Hbe & Hh & Hn).
  { split; [eapply ends_bpf; [apply ends_BackendUpdate|exact H2]|]. revert H2.
    unfold BackendUpdate, zoom, map_Update. cbn. destruct (upd_err _ _); cbn; intros [= <- <- <-]; (split; [done|]); [done|].
    intros _. unfold backed. cbn. rewrite lookup_insert_eq. by eexists. }
  destruct e as [e|]; injection H1 as <- <- <- <- <-.
  - injection Hr as <- <- <- <-. done.
  - apply IH in Hr as (Hbe' & Hh' & Hn'). split; [by etrans|]. split; [congruence|]. auto.
Qed.

Lemma run_updateWorkloadInBackendMap x w P err w' P' :
  hash_wf (hashName P) -> wl_addresses x <> [] ->
  updateWorkloadInBackendMap x w P = Done (err, w', P') ->
  be_p P P' /\ settles (hashName P) (hashName P') /\
  (err = None -> exists n, settled (hashName P') (wl_uid x) n /\ backed (bpf P') n).
Proof.
  intros Hwf Ha Hr. unfold updateWorkloadInBackendMap in Hr.
  apply run_bind in Hr as (n & w1 & P1 & H1 & Hr). pose proof (ends_hash _ _ _ _ _ _ H1) as Hbe1.
  apply run_hash in H1 as (-> & HP1 & Hn & Hs1); [|done].
  destruct (match wl_waypoint x with Some _ => _ | None => _ end) as [addr port].
  apply run_bind in Hr as (svcs & w2 & P2 & H2 & Hr). apply (ends_range eq) in H2 as <-.
  apply run_bind in Hr as ([ids count] & w3 & P3 & H3 & Hr).
  assert (be_p P1 P3) as Hbe3.
  { revert H3. match goal with |- ?m _ _ = _ -> _ => enough (ends be_p m) as Hm; [apply Hm|] end. ends_auto. }
  assert (settles (hashName P1) (hashName P3)) as Hs3.
  { destruct Hs1 as [Hwf1 _]. revert Hwf1. revert H3.
    match goal with |- ?m _ _ = _ -> _ => enough (ends settle_p m) as Hm; [apply Hm|] end. ends_auto. }
  apply run_bind in Hr as ([bip e] & w4 & P4 & H4 & Hr). injection Hr as <- <- <-.
  apply (run_update_loop _ n (fun bip => mkBackendValue bip (Z.of_nat count) ids addr port)) in H4
    as (Hbe4 & Hh4 & Hn4). cbn [snd]. split; [etrans; [exact Hbe1|by etrans]|].
  rewrite Hh4. destruct Hs1 as [Hwf1 Hs1], Hs3 as [Hwf3 Hs3]. split; [split; auto|].
  intros ->. exists n. auto.
Qed.

(** Binding a workload that is in the backend map. *)
Definition be_from (n : Z) (P P' : Processor) : Prop := backed (bpf P) n -> be_p P P'.
#[export] Instance be_from_refl n : Reflexive (be_from n).
Proof. intros P _. reflexivity. Qed.
#[export] Instance be_from_trans n : Transitive (be_from n).
Proof. intros P1 P2 P3 H12 H23 Hn. specialize (H12 Hn). etrans; [exact H12|]. apply H23. by apply H12. Qed.
Lemma ends_from {A} n (m : Go Processor A) : ends be_p m -> ends (be_from n) m.
Proof. intros Hm w P a w' P' Hr _. by eapply Hm. Qed.

Lemma ends_bindNewService x n sid : ends (be_from n) (bindNewService x n sid).
Proof.
  assert (forall sv prio, ends (be_from n) (addWorkloadToService sid sv n prio)) as Hadd.
  { intros sv prio w P r w' P' Hr Hn. eapply run_addWorkloadToService; [exact Hr|by right]. }
  assert (forall A (f : Processor -> A), ends (be_from n) (gets f)) as Hgets.
  { intros A f. apply ends_gets, _. }
  unfold bindNewService, load_svc. repeat first [ends_step | apply ends_from; ends_step].
Qed.

Lemma run_handleWorkloadNewBoundServices x l n w P e w' P' :
  settled (hashName P) (wl_uid x) n -> backed (bpf P) n ->
  handleWorkloadNewBoundServices x l w P = Done (e, w', P') -> be_p P P'.
Proof.
  intros Hs Hn Hr. unfold handleWorkloadNewBoundServices in Hr. case_decide as Hl; [by injection Hr as <- <- <-|].
  apply run_bind in Hr as (n' & w1 & P1 & H1 & Hr). unfold hash in H1. rewrite Hs in H1. injection H1 as <- <- <-.
  rewrite set_hashName_id in Hr. revert Hr Hn.
  match goal with |- ?m _ _ = _ -> _ => enough (ends (be_from n) m) as Hm; [apply Hm|] end.
  pose proof ends_bindNewService. ends_auto.
Qed.
End workloads.

#[export] Hint Resolve settle_hash settle_bpf settle_storeWorkloadPolicies : ends.
#[export] Hint Extern 1 (ends settle_p (modify _)) => by apply settle_mod : ends.

Section handleWorkload.
Context `{E : Env} `{!DeletesSucceed E} `{Persist} `{Dns}.
Abbreviation inv := (p_inv true false).

Lemma run_both {A} (m : Go Processor A) w P a w' P' :
  m w P = Done (a, w', P') -> ends be_p m -> ends settle_p m -> hash_wf (hashName P) ->
  be_p P P' /\ hash_wf (hashName P').
Proof. intros Hr Hb Hs Hwf. split; [by eapply Hb|by eapply Hs]. Qed.

(** The part of [handleWorkload] that binds a healthy workload. *)
Lemma run_bindings (x : Workload) (rest : Go Processor (option error)) w P e w' P' :
  hash_wf (hashName P) -> wl_addresses x <> [] -> ends be_p rest ->
  (err ← updateWorkloadInBackendMap x;
   match err with
   | Some _ => mret (Some (Errorf "updateWorkloadInBackendMap failed"))
   | None =>
       r ← compareWorkloadServices x;
       let '(unboundedEndpointKeys, newServices) := r in
       err ← handleWorkloadUnboundServices unboundedEndpointKeys;
       match err with
       | Some _ => mret (Some (Errorf "handleWorkloadUnboundServices failed"))
       | None =>
           err ← handleWorkloadNewBoundServices x newServices;
           match err with
           | Some _ => mret (Some (Errorf "handleWorkloadNewBoundServices failed"))
           | None => rest
           end
       end
   end) w P = Done (e, w', P') -> be_p P P'.
Proof.
  intros Hwf Ha Hrest Hr. apply run_bind in Hr as (err & w1 & P1 & H1 & Hr).
  apply run_updateWorkloadInBackendMap in H1 as (Hbe1 & [Hwf1 _] & Hn); [|done|done].
  etrans; [exact Hbe1|]. destruct err as [err|]; [by injection Hr as <- <- <-|].
  destruct (Hn eq_refl) as (n & Hsn & Hbn). clear Hn Hbe1.
  apply run_bind in Hr as ([keys news] & w2 & P2 & H2 & Hr).
  pose proof (ends_compareWorkloadServices _ _ _ _ _ _ H2) as Hbe2.
  apply settle_compareWorkloadServices in H2. destruct (H2 Hwf1) as [Hwf2 Hs2].
  etrans; [exact Hbe2|]. apply run_bind in Hr as (err & w3 & P3 & H3 & Hr).
  pose proof (ends_deleteEndpointRecords _ _ _ _ _ _ H3) as Hbe3.
  apply settle_deleteEndpointRecords in H3. destruct (H3 Hwf2) as [_ Hs3].
  etrans; [exact Hbe3|]. destruct err as [err|]; [by injection Hr as <- <- <-|].
  apply run_bind in Hr as (err & w4 & P4 & H4 & Hr).
  apply (run_handleWorkloadNewBoundServices x news n) in H4; [|by auto|by apply Hbe3, Hbe2].
  etrans; [exact H4|]. destruct err as [err|]; [by injection Hr as <- <- <-|]. by eapply Hrest.
Qed.

Lemma run_handleWorkload q w P e w' P' :
  inv w P -> is_Some (wls w !! q) -> wl_addresses (get_wl q w) <> [] ->
  handleWorkload q w P = Done (e, w', P') -> be_p P P'.
Proof.
  intros HP [x Hx] Ha Hr. unfold handleWorkload in Hr.
  apply run_bind in Hr as (sc & w0 & P0 & [= <- <- <-] & Hr).
  apply run_bind in Hr as (resolved & w1 & P1 & H1 & Hr).
  assert (be_p P P1 /\ hashName P1 = hashName P) as [Hbe1 Hh1].
  { split; [eapply (ends_other wp_l); [done|exact H1]|]. by apply run_zoom in H1 as (t & _ & ->). }
  assert (heap_le w w1) as Hle.
  { eapply (wp_elim true _ (fun _ w' _ => heap_le w w')); [|exact H1]. apply wp_zoom, wp_AddOrUpdateWorkload_any.
    - by eexists.
    - apply HP.
    - done.
    - by intros. }
  etrans; [exact Hbe1|]. destruct resolved; [|by injection Hr as <- <- <-].
  apply run_bind in Hr as (y & w2 & P2 & [= <- <- <-] & Hr).
  assert (wl_addresses (get_wl q w1) <> []) as Ha1.
  { destruct (proj2 Hle q x Hx) as [g Hg]. unfold get_wl in *. rewrite Hx in Ha. by rewrite Hg. }
  assert (hash_wf (hashName P1)) as Hwf by (rewrite Hh1; apply HP). clear Hbe1 Hh1 H1.
  set (x1 := get_wl q w1) in *.
  apply run_bind in Hr as (old & w2 & P2 & [= <- <- <-] & Hr).
  apply run_bind in Hr as ([] & w2 & P2 & H2 & Hr).
  assert (be_p P1 P2 /\ hash_wf (hashName P2)) as [Hbe2 Hwf2].
  { split; [by eapply (ends_other wl_l)|]. by apply run_zoom in H2 as (t & _ & ->). }
  etrans; [exact Hbe2|]. clear Hbe2 H2.
  apply run_bind in Hr as (node & w3 & P3 & [= <- <- <-] & Hr).
  apply run_bind in Hr as ([] & w3 & P3 & H3 & Hr).
  apply run_both in H3 as [Hbe3 Hwf3]; [|ends_auto|ends_auto|done].
  etrans; [exact Hbe3|]. clear Hbe3.
  apply run_bind in Hr as (info & w4 & P4 & [= <- <- <-] & Hr).
  apply run_bind in Hr as ([] & w4 & P4 & H4 & Hr).
  apply run_both in H4 as [Hbe4 Hwf4]; [|ends_auto|ends_auto|done].
  etrans; [exact Hbe4|]. clear Hbe4. case_decide.
  - revert Hr. apply ends_handleUnhealthyWorkload.
  - eapply run_bindings; [done|exact Ha1| |exact Hr]. unfold load_wl. ends_auto.
Qed.
End handleWorkload.

(** ** Removing a workload *)
Section removal.
Context `{E : Env} `{!Reliable E} `{Persist} `{Dns}.
Abbreviation inv := (p_inv true false).

Lemma wp_ends {A} (m : Go Processor A) R (Q : A -> World -> Processor -> Prop) w P :
  wp true m Q w P -> ends R m -> wp true m (fun a w' P' => Q a w' P' /\ R P P') w P.
Proof.
  unfold wp. intros HQ HR. destruct (m w P) as [[[a w'] P']| |] eqn:Em; [|done|done]. split; [done|by eapply HR].
Qed.

Lemma wp_and_run {A} (m : Go Processor A) (Q : A -> World -> Processor -> Prop) w P :
  wp true m Q w P -> wp true m (fun a w' P' => Q a w' P' /\ m w P = Done (a, w', P')) w P.
Proof. unfold wp. by destruct (m w P) as [[[a w'] P']| |]. Qed.

(** The loop over the keys of [u], the last slots first, before the keys [l]:
    what is left of [u] is among them, even if the index has keys too many. *)
Record clearing (u : Z) (l : list EndpointKey) (c : Cache) : Prop := {
  cl_inv : ep_inv c;
  cl_exact : ep_exact c;
  cl_sorted : StronglySorted (fun x y => before (rank_of x) (rank_of y)) l;
  cl_nodup : NoDup l;
  cl_all : forall k, KmEndpoint c !! k = Some u -> k ∈ l
}.

Lemma clearing_step u ek l w P :
  clearing u (ek :: l) (bpf P) -> wp true (deleteEndpointRecord ek) (fun _ _ P' => clearing u l (bpf P')) w P.
Proof.
  intros [Hinv Hex Hs Hnd Hall].
  assert (KmEndpoint (bpf P) !! ek = None -> clearing u l (bpf P)) as Hskip.
  { intros Hn. split; [done|done|by apply StronglySorted_inv in Hs as []|by apply NoDup_cons in Hnd as []|].
    intros k Hk. specialize (Hall k Hk). apply elem_of_cons in Hall as [->|?]; [congruence|done]. }
  unfold deleteEndpointRecord. destruct (KmEndpoint (bpf P) !! ek) as [v|] eqn:Hek.
  2: { apply wp_bind, wp_service_lookup; [intros sv _|intros _];
       (apply wp_bind, wp_endpoint_lookup; [congruence|intros _; wp_steps; auto]). }
  destruct (Hex ek) as (sv & n & Hsv & Hn & Hle); [by eexists|].
  destruct (ei_keys _ Hinv ek) as [Hp Hb]; [by eexists|].
  assert (is_Some (KmEndpoint (bpf P) !! mkEndpointKey (ServiceId ek) (Prio ek) n)) as Hlast.
  { eapply Hinv; [done|lia|done|lia]. }
  apply wp_bind, wp_service_lookup; [|congruence]. intros sv' Hsv'. assert (sv' = sv) as -> by congruence.
  apply wp_bind, wp_endpoint_lookup; [|congruence]. intros v' Hv'. assert (v' = v) as -> by congruence.
  apply wp_bind, wp_zoom. eapply wp_deleteEndpoint; [done|done|done|done|done|..]; cbn [lset bpf_l].
  2: { intros e w' c' _ HR. by destruct (HR _). }
  intros w' c' _ Hinv' Hex' [HE _ _ _]. wp_steps. cbn. split; [done|by apply Hex'| | |].
  - by apply StronglySorted_inv in Hs as [].
  - by apply NoDup_cons in Hnd as [].
  - intros k. rewrite HE, remove_slot_lookup by done. case_decide as Hkl; [done|]. case_decide as Hke.
    + intros Hv. apply Hall, elem_of_cons in Hv as [Hv|Hv]; [congruence|].
      by destruct (later_keys ek l n _ Hs Hnd Hle Hv).
    + intros Hv. by apply Hall, elem_of_cons in Hv as [->|].
Qed.

Lemma clearing_all u l w P :
  ep_inv (bpf P) -> ep_exact (bpf P) -> NoDup l -> (forall k, KmEndpoint (bpf P) !! k = Some u -> k ∈ l) ->
  wp true (deleteEndpointRecords l) (fun _ _ P' => ~ listed (bpf P') u) w P.
Proof.
  intros Hinv Hex Hnd Hall. unfold deleteEndpointRecords. case_decide as Hlen.
  { apply length_zero_iff_nil in Hlen as ->. wp_steps. intros [k Hk]. by apply Hall, elem_of_nil in Hk. }
  unfold sort_keys. wp_steps. rename l' into l1. set (l2 := merge_sort _ l1).
  assert (l2 ≡ₚ l) as Hperm by (unfold l2; by rewrite merge_sort_Permutation).
  apply (wp_fold_each true (fun l' _ _ P' => clearing u l' (bpf P'))).
  - split; [done|done| | |].
    + apply Sorted_StronglySorted; [intros x y z; apply before_trans|]. apply Sorted_merge_sort.
      intros x y. apply before_total.
    + by rewrite Hperm.
    + intros k. rewrite Hperm. apply Hall.
  - intros ek l' [] w1 P1. apply clearing_step.
  - intros [] w1 P1 [_ _ _ _ Hal]. wp_steps. intros [k Hk]. by apply Hal, elem_of_nil in Hk.
Qed.

Lemma be_removeWorkloadFromBpfMap x w P :
  inv w P -> be_inv (bpf P) -> wp true (removeWorkloadFromBpfMap x) (fun _ _ P' => be_inv (bpf P')) w P.
Proof.
  intros HP Hbe. unfold removeWorkloadFromBpfMap. wp_step.
  eapply wp_mono; [apply (wp_ends _ be_p); [by apply (keeps_hash true false)|apply ends_hash]|].
  intros n w1 P1 [[HP1 _] Hb1]. wp_step.
  eapply wp_mono; [apply (wp_ends _ be_p); [by apply (keeps_deletePodFrontendData true false)|]|].
  { apply ends_deletePodFrontendData. }
  intros err w2 P2 [[HP2 _] Hb2]. assert (be_inv (bpf P2)) as Hbe2 by (eapply be_rel_inv, be_rel_inv, Hbe; done).
  destruct err; [by wp_steps|]. wp_steps.
  eapply (wp_mono _ _ (fun err w3 P3 => be_inv (bpf P3) /\ ~ listed (bpf P3) n)).
  { case_decide as Hsz.
    - wp_steps. rename l' into l, H1 into Hl. eapply wp_mono; [apply (wp_ends _ be_p)|].
      + apply (clearing_all n l); [apply HP2|apply HP2, _|rewrite Hl; apply NoDup_elements|].
        intros k Hk. rewrite Hl, elem_of_elements. by apply (ei_index _ (pi_ep _ _ _ _ HP2)).
      + apply ends_deleteEndpointRecords.
      + intros e w3 P3 [Hno Hb3]. split; [by eapply be_rel_inv|done].
    - wp_steps. split; [done|]. intros [k Hk]. apply (ei_index _ (pi_ep _ _ _ _ HP2)) in Hk.
      assert (size (GetEndpointKeys n (bpf P2)) = 0%nat) as Hs0 by lia. apply size_empty_inv in Hs0. set_solver. }
  intros err w3 P3 [Hbe3 Hno]. destruct err; [by wp_steps|]. wp_step. apply wp_BackendDelete. intros w4 _.
  set (P4 := set_bpf _ P3). assert (be_inv (bpf P4)) as Hbe4.
  { intros u Hu. specialize (Hbe3 u Hu). unfold backed in *. cbn. rewrite lookup_delete_ne; [done|]. by intros ->. }
  clearbody P4. wp_steps.
  eapply (wp_mono _ _ (fun _ _ P' => be_inv (bpf P'))); [|intros; unfold hash_delete; by wp_steps].
  case_decide; [|by wp_steps]. unfold deleteWorkloadPolicies. wp_step. apply wp_WorkloadPolicyDelete.
  intros w5 _. by wp_steps.
Qed.
End removal.

(** ** Reachable states *)
Section reachable.
Context `{E : Env} `{!Reliable E} `{Persist} `{Dns}.
Abbreviation inv := (p_inv true false).
Definition inv_be (w : World) (P : Processor) : Prop := inv w P /\ be_inv (bpf P).
Abbreviation keep_be m := (stays true inv_be heap_rel m).

Lemma keep_both {A} (m : Go Processor A) : keeps true false m -> ends be_p m -> keep_be m.
Proof.
  intros Hk He w P [HP Hbe]. eapply wp_mono; [apply (wp_ends _ be_p); [by apply Hk|done]|].
  intros a w' P' [[HP' Hh] Hb]. split; [|done]. split; [done|]. by eapply be_rel_inv.
Qed.

Lemma keep_removeWorkloadFromBpfMap x : keep_be (removeWorkloadFromBpfMap x).
Proof.
  intros w P [HP Hbe]. eapply wp_mono.
  { apply wp_and; [by apply (keeps_removeWorkloadFromBpfMap true false)|by apply be_removeWorkloadFromBpfMap]. }
  intros a w' P' [[HP' Hh] Hbe']. by split.
Qed.
#[local] Hint Resolve keep_removeWorkloadFromBpfMap : stays.
#[local] Hint Extern 2 (keep_be (zoom _ _)) => apply keep_both; [eauto with stays nocore|eauto with ends nocore] : stays.
#[local] Hint Extern 2 (keep_be (modify _)) => apply keep_both; [eauto with stays nocore|eauto with ends nocore] : stays.

Lemma keep_removeWorkload uid : keep_be (removeWorkload uid).
Proof. unfold removeWorkload. stays_auto. Qed.
Lemma keep_handleRemovedAddresses l : keep_be (handleRemovedAddresses l).
Proof.
  unfold handleRemovedAddresses, removeWorkloadResources. pose proof keep_removeWorkload.
  assert (forall l, keep_be (removeServiceResources l)) by
    (intros; apply keep_both; [apply keeps_removeServiceResources|apply ends_removeServiceResources]).
  stays_auto.
Qed.
Lemma keep_handleRemovedAddressesDuringRestart : keep_be handleRemovedAddressesDuringRestart.
Proof.
  unfold handleRemovedAddressesDuringRestart.
  assert (forall A (l : list A), keep_be (range l)) by (intros; apply keep_both; [apply keeps_range|ends_auto]).
  assert (forall x n, keep_be (removeServiceResourceFromBpfMap x n)) by
    (intros; apply keep_both; [apply keeps_removeServiceResourceFromBpfMap|ends_auto]).
  stays_auto.
Qed.

Lemma run_resolve q w P q' w' P' :
  resolve_addresses q w P = Done (Some q', w', P') -> wl_addresses (get_wl q' w') <> [].
Proof.
  intros Hr. unfold resolve_addresses in Hr. apply run_bind in Hr as (x & w0 & P0 & [= <- <- <-] & Hr).
  destruct (wl_addresses (get_wl q w)) as [|a l] eqn:Ea.
  2: { injection Hr as <- <- <-. by rewrite Ea. }
  apply run_bind in Hr as (dns & w1 & P1 & [= <- <- <-] & Hr). destruct (dnsEnabled P); [|done].
  apply run_bind in Hr as ([] & w1 & P1 & [= <- <-] & Hr). apply run_bind in Hr as (ans & w1 & P1 & [= <- <- <-] & Hr).
  apply run_bind in Hr as ([] & w1 & P1 & [= <- <-] & Hr). destruct (dns_answer _ _) as [[x|]|]; [|done|done].
  revert Hr. destruct (wl_addresses x) eqn:Ex; [done|]. intros [= <- <- <-]. unfold get_wl. cbn.
  rewrite lookup_insert_eq. cbn. by rewrite Ex.
Qed.

Lemma be_resolve q : ends be_p (resolve_addresses q).
Proof. unfold resolve_addresses, new_wl, store_wl, load_wl. ends_auto. Qed.

(** The loop over the workloads of a response. *)
Lemma inv_be_workloads l w P (Q : unit -> World -> Processor -> Prop) :
  inv_be w P -> wls_valid w l -> (forall w' P', inv_be w' P' -> Q tt w' P') ->
  wp true (fold_each l tt (fun _ workload =>
    q ← resolve_addresses workload;
    match q with
    | None => mret tt
    | Some q => handleWorkload q;; mret tt
    end)) Q w P.
Proof.
  intros HP Hl HQ. apply (wp_fold_each true (fun l _ w' P' => inv_be w' P' /\ wls_valid w' l)).
  - done.
  - clear HP Hl HQ. intros q l' [] w1 P1 ([HP1 Hbe1] & Hl). apply Forall_cons in Hl as [Hq Hl]. wp_step.
    eapply wp_mono; [apply wp_and_run, (inv_resolve q w1 P1 (fun r w' P' => inv w' P' /\ heap_le w1 w' /\
      forall q', r = Some q' -> is_Some (wls w' !! q'))); [done|done|by auto]|].
    intros r w2 P2 [(HP2 & Hh2 & Hv2) Hr]. pose proof (be_resolve q _ _ _ _ _ Hr) as Hb.
    assert (be_inv (bpf P2)) as Hbe2 by (by eapply be_rel_inv).
    destruct r as [q'|]; [|wp_steps; split; [by split|by eapply wls_valid_le]]. apply run_resolve in Hr.
    wp_step. eapply wp_mono; [apply wp_and_run, (keeps_handleWorkload true false); [done|by apply Hv2]|].
    intros e w3 P3 [[HP3 Hh3] Hrun]. apply run_handleWorkload in Hrun; [|done|by apply Hv2|done].
    wp_steps. split; [split; [done|by eapply be_rel_inv]|].
    eapply wls_valid_le; [|exact Hl]. etrans; [exact Hh2|exact Hh3].
  - intros [] w1 P1 [HP1 _]. by apply HQ.
Qed.

Lemma inv_be_handleServicesAndWorkloads ss ws w P (Q : unit -> World -> Processor -> Prop) :
  inv_be w P -> svcs_valid w ss -> wls_valid w ws -> (forall w' P', inv_be w' P' -> Q tt w' P') ->
  wp true (handleServicesAndWorkloads ss ws) Q w P.
Proof.
  intros [HP Hbe] Hss Hws HQ. pose proof ends_handleService. unfold handleServicesAndWorkloads. wp_step.
  eapply wp_mono.
  { apply (wp_ends _ be_p).
    - apply (inv_first_loop ss w P ws (fun r w' P' => inv w' P' /\ svcs_valid w' r.1 /\ wls_valid w' r.2)); auto.
    - ends_auto. }
  intros [rs rw] w1 P1 [(HP1 & Hrs & Hrw) Hb1]. cbn in Hrs, Hrw.
  assert (be_inv (bpf P1)) as Hbe1 by (by eapply be_rel_inv). wp_step.
  eapply wp_mono.
  { apply (wp_ends _ be_p (fun _ w' P' => inv w' P' /\ wls_valid w' rw)).
    - apply (wp_fold_each true (fun l _ w' P' => inv w' P' /\ svcs_valid w' l /\ wls_valid w' rw)).
      + done.
      + intros q l [] w2 P2 (HP2 & Hl & Hw2). apply Forall_cons in Hl as [Hq Hl]. wp_step.
        apply inv_handleService; [done|done|]. intros _ w3 P3 HP3 Hh3. wp_steps. split; [done|].
        split; [by eapply svcs_valid_le|by eapply wls_valid_le].
      + by intros [] w2 P2 (HP2 & _ & Hw2).
    - ends_auto. }
  intros [] w2 P2 [[HP2 Hw2] Hb2]. apply inv_be_workloads; [|done|done]. split; [done|by eapply be_rel_inv].
Qed.

Lemma inv_be_response resources removed w P :
  inv_be w P -> wp true (handleAddressTypeResponse resources removed) (fun _ w' P' => inv_be w' P') w P.
Proof.
  intros [HP Hbe]. unfold handleAddressTypeResponse. wp_step. eapply wp_mono.
  { apply (wp_ends _ be_p).
    - apply (inv_decode resources w P (fun r w' P' => inv w' P' /\ svcs_valid w' r.1.1 /\ wls_valid w' r.1.2)); auto.
    - unfold new_wl, new_svc, store_wl, store_svc. ends_auto. }
  intros [[ss ws] err] w1 P1 [(HP1 & Hs & Hw) Hb1]. cbn in Hs, Hw. wp_step.
  apply inv_be_handleServicesAndWorkloads; [|done|done|]. { split; [done|by eapply be_rel_inv]. }
  intros w2 P2 HP2.
  assert (keep_be (modify (set_once true))) as Hset by (apply keep_both; [by apply keeps_modify|by apply ends_mod]).
  pose proof keep_handleRemovedAddresses. pose proof keep_handleRemovedAddressesDuringRestart.
  assert (keep_be (handleRemovedAddresses removed;;
    done ← gets once;
    (if done : bool then mret tt else modify (set_once true);; handleRemovedAddressesDuringRestart);;
    mret err)) as Hk by stays_auto.
  eapply wp_mono; [by apply Hk|]. by intros e w3 P3 [HP3 _].
Qed.

Lemma reachable_inv_be s : reachable s -> inv_be s.1 s.2.
Proof.
  intros Hr. split; [by apply reachable_inv|]. induction Hr as [h node Hh|s s' Hr IH Hstep].
  - intros u [k Hk]. cbn in Hk. by rewrite lookup_empty in Hk.
  - pose proof (reachable_inv _ Hr) as HP.
    destruct Hstep as [resources removed w P err w' P' HE|w P h w' c' Hh HE]; cbn in *.
    + eapply wp_elim in HE; [|by apply inv_be_response]. apply HE.
    + set (c0 := NewCache _ _ _ _ _) in HE. eapply (wp_elim true) in HE; [|by apply wp_RestoreEndpointKeys].
      destruct HE as (_ & HE & HB & _). intros u [k Hk]. rewrite HE in Hk. unfold backed. rewrite HB. apply IH. by exists k.
Qed.
End reachable.

(** ** Theorem *)

(** C12: when no deletion fails and updates fail only on a full map, in every
    state the daemon can reach each endpoint of the endpoint map names a
    workload that is in the backend map: no number the load balancer draws
    leads to a workload that was removed. *)
Theorem every_endpoint_has_backend `{E : Env} `{!Reliable E} `{Persist} `{Dns}
    (w : World) (P : Processor) (k : EndpointKey) (uid : Z) :
  reachable (w, P) -> KmEndpoint (bpf P) !! k = Some uid -> exists bv, KmBackend (bpf P) !! uid = Some bv.
Proof. intros Hr Hk. apply reachable_inv_be in Hr as [_ Hbe]. apply Hbe. by exists k. Qed.

Lemma every_endpoint_has_backend_witness :
  exists uid bv, KmEndpoint (bpf demo_end.2) !! mkEndpointKey demo_sid 0 1 = Some uid /\
    KmBackend (bpf demo_end.2) !! uid = Some bv.
Proof.
  destruct (KmEndpoint (bpf demo_end.2) !! mkEndpointKey demo_sid 0 1) as [uid|] eqn:Hk; [|vm_compute in Hk; discriminate].
  destruct (@every_endpoint_has_backend EnvOk _ PersistOk demo_dns demo_end.1 demo_end.2 (mkEndpointKey demo_sid 0 1) uid)
    as [bv Hbv].
  - rewrite <-surjective_pairing. exact demo_reachable.
  - exact Hk.
  - exists uid, bv. split; [reflexivity|exact Hbv].
Defined.
