(* ===== verification/BpfCommon.v ===== *)
(** * The kernel side: [bpf/include/common.h], [bpf/include/bpf_common.h],
      [bpf/kmesh/probes]

    Memory as the BPF programs see it, the state of the kernel that they read
    and write, and the operations they share: which network namespaces and
    addresses are managed, and the report of a connection to user space.  The
    programs run on a little-endian machine, on kernels whose [remote_port] is
    in the upper half (the default of [kmesh_marcos_def.h]).  Logging is left
    out, and so are the performance probes, which [PERF_MONITOR 0] compiles
    to nothing. *)
From S2P Require Import Prelude GoNet Nets Api Runtime BpfCache.

(** ** Memory

    A struct that C code views in several ways is its bytes: [ld n off m] reads
    [n] bytes at [off] as a little-endian number, [st n off v m] writes them. *)
Definition ld (n off : nat) (m : bytes) : Z := le_uint (take n (drop off m)).
Definition memcpy (off : nat) (src m : bytes) : bytes :=
  take off m ++ src ++ drop (off + length src) m.
Definition st (n off : nat) (v : Z) (m : bytes) : bytes := memcpy off (le_bytes n v) m.

Definition bpf_ntohs (x : Z) : Z := be_uint (le_bytes 2 x).
Definition bpf_htons (x : Z) : Z := be_uint (le_bytes 2 x).
Definition bpf_ntohl (x : Z) : Z := be_uint (le_bytes 4 x).
Definition bpf_htonl (x : Z) : Z := be_uint (le_bytes 4 x).

(** [struct ip_addr], a union of [ip4] and [ip6[4]]: 16 bytes. *)
Abbreviation ip_addr := bytes (only parsing).
Definition ip4 (a : ip_addr) : Z := ld 4 0 a.
Definition set_ip4 (v : Z) (a : ip_addr) : ip_addr := st 4 0 v a.
Definition ip6 (i : nat) (a : ip_addr) : Z := ld 4 (4 * i) a.

Definition is_ipv4_mapped_addr (a : ip_addr) : bool :=
  (ip6 0 a =? 0) && (ip6 1 a =? 0) && (ip6 2 a =? 4294901760).
Definition V4_MAPPED_REVERSE (a : ip_addr) : ip_addr :=
  let a := st 4 0 (ip6 3 a) a in
  let a := st 4 4 0 a in
  let a := st 4 8 0 a in
  st 4 12 0 a.
(** [ipv4] is read once per use: in [V4_MAPPED_TO_V6(x.ip4, x.ip6)] the first
    assignment leaves [x.ip4] alone. *)
Definition V4_MAPPED_TO_V6 (a : ip_addr) : ip_addr :=
  let a := st 4 12 (ip4 a) a in
  let a := st 4 8 4294901760 a in
  let a := st 4 4 0 a in
  st 4 0 0 a.

(** [struct bpf_sock_tuple], a union of an [ipv4] tuple (12 bytes) and an
    [ipv6] tuple (36 bytes). *)
Abbreviation bpf_sock_tuple := bytes (only parsing).
Definition tuple_zero : bpf_sock_tuple := replicate 36 0.
Definition v4_saddr (t : bpf_sock_tuple) : Z := ld 4 0 t.
Definition v4_daddr (t : bpf_sock_tuple) : Z := ld 4 4 t.
Definition v4_sport (t : bpf_sock_tuple) : Z := ld 2 8 t.
Definition v4_dport (t : bpf_sock_tuple) : Z := ld 2 10 t.
Definition v6_saddr (t : bpf_sock_tuple) : bytes := take 16 t.
Definition v6_daddr (t : bpf_sock_tuple) : bytes := take 16 (drop 16 t).
Definition v6_sport (t : bpf_sock_tuple) : Z := ld 2 32 t.
Definition v6_dport (t : bpf_sock_tuple) : Z := ld 2 34 t.
Definition set_v4_saddr v (t : bpf_sock_tuple) := st 4 0 v t.
Definition set_v4_daddr v (t : bpf_sock_tuple) := st 4 4 v t.
Definition set_v4_sport v (t : bpf_sock_tuple) := st 2 8 v t.
Definition set_v4_dport v (t : bpf_sock_tuple) := st 2 10 v t.
Definition set_v6_saddr v (t : bpf_sock_tuple) := memcpy 0 v t.
Definition set_v6_daddr v (t : bpf_sock_tuple) := memcpy 16 v t.
Definition set_v6_sport v (t : bpf_sock_tuple) := st 2 32 v t.
Definition set_v6_dport v (t : bpf_sock_tuple) := st 2 34 v t.

(** ** Contexts *)
Definition AF_INET : Z := 2.
Definition AF_INET6 : Z := 10.
Definition IPPROTO_TCP : Z := 6.
Definition ENOENT : Z := 2.
Definition EINVAL : Z := 22.

(** The context of the [connect], [sendmsg] and [recvmsg] hooks, with the
    cookie of the network namespace it runs in. *)
Record bpf_sock_addr : Type := mkSockAddr {
  user_family : Z;
  user_ip4 : Z;
  user_ip6 : ip_addr;
  user_port : Z;               (* network order *)
  family : Z;
  protocol : Z;
  netns_cookie : Z
}.
Definition set_user_ip4 v (c : bpf_sock_addr) := mkSockAddr (user_family c) v (user_ip6 c) (user_port c)
  (family c) (protocol c) (netns_cookie c).
Definition set_user_ip6 v (c : bpf_sock_addr) := mkSockAddr (user_family c) (user_ip4 c) v (user_port c)
  (family c) (protocol c) (netns_cookie c).
Definition set_user_port v (c : bpf_sock_addr) := mkSockAddr (user_family c) (user_ip4 c) (user_ip6 c) v
  (family c) (protocol c) (netns_cookie c).

Record kmesh_context : Type := mkKctx {
  kc_ctx : bpf_sock_addr;
  orig_dst_addr : ip_addr;
  dnat_ip : ip_addr;
  dnat_port : Z;
  kc_via_waypoint : bool
}.
Definition set_dnat_ip v (k : kmesh_context) :=
  mkKctx (kc_ctx k) (orig_dst_addr k) v (dnat_port k) (kc_via_waypoint k).
Definition set_dnat_port v (k : kmesh_context) :=
  mkKctx (kc_ctx k) (orig_dst_addr k) (dnat_ip k) v (kc_via_waypoint k).
Definition set_via_waypoint v (k : kmesh_context) :=
  mkKctx (kc_ctx k) (orig_dst_addr k) (dnat_ip k) (dnat_port k) v.

(** The context of the sockops hook, with the socket it is about. *)
Record bpf_sock : Type := mkSock {
  sk_family : Z;
  src_ip4 : Z; src_ip6 : bytes; src_port : Z;     (* port in host order *)
  dst_ip4 : Z; dst_ip6 : bytes; dst_port : Z      (* port in network order *)
}.
Record bpf_tcp_sock : Type := mkTcpSock {
  bytes_acked : Z; bytes_received : Z; ts_srtt_us : Z; ts_rtt_min : Z; ts_total_retrans : Z; ts_lost_out : Z
}.
Record bpf_sock_ops : Type := mkSkops {
  op : Z;
  arg1 : Z;                                       (* args[1] *)
  so_family : Z;
  local_ip4 : Z; local_ip6 : bytes; local_port : Z;       (* port in host order *)
  remote_ip4 : Z; remote_ip6 : bytes; remote_port : Z;    (* port in network order, upper half *)
  so_sk : option (bpf_sock * option bpf_tcp_sock)
}.
Definition GET_SKOPS_REMOTE_PORT (s : bpf_sock_ops) : Z := u16 (Z.shiftr (remote_port s) 16).
Definition GET_SKOPS_LOCAL_PORT (s : bpf_sock_ops) : Z := u16 (local_port s).

(** ** State of the kernel *)
Record sock_storage_data : Type := mkStorage {
  connect_ns : Z;
  last_report_ns : Z;
  direction : Z;
  connect_success : bool;
  via_waypoint : bool;
  has_encoded : bool;
  has_set_ip : bool;
  sk_tuple : bpf_sock_tuple
}.
Definition storage_zero : sock_storage_data := mkStorage 0 0 0 false false false false tuple_zero.

(** [struct tcp_probe_info]; [protocol], which no program sets, is left out. *)
Record tcp_probe_info : Type := mkProbe {
  tp_type : Z;
  tp_tuple : bpf_sock_tuple;
  tp_orig_dst : bytes;               (* struct orig_dst_info, 18 bytes *)
  sent_bytes : Z;
  received_bytes : Z;
  conn_success : bool;
  tp_direction : Z;
  tp_state : Z;
  duration : Z;
  start_ns : Z;
  tp_last_report_ns : Z;
  srtt_us : Z;
  rtt_min : Z;
  total_retrans : Z;
  lost_out : Z
}.

(** The maps the programs share, the storage of the socket at hand, and a
    counter of the helper calls. *)
Record Kernel : Type := mkKernel {
  k_maps : Cache;
  map_of_manager : gmap bytes Z;
  map_of_sock_storage : option sock_storage_data;
  map_of_auth_result : gmap bytes Z;
  map_of_auth_req : list (Z * bpf_sock_tuple);
  map_of_tcp_probe : list tcp_probe_info;
  map_of_kmesh_socket : gset bytes;
  k_clock : nat
}.
Definition set_manager v (k : Kernel) := mkKernel (k_maps k) v (map_of_sock_storage k) (map_of_auth_result k)
  (map_of_auth_req k) (map_of_tcp_probe k) (map_of_kmesh_socket k) (k_clock k).
Definition set_storage v (k : Kernel) := mkKernel (k_maps k) (map_of_manager k) v (map_of_auth_result k)
  (map_of_auth_req k) (map_of_tcp_probe k) (map_of_kmesh_socket k) (k_clock k).
Definition set_auth_result v (k : Kernel) := mkKernel (k_maps k) (map_of_manager k) (map_of_sock_storage k) v
  (map_of_auth_req k) (map_of_tcp_probe k) (map_of_kmesh_socket k) (k_clock k).
Definition set_auth_req v (k : Kernel) := mkKernel (k_maps k) (map_of_manager k) (map_of_sock_storage k)
  (map_of_auth_result k) v (map_of_tcp_probe k) (map_of_kmesh_socket k) (k_clock k).
Definition set_tcp_probe v (k : Kernel) := mkKernel (k_maps k) (map_of_manager k) (map_of_sock_storage k)
  (map_of_auth_result k) (map_of_auth_req k) v (map_of_kmesh_socket k) (k_clock k).
Definition set_kmesh_socket v (k : Kernel) := mkKernel (k_maps k) (map_of_manager k) (map_of_sock_storage k)
  (map_of_auth_result k) (map_of_auth_req k) (map_of_tcp_probe k) v (k_clock k).
Definition set_clock v (k : Kernel) := mkKernel (k_maps k) (map_of_manager k) (map_of_sock_storage k)
  (map_of_auth_result k) (map_of_auth_req k) (map_of_tcp_probe k) (map_of_kmesh_socket k) v.

(** What the helpers answer at their [n]-th call. *)
Class Helpers : Type := {
  prandom : nat -> Z;
  prandom_u32 : forall n, is_u32 (prandom n);
  ktime : nat -> Z;
  update_fails : nat -> bool;        (* an update of a hash or socket map *)
  reserve_fails : nat -> bool;       (* a reservation in a ring buffer *)
  storage_fails : nat -> bool;       (* the creation of a socket's storage *)
  tail_call_fails : nat -> bool      (* a tail call *)
}.

(** The number of tail calls that the kernel lets a program make. *)
Definition MAX_TAIL_CALL_CNT : nat := 33.

(** The helpers of concrete runs. *)
Definition HelpersOk : Helpers := {|
  prandom := fun n => u32 (Z.of_nat n);
  prandom_u32 := fun n => u32_is _;
  ktime := Z.of_nat;
  update_fails := fun _ => false;
  reserve_fails := fun _ => false;
  storage_fails := fun _ => false;
  tail_call_fails := fun _ => false
|}.

Definition K (A : Type) : Type := Kernel -> A * Kernel.
#[export] Instance k_ret : MRet K := fun A a k => (a, k).
#[export] Instance k_bind : MBind K := fun A B f m k => let '(a, k) := m k in f a k.

Definition kgets {A} (f : Kernel -> A) : K A := fun k => (f k, k).
Definition kmod (f : Kernel -> Kernel) : K unit := fun k => (tt, f k).
Definition ask {A} (f : nat -> A) : K A := fun k => (f (k_clock k), set_clock (S (k_clock k)) k).

Section common.
Context `{Helpers}.

Definition bpf_get_prandom_u32 : K Z := ask prandom.
Definition bpf_ktime_get_ns : K Z := ask ktime.

(** [bpf_sk_storage_get], with and without [BPF_LOCAL_STORAGE_GET_F_CREATE]. *)
Definition storage_get : K (option sock_storage_data) := kgets map_of_sock_storage.
Definition storage_get_create : K (option sock_storage_data) :=
  s ← storage_get;
  match s with
  | Some s => mret (Some s)
  | None =>
      fails ← ask storage_fails;
      if fails : bool then mret None
      else kmod (set_storage (Some storage_zero));; mret (Some storage_zero)
  end.
Definition storage_put (s : sock_storage_data) : K unit := kmod (set_storage (Some s)).

(** *** Managed network namespaces *)
Definition ENABLE_KMESH_PORT : Z := 929.
Definition DISABLE_KMESH_PORT : Z := 930.
Definition CONTROL_CMD_IP : Z := 2.

(** [struct manager_key], a union of a cookie and an address. *)
Definition manager_key_zero : bytes := replicate 16 0.
Definition cookie_key (ctx : bpf_sock_addr) : bytes := st 8 0 (netns_cookie ctx) manager_key_zero.

Definition record_manager_netns_cookie (ctx : bpf_sock_addr) : K unit :=
  fails ← ask update_fails;
  if fails : bool then mret tt
  else kmod (fun k => set_manager (<[cookie_key ctx := 0]> (map_of_manager k)) k).

Definition is_kmesh_enabled (ctx : bpf_sock_addr) : K bool :=
  kgets (fun k => bool_decide (is_Some (map_of_manager k !! cookie_key ctx))).

Definition remove_manager_netns_cookie (ctx : bpf_sock_addr) : K unit :=
  kmod (fun k => set_manager (delete (cookie_key ctx) (map_of_manager k)) k).

Definition is_control_connect (kmesh_ctx : kmesh_context) (ip port : Z) : bool :=
  if negb (bpf_ntohs (user_port (kc_ctx kmesh_ctx)) =? port) then false
  else if family (kc_ctx kmesh_ctx) =? AF_INET then bpf_ntohl (ip4 (orig_dst_addr kmesh_ctx)) =? ip
  else (ip6 0 (orig_dst_addr kmesh_ctx) =? 0) && (ip6 1 (orig_dst_addr kmesh_ctx) =? 0)
       && (ip6 2 (orig_dst_addr kmesh_ctx) =? 0) && (bpf_ntohl (ip6 3 (orig_dst_addr kmesh_ctx)) =? ip).

Definition conn_from_cni_sim_add (kmesh_ctx : kmesh_context) : bool :=
  is_control_connect kmesh_ctx CONTROL_CMD_IP ENABLE_KMESH_PORT.
Definition conn_from_cni_sim_delete (kmesh_ctx : kmesh_context) : bool :=
  is_control_connect kmesh_ctx CONTROL_CMD_IP DISABLE_KMESH_PORT.

Definition handle_kmesh_manage_process (kmesh_ctx : kmesh_context) : K bool :=
  if conn_from_cni_sim_add kmesh_ctx then
    record_manager_netns_cookie (kc_ctx kmesh_ctx);; mret true
  else if conn_from_cni_sim_delete kmesh_ctx then
    remove_manager_netns_cookie (kc_ctx kmesh_ctx);; mret true
  else mret false.

(** *** Managed addresses *)
Definition address_key (fam ip4 : Z) (ip6 : bytes) : bytes :=
  let key := manager_key_zero in
  let key := if fam =? AF_INET then st 4 0 ip4 key else key in
  if fam =? AF_INET6 then memcpy 0 ip6 key else key.

Definition record_kmesh_managed_ip (fam ip4 : Z) (ip6 : bytes) : K unit :=
  fails ← ask update_fails;
  if fails : bool then mret tt
  else kmod (fun k => set_manager (<[address_key fam ip4 ip6 := 0]> (map_of_manager k)) k).

Definition remove_kmesh_managed_ip (fam ip4 : Z) (ip6 : bytes) : K unit :=
  kmod (fun k => set_manager (delete (address_key fam ip4 ip6) (map_of_manager k)) k).

Definition conn_from_sim (skops : bpf_sock_ops) (ip port : Z) : bool :=
  let remote_port := GET_SKOPS_REMOTE_PORT skops in
  if negb (bpf_ntohs remote_port =? port) then false
  else if so_family skops =? AF_INET then bpf_ntohl (remote_ip4 skops) =? ip
  else (ip6 0 (remote_ip6 skops) =? 0) && (ip6 1 (remote_ip6 skops) =? 0)
       && (ip6 2 (remote_ip6 skops) =? 0) && (bpf_ntohl (ip6 3 (remote_ip6 skops)) =? ip).

Definition skops_conn_from_cni_sim_add (skops : bpf_sock_ops) : bool :=
  conn_from_sim skops CONTROL_CMD_IP ENABLE_KMESH_PORT.
Definition skops_conn_from_cni_sim_delete (skops : bpf_sock_ops) : bool :=
  conn_from_sim skops CONTROL_CMD_IP DISABLE_KMESH_PORT.

Definition skops_handle_kmesh_managed_process (skops : bpf_sock_ops) : K unit :=
  (if skops_conn_from_cni_sim_add skops
   then record_kmesh_managed_ip (so_family skops) (local_ip4 skops) (local_ip6 skops) else mret tt);;
  (if skops_conn_from_cni_sim_delete skops
   then remove_kmesh_managed_ip (so_family skops) (local_ip4 skops) (local_ip6 skops) else mret tt).

(** The key that a socket of a pod is looked up with. *)
Definition managed_key (fam ip4 : Z) (ip6 : bytes) : bytes :=
  let key := manager_key_zero in
  let key := if fam =? AF_INET then st 4 0 ip4 key else key in
  if fam =? AF_INET6 then
    if is_ipv4_mapped_addr ip6 then st 4 0 (ld 4 12 ip6) key else memcpy 0 ip6 key
  else key.

Definition is_managed_by_kmesh (skops : bpf_sock_ops) : K bool :=
  value ← kgets (fun k => map_of_manager k !! managed_key (so_family skops) (local_ip4 skops) (local_ip6 skops));
  match value with
  | None => mret false
  | Some value => mret (value =? 0)
  end.

(** *** Reporting a connection ([probes/tcp_probe.h], [probes/probe.h]) *)
Definition INBOUND : Z := 1.
Definition OUTBOUND : Z := 2.
Definition IPV4 : Z := 0.
Definition IPV6 : Z := 1.
Definition BPF_TCP_ESTABLISHED : Z := 1.
Definition BPF_TCP_CLOSE : Z := 7.

Definition v4_of_mapped (t : bpf_sock_tuple) : bpf_sock_tuple :=
  let t := set_v4_saddr (ld 4 12 (v6_saddr t)) t in
  let t := set_v4_daddr (ld 4 12 (v6_daddr t)) t in
  let t := set_v4_sport (v6_sport t) t in
  set_v4_dport (v6_dport t) t.

Definition construct_tuple (sk : bpf_sock) (tuple : bpf_sock_tuple) (direction : Z) : bpf_sock_tuple :=
  let tuple :=
    if direction =? OUTBOUND then
      let tuple :=
        if sk_family sk =? AF_INET then
          set_v4_dport (bpf_ntohs (dst_port sk)) (set_v4_sport (src_port sk)
            (set_v4_daddr (dst_ip4 sk) (set_v4_saddr (src_ip4 sk) tuple)))
        else tuple in
      if sk_family sk =? AF_INET6 then
        set_v6_dport (bpf_ntohs (dst_port sk)) (set_v6_sport (src_port sk)
          (set_v6_daddr (dst_ip6 sk) (set_v6_saddr (src_ip6 sk) tuple)))
      else tuple
    else tuple in
  let tuple :=
    if direction =? INBOUND then
      let tuple :=
        if sk_family sk =? AF_INET then
          set_v4_sport (bpf_ntohs (dst_port sk)) (set_v4_dport (src_port sk)
            (set_v4_saddr (dst_ip4 sk) (set_v4_daddr (src_ip4 sk) tuple)))
        else tuple in
      if sk_family sk =? AF_INET6 then
        set_v6_sport (bpf_ntohs (dst_port sk)) (set_v6_dport (src_port sk)
          (set_v6_daddr (src_ip6 sk) (set_v6_saddr (dst_ip6 sk) tuple)))
      else tuple
    else tuple in
  if is_ipv4_mapped_addr (v6_daddr tuple) then v4_of_mapped tuple else tuple.

(** The 18 bytes of [struct orig_dst_info]: a v4 address with its port at 4, or
    a v6 address with its port at 16. *)
Definition construct_orig_dst_info (sk : bpf_sock) (storage : sock_storage_data) (orig_dst : bytes) : bytes :=
  let orig_dst :=
    if sk_family sk =? AF_INET then
      st 2 4 (bpf_ntohs (v4_dport (sk_tuple storage))) (st 4 0 (v4_daddr (sk_tuple storage)) orig_dst)
    else
      st 2 16 (bpf_ntohs (v6_dport (sk_tuple storage))) (memcpy 0 (v6_daddr (sk_tuple storage)) orig_dst) in
  if is_ipv4_mapped_addr (take 16 orig_dst) then
    let orig_dst := st 4 0 (ld 4 12 orig_dst) orig_dst in
    st 2 4 (ld 2 16 orig_dst) orig_dst
  else orig_dst.

(** [reserved] is the tuple and the original destination as the reserved
    record holds them: the ring buffer does not clear its memory. *)
Definition tcp_report (reserved : bytes * bytes) (sk : bpf_sock) (tcp_sock : bpf_tcp_sock)
    (storage : sock_storage_data) (state : Z) : K unit :=
  fails ← ask reserve_fails;
  if fails : bool then mret tt
  else
    now ← bpf_ktime_get_ns;
    let info := {|
      tp_tuple := construct_tuple sk reserved.1 (direction storage);
      start_ns := connect_ns storage;
      tp_state := state;
      tp_direction := direction storage;
      conn_success := connect_success storage;
      sent_bytes := u32 (bytes_acked tcp_sock);
      received_bytes := u32 (bytes_received tcp_sock);
      srtt_us := ts_srtt_us tcp_sock;
      rtt_min := ts_rtt_min tcp_sock;
      total_retrans := ts_total_retrans tcp_sock;
      lost_out := ts_lost_out tcp_sock;
      tp_type := if is_ipv4_mapped_addr (dst_ip6 sk) then IPV4
                 else if sk_family sk =? AF_INET then IPV4 else IPV6;
      tp_orig_dst := construct_orig_dst_info sk storage reserved.2;
      tp_last_report_ns := now;
      duration := u64 (now - connect_ns storage) |} in
    storage_put (mkStorage (connect_ns storage) now (direction storage) (connect_success storage)
      (via_waypoint storage) (has_encoded storage) (has_set_ip storage) (sk_tuple storage));;
    kmod (fun k => set_tcp_probe (map_of_tcp_probe k ++ [info]) k).
End common.
