(* ===== verification/Balancer.v ===== *)
(** * The load balancer of the kernel: [bpf/kmesh/workload/include]

    How a connection to a service address is sent to a backend: [frontend.h],
    [service.h], [endpoint.h] and [backend.h], over the maps that the workload
    processor writes.  Each function returns the error number and the context
    with its new destination. *)
From S2P Require Import Prelude GoNet Nets Api Runtime BpfCache BpfCommon.

(** ** Backends ([backend.h]) *)
Definition map_lookup_backend (key : BackendKey) (c : Cache) : option BackendValue := KmBackend c !! key.

Definition waypoint_manager (kmesh_ctx : kmesh_context) (wp_addr : ip_addr) (port : Z) : Z * kmesh_context :=
  let ctx := kc_ctx kmesh_ctx in
  let kmesh_ctx :=
    if user_family ctx =? AF_INET then set_dnat_ip (set_ip4 (ip4 wp_addr) (dnat_ip kmesh_ctx)) kmesh_ctx
    else set_dnat_ip wp_addr kmesh_ctx in
  (0, set_via_waypoint true (set_dnat_port port kmesh_ctx)).

(** The loop of [svc_dnat] over the ports [i], [i + 1], ... of the service. *)
Fixpoint svc_dnat_loop (kmesh_ctx : kmesh_context) (backend_v : BackendValue)
    (service_port target_port : list Z) : Z * kmesh_context :=
  match service_port, target_port with
  | sp :: service_port, tp :: target_port =>
      let ctx := kc_ctx kmesh_ctx in
      if user_port ctx =? sp then
        let kmesh_ctx :=
          if user_family ctx =? AF_INET then set_dnat_ip (set_ip4 (ip4 (bv_Ip backend_v)) (dnat_ip kmesh_ctx)) kmesh_ctx
          else set_dnat_ip (bv_Ip backend_v) kmesh_ctx in
        (0, set_via_waypoint false (set_dnat_port tp kmesh_ctx))
      else svc_dnat_loop kmesh_ctx backend_v service_port target_port
  | _, _ => (- ENOENT, kmesh_ctx)
  end.
Definition svc_dnat (kmesh_ctx : kmesh_context) (backend_v : BackendValue) (service_v : ServiceValue)
    : Z * kmesh_context :=
  svc_dnat_loop kmesh_ctx backend_v (take MaxPortNum (ServicePort service_v)) (take MaxPortNum (TargetPort service_v)).

Definition backend_manager (kmesh_ctx : kmesh_context) (backend_v : BackendValue) (service_id : Z)
    (service_v : ServiceValue) : Z * kmesh_context :=
  if negb (bv_WaypointPort backend_v =? 0)
  then waypoint_manager kmesh_ctx (bv_WaypointAddr backend_v) (bv_WaypointPort backend_v)
  else svc_dnat kmesh_ctx backend_v service_v.

(** ** Endpoints ([endpoint.h]) *)
Definition map_lookup_endpoint (key : EndpointKey) (c : Cache) : option EndpointValue := KmEndpoint c !! key.

Definition endpoint_manager (kmesh_ctx : kmesh_context) (endpoint_v : EndpointValue) (service_id : Z)
    (service_v : ServiceValue) : K (Z * kmesh_context) :=
  backend_v ← kgets (fun k => map_lookup_backend endpoint_v (k_maps k));
  match backend_v with
  | None => mret (- ENOENT, kmesh_ctx)
  | Some backend_v => mret (backend_manager kmesh_ctx backend_v service_id service_v)
  end.

(** ** Services ([service.h]) *)
Definition map_lookup_service (key : ServiceKey) (c : Cache) : option ServiceValue := KmService c !! key.

Definition LB_POLICY_RANDOM : Z := 0.
Definition LB_POLICY_STRICT : Z := 1.
Definition LB_POLICY_FAILOVER : Z := 2.

Definition prio_endpoint_count (i : nat) (service_v : ServiceValue) : Z :=
  default 0 (EndpointCount service_v !! i).

Section balancer.
Context `{Helpers}.

(** [bpf_get_prandom_u32() % n + 1], an index of an endpoint of a group of [n];
    [backend_index] and, in [lb_random_handle], [rand_k] are 32 bits wide. *)
Definition draw (n : Z) : K Z :=
  r ← bpf_get_prandom_u32;
  mret (u32 (r mod n + 1)).

Definition lb_random_handle (kmesh_ctx : kmesh_context) (service_id : Z) (service_v : ServiceValue)
    : K (Z * kmesh_context) :=
  if prio_endpoint_count 0 service_v =? 0 then mret (0, kmesh_ctx)
  else
    rand_k ← draw (prio_endpoint_count 0 service_v);
    endpoint_v ← kgets (fun k => map_lookup_endpoint (mkEndpointKey service_id 0 rand_k) (k_maps k));
    match endpoint_v with
    | None => mret (- ENOENT, kmesh_ctx)
    | Some endpoint_v => endpoint_manager kmesh_ctx endpoint_v service_id service_v
    end.

Definition lb_locality_strict_handle (kmesh_ctx : kmesh_context) (service_id : Z) (service_v : ServiceValue)
    : K (Z * kmesh_context) :=
  r ← (if negb (prio_endpoint_count 0 service_v =? 0) then
         backend_index ← draw (prio_endpoint_count 0 service_v);
         endpoint_v ← kgets (fun k => map_lookup_endpoint (mkEndpointKey service_id 0 backend_index) (k_maps k));
         match endpoint_v with
         | Some endpoint_v => endpoint_manager kmesh_ctx endpoint_v service_id service_v
         | None => mret (- ENOENT, kmesh_ctx)
         end
       else mret (- ENOENT, kmesh_ctx));
  let '(ret, kmesh_ctx) := r in
  if negb (ret =? 0) then mret (ret, set_dnat_port 0 (set_dnat_ip zero_ip kmesh_ctx))
  else mret (ret, kmesh_ctx).

(** The loop of [lb_locality_failover_handle] over the groups [i], [i + 1], ... *)
Fixpoint failover_loop (n : nat) (i : Z) (kmesh_ctx : kmesh_context) (service_id : Z) (service_v : ServiceValue)
    : K (Z * kmesh_context) :=
  match n with
  | O => mret (- ENOENT, kmesh_ctx)
  | S n =>
      if prio_endpoint_count (Z.to_nat i) service_v =? 0
      then failover_loop n (i + 1) kmesh_ctx service_id service_v
      else
        backend_index ← draw (prio_endpoint_count (Z.to_nat i) service_v);
        endpoint_v ← kgets (fun k => map_lookup_endpoint (mkEndpointKey service_id i backend_index) (k_maps k));
        match endpoint_v with
        | None => mret (- ENOENT, kmesh_ctx)
        | Some endpoint_v => endpoint_manager kmesh_ctx endpoint_v service_id service_v
        end
  end.
Definition lb_locality_failover_handle (kmesh_ctx : kmesh_context) (service_id : Z) (service_v : ServiceValue)
    : K (Z * kmesh_context) := failover_loop PrioCount 0 kmesh_ctx service_id service_v.

Definition service_manager (kmesh_ctx : kmesh_context) (service_id : Z) (service_v : ServiceValue)
    : K (Z * kmesh_context) :=
  if negb (ip4 (sv_WaypointAddr service_v) =? 0) && negb (sv_WaypointPort service_v =? 0)
  then mret (waypoint_manager kmesh_ctx (sv_WaypointAddr service_v) (sv_WaypointPort service_v))
  else if LbPolicy service_v =? LB_POLICY_RANDOM then lb_random_handle kmesh_ctx service_id service_v
  else if LbPolicy service_v =? LB_POLICY_STRICT then lb_locality_strict_handle kmesh_ctx service_id service_v
  else if LbPolicy service_v =? LB_POLICY_FAILOVER then lb_locality_failover_handle kmesh_ctx service_id service_v
  else mret (- EINVAL, kmesh_ctx).

(** ** Frontends ([frontend.h]) *)
Definition map_lookup_frontend (key : FrontendKey) (c : Cache) : option FrontendValue := KmFrontend c !! key.

Definition frontend_manager (kmesh_ctx : kmesh_context) (frontend_v : FrontendValue) : K (Z * kmesh_context) :=
  service_v ← kgets (fun k => map_lookup_service frontend_v (k_maps k));
  match service_v with
  | Some service_v => service_manager kmesh_ctx frontend_v service_v
  | None =>
      backend_v ← kgets (fun k => map_lookup_backend frontend_v (k_maps k));
      match backend_v with
      | None => mret (- ENOENT, kmesh_ctx)
      | Some backend_v =>
          if negb (bv_WaypointPort backend_v =? 0)
          then mret (waypoint_manager kmesh_ctx (bv_WaypointAddr backend_v) (bv_WaypointPort backend_v))
          else mret (0, kmesh_ctx)
      end
  end.

(** ** The hooks ([cgroup_sock.c]) *)
Definition sock_traffic_control (kmesh_ctx : kmesh_context) : K (Z * kmesh_context) :=
  let ctx := kc_ctx kmesh_ctx in
  let frontend_k :=
    if family ctx =? AF_INET then set_ip4 (ip4 (orig_dst_addr kmesh_ctx)) zero_ip
    else if family ctx =? AF_INET6 then
      let orig_dst_addr := orig_dst_addr kmesh_ctx in
      if is_ipv4_mapped_addr orig_dst_addr then V4_MAPPED_REVERSE orig_dst_addr else orig_dst_addr
    else zero_ip in
  frontend_v ← kgets (fun k => map_lookup_frontend frontend_k (k_maps k));
  match frontend_v with
  | None => mret (- ENOENT, kmesh_ctx)
  | Some frontend_v => frontend_manager kmesh_ctx frontend_v
  end.

Definition set_original_dst_info (kmesh_ctx : kmesh_context) : K Z :=
  let ctx := kc_ctx kmesh_ctx in
  storage ← storage_get_create;
  match storage with
  | None => mret 0
  | Some s =>
      let via := if kc_via_waypoint kmesh_ctx then true else via_waypoint s in
      let '(set, tuple) :=
        if (family ctx =? AF_INET) && negb (has_set_ip s) then
          (true, set_v4_dport (u16 (user_port ctx)) (set_v4_daddr (ip4 (orig_dst_addr kmesh_ctx)) (sk_tuple s)))
        else if (family ctx =? AF_INET6) && negb (has_set_ip s) then
          (true, set_v6_dport (u16 (user_port ctx)) (set_v6_daddr (orig_dst_addr kmesh_ctx) (sk_tuple s)))
        else (has_set_ip s, sk_tuple s) in
      storage_put (mkStorage (connect_ns s) (last_report_ns s) (direction s) (connect_success s) via
        (has_encoded s) set tuple);;
      mret 0
  end.

Definition observe_on_pre_connect : K unit :=
  storage ← storage_get_create;
  match storage with
  | None => mret tt
  | Some s =>
      now ← bpf_ktime_get_ns;
      storage_put (mkStorage now (last_report_ns s) (direction s) (connect_success s) (via_waypoint s)
        (has_encoded s) (has_set_ip s) (sk_tuple s))
  end.

(** What a hook ends with: it lets the call proceed, or has handed over to
    another program. *)
Inductive hook_end : Type :=
  | CGROUP_SOCK_OK
  | TailCall (index : Z).

Definition SET_CTX_ADDRESS4 (ctx : bpf_sock_addr) (addr : ip_addr) (port : Z) : bpf_sock_addr :=
  if user_family ctx =? AF_INET then set_user_port port (set_user_ip4 (ip4 addr) ctx) else ctx.
Definition SET_CTX_ADDRESS6 (ctx : bpf_sock_addr) (addr : ip_addr) (port : Z) : bpf_sock_addr :=
  if user_family ctx =? AF_INET6 then set_user_port port (set_user_ip6 addr ctx) else ctx.

Definition TAIL_CALL_CONNECT4_INDEX : Z := 0.
Definition TAIL_CALL_CONNECT6_INDEX : Z := 1.

(** The program goes on when the call fails; [run_hook] makes the call. *)
Definition kmesh_workload_tail_call (ctx : bpf_sock_addr) (index : Z) : K (bpf_sock_addr * hook_end) :=
  fails ← ask tail_call_fails;
  mret (ctx, if fails : bool then CGROUP_SOCK_OK else TailCall index).

(** The context that the hooks of a v4 socket start with. *)
Definition kctx4 (ctx : bpf_sock_addr) : kmesh_context :=
  mkKctx ctx (set_ip4 (user_ip4 ctx) zero_ip) (set_ip4 (user_ip4 ctx) zero_ip) (user_port ctx) false.
Definition kctx6 (ctx : bpf_sock_addr) : kmesh_context :=
  mkKctx ctx (user_ip6 ctx) (user_ip6 ctx) (user_port ctx) false.

(** Whether the hook leaves the call alone: a command of the CNI plugin, or a
    namespace that is not managed. *)
Definition skips (kmesh_ctx : kmesh_context) : K bool :=
  cmd ← handle_kmesh_manage_process kmesh_ctx;
  if cmd : bool then mret true
  else
    enabled ← is_kmesh_enabled (kc_ctx kmesh_ctx);
    mret (negb enabled).

Definition cgroup_connect4_prog (ctx : bpf_sock_addr) : K (bpf_sock_addr * hook_end) :=
  let kmesh_ctx := kctx4 ctx in
  skip ← skips kmesh_ctx;
  if skip : bool then mret (ctx, CGROUP_SOCK_OK)
  else if user_port ctx =? bpf_htons 53 then
    backend_v ← kgets (fun k => map_lookup_backend 0 (k_maps k));
    match backend_v with
    | None => mret (ctx, CGROUP_SOCK_OK)
    | Some backend_v =>
        let kmesh_ctx := set_dnat_ip (set_ip4 (ip4 (bv_Ip backend_v)) (dnat_ip kmesh_ctx)) kmesh_ctx in
        err ← set_original_dst_info kmesh_ctx;
        if negb (err =? 0) then mret (ctx, CGROUP_SOCK_OK)
        else mret (set_user_ip4 (ip4 (bv_Ip backend_v)) ctx, CGROUP_SOCK_OK)
    end
  else if negb (protocol ctx =? IPPROTO_TCP) then mret (ctx, CGROUP_SOCK_OK)
  else
    observe_on_pre_connect;;
    r ← sock_traffic_control kmesh_ctx;
    let '(ret, kmesh_ctx) := r in
    if negb (ret =? 0) then mret (ctx, CGROUP_SOCK_OK)
    else
      ret ← set_original_dst_info kmesh_ctx;
      if negb (ret =? 0) then mret (ctx, CGROUP_SOCK_OK)
      else
        let ctx := SET_CTX_ADDRESS4 ctx (dnat_ip kmesh_ctx) (dnat_port kmesh_ctx) in
        if kc_via_waypoint kmesh_ctx then kmesh_workload_tail_call ctx TAIL_CALL_CONNECT4_INDEX
        else mret (ctx, CGROUP_SOCK_OK).

Definition cgroup_connect6_prog (ctx : bpf_sock_addr) : K (bpf_sock_addr * hook_end) :=
  let kmesh_ctx := kctx6 ctx in
  skip ← skips kmesh_ctx;
  if skip : bool then mret (ctx, CGROUP_SOCK_OK)
  else if negb (protocol ctx =? IPPROTO_TCP) then mret (ctx, CGROUP_SOCK_OK)
  else
    observe_on_pre_connect;;
    r ← sock_traffic_control kmesh_ctx;
    let '(ret, kmesh_ctx) := r in
    if negb (ret =? 0) then mret (ctx, CGROUP_SOCK_OK)
    else
      ret ← set_original_dst_info kmesh_ctx;
      if negb (ret =? 0) then mret (ctx, CGROUP_SOCK_OK)
      else
        let kmesh_ctx :=
          if is_ipv4_mapped_addr (user_ip6 ctx) && negb (is_ipv4_mapped_addr (dnat_ip kmesh_ctx))
          then set_dnat_ip (V4_MAPPED_TO_V6 (dnat_ip kmesh_ctx)) kmesh_ctx else kmesh_ctx in
        let ctx := SET_CTX_ADDRESS6 ctx (dnat_ip kmesh_ctx) (dnat_port kmesh_ctx) in
        if kc_via_waypoint kmesh_ctx then kmesh_workload_tail_call ctx TAIL_CALL_CONNECT6_INDEX
        else mret (ctx, CGROUP_SOCK_OK).

(** *** Tail calls

    [LoadSockConn] enters the two connect programs in the map of tail calls, so
    a connection that was sent to a waypoint goes through the same program
    again, with the waypoint as its destination.  The kernel refuses a tail
    call past the limit, and the program then ends. *)
Definition KmCgrTailcall (index : Z) : option (bpf_sock_addr -> K (bpf_sock_addr * hook_end)) :=
  if index =? TAIL_CALL_CONNECT4_INDEX then Some cgroup_connect4_prog
  else if index =? TAIL_CALL_CONNECT6_INDEX then Some cgroup_connect6_prog
  else None.

Fixpoint run_hook (budget : nat) (prog : bpf_sock_addr -> K (bpf_sock_addr * hook_end)) (ctx : bpf_sock_addr)
    : K bpf_sock_addr :=
  r ← prog ctx;
  match r with
  | (ctx, CGROUP_SOCK_OK) => mret ctx
  | (ctx, TailCall index) =>
      match budget, KmCgrTailcall index with
      | S budget, Some prog => run_hook budget prog ctx
      | _, _ => mret ctx
      end
  end.

(** The hooks of [connect], with the tail calls they make: the destination that
    the socket ends up with. *)
Definition hook_connect4 : bpf_sock_addr -> K bpf_sock_addr := run_hook MAX_TAIL_CALL_CNT cgroup_connect4_prog.
Definition hook_connect6 : bpf_sock_addr -> K bpf_sock_addr := run_hook MAX_TAIL_CALL_CNT cgroup_connect6_prog.

Definition bpf_redirect_dns_send (ctx : bpf_sock_addr) : K (bpf_sock_addr * hook_end) :=
  let kmesh_ctx := kctx4 ctx in
  skip ← skips kmesh_ctx;
  if skip : bool then mret (ctx, CGROUP_SOCK_OK)
  else if negb (user_port ctx =? bpf_htons 53) then mret (ctx, CGROUP_SOCK_OK)
  else
    backend_v ← kgets (fun k => map_lookup_backend 0 (k_maps k));
    match backend_v with
    | None => mret (ctx, CGROUP_SOCK_OK)
    | Some backend_v =>
        ret ← set_original_dst_info kmesh_ctx;
        if negb (ret =? 0) then mret (ctx, CGROUP_SOCK_OK)
        else mret (set_user_ip4 (ip4 (bv_Ip backend_v)) ctx, CGROUP_SOCK_OK)
    end.

Definition bpf_restore_dns_recv (ctx : bpf_sock_addr) : K (bpf_sock_addr * hook_end) :=
  let kmesh_ctx := kctx4 ctx in
  skip ← skips kmesh_ctx;
  if skip : bool then mret (ctx, CGROUP_SOCK_OK)
  else if negb (user_port ctx =? bpf_htons 53) then mret (ctx, CGROUP_SOCK_OK)
  else
    backend_v ← kgets (fun k => map_lookup_backend 0 (k_maps k));
    match backend_v with
    | None => mret (ctx, CGROUP_SOCK_OK)
    | Some _ =>
        storage ← storage_get_create;
        match storage with
        | None => mret (ctx, CGROUP_SOCK_OK)
        | Some s => mret (set_user_ip4 (v4_daddr (sk_tuple s)) ctx, CGROUP_SOCK_OK)
        end
    end.
End balancer.
