(* ===== verification/SockOps.v ===== *)
(** * Established connections: [sockops.c], [cgroup_skb.c], [sendmsg.c]

    What the kernel does with a connection after [connect]: the report to user
    space, the request to authorize an accepted connection, the removal of its
    verdict when it closes, and the metadata that goes before the first bytes
    to a waypoint. *)
From S2P Require Import Prelude GoNet Nets Api Runtime BpfCache BpfCommon.

Section sockops.
Context `{Helpers}.

(** ** Probes ([probes/probe.h])

    [monitoring] is [enable_monitoring == 1]; [reserved] is as in
    [tcp_report]. *)
Context (monitoring : bool) (reserved : bytes * bytes).

Definition observe_on_connect_established (sk : option (bpf_sock * option bpf_tcp_sock)) (direction : Z)
    : K unit :=
  if negb monitoring then mret tt
  else
    match sk with
    | Some (sk, Some tcp_sock) =>
        storage ← (if direction =? OUTBOUND then storage_get else storage_get_create);
        match storage with
        | None => mret tt
        | Some s =>
            start ← (if direction =? INBOUND then bpf_ktime_get_ns else mret (connect_ns s));
            let s := mkStorage start (last_report_ns s) direction true (via_waypoint s) (has_encoded s)
                       (has_set_ip s) (sk_tuple s) in
            storage_put s;;
            tcp_report reserved sk tcp_sock s BPF_TCP_ESTABLISHED
        end
    | _ => mret tt
    end.

Definition observe_on_close (sk : option (bpf_sock * option bpf_tcp_sock)) : K unit :=
  if negb monitoring then mret tt
  else
    match sk with
    | Some (sk, Some tcp_sock) =>
        storage ← storage_get;
        match storage with
        | None => mret tt
        | Some s => tcp_report reserved sk tcp_sock s BPF_TCP_CLOSE
        end
    | _ => mret tt
    end.

Definition LONG_CONN_THRESHOLD_TIME : Z := 5 * 1000000000.

Definition observe_on_data (sk : option (bpf_sock * option bpf_tcp_sock)) : K unit :=
  match sk with
  | Some (sk, Some tcp_sock) =>
      storage ← storage_get;
      match storage with
      | None => mret tt
      | Some s =>
          now ← bpf_ktime_get_ns;
          if negb (last_report_ns s =? 0) && (LONG_CONN_THRESHOLD_TIME <? u64 (now - last_report_ns s))
          then tcp_report reserved sk tcp_sock s BPF_TCP_ESTABLISHED
          else mret tt
      end
  | _ => mret tt
  end.

(** ** [cgroup_skb.c] *)
Record sk_buff : Type := mkSkb {
  skb_family : Z;
  skb_protocol : Z;
  skb_local_ip4 : Z; skb_local_ip6 : bytes;
  skb_remote_ip4 : Z;
  skb_remote_ip6 : bytes;  (* what [bpf_skb_load_bytes] reads at the offset of that field, or zeros *)
  skb_remote_port : Z;
  skb_sk : option (bpf_sock * option bpf_tcp_sock)
}.

Definition sock_conn_from_sim (skb : sk_buff) : bool :=
  let dst_port := u16 (Z.shiftr (skb_remote_port skb) 16) in
  if negb (bpf_ntohs dst_port =? ENABLE_KMESH_PORT) && negb (bpf_ntohs dst_port =? DISABLE_KMESH_PORT) then false
  else if skb_protocol skb =? AF_INET then bpf_ntohl (skb_remote_ip4 skb) =? CONTROL_CMD_IP
  else (ip6 0 (skb_remote_ip6 skb) =? 0) && (ip6 1 (skb_remote_ip6 skb) =? 0)
       && (ip6 2 (skb_remote_ip6 skb) =? 0) && (bpf_ntohl (ip6 3 (skb_remote_ip6 skb)) =? CONTROL_CMD_IP).

Definition is_managed_by_kmesh_skb (skb : sk_buff) : K bool :=
  value ← kgets (fun k => map_of_manager k !! managed_key (skb_family skb) (skb_local_ip4 skb) (skb_local_ip6 skb));
  match value with
  | None => mret false
  | Some value => mret (value =? 0)
  end.

(** Both programs pass every packet ([SK_PASS]); [periodic] is
    [enable_periodic_report == 1]. *)
Definition cgroup_skb_ingress_prog (periodic : bool) (skb : sk_buff) : K unit :=
  if negb monitoring || negb periodic then mret tt
  else if negb (skb_family skb =? AF_INET) && negb (skb_family skb =? AF_INET6) then mret tt
  else
    match skb_sk skb with
    | None => mret tt
    | Some _ =>
        if sock_conn_from_sim skb then mret tt
        else
          managed ← is_managed_by_kmesh_skb skb;
          if negb managed then mret tt else observe_on_data (skb_sk skb)
    end.
Definition cgroup_skb_egress_prog (periodic : bool) (skb : sk_buff) : K unit :=
  if negb monitoring || negb periodic then mret tt
  else if negb (skb_family skb =? AF_INET) && negb (skb_family skb =? AF_INET6) then mret tt
  else
    match skb_sk skb with
    | None => mret tt
    | Some _ =>
        if sock_conn_from_sim skb then mret tt
        else
          managed ← is_managed_by_kmesh_skb skb;
          if negb managed then mret tt else observe_on_data (skb_sk skb)
    end.

(** ** [sockops.c] *)

(** [node_ip] and [pod_gateway] are globals that the loader sets. *)
Definition skip_specific_probe (node_ip pod_gateway : bytes) (skops : bpf_sock_ops) : bool :=
  if (so_family skops =? AF_INET)
     && ((ip6 3 node_ip =? remote_ip4 skops) || (ip6 3 pod_gateway =? remote_ip4 skops)) then true
  else
    (so_family skops =? AF_INET6)
    && (((ip6 0 node_ip =? ip6 0 (remote_ip6 skops)) && (ip6 1 node_ip =? ip6 1 (remote_ip6 skops))
         && (ip6 2 node_ip =? ip6 2 (remote_ip6 skops)) && (ip6 3 node_ip =? ip6 3 (remote_ip6 skops)))
        || ((ip6 0 pod_gateway =? ip6 0 (remote_ip6 skops)) && (ip6 1 pod_gateway =? ip6 1 (remote_ip6 skops))
            && (ip6 2 pod_gateway =? ip6 2 (remote_ip6 skops)) && (ip6 3 pod_gateway =? ip6 3 (remote_ip6 skops)))).

Definition extract_skops_to_tuple (skops : bpf_sock_ops) (tuple_key : bpf_sock_tuple) : bpf_sock_tuple :=
  let tuple_key :=
    if so_family skops =? AF_INET then
      set_v4_dport (GET_SKOPS_REMOTE_PORT skops) (set_v4_sport (bpf_htons (GET_SKOPS_LOCAL_PORT skops))
        (set_v4_daddr (remote_ip4 skops) (set_v4_saddr (local_ip4 skops) tuple_key)))
    else tuple_key in
  if so_family skops =? AF_INET6 then
    set_v6_dport (GET_SKOPS_REMOTE_PORT skops) (set_v6_sport (bpf_htons (GET_SKOPS_LOCAL_PORT skops))
      (set_v6_daddr (remote_ip6 skops) (set_v6_saddr (local_ip6 skops) tuple_key)))
  else tuple_key.

Definition extract_skops_to_tuple_reverse (skops : bpf_sock_ops) (tuple_key : bpf_sock_tuple) : bpf_sock_tuple :=
  let tuple_key :=
    if so_family skops =? AF_INET then
      set_v4_dport (GET_SKOPS_LOCAL_PORT skops) (set_v4_sport (bpf_ntohs (GET_SKOPS_REMOTE_PORT skops))
        (set_v4_daddr (local_ip4 skops) (set_v4_saddr (remote_ip4 skops) tuple_key)))
    else tuple_key in
  let tuple_key :=
    if so_family skops =? AF_INET6 then
      set_v6_dport (GET_SKOPS_LOCAL_PORT skops) (set_v6_sport (bpf_ntohs (GET_SKOPS_REMOTE_PORT skops))
        (set_v6_daddr (local_ip6 skops) (set_v6_saddr (remote_ip6 skops) tuple_key)))
    else tuple_key in
  if is_ipv4_mapped_addr (v6_daddr tuple_key) || is_ipv4_mapped_addr (v6_saddr tuple_key)
  then v4_of_mapped tuple_key else tuple_key.

Definition clean_auth_map (skops : bpf_sock_ops) : K unit :=
  let tuple_key := extract_skops_to_tuple_reverse skops tuple_zero in
  kmod (fun k => set_auth_result (delete tuple_key (map_of_auth_result k)) k).

(** [stale] is what the reserved record holds before it is written. *)
Definition auth_ip_tuple (stale : bpf_sock_tuple) (skops : bpf_sock_ops) : K unit :=
  fails ← ask reserve_fails;
  if fails : bool then mret tt
  else
    let tuple := extract_skops_to_tuple_reverse skops stale in
    let type := if so_family skops =? AF_INET then IPV4 else IPV6 in
    let type := if is_ipv4_mapped_addr (local_ip6 skops) then IPV4 else type in
    kmod (fun k => set_auth_req (map_of_auth_req k ++ [(type, tuple)]) k).

Definition enable_encoding_metadata (skops : bpf_sock_ops) : K unit :=
  let tuple_info := extract_skops_to_tuple skops tuple_zero in
  fails ← ask update_fails;
  if fails : bool then mret tt
  else kmod (fun k => set_kmesh_socket ({[tuple_info]} ∪ map_of_kmesh_socket k) k).

Definition BPF_SOCK_OPS_TCP_CONNECT_CB : Z := 3.
Definition BPF_SOCK_OPS_ACTIVE_ESTABLISHED_CB : Z := 4.
Definition BPF_SOCK_OPS_PASSIVE_ESTABLISHED_CB : Z := 5.
Definition BPF_SOCK_OPS_STATE_CB : Z := 10.

(** The flag that [bpf_sock_ops_cb_flags_set] sets only asks for the later
    [STATE_CB] calls. *)
Definition sockops_prog (node_ip pod_gateway stale : bytes) (skops : bpf_sock_ops) : K unit :=
  if negb (so_family skops =? AF_INET) && negb (so_family skops =? AF_INET6) then mret tt
  else if op skops =? BPF_SOCK_OPS_TCP_CONNECT_CB then skops_handle_kmesh_managed_process skops
  else if op skops =? BPF_SOCK_OPS_ACTIVE_ESTABLISHED_CB then
    managed ← is_managed_by_kmesh skops;
    if negb managed then mret tt
    else
      observe_on_connect_established (so_sk skops) OUTBOUND;;
      match so_sk skops with
      | None => mret tt
      | Some _ =>
          storage ← storage_get;
          match storage with
          | None => mret tt
          | Some s => if via_waypoint s then enable_encoding_metadata skops else mret tt
          end
      end
  else if op skops =? BPF_SOCK_OPS_PASSIVE_ESTABLISHED_CB then
    managed ← is_managed_by_kmesh skops;
    if negb managed || skip_specific_probe node_ip pod_gateway skops then mret tt
    else
      observe_on_connect_established (so_sk skops) INBOUND;;
      auth_ip_tuple stale skops
  else if op skops =? BPF_SOCK_OPS_STATE_CB then
    if arg1 skops =? BPF_TCP_CLOSE then
      observe_on_close (so_sk skops);;
      clean_auth_map skops
    else mret tt
  else mret tt.

(** ** [sendmsg.c] *)

(** The message a socket in the socket map is about to send: its family, and
    the bytes between [data] and [data_end].  [bpf_msg_push_data] makes room
    for [length] bytes before the first; [push] is what they hold then, or the
    failure of the helper. *)
Definition TLV_TYPE_SIZE : nat := 1.
Definition TLV_LENGTH_SIZE : nat := 4.
Definition TLV_IP4_LENGTH : nat := 4.
Definition TLV_IP6_LENGTH : nat := 16.
Definition TLV_PORT_LENGTH : nat := 2.
Definition TLV_ORG_DST_ADDR4_LENGTH : nat := TLV_IP4_LENGTH + TLV_PORT_LENGTH.
Definition TLV_ORG_DST_ADDR6_LENGTH : nat := TLV_IP6_LENGTH + TLV_PORT_LENGTH.
Definition TLV_ORG_DST_ADDR4_SIZE : nat := TLV_TYPE_SIZE + TLV_LENGTH_SIZE + TLV_ORG_DST_ADDR4_LENGTH.
Definition TLV_ORG_DST_ADDR6_SIZE : nat := TLV_TYPE_SIZE + TLV_LENGTH_SIZE + TLV_ORG_DST_ADDR6_LENGTH.
Definition TLV_END_SIZE : nat := TLV_TYPE_SIZE + TLV_LENGTH_SIZE.
Definition TLV_ORG_DST_ADDR : Z := 1.
Definition TLV_PAYLOAD : Z := 254.

Definition check_overflow (msg : bytes) (begin length : nat) : bool :=
  bool_decide (List.length msg < begin + length)%nat.

(** The original destination, once: address and port in network order. *)
Definition get_origin_dst (fam : Z) : K (option (bytes * Z)) :=
  storage ← storage_get;
  match storage with
  | None => mret None
  | Some s =>
      if negb (via_waypoint s) || has_encoded s then mret None
      else
        let dst := if fam =? AF_INET then (set_ip4 (v4_daddr (sk_tuple s)) zero_ip, v4_dport (sk_tuple s))
                   else (v6_daddr (sk_tuple s), v6_dport (sk_tuple s)) in
        storage_put (mkStorage (connect_ns s) (last_report_ns s) (direction s) (connect_success s)
          (via_waypoint s) true (has_set_ip s) (sk_tuple s));;
        mret (Some dst)
  end.

Definition alloc_dst_length (push : nat -> option bytes) (msg : bytes) (length : nat) : option bytes :=
  match push length with
  | Some room => Some (room ++ msg)
  | None => None
  end.

Definition SK_MSG_WRITE_BUF (msg : bytes) (offset : nat) (payload : bytes) : bytes * nat :=
  if check_overflow msg offset (length payload) then (msg, offset)
  else (memcpy offset payload msg, (offset + length payload)%nat).

Definition encode_metadata_end (msg : bytes) (off : nat) : bytes * nat :=
  let '(msg, off) := SK_MSG_WRITE_BUF msg off (le_bytes TLV_TYPE_SIZE TLV_PAYLOAD) in
  SK_MSG_WRITE_BUF msg off (le_bytes TLV_LENGTH_SIZE 0).

Definition encode_metadata_org_dst_addr (push : nat -> option bytes) (msg : bytes) (off : nat) (v4 : bool)
    : K (bytes * nat) :=
  let tlv_size := if v4 then TLV_ORG_DST_ADDR4_SIZE else TLV_ORG_DST_ADDR6_SIZE in
  let addr_size := Z.of_nat (if v4 then TLV_ORG_DST_ADDR4_LENGTH else TLV_ORG_DST_ADDR6_LENGTH) in
  dst ← get_origin_dst (if v4 then AF_INET else AF_INET6);
  match dst with
  | None => mret (msg, off)
  | Some (dst_ip, dst_port) =>
      match alloc_dst_length push msg (tlv_size + TLV_END_SIZE) with
      | None => mret (msg, off)
      | Some msg =>
          let '(msg, off) := SK_MSG_WRITE_BUF msg off (le_bytes TLV_TYPE_SIZE TLV_ORG_DST_ADDR) in
          let '(msg, off) := SK_MSG_WRITE_BUF msg off (le_bytes TLV_LENGTH_SIZE (bpf_htonl addr_size)) in
          let '(msg, off) :=
            if v4 then SK_MSG_WRITE_BUF msg off (take TLV_IP4_LENGTH dst_ip)
            else SK_MSG_WRITE_BUF msg off (take TLV_IP6_LENGTH dst_ip) in
          let '(msg, off) := SK_MSG_WRITE_BUF msg off (le_bytes TLV_PORT_LENGTH dst_port) in
          mret (encode_metadata_end msg off)
      end
  end.

(** The bytes that leave the socket; the program passes every message. *)
Definition sendmsg_prog (push : nat -> option bytes) (fam : Z) (msg : bytes) : K bytes :=
  if negb (fam =? AF_INET) && negb (fam =? AF_INET6) then mret msg
  else
    r ← encode_metadata_org_dst_addr push msg 0 (fam =? AF_INET);
    mret r.1.
End sockops.
