(* ===== verification/Delivery.v ===== *)
(** * From the control plane to the wire

    The maps that the workload processor has written and the programs that
    read them, put together: a connection to a service address reaches a
    backend of the service, and no connection is sent anywhere else. *)
From S2P Require Import Prelude GoNet Nets HashName Api Runtime BpfCache Locality WorkloadCache ServiceCache EndpointCache WaypointCache Processor Endpoints ProcessorInv Reach Spec Binding Services Backends BpfCommon Balancer.

(** ** Memory *)
Lemma length_memcpy off src m : (off + length src <= length m)%nat -> length (memcpy off src m) = length m.
Proof. intros Hl. unfold memcpy. rewrite !length_app, length_take, length_drop. lia. Qed.
Lemma length_st n off v m : (off + n <= length m)%nat -> length (st n off v m) = length m.
Proof. intros Hl. unfold st. apply length_memcpy. by rewrite length_le_bytes. Qed.

Lemma take_memcpy_0 src m : take (length src) (memcpy 0 src m) = src.
Proof. unfold memcpy. rewrite take_0. cbn [app]. apply take_app_length. Qed.

(** Reading what was written, and reading elsewhere. *)
Lemma ld_memcpy n off src m :
  length src = n -> (off + n <= length m)%nat -> ld n off (memcpy off src m) = le_uint src.
Proof.
  intros <- Hl. unfold ld, memcpy. rewrite drop_app_length' by (rewrite length_take; lia).
  by rewrite take_app_length.
Qed.
Lemma ld_st n off v m : (off + n <= length m)%nat -> ld n off (st n off v m) = v mod 256 ^ Z.of_nat n.
Proof. intros Hl. unfold st. rewrite ld_memcpy by (rewrite ?length_le_bytes; done). apply le_uint_le_bytes. Qed.
Lemma ld_memcpy_ne n off src m off' :
  (off + length src <= length m)%nat -> (off' + n <= off \/ off + length src <= off')%nat ->
  ld n off' (memcpy off src m) = ld n off' m.
Proof.
  intros Hl Hd. unfold ld. f_equal. apply list_eq. intros i.
  destruct (decide (i < n)%nat) as [Hi|Hi]; [|by rewrite !lookup_take_ge by lia].
  rewrite !lookup_take_lt by done. rewrite !lookup_drop. unfold memcpy.
  destruct (decide (off' + i < off)%nat) as [Hlt|Hge].
  - rewrite lookup_app_l by (rewrite length_take; lia). by rewrite lookup_take_lt.
  - rewrite lookup_app_r by (rewrite length_take; lia). rewrite length_take.
    rewrite lookup_app_r by lia. rewrite lookup_drop. f_equal. lia.
Qed.
Lemma ld_st_ne n off v m n' off' :
  (off + n <= length m)%nat -> (off' + n' <= off \/ off + n <= off')%nat -> ld n' off' (st n off v m) = ld n' off' m.
Proof. intros Hl Hd. unfold st. apply ld_memcpy_ne; by rewrite length_le_bytes. Qed.

Lemma ip4_set_ip4 v a : is_u32 v -> length a = 16%nat -> ip4 (set_ip4 v a) = v.
Proof. intros Hv Ha. unfold ip4, set_ip4. rewrite ld_st by lia. by apply Z.mod_small. Qed.

Lemma ld_is n off m : Forall is_u8 m -> 0 <= ld n off m < 256 ^ Z.of_nat n.
Proof.
  intros Hm. unfold ld. assert (Forall is_u8 (take n (drop off m))) as Hf by (by apply Forall_take, Forall_drop).
  apply le_uint_bounds in Hf. rewrite length_take in Hf. split; [lia|]. eapply Z.lt_le_trans; [apply Hf|].
  apply Z.pow_le_mono_r; lia.
Qed.

(** ** Runs of kernel code *)
Lemma krun_bind {A B} (m : K A) (f : A -> K B) k : (m ≫= f) k = f (m k).1 (m k).2.
Proof. unfold mbind, k_bind. by destruct (m k). Qed.

(** Two kernels that agree on the maps. *)
Definition same_maps (k k' : Kernel) : Prop := k_maps k' = k_maps k.

(** ** One balancing decision *)
Section decision.
Context `{Helpers}.

(** The group of the service that is drawn from. *)
Definition chosen (sv : ServiceValue) (prio : nat) (cnt : Z) : Prop :=
  EndpointCount sv !! prio = Some cnt /\ cnt <> 0 /\
  ((LbPolicy sv = LB_POLICY_RANDOM \/ LbPolicy sv = LB_POLICY_STRICT) /\ prio = 0%nat \/
   LbPolicy sv = LB_POLICY_FAILOVER /\ forall j, (j < prio)%nat -> EndpointCount sv !! j = Some 0).

Definition no_waypoint (sv : ServiceValue) : Prop := sv_WaypointPort sv = 0.

(** The port pair of the service that serves [port]. *)
Fixpoint port_target (port : Z) (sp tp : list Z) : option Z :=
  match sp, tp with
  | s :: sp, t :: tp => if port =? s then Some t else port_target port sp tp
  | _, _ => None
  end.
Definition target_of (port : Z) (sv : ServiceValue) : option Z :=
  port_target port (take MaxPortNum (ServicePort sv)) (take MaxPortNum (TargetPort sv)).

(** The context after the redirection to an address. *)
Definition redirect (a : ip_addr) (port : Z) (via : bool) (kc : kmesh_context) : kmesh_context :=
  set_via_waypoint via (set_dnat_port port
    (set_dnat_ip (if user_family (kc_ctx kc) =? AF_INET then set_ip4 (ip4 a) (dnat_ip kc) else a) kc)).

Lemma waypoint_manager_spec kc a port : waypoint_manager kc a port = (0, redirect a port true kc).
Proof. unfold waypoint_manager, redirect. by destruct (user_family (kc_ctx kc) =? AF_INET). Qed.

Lemma svc_dnat_spec kc bv sv :
  svc_dnat kc bv sv = match target_of (user_port (kc_ctx kc)) sv with
                      | Some tp => (0, redirect (bv_Ip bv) tp false kc)
                      | None => (- ENOENT, kc)
                      end.
Proof.
  unfold svc_dnat, target_of. generalize (take MaxPortNum (TargetPort sv)) as tps.
  induction (take MaxPortNum (ServicePort sv)) as [|sp sps IH]; intros tps; [done|].
  destruct tps as [|tp tps]; [done|]. cbn [svc_dnat_loop port_target].
  destruct (user_port (kc_ctx kc) =? sp); [|apply IH]. unfold redirect.
  by destruct (user_family (kc_ctx kc) =? AF_INET).
Qed.

(** What following a backend comes to. *)
Definition backend_target (bv : BackendValue) (port : Z) (sv : ServiceValue) (kc : kmesh_context)
    : option kmesh_context :=
  if decide (bv_WaypointPort bv = 0) then (fun tp => redirect (bv_Ip bv) tp false kc) <$> target_of port sv
  else Some (redirect (bv_WaypointAddr bv) (bv_WaypointPort bv) true kc).

Lemma backend_manager_spec kc bv sid sv :
  backend_manager kc bv sid sv = match backend_target bv (user_port (kc_ctx kc)) sv kc with
                                 | Some kc => (0, kc)
                                 | None => (- ENOENT, kc)
                                 end.
Proof.
  unfold backend_manager, backend_target. case_decide as Hw.
  - rewrite (proj2 (Z.eqb_eq _ _) Hw). cbn [negb]. rewrite svc_dnat_spec. by destruct (target_of _ _).
  - rewrite (proj2 (Z.eqb_neq _ _) Hw). cbn [negb]. apply waypoint_manager_spec.
Qed.

(** A draw is an index of the group. *)
Lemma draw_range n k : 0 < n < 2 ^ 32 - 1 -> exists i, draw n k = (i, set_clock (S (k_clock k)) k) /\ 1 <= i <= n.
Proof.
  intros Hn. unfold draw, bpf_get_prandom_u32, ask. rewrite krun_bind. cbn. eexists. split; [done|].
  pose proof (Z.mod_pos_bound (prandom (k_clock k)) n). rewrite u32_small by (unfold is_u32; lia). lia.
Qed.

(** Following endpoint [i] of a group. *)
Definition follow (kc : kmesh_context) (sid prio i : Z) (sv : ServiceValue) (c : Cache) : Z * kmesh_context :=
  match KmEndpoint c !! mkEndpointKey sid prio i with
  | None => (- ENOENT, kc)
  | Some uid =>
      match KmBackend c !! uid with
      | None => (- ENOENT, kc)
      | Some bv => backend_manager kc bv sid sv
      end
  end.
Lemma follow_run kc sid prio i sv (k : Kernel) :
  (endpoint_v ← kgets (fun k => map_lookup_endpoint (mkEndpointKey sid prio i) (k_maps k));
   match endpoint_v with
   | None => mret (- ENOENT, kc)
   | Some endpoint_v => endpoint_manager kc endpoint_v sid sv
   end) k = (follow kc sid prio i sv (k_maps k), k).
Proof.
  rewrite krun_bind. unfold kgets, map_lookup_endpoint, follow. cbn.
  destruct (KmEndpoint (k_maps k) !! _) as [uid|]; [|done].
  unfold endpoint_manager, kgets, map_lookup_backend. rewrite krun_bind. cbn. by destruct (KmBackend (k_maps k) !! uid).
Qed.

Lemma count_lookup sv i n : EndpointCount sv !! i = Some n -> prio_endpoint_count i sv = n.
Proof. unfold prio_endpoint_count. by intros ->. Qed.

Lemma failover_run kc sid sv k (prio : nat) cnt (n : nat) (j : nat) :
  EndpointCount sv !! prio = Some cnt -> 0 < cnt < 2 ^ 32 - 1 -> (j <= prio < j + n)%nat ->
  (forall i, (j <= i < prio)%nat -> EndpointCount sv !! i = Some 0) ->
  exists i, 1 <= i <= cnt /\ failover_loop n (Z.of_nat j) kc sid sv k =
    (follow kc sid (Z.of_nat prio) i sv (k_maps k), set_clock (S (k_clock k)) k).
Proof.
  intros Hcnt Hpos. revert j. induction n as [|n IH]; intros j Hj Hzero; [lia|].
  cbn [failover_loop]. rewrite Nat2Z.id.
  destruct (decide (j = prio)) as [->|Hne].
  - rewrite (count_lookup _ _ _ Hcnt), (proj2 (Z.eqb_neq cnt 0)) by lia.
    destruct (draw_range cnt k Hpos) as (i & Hd & Hi). exists i. split; [done|].
    rewrite krun_bind, Hd. cbn [fst snd].
    apply (follow_run kc sid (Z.of_nat prio) i sv (set_clock (S (k_clock k)) k)).
  - rewrite (count_lookup sv j 0) by (apply Hzero; lia). change (0 =? 0) with true. cbn iota.
    replace (Z.of_nat j + 1) with (Z.of_nat (S j)) by lia. apply IH; [lia|]. intros i Hi. apply Hzero. lia.
Qed.

Lemma service_manager_chosen kc sid sv k prio cnt :
  no_waypoint sv -> chosen sv prio cnt -> (prio < PrioCount)%nat -> 0 < cnt < 2 ^ 32 - 1 ->
  (forall i, 1 <= i <= cnt -> (follow kc sid (Z.of_nat prio) i sv (k_maps k)).1 = 0) ->
  exists i, 1 <= i <= cnt /\
    service_manager kc sid sv k = (follow kc sid (Z.of_nat prio) i sv (k_maps k), set_clock (S (k_clock k)) k).
Proof.
  intros Hw (Hcnt & _ & Hlb) Hprio Hpos Hok. unfold service_manager. rewrite Hw, andb_false_r. cbn iota.
  destruct Hlb as [[Hlb ->]|[Hlb Hzero]].
  2: { rewrite Hlb. cbn. destruct (failover_run kc sid sv k prio cnt PrioCount 0) as (i & Hi & Hr); eauto with lia. }
  destruct (draw_range cnt k Hpos) as (i & Hd & Hi). exists i. split; [done|].
  assert (prio_endpoint_count 0 sv = cnt) as Hc0 by (by apply count_lookup).
  destruct Hlb as [Hlb|Hlb]; rewrite Hlb; cbn [Z.eqb LB_POLICY_RANDOM LB_POLICY_STRICT Pos.eqb].
  - unfold lb_random_handle. rewrite Hc0, (proj2 (Z.eqb_neq cnt 0)) by lia.
    rewrite krun_bind, Hd. cbn [fst snd].
    apply (follow_run kc sid 0 i sv (set_clock (S (k_clock k)) k)).
  - unfold lb_locality_strict_handle. rewrite Hc0, (proj2 (Z.eqb_neq cnt 0)) by lia. cbn [negb].
    rewrite krun_bind, krun_bind, Hd. cbn [fst snd]. specialize (Hok i Hi).
    rewrite (follow_run kc sid 0 i sv (set_clock (S (k_clock k)) k)).
    change (Z.of_nat 0) with 0 in Hok |- *. cbn [fst snd k_maps set_clock]. destruct (follow kc sid 0 i sv (k_maps k)) as [ret kc'].
    cbn in Hok. subst ret. done.
Qed.
End decision.

(** ** The hooks *)
Section hooks.
Context `{Helpers}.

(** A TCP connection attempt of a managed namespace, that is no command of the
    CNI plugin. *)
Record managed (fam : Z) (kc : kmesh_context) (k : Kernel) : Prop := {
  mg_family : family (kc_ctx kc) = fam /\ user_family (kc_ctx kc) = fam;
  mg_tcp : protocol (kc_ctx kc) = IPPROTO_TCP;
  mg_plain : conn_from_cni_sim_add kc = false /\ conn_from_cni_sim_delete kc = false;
  mg_enabled : is_Some (map_of_manager k !! cookie_key (kc_ctx kc))
}.

Lemma skips_managed fam kc k : managed fam kc k -> skips kc k = (false, k).
Proof.
  intros [_ _ [H1 H2] Hen]. unfold skips. rewrite krun_bind. unfold handle_kmesh_manage_process. rewrite H1, H2. cbn.
  rewrite krun_bind. unfold is_kmesh_enabled, kgets. cbn. by rewrite bool_decide_eq_true_2.
Qed.

Lemma skips_maps kc k : same_maps k (skips kc k).2.
Proof.
  unfold skips, handle_kmesh_manage_process, record_manager_netns_cookie. rewrite krun_bind.
  repeat (case_match; rewrite ?krun_bind; cbn); done.
Qed.
Lemma storage_get_create_maps k : same_maps k (storage_get_create k).2.
Proof.
  unfold storage_get_create. rewrite krun_bind. unfold storage_get, kgets. cbn.
  destruct (map_of_sock_storage k); [done|]. rewrite krun_bind. unfold ask. cbn. by destruct (storage_fails _).
Qed.
Lemma observe_on_pre_connect_maps k : same_maps k (observe_on_pre_connect k).2.
Proof.
  unfold observe_on_pre_connect. rewrite krun_bind. pose proof (storage_get_create_maps k) as Hm.
  destruct (storage_get_create k) as [[s|] k1]; done.
Qed.
Lemma set_original_dst_info_ok kc k : (set_original_dst_info kc k).1 = 0 /\ same_maps k (set_original_dst_info kc k).2.
Proof.
  unfold set_original_dst_info. rewrite krun_bind. pose proof (storage_get_create_maps k) as Hm.
  destruct (storage_get_create k) as [[s|] k1]; [|done]. cbn [fst snd].
  destruct (if (_ && _) then _ else _) as [set tuple]. by rewrite krun_bind.
Qed.

(** The key an address is looked up with. *)
Definition frontend_key4 (ctx : bpf_sock_addr) : bytes := set_ip4 (user_ip4 ctx) zero_ip.
Definition frontend_key6 (ctx : bpf_sock_addr) : bytes :=
  if is_ipv4_mapped_addr (user_ip6 ctx) then V4_MAPPED_REVERSE (user_ip6 ctx) else user_ip6 ctx.

Lemma traffic_control4 ctx k :
  family ctx = AF_INET -> is_u32 (user_ip4 ctx) ->
  sock_traffic_control (kctx4 ctx) k =
    match KmFrontend (k_maps k) !! frontend_key4 ctx with
    | None => ((- ENOENT, kctx4 ctx), k)
    | Some v => frontend_manager (kctx4 ctx) v k
    end.
Proof.
  intros Hf Hu. unfold sock_traffic_control. rewrite krun_bind. cbn [kc_ctx kctx4 orig_dst_addr]. rewrite Hf. cbn [Z.eqb AF_INET Pos.eqb].
  rewrite ip4_set_ip4 by done. unfold kgets, map_lookup_frontend. cbn [fst snd]. fold (frontend_key4 ctx).
  by destruct (KmFrontend (k_maps k) !! _).
Qed.
Lemma traffic_control6 ctx k :
  family ctx = AF_INET6 ->
  sock_traffic_control (kctx6 ctx) k =
    match KmFrontend (k_maps k) !! frontend_key6 ctx with
    | None => ((- ENOENT, kctx6 ctx), k)
    | Some v => frontend_manager (kctx6 ctx) v k
    end.
Proof.
  intros Hf. unfold sock_traffic_control. rewrite krun_bind. cbn [kc_ctx kctx6 orig_dst_addr]. rewrite Hf.
  cbn [Z.eqb AF_INET AF_INET6 Pos.eqb]. unfold kgets, map_lookup_frontend. cbn [fst snd]. fold (frontend_key6 ctx).
  by destruct (KmFrontend (k_maps k) !! _).
Qed.

(** What the hooks do with the decision of the balancer. *)
Definition finish4 (ctx : bpf_sock_addr) (r : Z * kmesh_context) : bpf_sock_addr :=
  if r.1 =? 0 then SET_CTX_ADDRESS4 ctx (dnat_ip r.2) (dnat_port r.2) else ctx.
Definition finish6 (ctx : bpf_sock_addr) (r : Z * kmesh_context) : bpf_sock_addr :=
  if r.1 =? 0 then
    let a := if is_ipv4_mapped_addr (user_ip6 ctx) && negb (is_ipv4_mapped_addr (dnat_ip r.2))
             then V4_MAPPED_TO_V6 (dnat_ip r.2) else dnat_ip r.2 in
    SET_CTX_ADDRESS6 ctx a (dnat_port r.2)
  else ctx.

Lemma redirect4 ctx a port via :
  user_family ctx = AF_INET ->
  SET_CTX_ADDRESS4 ctx (dnat_ip (redirect a port via (kctx4 ctx))) (dnat_port (redirect a port via (kctx4 ctx))) =
    set_user_port port (set_user_ip4 (u32 (ip4 a)) ctx).
Proof.
  intros Huf. unfold SET_CTX_ADDRESS4, redirect. cbn [kc_ctx kctx4]. rewrite Huf, Z.eqb_refl.
  cbn [dnat_ip dnat_port set_via_waypoint set_dnat_port set_dnat_ip kctx4].
  assert (ip4 (set_ip4 (ip4 a) (set_ip4 (user_ip4 ctx) zero_ip)) = u32 (ip4 a)) as ->; [|done].
  unfold ip4 at 1, set_ip4. rewrite ld_st; [done|]. rewrite length_st; cbn; lia.
Qed.

(** A run that ends without a tail call, and one that starts the program again. *)
Lemma run_hook_ends n prog ctx k ctx' k' :
  prog ctx k = ((ctx', CGROUP_SOCK_OK), k') -> run_hook n prog ctx k = (ctx', k').
Proof. intros Hr. destruct n; cbn [run_hook]; rewrite krun_bind, Hr; done. Qed.
Lemma run_hook_again4 n prog ctx k ctx' k' :
  prog ctx k = ((ctx', TailCall TAIL_CALL_CONNECT4_INDEX), k') ->
  run_hook (S n) prog ctx k = run_hook n cgroup_connect4_prog ctx' k'.
Proof. intros Hr. cbn [run_hook]. rewrite krun_bind, Hr. done. Qed.

Lemma connect4_run ctx k :
  managed AF_INET (kctx4 ctx) k -> user_port ctx <> bpf_htons 53 ->
  exists k1 k2, same_maps k k1 /\ (cgroup_connect4_prog ctx k).1.1 = finish4 ctx (sock_traffic_control (kctx4 ctx) k1).1 /\
    (kc_via_waypoint (sock_traffic_control (kctx4 ctx) k1).1.2 = false ->
       cgroup_connect4_prog ctx k = ((finish4 ctx (sock_traffic_control (kctx4 ctx) k1).1, CGROUP_SOCK_OK), k2)).
Proof.
  intros Hm Hport. unfold cgroup_connect4_prog. rewrite krun_bind, (skips_managed _ _ _ Hm). cbn [fst snd].
  rewrite (proj2 (Z.eqb_neq _ _) Hport). destruct Hm as [_ Htcp _ _]. cbn in Htcp. rewrite Htcp. cbn [negb Z.eqb IPPROTO_TCP Pos.eqb].
  rewrite krun_bind. pose proof (observe_on_pre_connect_maps k) as H1. destruct (observe_on_pre_connect k) as [[] k1].
  cbn [fst snd] in *. exists k1. rewrite krun_bind. destruct (sock_traffic_control (kctx4 ctx) k1) as [[ret kc] k2].
  cbn [fst snd]. unfold finish4. cbn [fst snd]. destruct (ret =? 0); cbn [negb]; [|by exists k2].
  rewrite krun_bind. destruct (set_original_dst_info_ok kc k2) as [Hz _].
  destruct (set_original_dst_info kc k2) as [z k3]. cbn [fst snd] in *. subst z. cbn [Z.eqb negb].
  destruct (kc_via_waypoint kc); [|by exists k3].
  exists k3. unfold kmesh_workload_tail_call. rewrite krun_bind. done.
Qed.

Lemma connect6_run ctx k :
  managed AF_INET6 (kctx6 ctx) k ->
  exists k1 k2, same_maps k k1 /\ (cgroup_connect6_prog ctx k).1.1 = finish6 ctx (sock_traffic_control (kctx6 ctx) k1).1 /\
    (kc_via_waypoint (sock_traffic_control (kctx6 ctx) k1).1.2 = false ->
       cgroup_connect6_prog ctx k = ((finish6 ctx (sock_traffic_control (kctx6 ctx) k1).1, CGROUP_SOCK_OK), k2)).
Proof.
  intros Hm. unfold cgroup_connect6_prog. rewrite krun_bind, (skips_managed _ _ _ Hm). cbn [fst snd].
  destruct Hm as [_ Htcp _ _]. cbn in Htcp. rewrite Htcp. cbn [negb Z.eqb IPPROTO_TCP Pos.eqb].
  rewrite krun_bind. pose proof (observe_on_pre_connect_maps k) as H1. destruct (observe_on_pre_connect k) as [[] k1].
  cbn [fst snd] in *. exists k1. rewrite krun_bind. destruct (sock_traffic_control (kctx6 ctx) k1) as [[ret kc] k2].
  cbn [fst snd]. unfold finish6. cbn [fst snd]. destruct (ret =? 0); cbn [negb]; [|by exists k2].
  rewrite krun_bind. destruct (set_original_dst_info_ok kc k2) as [Hz _].
  destruct (set_original_dst_info kc k2) as [z k3]. cbn [fst snd] in *. subst z. cbn [Z.eqb negb].
  destruct (_ && _); cbn [dnat_ip dnat_port kc_via_waypoint set_dnat_ip];
    (destruct (kc_via_waypoint kc); [|by exists k3]); exists k3; unfold kmesh_workload_tail_call; by rewrite krun_bind.
Qed.
End hooks.

(** ** Delivery *)
Section delivery.
Context `{E : Env} `{!Reliable E} `{Persist} `{Dns} `{Helpers}.

(** Each endpoint of a group leads to a backend. *)
Lemma follow_reachable w P kc sid sv (prio : nat) cnt i :
  reachable (w, P) -> KmService (bpf P) !! sid = Some sv -> EndpointCount sv !! prio = Some cnt -> 1 <= i <= cnt ->
  exists uid bv, KmEndpoint (bpf P) !! mkEndpointKey sid (Z.of_nat prio) i = Some uid /\
    KmBackend (bpf P) !! uid = Some bv /\
    follow kc sid (Z.of_nat prio) i sv (bpf P) = backend_manager kc bv sid sv.
Proof.
  intros HR Hsv Hcnt Hi. apply reachable_inv_be in HR as [HP Hbe]. pose proof (pi_ep _ _ _ _ HP) as Hinv. cbn in Hinv, Hbe.
  destruct (ei_served _ Hinv sid sv (Z.of_nat prio) cnt i) as [uid Huid]; [done|lia|by rewrite Nat2Z.id|done|].
  destruct (Hbe uid) as [bv Hbv]; [by eexists|]. exists uid, bv. split; [done|]. split; [done|].
  unfold follow. by rewrite Huid, Hbv.
Qed.

Lemma frontend_manager_delivers w P kc sid sv (prio : nat) cnt tp k :
  reachable (w, P) -> k_maps k = bpf P -> KmService (bpf P) !! sid = Some sv -> no_waypoint sv -> chosen sv prio cnt ->
  target_of (user_port (kc_ctx kc)) sv = Some tp ->
  exists i uid bv k', 1 <= i <= cnt /\ KmEndpoint (bpf P) !! mkEndpointKey sid (Z.of_nat prio) i = Some uid /\
    KmBackend (bpf P) !! uid = Some bv /\
    frontend_manager kc sid k = ((0, if decide (bv_WaypointPort bv = 0) then redirect (bv_Ip bv) tp false kc
      else redirect (bv_WaypointAddr bv) (bv_WaypointPort bv) true kc), k').
Proof.
  intros HR Hk Hsv Hw Hch Htp. pose proof Hch as (Hcnt & Hne & _).
  pose proof (reachable_inv _ HR) as HP. pose proof (pi_ep _ _ _ _ HP) as Hinv. cbn in Hinv.
  destruct (ei_counts _ Hinv _ _ Hsv) as [Hlen _]. pose proof (lookup_lt_Some _ _ _ Hcnt) as Hlt.
  assert (0 <= cnt <= max_entries) as Hbound by (by eapply count_bound). pose proof max_entries_u32.
  assert (forall bv, backend_manager kc bv sid sv = (0, if decide (bv_WaypointPort bv = 0)
    then redirect (bv_Ip bv) tp false kc else redirect (bv_WaypointAddr bv) (bv_WaypointPort bv) true kc)) as Hbm.
  { intros bv. rewrite backend_manager_spec. unfold backend_target. case_decide; [|done]. by rewrite Htp. }
  destruct (service_manager_chosen kc sid sv k prio cnt) as (i & Hi & Hrun); [done|done|lia|lia| |].
  { intros i Hi. rewrite Hk. destruct (follow_reachable w P kc sid sv prio cnt i) as (uid & bv & _ & _ & ->); [done..|].
    by rewrite Hbm. }
  destruct (follow_reachable w P kc sid sv prio cnt i) as (uid & bv & Huid & Hbv & Hf); [done..|].
  exists i, uid, bv. eexists. split; [done|]. split; [done|]. split; [done|].
  unfold frontend_manager. rewrite krun_bind. unfold kgets at 1, map_lookup_service. cbn [fst snd]. rewrite Hk, Hsv.
  unfold kgets. cbn [fst snd]. rewrite Hrun, Hk, Hf. by rewrite Hbm.
Qed.
End delivery.

(** The address of a v6 socket that stands for the key [a] of the maps. *)
Definition as_user_ip6 (ctx : bpf_sock_addr) (a : ip_addr) : ip_addr :=
  if is_ipv4_mapped_addr (user_ip6 ctx) && negb (is_ipv4_mapped_addr a) then V4_MAPPED_TO_V6 a else a.

Section theorems.
Context `{E : Env} `{!Reliable E} `{Persist} `{Dns} `{Helpers}.

(** C2: a TCP connection of a managed pod to an address of a service without
    waypoint, on a port of the service, is sent to a backend: the program draws
    an endpoint of the group that the load balancing policy prescribes, finds
    its workload in the backend map, and rewrites the destination to the
    workload's address and target port, or to its waypoint.  A workload without
    waypoint is where the connection goes; otherwise the program is started
    again by a tail call, with the waypoint as the destination.  It holds in
    every state that the daemon can reach, for every random number. *)
Theorem connect4_delivers (w : World) (P : Processor) (k : Kernel) (ctx : bpf_sock_addr)
    (sid : Z) (sv : ServiceValue) (prio : nat) (cnt tp : Z) :
  reachable (w, P) -> k_maps k = bpf P ->
  managed AF_INET (kctx4 ctx) k -> is_u32 (user_ip4 ctx) -> user_port ctx <> bpf_htons 53 ->
  KmFrontend (bpf P) !! frontend_key4 ctx = Some sid -> KmService (bpf P) !! sid = Some sv ->
  no_waypoint sv -> chosen sv prio cnt -> target_of (user_port ctx) sv = Some tp ->
  exists i uid bv, 1 <= i <= cnt /\ KmEndpoint (bpf P) !! mkEndpointKey sid (Z.of_nat prio) i = Some uid /\
    KmBackend (bpf P) !! uid = Some bv /\
    (cgroup_connect4_prog ctx k).1.1 =
      (if decide (bv_WaypointPort bv = 0) then set_user_port tp (set_user_ip4 (u32 (ip4 (bv_Ip bv))) ctx)
       else set_user_port (bv_WaypointPort bv) (set_user_ip4 (u32 (ip4 (bv_WaypointAddr bv))) ctx)) /\
    (bv_WaypointPort bv = 0 ->
       (hook_connect4 ctx k).1 = set_user_port tp (set_user_ip4 (u32 (ip4 (bv_Ip bv))) ctx)).
Proof.
  intros HR Hk Hm Hu Hport Hfe Hsv Hw Hch Htp. destruct (connect4_run ctx k Hm Hport) as (k1 & k3 & Hk1 & Hrun & Hend).
  red in Hk1. rewrite Hk in Hk1. destruct (mg_family _ _ _ Hm) as [Hf Huf]. cbn in Hf, Huf.
  rewrite traffic_control4, Hk1, Hfe in Hrun, Hend by done.
  destruct (frontend_manager_delivers w P (kctx4 ctx) sid sv prio cnt tp k1) as (i & uid & bv & k2 & Hi & Huid & Hbv & Hd); [done..|].
  exists i, uid, bv. rewrite Hd in Hrun, Hend. unfold finish4 in Hrun, Hend. cbn [fst snd Z.eqb] in Hrun, Hend.
  split; [done|]. split; [done|]. split; [done|]. split; [rewrite Hrun; by case_decide; rewrite redirect4|].
  intros Hno. rewrite (decide_True _ _ Hno) in Hend. specialize (Hend eq_refl). rewrite redirect4 in Hend by done.
  unfold hook_connect4. by erewrite run_hook_ends.
Qed.

(** the same for a socket of the v6 family: a connection to a v6 address or
    to a v4-mapped address of a service reaches a backend, and the backend's v4
    address is given to the socket in the form the socket uses. *)
Theorem connect6_delivers (w : World) (P : Processor) (k : Kernel) (ctx : bpf_sock_addr)
    (sid : Z) (sv : ServiceValue) (prio : nat) (cnt tp : Z) :
  reachable (w, P) -> k_maps k = bpf P -> managed AF_INET6 (kctx6 ctx) k ->
  KmFrontend (bpf P) !! frontend_key6 ctx = Some sid -> KmService (bpf P) !! sid = Some sv ->
  no_waypoint sv -> chosen sv prio cnt -> target_of (user_port ctx) sv = Some tp ->
  exists i uid bv, 1 <= i <= cnt /\ KmEndpoint (bpf P) !! mkEndpointKey sid (Z.of_nat prio) i = Some uid /\
    KmBackend (bpf P) !! uid = Some bv /\
    (cgroup_connect6_prog ctx k).1.1 =
      if decide (bv_WaypointPort bv = 0) then set_user_port tp (set_user_ip6 (as_user_ip6 ctx (bv_Ip bv)) ctx)
      else set_user_port (bv_WaypointPort bv) (set_user_ip6 (as_user_ip6 ctx (bv_WaypointAddr bv)) ctx).
Proof.
  intros HR Hk Hm Hfe Hsv Hw Hch Htp. destruct (connect6_run ctx k Hm) as (k1 & _ & Hk1 & Hrun & _).
  red in Hk1. rewrite Hk in Hk1. destruct (mg_family _ _ _ Hm) as [Hf Huf]. cbn in Hf, Huf.
  rewrite traffic_control6, Hk1, Hfe in Hrun by done.
  destruct (frontend_manager_delivers w P (kctx6 ctx) sid sv prio cnt tp k1) as (i & uid & bv & k2 & Hi & Huid & Hbv & Hd); [done..|].
  exists i, uid, bv. split; [done|]. split; [done|]. split; [done|]. rewrite Hrun, Hd. unfold finish6. cbn [fst snd Z.eqb].
  unfold SET_CTX_ADDRESS6, redirect, as_user_ip6. cbn [kc_ctx kctx6]. rewrite Huf.
  cbn [Z.eqb AF_INET AF_INET6 Pos.eqb]. by case_decide.
Qed.
End theorems.

(** *** Witnesses *)
Definition demo_ctx4 : bpf_sock_addr :=
  mkSockAddr AF_INET (le_uint [10; 1; 0; 1]) zero_ip (bpf_htons 80) AF_INET IPPROTO_TCP 7.
Definition demo_ctx6 : bpf_sock_addr :=
  mkSockAddr AF_INET6 0 [0; 0; 0; 0; 0; 0; 0; 0; 0; 0; 255; 255; 10; 1; 0; 1] (bpf_htons 80) AF_INET6 IPPROTO_TCP 7.
Definition demo_kernel : Kernel :=
  mkKernel (bpf demo_end.2) {[cookie_key demo_ctx4 := 0]} None ∅ [] [] ∅ 0.

Lemma demo_service_value :
  exists sv, KmService (bpf demo_end.2) !! demo_sid = Some sv /\ no_waypoint sv /\ chosen sv 0 1 /\
    target_of (bpf_htons 80) sv = Some (bpf_htons 8080).
Proof.
  destruct (KmService (bpf demo_end.2) !! demo_sid) as [sv|] eqn:Hsv; [|vm_compute in Hsv; discriminate].
  exists sv. vm_compute in Hsv. injection Hsv as <-. split; [done|]. split; [reflexivity|]. split; [|reflexivity].
  split; [reflexivity|]. split; [discriminate|]. left. split; [by left|done].
Qed.

Lemma connect4_delivers_witness :
  exists i uid bv, 1 <= i <= 1 /\ KmEndpoint (bpf demo_end.2) !! mkEndpointKey demo_sid 0 i = Some uid /\
    KmBackend (bpf demo_end.2) !! uid = Some bv /\
    (@cgroup_connect4_prog HelpersOk demo_ctx4 demo_kernel).1.1 =
      (if decide (bv_WaypointPort bv = 0) then set_user_port (bpf_htons 8080) (set_user_ip4 (u32 (ip4 (bv_Ip bv))) demo_ctx4)
       else set_user_port (bv_WaypointPort bv) (set_user_ip4 (u32 (ip4 (bv_WaypointAddr bv))) demo_ctx4)) /\
    (bv_WaypointPort bv = 0 -> (@hook_connect4 HelpersOk demo_ctx4 demo_kernel).1 =
       set_user_port (bpf_htons 8080) (set_user_ip4 (u32 (ip4 (bv_Ip bv))) demo_ctx4)).
Proof.
  destruct demo_service_value as (sv & Hsv & Hw & Hch & Htp).
  apply (@connect4_delivers EnvOk _ PersistOk demo_dns HelpersOk demo_end.1 demo_end.2 demo_kernel demo_ctx4
           demo_sid sv 0 1 (bpf_htons 8080)).
  - rewrite <-surjective_pairing. exact demo_reachable.
  - reflexivity.
  - split; [by split|done|by split|]. exists 0. apply lookup_singleton_eq.
  - by split.
  - discriminate.
  - vm_compute. reflexivity.
  - exact Hsv.
  - exact Hw.
  - exact Hch.
  - exact Htp.
Defined.

Lemma connect6_delivers_witness :
  exists i uid bv, 1 <= i <= 1 /\ KmEndpoint (bpf demo_end.2) !! mkEndpointKey demo_sid 0 i = Some uid /\
    KmBackend (bpf demo_end.2) !! uid = Some bv /\
    (@cgroup_connect6_prog HelpersOk demo_ctx6 demo_kernel).1.1 =
      if decide (bv_WaypointPort bv = 0) then set_user_port (bpf_htons 8080) (set_user_ip6 (as_user_ip6 demo_ctx6 (bv_Ip bv)) demo_ctx6)
      else set_user_port (bv_WaypointPort bv) (set_user_ip6 (as_user_ip6 demo_ctx6 (bv_WaypointAddr bv)) demo_ctx6).
Proof.
  destruct demo_service_value as (sv & Hsv & Hw & Hch & Htp).
  apply (@connect6_delivers EnvOk _ PersistOk demo_dns HelpersOk demo_end.1 demo_end.2 demo_kernel demo_ctx6
           demo_sid sv 0 1 (bpf_htons 8080)).
  - rewrite <-surjective_pairing. exact demo_reachable.
  - reflexivity.
  - split; [by split|done|by split|]. exists 0. apply lookup_singleton_eq.
  - vm_compute. reflexivity.
  - exact Hsv.
  - exact Hw.
  - exact Hch.
  - exact Htp.
Defined.

(** ** Nowhere else *)

(** The destinations that the maps [c] know for the frontend value [fv]. *)
Inductive routed (c : Cache) (kc : kmesh_context) (fv : Z) : kmesh_context -> Prop :=
  | routed_same : routed c kc fv kc
  | routed_service_waypoint sv :
      KmService c !! fv = Some sv -> sv_WaypointPort sv <> 0 ->
      routed c kc fv (redirect (sv_WaypointAddr sv) (sv_WaypointPort sv) true kc)
  | routed_pod_waypoint bv :
      KmService c !! fv = None -> KmBackend c !! fv = Some bv -> bv_WaypointPort bv <> 0 ->
      routed c kc fv (redirect (bv_WaypointAddr bv) (bv_WaypointPort bv) true kc)
  | routed_endpoint sv prio i uid bv kc' :
      KmService c !! fv = Some sv -> KmEndpoint c !! mkEndpointKey fv prio i = Some uid ->
      KmBackend c !! uid = Some bv -> backend_target bv (user_port (kc_ctx kc)) sv kc = Some kc' ->
      routed c kc fv kc'.

Section safety.
Context `{Helpers}.

Lemma follow_routed kc fv prio i sv c kc' :
  KmService c !! fv = Some sv -> follow kc fv prio i sv c = (0, kc') -> routed c kc fv kc'.
Proof.
  intros Hsv. unfold follow. destruct (KmEndpoint c !! _) as [uid|] eqn:Hep; [|by intros [=]].
  destruct (KmBackend c !! uid) as [bv|] eqn:Hbe; [|by intros [=]]. rewrite backend_manager_spec.
  destruct (backend_target _ _ _ _) as [kc1|] eqn:Ht; [|by intros [=]]. intros [= <-]. by eapply routed_endpoint.
Qed.

Lemma ask_follow n kc fv prio sv k :
  exists i k', (backend_index ← draw n;
    endpoint_v ← kgets (fun k => map_lookup_endpoint (mkEndpointKey fv prio backend_index) (k_maps k));
    match endpoint_v with
    | None => mret (- ENOENT, kc)
    | Some endpoint_v => endpoint_manager kc endpoint_v fv sv
    end) k = (follow kc fv prio i sv (k_maps k), k').
Proof.
  rewrite krun_bind. unfold draw, bpf_get_prandom_u32, ask. rewrite krun_bind. cbn [fst snd].
  set (k1 := set_clock (S (k_clock k)) k). eexists _, k1. change (k_maps k) with (k_maps k1). apply follow_run.
Qed.

Lemma failover_routed n j kc fv sv k kc' k' :
  KmService (k_maps k) !! fv = Some sv -> failover_loop n j kc fv sv k = ((0, kc'), k') -> routed (k_maps k) kc fv kc'.
Proof.
  intros Hsv. revert j. induction n as [|n IH]; intros j; cbn [failover_loop]; [by intros [=]|].
  destruct (prio_endpoint_count (Z.to_nat j) sv =? 0); [apply IH|]. destruct (ask_follow (prio_endpoint_count (Z.to_nat j) sv) kc fv j sv k) as (i & k2 & ->).
  intros [= Hf _]. by eapply follow_routed.
Qed.

Lemma service_manager_routed kc fv sv k kc' k' :
  KmService (k_maps k) !! fv = Some sv -> service_manager kc fv sv k = ((0, kc'), k') -> routed (k_maps k) kc fv kc'.
Proof.
  intros Hsv. unfold service_manager. destruct (_ && _) eqn:Hw.
  { rewrite waypoint_manager_spec. intros [= <- _]. apply routed_service_waypoint; [done|].
    apply andb_true_iff in Hw as [_ Hw]. by apply negb_true_iff, Z.eqb_neq in Hw. }
  destruct (_ =? LB_POLICY_RANDOM); [|destruct (_ =? LB_POLICY_STRICT); [|destruct (_ =? LB_POLICY_FAILOVER)]].
  - unfold lb_random_handle. destruct (prio_endpoint_count 0 sv =? 0); [intros [= <- _]; apply routed_same|].
    destruct (ask_follow (prio_endpoint_count 0 sv) kc fv 0 sv k) as (i & k2 & ->). intros [= Hf _]. by eapply follow_routed.
  - unfold lb_locality_strict_handle. rewrite krun_bind.
    destruct (negb (prio_endpoint_count 0 sv =? 0)); cbn [fst snd]; [|by intros [=]].
    destruct (ask_follow (prio_endpoint_count 0 sv) kc fv 0 sv k) as (i & k2 & Hf).
    rewrite Hf. destruct (follow kc fv 0 i sv (k_maps k)) as [ret kc1] eqn:Hfo. cbn [fst snd].
    destruct (Z.eqb_spec ret 0) as [->|Hne]; cbn [negb]; [intros [= <- _]; by eapply follow_routed|].
    intros [= ? _]. congruence.
  - apply failover_routed. done.
  - by intros [=].
Qed.

Lemma frontend_manager_routed kc fv k kc' k' :
  frontend_manager kc fv k = ((0, kc'), k') -> routed (k_maps k) kc fv kc'.
Proof.
  unfold frontend_manager. rewrite krun_bind. unfold kgets, map_lookup_service. cbn [fst snd].
  destruct (KmService (k_maps k) !! fv) as [sv|] eqn:Hsv; [by apply service_manager_routed|].
  rewrite krun_bind. unfold map_lookup_backend. cbn [fst snd].
  destruct (KmBackend (k_maps k) !! fv) as [bv|] eqn:Hbv; [|by intros [=]].
  destruct (Z.eqb_spec (bv_WaypointPort bv) 0); cbn [negb].
  - intros [= <- _]. apply routed_same.
  - rewrite waypoint_manager_spec. intros [= <- _]. by apply routed_pod_waypoint.
Qed.

(** whatever the maps hold and whatever the helpers answer, the connect
    program leaves the destination of a v4 socket alone, or sends a DNS query
    to the registered proxy, or sends the connection to a destination that the
    maps list for its address: the waypoint of the service or of the pod, or
    an endpoint's workload of that very service. *)
Theorem connect4_only_registered (k : Kernel) (ctx : bpf_sock_addr) :
  family ctx = AF_INET -> is_u32 (user_ip4 ctx) ->
  (cgroup_connect4_prog ctx k).1.1 = ctx \/
  (exists bv, user_port ctx = bpf_htons 53 /\ KmBackend (k_maps k) !! 0 = Some bv /\
     (cgroup_connect4_prog ctx k).1.1 = set_user_ip4 (ip4 (bv_Ip bv)) ctx) \/
  (exists fv kc, KmFrontend (k_maps k) !! frontend_key4 ctx = Some fv /\ routed (k_maps k) (kctx4 ctx) fv kc /\
     (cgroup_connect4_prog ctx k).1.1 = SET_CTX_ADDRESS4 ctx (dnat_ip kc) (dnat_port kc)).
Proof.
  intros Hf Hu. unfold cgroup_connect4_prog. rewrite krun_bind. pose proof (skips_maps (kctx4 ctx) k) as H0.
  destruct (skips (kctx4 ctx) k) as [skip k0]. cbn [fst snd] in *. red in H0. destruct skip; [by left|].
  destruct (Z.eqb_spec (user_port ctx) (bpf_htons 53)) as [Hp|Hp].
  - rewrite krun_bind. unfold kgets, map_lookup_backend. cbn [fst snd]. rewrite H0.
    destruct (KmBackend (k_maps k) !! 0) as [bv|] eqn:Hbv; [|by left]. right. left. exists bv. split; [done|]. split; [done|].
    rewrite krun_bind. match goal with |- context [set_original_dst_info ?kc ?k] =>
      destruct (set_original_dst_info_ok kc k) as [-> _] end. done.
  - destruct (negb (protocol ctx =? IPPROTO_TCP)); [by left|]. rewrite krun_bind. pose proof (observe_on_pre_connect_maps k0) as H1.
    destruct (observe_on_pre_connect k0) as [[] k1]. cbn [fst snd] in *. red in H1. rewrite H0 in H1.
    rewrite krun_bind, traffic_control4, H1 by done.
    destruct (KmFrontend (k_maps k) !! frontend_key4 ctx) as [fv|] eqn:Hfe; [|by left].
    destruct (frontend_manager (kctx4 ctx) fv k1) as [[ret kc] k2] eqn:Hfm. cbn [fst snd].
    destruct (Z.eqb_spec ret 0) as [->|Hne]; cbn [negb]; [|by left]. right. right. exists fv, kc. split; [done|].
    split; [rewrite <-H1; by eapply frontend_manager_routed|].
    rewrite krun_bind. destruct (set_original_dst_info_ok kc k2) as [-> _]. cbn [Z.eqb negb].
    destruct (kc_via_waypoint kc); [|done]. unfold kmesh_workload_tail_call. by rewrite krun_bind.
Qed.
End safety.

Lemma connect4_only_registered_witness :
  (@cgroup_connect4_prog HelpersOk demo_ctx4 demo_kernel).1.1 = demo_ctx4 \/
  (exists bv, user_port demo_ctx4 = bpf_htons 53 /\ KmBackend (k_maps demo_kernel) !! 0 = Some bv /\
     (@cgroup_connect4_prog HelpersOk demo_ctx4 demo_kernel).1.1 = set_user_ip4 (ip4 (bv_Ip bv)) demo_ctx4) \/
  (exists fv kc, KmFrontend (k_maps demo_kernel) !! frontend_key4 demo_ctx4 = Some fv /\
     routed (k_maps demo_kernel) (kctx4 demo_ctx4) fv kc /\
     (@cgroup_connect4_prog HelpersOk demo_ctx4 demo_kernel).1.1 = SET_CTX_ADDRESS4 demo_ctx4 (dnat_ip kc) (dnat_port kc)).
Proof. apply (@connect4_only_registered HelpersOk demo_kernel demo_ctx4); by split. Defined.
