(* ===== verification/Metadata.v ===== *)
(** * The original destination, told to the waypoint

    A connection that is sent to a waypoint starts with the destination the
    client asked for.  The format is the one the comment of [sendmsg.c] gives;
    [decode_metadata] reads it.  The chain of programs is followed from
    [connect] over the established socket to the first bytes sent. *)
From S2P Require Import Prelude GoNet Nets HashName Api Runtime BpfCache BpfCommon Balancer Delivery SockOps.

(** |0x01|length, 4 bytes|address|port, 2 bytes|0xfe|0, 4 bytes|payload, numbers
    in network order. *)
Definition decode_metadata (b : bytes) : option (bytes * Z * bytes) :=
  match b with
  | type :: b =>
      let n := Z.to_nat (be_uint (take 4 b)) in
      let value := take n (drop 4 b) in
      match drop (4 + n) b with
      | fin :: payload =>
          if (type =? 1) && (fin =? 254) && bool_decide (take 4 payload = [0; 0; 0; 0])
          then Some (take (n - 2) value, be_uint (drop (n - 2) value), drop 4 payload)
          else None
      | [] => None
      end
  | [] => None
  end.

Section encode.
Context `{Helpers}.

(** Writing at the end of what is written. *)
Lemma write_buf done room msg b :
  (length b <= length room)%nat ->
  SK_MSG_WRITE_BUF (done ++ room ++ msg) (length done) b =
    ((done ++ b) ++ drop (length b) room ++ msg, length (done ++ b)).
Proof.
  intros Hb. unfold SK_MSG_WRITE_BUF, check_overflow. rewrite bool_decide_eq_false_2 by (rewrite !length_app; lia).
  unfold memcpy. rewrite take_app_length, <-app_assoc. f_equal; [|by rewrite length_app]. do 2 f_equal.
  rewrite drop_app_ge by lia. replace (length done + length b - length done)%nat with (length b) by lia.
  by rewrite drop_app_le.
Qed.

(** The metadata of a destination. *)
Definition metadata (addr : bytes) (port : Z) : bytes :=
  [1] ++ be_bytes 4 (Z.of_nat (length addr + 2)) ++ addr ++ le_bytes 2 port ++ [254; 0; 0; 0; 0].

Lemma htonl_bytes x : le_bytes 4 (bpf_htonl x) = be_bytes 4 (u32 x).
Proof.
  unfold bpf_htonl, be_bytes. rewrite <-(le_bytes_le_uint (reverse (le_bytes 4 (u32 x)))).
  - rewrite length_reverse, length_le_bytes. f_equal. unfold be_uint. do 2 f_equal.
    rewrite <-(le_bytes_le_uint (le_bytes 4 x)) by apply le_bytes_is. rewrite length_le_bytes, le_uint_le_bytes. done.
  - apply Forall_reverse, le_bytes_is.
Qed.

Lemma encode_writes (v4 : bool) addr port room msg :
  length addr = (if v4 then 4 else 16)%nat -> length room = (length addr + 12)%nat ->
  (let '(msg, off) := SK_MSG_WRITE_BUF (room ++ msg) 0 (le_bytes TLV_TYPE_SIZE TLV_ORG_DST_ADDR) in
   let '(msg, off) := SK_MSG_WRITE_BUF msg off (le_bytes TLV_LENGTH_SIZE (bpf_htonl (Z.of_nat (length addr + 2)))) in
   let '(msg, off) := SK_MSG_WRITE_BUF msg off addr in
   let '(msg, off) := SK_MSG_WRITE_BUF msg off (le_bytes TLV_PORT_LENGTH port) in
   encode_metadata_end msg off).1 = metadata addr port ++ msg.
Proof.
  intros Ha Hr. unfold encode_metadata_end, metadata.
  pose proof (write_buf [] room msg) as W0. cbn [app length] in W0.
  rewrite W0 by (rewrite length_le_bytes; unfold TLV_TYPE_SIZE; lia).
  rewrite !write_buf by (rewrite ?length_le_bytes, ?length_drop, ?length_le_bytes; unfold TLV_TYPE_SIZE, TLV_LENGTH_SIZE, TLV_PORT_LENGTH; lia).
  cbn [fst]. rewrite htonl_bytes, u32_small by (unfold is_u32; destruct v4; lia).
  assert (forall k, (length room <= k)%nat -> drop k room = []) as Hd by (intros; by apply drop_ge).
  rewrite !drop_drop, Hd by (rewrite ?length_le_bytes, ?length_be_bytes; unfold TLV_TYPE_SIZE, TLV_LENGTH_SIZE, TLV_PORT_LENGTH; lia).
  cbn [app]. by rewrite <-!app_assoc.
Qed.

Lemma decode_metadata_encode addr port msg :
  (length addr <= 16)%nat -> decode_metadata (metadata addr port ++ msg) = Some (addr, bpf_ntohs port, msg).
Proof.
  intros Ha. unfold metadata. rewrite <-!app_assoc. cbn [app decode_metadata].
  set (n := Z.of_nat (length addr + 2)).
  assert (length (be_bytes 4 n) = 4%nat) as Hl by apply length_be_bytes.
  rewrite take_app_le, take_ge by lia. rewrite be_uint_be_bytes.
  replace (n mod 256 ^ Z.of_nat 4) with n by (rewrite Z.mod_small; lia). subst n. rewrite Nat2Z.id.
  replace (length addr + 2 - 2)%nat with (length addr) by lia.
  rewrite (drop_app_ge _ _ (4 + _)) by lia. rewrite Hl. replace (4 + (length addr + 2) - 4)%nat with (length addr + 2)%nat by lia.
  rewrite (drop_app_ge addr) by lia. replace (length addr + 2 - length addr)%nat with 2%nat by lia.
  cbn [le_bytes app drop]. cbn [Z.eqb Pos.eqb andb]. rewrite bool_decide_eq_true_2 by done.
  rewrite drop_app_ge by lia. rewrite Hl. cbn [Nat.sub drop]. rewrite drop_0.
  rewrite (take_app_ge addr) by lia. replace (length addr + 2 - length addr)%nat with 2%nat by lia.
  cbn [take]. rewrite take_app_length, drop_app_length. unfold bpf_ntohs. cbn [le_bytes]. by rewrite ?take_0, ?drop_0.
Qed.

(** The room that [bpf_msg_push_data] makes. *)
Definition push_ok (push : nat -> option bytes) : Prop := forall n, exists room, push n = Some room /\ length room = n.

Lemma sendmsg_encodes push fam msg k s :
  fam = AF_INET \/ fam = AF_INET6 -> push_ok push -> map_of_sock_storage k = Some s ->
  via_waypoint s = true -> has_encoded s = false -> length (sk_tuple s) = 36%nat ->
  exists s', sendmsg_prog push fam msg k =
    (metadata (if fam =? AF_INET then take 4 (set_ip4 (v4_daddr (sk_tuple s)) zero_ip) else v6_daddr (sk_tuple s))
       (if fam =? AF_INET then v4_dport (sk_tuple s) else v6_dport (sk_tuple s)) ++ msg, set_storage (Some s') k) /\
    has_encoded s' = true.
Proof.
  intros Hfam Hpush Hs Hvia Henc Hlen. unfold sendmsg_prog.
  assert (negb (fam =? AF_INET) && negb (fam =? AF_INET6) = false) as -> by (by destruct Hfam as [-> | ->]).
  rewrite krun_bind. unfold encode_metadata_org_dst_addr, get_origin_dst. rewrite !krun_bind.
  unfold storage_get, kgets. cbn [fst snd]. rewrite Hs, Hvia, Henc. cbn [negb orb]. rewrite krun_bind.
  exists (mkStorage (connect_ns s) (last_report_ns s) (direction s) (connect_success s) true true (has_set_ip s) (sk_tuple s)).
  destruct Hfam as [-> | ->]; cbn [Z.eqb AF_INET AF_INET6 Pos.eqb fst snd storage_put kmod mret k_ret].
  - destruct (Hpush (TLV_ORG_DST_ADDR4_SIZE + TLV_END_SIZE)%nat) as (room & Hp & Hr).
    unfold alloc_dst_length. rewrite Hp. set (addr := take 4 (set_ip4 (v4_daddr (sk_tuple s)) zero_ip)).
    change (take TLV_IP4_LENGTH (set_ip4 (v4_daddr (sk_tuple s)) zero_ip)) with addr.
    assert (length addr = 4%nat) as Ha by reflexivity.
    pose proof (encode_writes true addr (v4_dport (sk_tuple s)) room msg Ha) as Hw. rewrite Ha in Hw. specialize (Hw Hr).
    change (Z.of_nat (4 + 2)) with (Z.of_nat TLV_ORG_DST_ADDR4_LENGTH) in Hw. rewrite <-Hw.
    split; [|done].
    repeat match goal with |- context [SK_MSG_WRITE_BUF ?a ?b ?c] => destruct (SK_MSG_WRITE_BUF a b c) end. done.
  - destruct (Hpush (TLV_ORG_DST_ADDR6_SIZE + TLV_END_SIZE)%nat) as (room & Hp & Hr).
    unfold alloc_dst_length. rewrite Hp. set (addr := v6_daddr (sk_tuple s)).
    assert (length addr = 16%nat) as Ha.
    { unfold addr, v6_daddr. rewrite length_take, length_drop. lia. }
    assert (take TLV_IP6_LENGTH addr = addr) as Ht by (apply take_ge; rewrite Ha; done).
    pose proof (encode_writes false addr (v6_dport (sk_tuple s)) room msg Ha) as Hw. rewrite Ha in Hw. specialize (Hw Hr).
    change (Z.of_nat (16 + 2)) with (Z.of_nat TLV_ORG_DST_ADDR6_LENGTH) in Hw. rewrite <-Hw.
    split; [|done]. rewrite Ht.
    repeat match goal with |- context [SK_MSG_WRITE_BUF ?a ?b ?c] => destruct (SK_MSG_WRITE_BUF a b c) end. done.
Qed.

(** Once the metadata is out, messages pass unchanged. *)
Lemma sendmsg_passes push fam msg k s :
  map_of_sock_storage k = Some s -> via_waypoint s = false \/ has_encoded s = true ->
  sendmsg_prog push fam msg k = (msg, k).
Proof.
  intros Hs Hp. unfold sendmsg_prog. destruct (_ && _); [done|]. rewrite krun_bind.
  unfold encode_metadata_org_dst_addr, get_origin_dst. rewrite !krun_bind. unfold storage_get, kgets. cbn [fst snd].
  rewrite Hs. assert (negb (via_waypoint s) || has_encoded s = true) as ->; [|done].
  destruct Hp as [-> | ->]; [done|apply orb_true_r].
Qed.
End encode.

(** ** From [connect] to the first bytes *)
Section chain.
Context `{Helpers}.

(** What the programs between [connect] and [sendmsg] leave of the storage. *)
Definition keeps_dst (k k' : Kernel) : Prop :=
  forall s, map_of_sock_storage k = Some s -> exists s', map_of_sock_storage k' = Some s' /\
    via_waypoint s' = via_waypoint s /\ has_encoded s' = has_encoded s /\ sk_tuple s' = sk_tuple s.
#[export] Instance keeps_dst_refl : Reflexive keeps_dst.
Proof. intros k s Hs. by exists s. Qed.
#[export] Instance keeps_dst_trans : Transitive keeps_dst.
Proof.
  intros k1 k2 k3 H12 H23 s Hs. destruct (H12 s Hs) as (s2 & Hs2 & A & B & C).
  destruct (H23 s2 Hs2) as (s3 & Hs3 & A' & B' & C'). exists s3. by rewrite A', B', C'.
Qed.
Lemma keeps_dst_same k k' : map_of_sock_storage k' = map_of_sock_storage k -> keeps_dst k k'.
Proof. intros Hk s Hs. exists s. by rewrite Hk. Qed.

Lemma tcp_report_keeps reserved sk tcp s state k :
  map_of_sock_storage k = Some s -> keeps_dst k (tcp_report reserved sk tcp s state k).2.
Proof.
  intros Hs. unfold tcp_report. rewrite krun_bind. unfold ask at 1. cbn [fst snd]. destruct (reserve_fails _); [by apply keeps_dst_same|].
  rewrite krun_bind. unfold bpf_ktime_get_ns, ask. cbn [fst snd]. rewrite krun_bind. cbn [fst snd].
  intros s1 Hs1. rewrite Hs in Hs1. injection Hs1 as <-. by eexists.
Qed.
Lemma established_keeps monitoring reserved sk dir k :
  keeps_dst k (observe_on_connect_established monitoring reserved sk dir k).2.
Proof.
  unfold observe_on_connect_established. destruct monitoring; [|done]. destruct sk as [[sk [tcp|]]|]; [|done|done].
  cbn [negb]. rewrite krun_bind. intros s Hs.
  assert ((if dir =? OUTBOUND then storage_get else storage_get_create) k = (Some s, k)) as ->.
  { unfold storage_get_create, storage_get, kgets. destruct (dir =? OUTBOUND); [by rewrite <-Hs|]. rewrite krun_bind. cbn. by rewrite Hs. }
  cbn [fst snd]. rewrite krun_bind.
  assert (map_of_sock_storage ((if dir =? INBOUND then bpf_ktime_get_ns else mret (connect_ns s)) k).2 = Some s) as Hs1
    by (by destruct (dir =? INBOUND)).
  destruct ((if dir =? INBOUND then bpf_ktime_get_ns else mret (connect_ns s)) k) as [start k1]. cbn [fst snd] in *. rewrite krun_bind. revert Hs. revert s Hs1. intros s Hs1 _.
  match goal with |- context [tcp_report _ _ _ ?s1] => pose proof (tcp_report_keeps reserved sk tcp s1 BPF_TCP_ESTABLISHED (storage_put s1 k1).2 eq_refl) as Hr end.
  destruct (Hr _ eq_refl) as (s' & Hs' & A & B & C). by exists s'.
Qed.

(** The hooks on a socket without storage, step by step. *)
Lemma observe_fresh k :
  map_of_sock_storage k = None -> storage_fails (k_clock k) = false ->
  exists now, observe_on_pre_connect k =
    (tt, set_storage (Some (mkStorage now 0 0 false false false false tuple_zero)) (set_clock (S (S (k_clock k))) k)).
Proof.
  intros Hs Hf. exists (ktime (S (k_clock k))). unfold observe_on_pre_connect, storage_get_create, storage_get, kgets.
  unfold mbind, k_bind. cbn. rewrite Hs. cbn. by rewrite Hf.
Qed.
Lemma set_dst_fresh4 kc k s :
  map_of_sock_storage k = Some s -> has_set_ip s = false -> family (kc_ctx kc) = AF_INET ->
  set_original_dst_info kc k = (0, set_storage (Some (mkStorage (connect_ns s) (last_report_ns s) (direction s)
    (connect_success s) (if kc_via_waypoint kc then true else via_waypoint s) (has_encoded s) true
    (set_v4_dport (u16 (user_port (kc_ctx kc))) (set_v4_daddr (ip4 (orig_dst_addr kc)) (sk_tuple s))))) k).
Proof.
  intros Hs Hn Hf. unfold set_original_dst_info, storage_get_create, storage_get, kgets, mbind, k_bind. cbn.
  rewrite Hs. cbn. by rewrite Hn, Hf.
Qed.
Lemma waypoint_run ctx k sid sv :
  family ctx = AF_INET -> is_u32 (user_ip4 ctx) ->
  KmFrontend (k_maps k) !! frontend_key4 ctx = Some sid -> KmService (k_maps k) !! sid = Some sv ->
  ip4 (sv_WaypointAddr sv) <> 0 -> sv_WaypointPort sv <> 0 ->
  sock_traffic_control (kctx4 ctx) k = ((0, redirect (sv_WaypointAddr sv) (sv_WaypointPort sv) true (kctx4 ctx)), k).
Proof.
  intros Hf Hu Hfe Hsv Hwa Hwp. rewrite traffic_control4, Hfe by done. unfold frontend_manager. rewrite krun_bind.
  unfold kgets, map_lookup_service. cbn [fst snd]. rewrite Hsv. unfold service_manager.
  rewrite (proj2 (Z.eqb_neq _ _) Hwa), (proj2 (Z.eqb_neq _ _) Hwp). cbn [negb andb]. by rewrite waypoint_manager_spec.
Qed.

(** A socket without storage that is sent to the waypoint of a service. *)
Lemma connect4_first_run ctx k sid sv :
  managed AF_INET (kctx4 ctx) k -> is_u32 (user_ip4 ctx) -> user_port ctx <> bpf_htons 53 ->
  map_of_sock_storage k = None -> storage_fails (k_clock k) = false ->
  KmFrontend (k_maps k) !! frontend_key4 ctx = Some sid -> KmService (k_maps k) !! sid = Some sv ->
  ip4 (sv_WaypointAddr sv) <> 0 -> sv_WaypointPort sv <> 0 ->
  exists s n, cgroup_connect4_prog ctx k =
    ((set_user_port (sv_WaypointPort sv) (set_user_ip4 (u32 (ip4 (sv_WaypointAddr sv))) ctx),
       if tail_call_fails n then CGROUP_SOCK_OK else TailCall TAIL_CALL_CONNECT4_INDEX), set_storage (Some s) (set_clock (S n) k)) /\
    via_waypoint s = true /\ has_encoded s = false /\ has_set_ip s = true /\
    sk_tuple s = set_v4_dport (u16 (user_port ctx)) (set_v4_daddr (user_ip4 ctx) tuple_zero).
Proof.
  intros Hm Hu Hport Hs Hsf Hfe Hsv Hwa Hwp. pose proof Hm as [[Hf Huf] Htcp _ _]. cbn in Hf, Huf, Htcp.
  unfold cgroup_connect4_prog. rewrite krun_bind, (skips_managed _ _ _ Hm). cbn [fst snd].
  rewrite (proj2 (Z.eqb_neq _ _) Hport), Htcp. cbn [negb Z.eqb IPPROTO_TCP Pos.eqb].
  destruct (observe_fresh k Hs Hsf) as [now Hob]. rewrite krun_bind, Hob. cbn [fst snd].
  rewrite krun_bind, (waypoint_run ctx _ sid sv) by done. cbn [fst snd Z.eqb negb].
  rewrite krun_bind. erewrite set_dst_fresh4; [|reflexivity|done|done].
  assert (ip4 (orig_dst_addr (redirect (sv_WaypointAddr sv) (sv_WaypointPort sv) true (kctx4 ctx))) = user_ip4 ctx) as ->
    by (by apply ip4_set_ip4). cbn [fst snd Z.eqb negb redirect kc_via_waypoint set_via_waypoint].
  unfold kmesh_workload_tail_call. rewrite krun_bind. cbn [fst snd ask].
  exists (mkStorage now 0 0 false true false true
    (set_v4_dport (u16 (user_port ctx)) (set_v4_daddr (user_ip4 ctx) tuple_zero))), (S (S (k_clock k))).
  split; [|done]. by rewrite redirect4.
Qed.

(** *** The program again, after the tail call

    The storage of a connection on its way to a waypoint: it holds the
    destination [t] that the client asked for, not yet sent. *)
Definition has_dst (t : bytes) (k : Kernel) : Prop :=
  exists s, map_of_sock_storage k = Some s /\ via_waypoint s = true /\ has_encoded s = false /\
    has_set_ip s = true /\ sk_tuple s = t.
Definition preserves {A} (m : K A) : Prop := forall t k, has_dst t k -> has_dst t (m k).2.

Lemma preserves_ret {A} (a : A) : preserves (mret a).
Proof. by intros t k Hk. Qed.
Lemma preserves_gets {A} (f : Kernel -> A) : preserves (kgets f).
Proof. by intros t k Hk. Qed.
Lemma preserves_ask {A} (f : nat -> A) : preserves (ask f).
Proof. by intros t k Hk. Qed.
Lemma preserves_bind {A B} (m : K A) (f : A -> K B) : preserves m -> (forall a, preserves (f a)) -> preserves (m ≫= f).
Proof. intros Hm Hf t k Hk. rewrite krun_bind. apply Hf, Hm, Hk. Qed.
Lemma preserves_manager (f : gmap bytes Z -> gmap bytes Z) : preserves (kmod (fun k => set_manager (f (map_of_manager k)) k)).
Proof. by intros t k Hk. Qed.

Ltac preserve :=
  repeat first
    [ solve [eauto] | apply preserves_ret | apply preserves_gets | apply preserves_ask
    | apply (preserves_manager (insert _ _)) | apply (preserves_manager (delete _))
    | simple apply preserves_bind; [|intros ?]
    | match goal with |- preserves (match ?x with _ => _ end) => destruct x end
    | progress cbn zeta ].

Lemma preserves_get_create : preserves storage_get_create.
Proof.
  intros t k (s & Hs & Hrest). unfold storage_get_create, storage_get, kgets. rewrite krun_bind. cbn [fst snd].
  rewrite Hs. by exists s.
Qed.
Lemma preserves_observe : preserves observe_on_pre_connect.
Proof.
  intros t k (s & Hs & Hrest). unfold observe_on_pre_connect, storage_get_create, storage_get, kgets, mbind, k_bind. cbn.
  rewrite Hs. cbn. by eexists.
Qed.
(** The destination is recorded once. *)
Lemma preserves_set_dst kc : preserves (set_original_dst_info kc).
Proof.
  intros t k (s & Hs & Hvia & Henc & Hset & Ht).
  unfold set_original_dst_info, storage_get_create, storage_get, kgets, mbind, k_bind. cbn.
  rewrite Hs. cbn. rewrite Hset, !andb_false_r. cbn. eexists. split; [done|]. cbn. rewrite Hvia. by destruct (kc_via_waypoint kc).
Qed.
Lemma preserves_skips kc : preserves (skips kc).
Proof. unfold skips, handle_kmesh_manage_process, record_manager_netns_cookie, remove_manager_netns_cookie, is_kmesh_enabled. preserve. Qed.
Lemma preserves_failover n i kc sid sv : preserves (failover_loop n i kc sid sv).
Proof. revert i. induction n as [|n IH]; intros i; cbn [failover_loop]; unfold draw, bpf_get_prandom_u32, endpoint_manager; preserve. Qed.
Lemma preserves_traffic_control kc : preserves (sock_traffic_control kc).
Proof.
  unfold sock_traffic_control, frontend_manager, service_manager, lb_random_handle, lb_locality_strict_handle,
    lb_locality_failover_handle, draw, bpf_get_prandom_u32, endpoint_manager.
  pose proof preserves_failover. preserve.
Qed.

Lemma preserves_connect4 ctx : preserves (cgroup_connect4_prog ctx).
Proof.
  pose proof preserves_observe. pose proof preserves_set_dst. pose proof preserves_skips. pose proof preserves_traffic_control.
  unfold cgroup_connect4_prog, kmesh_workload_tail_call. preserve.
Qed.
Lemma preserves_connect6 ctx : preserves (cgroup_connect6_prog ctx).
Proof.
  pose proof preserves_observe. pose proof preserves_set_dst. pose proof preserves_skips. pose proof preserves_traffic_control.
  unfold cgroup_connect6_prog, kmesh_workload_tail_call. preserve.
Qed.
Lemma preserves_run_hook n prog : (forall ctx, preserves (prog ctx)) -> forall ctx, preserves (run_hook n prog ctx).
Proof.
  revert prog. induction n as [|n IH]; intros prog Hp ctx; cbn [run_hook]; (apply preserves_bind; [apply Hp|]); intros [ctx1 [|i]];
    try apply preserves_ret.
  unfold KmCgrTailcall. destruct (i =? _); [apply IH, preserves_connect4|].
  destruct (i =? _); [apply IH, preserves_connect6|apply preserves_ret].
Qed.

(** An address that the programs leave alone: none of the mesh, or a pod's
    without waypoint. *)
Definition plain_addr (c : Cache) (ctx : bpf_sock_addr) : Prop :=
  forall fv, KmFrontend c !! frontend_key4 ctx = Some fv ->
    KmService c !! fv = None /\ (forall bv, KmBackend c !! fv = Some bv -> bv_WaypointPort bv = 0).

Lemma connect4_leaves ctx k :
  family ctx = AF_INET -> is_u32 (user_ip4 ctx) -> user_port ctx <> bpf_htons 53 -> plain_addr (k_maps k) ctx ->
  exists k', cgroup_connect4_prog ctx k = ((ctx, CGROUP_SOCK_OK), k').
Proof.
  intros Hf Hu H53 Hplain. unfold cgroup_connect4_prog. rewrite krun_bind. pose proof (skips_maps (kctx4 ctx) k) as H0.
  destruct (skips (kctx4 ctx) k) as [skip k0]. cbn [fst snd] in *. destruct skip; [by eexists|].
  rewrite (proj2 (Z.eqb_neq _ _) H53). destruct (negb (protocol ctx =? IPPROTO_TCP)); [by eexists|].
  rewrite krun_bind. pose proof (observe_on_pre_connect_maps k0) as H1. destruct (observe_on_pre_connect k0) as [[] k1].
  cbn [fst snd] in *. red in H0, H1. rewrite H0 in H1. rewrite krun_bind, traffic_control4, H1 by done.
  destruct (KmFrontend (k_maps k) !! frontend_key4 ctx) as [fv|] eqn:Hfe; [|by eexists].
  destruct (Hplain fv Hfe) as [Hsv Hbe]. unfold frontend_manager. rewrite krun_bind.
  unfold kgets, map_lookup_service, map_lookup_backend. cbn [fst snd]. rewrite H1, Hsv, krun_bind. cbn [fst snd]. rewrite H1.
  destruct (KmBackend (k_maps k) !! fv) as [bv|] eqn:Hbv; [|by eexists]. rewrite (Hbe bv) by done.
  cbn [Z.eqb negb fst snd mret k_ret]. rewrite krun_bind. destruct (set_original_dst_info_ok (kctx4 ctx) k1) as [-> _]. cbn [Z.eqb negb].
  assert (SET_CTX_ADDRESS4 ctx (dnat_ip (kctx4 ctx)) (dnat_port (kctx4 ctx)) = ctx) as ->; [|by eexists].
  unfold SET_CTX_ADDRESS4. destruct (_ =? _); [|done]. cbn [dnat_ip dnat_port kctx4]. rewrite ip4_set_ip4 by done. by destruct ctx.
Qed.

(** The whole hook on a connection to a service with a waypoint. *)
Lemma connect4_via_waypoint ctx k sid sv :
  managed AF_INET (kctx4 ctx) k -> is_u32 (user_ip4 ctx) -> user_port ctx <> bpf_htons 53 ->
  map_of_sock_storage k = None -> storage_fails (k_clock k) = false ->
  KmFrontend (k_maps k) !! frontend_key4 ctx = Some sid -> KmService (k_maps k) !! sid = Some sv ->
  ip4 (sv_WaypointAddr sv) <> 0 -> sv_WaypointPort sv <> 0 ->
  let wctx := set_user_port (sv_WaypointPort sv) (set_user_ip4 (u32 (ip4 (sv_WaypointAddr sv))) ctx) in
  (cgroup_connect4_prog ctx k).1.1 = wctx /\
  (plain_addr (k_maps k) wctx -> sv_WaypointPort sv <> bpf_htons 53 -> (hook_connect4 ctx k).1 = wctx) /\
  has_dst (set_v4_dport (u16 (user_port ctx)) (set_v4_daddr (user_ip4 ctx) tuple_zero)) (hook_connect4 ctx k).2.
Proof.
  intros Hm Hu Hport Hs Hsf Hfe Hsv Hwa Hwp. cbn zeta. set (wctx := set_user_port _ _).
  destruct (connect4_first_run ctx k sid sv) as (s & n & Hrun & Hdst); [done..|]. fold wctx in Hrun.
  set (k' := set_storage (Some s) (set_clock (S n) k)) in Hrun.
  assert (has_dst (set_v4_dport (u16 (user_port ctx)) (set_v4_daddr (user_ip4 ctx) tuple_zero)) k') as Hk' by (by exists s).
  split; [by rewrite Hrun|]. unfold hook_connect4, MAX_TAIL_CALL_CNT. destruct (tail_call_fails n).
  - by rewrite (run_hook_ends _ _ _ _ _ _ Hrun).
  - rewrite (run_hook_again4 _ _ _ _ _ _ Hrun). split; [|apply preserves_run_hook; [apply preserves_connect4|done]].
    intros Hplain H53. destruct (mg_family _ _ _ Hm) as [Hf _]. destruct (connect4_leaves wctx k') as [k2 Hr]; [done|apply u32_is|done|done|].
    by rewrite (run_hook_ends _ _ _ _ _ _ Hr).
Qed.

(** The established socket enters the socket map. *)
Lemma established_enables monitoring reserved node_ip gateway stale skops k s :
  op skops = BPF_SOCK_OPS_ACTIVE_ESTABLISHED_CB -> so_family skops = AF_INET -> is_Some (so_sk skops) ->
  map_of_manager k !! managed_key (so_family skops) (local_ip4 skops) (local_ip6 skops) = Some 0 ->
  (forall n, update_fails n = false) -> map_of_sock_storage k = Some s -> via_waypoint s = true ->
  let k' := (sockops_prog monitoring reserved node_ip gateway stale skops k).2 in
  extract_skops_to_tuple skops tuple_zero ∈ map_of_kmesh_socket k' /\ keeps_dst k k'.
Proof.
  intros Hop Hfam [sk Hsk] Hman Hupd Hs Hvia. unfold sockops_prog. rewrite Hfam, Hop.
  cbn [Z.eqb AF_INET AF_INET6 Pos.eqb negb andb BPF_SOCK_OPS_ACTIVE_ESTABLISHED_CB BPF_SOCK_OPS_TCP_CONNECT_CB].
  rewrite krun_bind. unfold is_managed_by_kmesh. rewrite krun_bind. unfold kgets. cbn [fst snd]. rewrite Hman. cbn [fst snd mret k_ret Z.eqb negb].
  rewrite krun_bind. pose proof (established_keeps monitoring reserved (so_sk skops) OUTBOUND k) as He.
  destruct (observe_on_connect_established _ _ _ _ k) as [[] k1]. cbn [fst snd] in *.
  destruct (He s Hs) as (s1 & Hs1 & Hv1 & _). rewrite Hsk. rewrite krun_bind. unfold storage_get, kgets. cbn [fst snd].
  rewrite Hs1, Hv1, Hvia. unfold enable_encoding_metadata. rewrite krun_bind. cbn [fst snd ask]. rewrite Hupd. cbn. split; [set_solver|].
  intros s2 Hs2. destruct (He s2 Hs2) as (s3 & Hs3 & Hrest). by exists s3.
Qed.

Lemma tuple4_of_dst port ip : is_u32 ip -> is_u16 port ->
  v4_daddr (set_v4_dport port (set_v4_daddr ip tuple_zero)) = ip /\
  v4_dport (set_v4_dport port (set_v4_daddr ip tuple_zero)) = port.
Proof.
  intros Hip Hp. unfold v4_daddr, v4_dport, set_v4_dport, set_v4_daddr.
  assert (length (st 4 4 ip tuple_zero) = 36%nat) as Hl by (rewrite length_st; done || (cbn; lia)).
  split.
  - rewrite ld_st_ne by (rewrite ?Hl; lia). rewrite ld_st by (cbn; lia). by apply Z.mod_small.
  - rewrite ld_st by (rewrite Hl; lia). by apply Z.mod_small.
Qed.

(** C13: a v4 connection to a service with a waypoint, from a socket without
    storage, is given the waypoint as its destination, and the connect program
    runs again by a tail call with that destination, as often as the waypoint
    has a waypoint itself.  When the waypoint's address is no service address
    and no pod with a waypoint of its own, the connection leaves for the
    waypoint.  In every case, whatever the later runs do with the destination,
    the established socket enters the map that triggers the message program, if
    its own address is managed then, and the first message carries, before the
    payload, the address and port the client asked for in the first place, as
    the documented format spells them; later messages pass unchanged.  It is
    assumed that the helpers create the storage, enter the socket and make room
    in the message. *)
Theorem waypoint_learns_destination (k : Kernel) (ctx : bpf_sock_addr) (sid : Z) (sv : ServiceValue)
    (monitoring : bool) (reserved : bytes * bytes) (node_ip gateway stale : bytes) (skops : bpf_sock_ops)
    (push : nat -> option bytes) (msg msg2 : bytes) :
  managed AF_INET (kctx4 ctx) k -> is_u32 (user_ip4 ctx) -> is_u16 (user_port ctx) -> user_port ctx <> bpf_htons 53 ->
  map_of_sock_storage k = None -> storage_fails (k_clock k) = false -> (forall n, update_fails n = false) ->
  KmFrontend (k_maps k) !! frontend_key4 ctx = Some sid -> KmService (k_maps k) !! sid = Some sv ->
  ip4 (sv_WaypointAddr sv) <> 0 -> sv_WaypointPort sv <> 0 ->
  op skops = BPF_SOCK_OPS_ACTIVE_ESTABLISHED_CB -> so_family skops = AF_INET -> is_Some (so_sk skops) -> push_ok push ->
  let wctx := set_user_port (sv_WaypointPort sv) (set_user_ip4 (u32 (ip4 (sv_WaypointAddr sv))) ctx) in
  let k1 := (hook_connect4 ctx k).2 in
  let k2 := (sockops_prog monitoring reserved node_ip gateway stale skops k1).2 in
  let sent := sendmsg_prog push AF_INET msg k2 in
  (cgroup_connect4_prog ctx k).1.1 = wctx /\
  (plain_addr (k_maps k) wctx -> sv_WaypointPort sv <> bpf_htons 53 -> (hook_connect4 ctx k).1 = wctx) /\
  (map_of_manager k1 !! managed_key (so_family skops) (local_ip4 skops) (local_ip6 skops) = Some 0 ->
   extract_skops_to_tuple skops tuple_zero ∈ map_of_kmesh_socket k2 /\
   decode_metadata sent.1 = Some (le_bytes 4 (user_ip4 ctx), bpf_ntohs (user_port ctx), msg) /\
   (sendmsg_prog push AF_INET msg2 sent.2).1 = msg2).
Proof.
  intros Hm Hip Hport H53 Hs Hsf Hupd Hfe Hsv Hwa Hwp Hop Hfam Hsk Hpush. cbn zeta.
  destruct (connect4_via_waypoint ctx k sid sv) as (Hrun & Hplain & s & Hs1 & Hvia & Henc & _ & Htup); [done..|].
  split; [done|]. split; [done|]. intros Hman.
  set (k1 := (hook_connect4 ctx k).2) in *. set (k2 := (sockops_prog _ _ _ _ _ _ k1).2).
  destruct (established_enables monitoring reserved node_ip gateway stale skops k1 s) as [Hin Hk]; [done..|].
  fold k2 in Hin, Hk. split; [done|]. destruct (Hk s Hs1) as (s2 & Hs2 & Hv2 & He2 & Ht2).
  rewrite Hvia in Hv2. rewrite Henc in He2. rewrite Htup in Ht2.
  destruct (tuple4_of_dst (u16 (user_port ctx)) (user_ip4 ctx)) as [Hda Hdp]; [done|apply u16_is|].
  destruct (sendmsg_encodes push AF_INET msg k2 s2) as (s3 & Hsend & He3); [by left|done|done|done|done| |].
  { rewrite Ht2. unfold set_v4_dport, set_v4_daddr. rewrite !length_st; [done|cbn; lia|rewrite length_st; cbn; lia]. }
  rewrite Hsend, Ht2. cbn [fst snd Z.eqb AF_INET Pos.eqb]. rewrite Hda, Hdp. split.
  - rewrite decode_metadata_encode by (cbn; lia). rewrite u16_small by done. reflexivity.
  - by rewrite (sendmsg_passes _ _ _ _ s3); [|done|right].
Qed.

(** the destination is marked as sent before room is made for it.  When
    [bpf_msg_push_data] fails once, the message goes out without metadata, and
    so do all later ones, although the helper works again. *)
Theorem metadata_lost_after_failed_push (k : Kernel) (s : sock_storage_data) (push push' : nat -> option bytes)
    (fam : Z) (msg msg2 : bytes) :
  (fam = AF_INET \/ fam = AF_INET6) -> map_of_sock_storage k = Some s -> via_waypoint s = true -> has_encoded s = false ->
  (forall n, push n = None) ->
  (sendmsg_prog push fam msg k).1 = msg /\
  (sendmsg_prog push' fam msg2 (sendmsg_prog push fam msg k).2).1 = msg2.
Proof.
  intros Hfam Hs Hvia Henc Hpush.
  assert (exists s', sendmsg_prog push fam msg k = (msg, set_storage (Some s') k) /\ has_encoded s' = true) as (s' & Hr & He).
  { exists (mkStorage (connect_ns s) (last_report_ns s) (direction s) (connect_success s) true true (has_set_ip s) (sk_tuple s)).
    split; [|done]. unfold sendmsg_prog.
    assert (negb (fam =? AF_INET) && negb (fam =? AF_INET6) = false) as -> by (by destruct Hfam as [-> | ->]).
    rewrite krun_bind. unfold encode_metadata_org_dst_addr, get_origin_dst. rewrite !krun_bind.
    unfold storage_get, kgets. cbn [fst snd]. rewrite Hs, Hvia, Henc. cbn [negb orb]. rewrite krun_bind.
    cbn [fst snd mret k_ret storage_put kmod]. unfold alloc_dst_length. rewrite !Hpush.
    destruct (if (if fam =? AF_INET then AF_INET else AF_INET6) =? AF_INET then _ else _) as [dst_ip dst_port]. done. }
  rewrite Hr. split; [done|]. cbn [snd]. by rewrite (sendmsg_passes _ _ _ _ s'); [|done|right].
Qed.
End chain.

(** *** Witnesses *)
Definition demo_wp_service : ServiceValue :=
  mkServiceValue [0; 0; 0; 0; 0; 0; 0] 0 (bpf_htons 80 :: replicate 9 0) (bpf_htons 8080 :: replicate 9 0)
    (CopyIpByteFromSlice zero_ip [10; 2; 0; 9]) (bpf_htons 15019).
Definition demo_wp_ctx : bpf_sock_addr :=
  mkSockAddr AF_INET (le_uint [10; 1; 0; 1]) zero_ip (bpf_htons 80) AF_INET IPPROTO_TCP 7.
Definition demo_skops : bpf_sock_ops :=
  mkSkops BPF_SOCK_OPS_ACTIVE_ESTABLISHED_CB 0 AF_INET (le_uint [10; 0; 0; 5]) zero_ip 40000
    (le_uint [10; 2; 0; 9]) zero_ip (bpf_htons 15019 * 65536)
    (Some (mkSock AF_INET 0 zero_ip 0 0 zero_ip 0, None)).
(** The waypoint is a pod of the mesh. *)
Definition demo_wp_kernel : Kernel :=
  let waypoint := CopyIpByteFromSlice zero_ip [10; 2; 0; 9] in
  mkKernel (NewCache {[43 := mkBackendValue waypoint 0 [] zero_ip 0]} ∅
      {[frontend_key4 demo_wp_ctx := 42; waypoint := 43]} {[42 := demo_wp_service]} ∅)
    {[cookie_key demo_wp_ctx := 0; managed_key AF_INET (le_uint [10; 0; 0; 5]) zero_ip := 0]} None ∅ [] [] ∅ 0.
Definition demo_push (n : nat) : option bytes := Some (replicate n 0).

Lemma waypoint_learns_destination_witness :
  (@hook_connect4 HelpersOk demo_wp_ctx demo_wp_kernel).1 =
    set_user_port (bpf_htons 15019) (set_user_ip4 (le_uint [10; 2; 0; 9]) demo_wp_ctx) /\
  decode_metadata (@sendmsg_prog demo_push AF_INET [71; 69; 84]
    (@sockops_prog HelpersOk true (tuple_zero, replicate 18 0) zero_ip zero_ip tuple_zero demo_skops
      (@hook_connect4 HelpersOk demo_wp_ctx demo_wp_kernel).2).2).1 = Some ([10; 1; 0; 1], 80, [71; 69; 84]).
Proof.
  destruct (@waypoint_learns_destination HelpersOk demo_wp_kernel demo_wp_ctx 42 demo_wp_service true (tuple_zero, replicate 18 0)
    zero_ip zero_ip tuple_zero demo_skops demo_push [71; 69; 84] []) as (_ & Hplain & Hmeta).
  - split; [by split|done|by split|]. exists 0. vm_compute. reflexivity.
  - by split.
  - by split.
  - discriminate.
  - reflexivity.
  - reflexivity.
  - reflexivity.
  - vm_compute. reflexivity.
  - vm_compute. reflexivity.
  - discriminate.
  - discriminate.
  - reflexivity.
  - reflexivity.
  - by eexists.
  - intros n. exists (replicate n 0). split; [reflexivity|]. apply length_replicate.
  - split; [|apply Hmeta; vm_compute; reflexivity].
    apply Hplain; [|discriminate]. intros fv Hfv. vm_compute in Hfv. injection Hfv as <-.
    split; [vm_compute; reflexivity|]. intros bv Hbv. vm_compute in Hbv. by injection Hbv as <-.
Defined.

Lemma metadata_lost_after_failed_push_witness :
  (sendmsg_prog (fun _ => None) AF_INET [71; 69; 84]
    (set_storage (Some (mkStorage 0 0 0 false true false true tuple_zero)) demo_wp_kernel)).1 = [71; 69; 84].
Proof.
  apply (metadata_lost_after_failed_push (set_storage (Some (mkStorage 0 0 0 false true false true tuple_zero)) demo_wp_kernel)
    (mkStorage 0 0 0 false true false true tuple_zero) (fun _ => None) demo_push AF_INET [71; 69; 84] []);
    try reflexivity. by left.
Defined.
