(* ===== verification/Rbac.v ===== *)
(** * Authorization in user space: [pkg/auth]

    The policy store ([policy_store.go]), the matching of a connection against
    the policies of its destination ([rbac.go]), and the message loop that
    turns a denial into an entry of the map the XDP program reads
    ([xdp_auth_handler.go]).  Policies are never changed in place, so a policy
    is its value; workloads are read through the shared heap. *)
From S2P Require Import Prelude GoNet Api Runtime WorkloadCache.

(** ** Messages ([api/workloadapi/security/authorization.proto]) *)
Inductive StringMatch : Type :=
  | MatchNone
  | MatchExact (s : string)
  | MatchPrefix (s : string)
  | MatchSuffix (s : string).
Definition GetExact (m : StringMatch) : string := match m with MatchExact s => s | _ => "" end.
Definition GetPrefix (m : StringMatch) : string := match m with MatchPrefix s => s | _ => "" end.
Definition GetSuffix (m : StringMatch) : string := match m with MatchSuffix s => s | _ => "" end.

Record SecAddress : Type := mkSecAddress { ad_address : bytes; ad_length : Z }.

Record Match : Type := mkMatch {
  namespaces : list StringMatch;
  not_namespaces : list StringMatch;
  principals : list StringMatch;
  not_principals : list StringMatch;
  source_ips : list SecAddress;
  not_source_ips : list SecAddress;
  destination_ips : list SecAddress;
  not_destination_ips : list SecAddress;
  destination_ports : list Z;
  not_destination_ports : list Z
}.
Definition Match_zero : Match := mkMatch [] [] [] [] [] [] [] [] [] [].

Definition Scope_GLOBAL : Z := 0.
Definition Scope_NAMESPACE : Z := 1.
Definition Scope_WORKLOAD_SELECTOR : Z := 2.
Definition Action_ALLOW : Z := 0.
Definition Action_DENY : Z := 1.

(** A [Clause] is its matches, a [Rule] its clauses. *)
Record Authorization : Type := mkAuthorization {
  az_name : string;
  az_namespace : string;
  az_scope : Z;
  az_action : Z;
  az_rules : list (list (list Match))
}.
Definition Authorization_ResourceName (x : Authorization) : string := az_namespace x +:+ "/" +:+ az_name x.

(** ** The policy store *)
Record policyStore : Type := mkPolicyStore {
  byKey : gmap string Authorization;
  byNamespace : gmap string (gset string)
}.
Definition newPolicyStore : policyStore := mkPolicyStore ∅ ∅.

Definition updatePolicy (authPolicy : option Authorization) (ps : policyStore) : policyStore * option error :=
  match authPolicy with
  | None => (ps, None)
  | Some authPolicy =>
      let key := Authorization_ResourceName authPolicy in
      let insert ns :=
        (mkPolicyStore (<[key := authPolicy]> (byKey ps))
           (match byNamespace ps !! ns with
            | None => <[ns := {[key]}]> (byNamespace ps)
            | Some s => <[ns := {[key]} ∪ s]> (byNamespace ps)
            end), None) in
      if decide (az_scope authPolicy = Scope_WORKLOAD_SELECTOR) then
        (mkPolicyStore (<[key := authPolicy]> (byKey ps)) (byNamespace ps), None)
      else if decide (az_scope authPolicy = Scope_GLOBAL) then insert ""
      else if decide (az_scope authPolicy = Scope_NAMESPACE) then insert (az_namespace authPolicy)
      else (ps, Some (Errorf "invalid scope of authorization policy"))
  end.

Definition removePolicy (policyKey : string) (ps : policyStore) : policyStore :=
  match byKey ps !! policyKey with
  | None => ps
  | Some authPolicy =>
      let keys := delete policyKey (byKey ps) in
      let remove ns :=
        match byNamespace ps !! ns with
        | Some s =>
            let s := s ∖ {[policyKey]} in
            if decide (s = ∅) then mkPolicyStore keys (delete ns (byNamespace ps))
            else mkPolicyStore keys (<[ns := s]> (byNamespace ps))
        | None => mkPolicyStore keys (byNamespace ps)
        end in
      if decide (az_scope authPolicy = Scope_GLOBAL) then remove ""
      else if decide (az_scope authPolicy = Scope_NAMESPACE) then remove (az_namespace authPolicy)
      else mkPolicyStore keys (byNamespace ps)
  end.

(** The keys of the map that [getAllPolicies] builds; all its values are empty. *)
Definition getAllPolicies (ps : policyStore) : gset string := dom (byKey ps).

Definition policyStore_list (p : policyStore) : list Authorization := (map_to_list (byKey p)).*2.

(** The order of [UnsortedList], which Go does not fix. *)
Class Unsorted : Type := {
  UnsortedList : gset string -> list string;
  UnsortedList_elements : forall s, UnsortedList s ≡ₚ elements s
}.
Definition UnsortedOk : Unsorted := {| UnsortedList := elements; UnsortedList_elements := fun s => reflexivity _ |}.

Definition getByNamespace `{Unsorted} (namespace : string) (ps : policyStore) : list string :=
  match byNamespace ps !! namespace with
  | Some s => UnsortedList s
  | None => []
  end.

(** ** Matching *)
Record Identity : Type := mkIdentity { trustDomain : string; id_namespace : string; serviceAccount : string }.
Definition Identity_zero : Identity := mkIdentity "" "" "".

Record rbacConnection : Type := mkConn {
  srcIdentity : Identity;
  dstNetwork : string;
  srcIp : bytes;
  dstIp : bytes;
  dstPort : Z
}.

Definition SPIFFE_PREFIX : string := "spiffe://".
Definition Identity_String (id : Identity) : string :=
  SPIFFE_PREFIX +:+ trustDomain id +:+ "/ns/" +:+ id_namespace id +:+ "/sa/" +:+ serviceAccount id.

(** [strings.HasPrefix], [strings.HasSuffix], [strings.TrimPrefix] *)
Definition HasPrefix (s prefix : string) : bool := String.prefix prefix s.
Definition HasSuffix (s suffix : string) : bool :=
  bool_decide (String.length suffix <= String.length s)%nat &&
  bool_decide (String.substring (String.length s - String.length suffix) (String.length suffix) s = suffix).
Definition TrimPrefix (s prefix : string) : string :=
  if HasPrefix s prefix then String.substring (String.length prefix) (String.length s - String.length prefix) s else s.

Fixpoint internalMatchDstIp (dstIp : bytes) (addresses : list SecAddress) : bool :=
  match addresses with
  | [] => false
  | addr :: addresses =>
      match ParseCIDR (ad_address addr) (ad_length addr) with
      | None => internalMatchDstIp dstIp addresses
      | Some ipNet => if Contains ipNet dstIp then true else internalMatchDstIp dstIp addresses
      end
  end.
Fixpoint internalMatchSrcIp (srcIp : bytes) (addresses : list SecAddress) : bool :=
  match addresses with
  | [] => false
  | addr :: addresses =>
      match ParseCIDR (ad_address addr) (ad_length addr) with
      | None => internalMatchSrcIp srcIp addresses
      | Some ipNet => if Contains ipNet srcIp then true else internalMatchSrcIp srcIp addresses
      end
  end.

Fixpoint internalMatchDstPort (checkDstPort : Z) (dstPorts : list Z) : bool :=
  match dstPorts with
  | [] => false
  | port :: dstPorts => if checkDstPort =? port then true else internalMatchDstPort checkDstPort dstPorts
  end.

(** One pattern: the body of the loops of [internalMatchPrincipal] and
    [internalMatchNamespace]. *)
Definition match_pattern (s : string) (m : StringMatch) : bool :=
  if decide (0 < String.length (GetPrefix m))%nat then HasPrefix s (GetPrefix m)
  else if decide (0 < String.length (GetSuffix m))%nat then HasSuffix s (GetSuffix m)
  else if decide (0 < String.length (GetExact m))%nat then bool_decide (s = GetExact m)
  else bool_decide (String.length s = 0%nat).
Fixpoint match_any (s : string) (patterns : list StringMatch) : bool :=
  match patterns with
  | [] => false
  | m :: patterns => if match_pattern s m then true else match_any s patterns
  end.
Definition internalMatchPrincipal (srcId : string) (principals : list StringMatch) : bool :=
  match_any (TrimPrefix srcId SPIFFE_PREFIX) principals.
Definition internalMatchNamespace (srcNs : string) (namespaces : list StringMatch) : bool :=
  match_any srcNs namespaces.

Definition matchDstIp (dstIp : bytes) (m : Match) : bool :=
  let pm := if decide (length (destination_ips m) = 0%nat) then true else internalMatchDstIp dstIp (destination_ips m) in
  let nm := if decide (length (not_destination_ips m) = 0%nat) then true
            else negb (internalMatchDstIp dstIp (not_destination_ips m)) in
  pm && nm.
Definition matchSrcIp (srcIp : bytes) (m : Match) : bool :=
  let pm := if decide (length (source_ips m) = 0%nat) then true else internalMatchSrcIp srcIp (source_ips m) in
  let nm := if decide (length (not_source_ips m) = 0%nat) then true
            else negb (internalMatchSrcIp srcIp (not_source_ips m)) in
  pm && nm.
Definition matchDstPort (dstPort : Z) (m : Match) : bool :=
  let pm := if decide (length (destination_ports m) = 0%nat) then true
            else internalMatchDstPort dstPort (destination_ports m) in
  let nm := if decide (length (not_destination_ports m) = 0%nat) then true
            else negb (internalMatchDstPort dstPort (not_destination_ports m)) in
  pm && nm.
Definition matchPrincipal (srcId : string) (m : Match) : bool :=
  if negb (HasPrefix srcId SPIFFE_PREFIX) then false
  else
    let pm := if decide (length (principals m) = 0%nat) then true else internalMatchPrincipal srcId (principals m) in
    let nm := if decide (length (not_principals m) = 0%nat) then true
              else negb (internalMatchPrincipal srcId (not_principals m)) in
    pm && nm.
Definition matchNamespace (srcNs : string) (m : Match) : bool :=
  let pm := if decide (length (namespaces m) = 0%nat) then true else internalMatchNamespace srcNs (namespaces m) in
  let nm := if decide (length (not_namespaces m) = 0%nat) then true
            else negb (internalMatchNamespace srcNs (not_namespaces m)) in
  pm && nm.

Definition is_nil {A} (l : list A) : bool := match l with [] => true | _ => false end.
Definition isEmptyMatch (m : Match) : bool :=
  is_nil (destination_ips m) && is_nil (not_destination_ips m) && is_nil (source_ips m) && is_nil (not_source_ips m) &&
  is_nil (destination_ports m) && is_nil (not_destination_ports m) && is_nil (principals m) && is_nil (not_principals m) &&
  is_nil (namespaces m) && is_nil (not_namespaces m).

(** The three loops of [matches]: over the matches of a clause, the clauses of
    a rule, the rules of the policy. *)
Fixpoint clause_loop (conn : rbacConnection) (l : list Match) : bool :=
  match l with
  | [] => false
  | m :: l =>
      if isEmptyMatch m then clause_loop conn l
      else if matchDstIp (dstIp conn) m && matchSrcIp (srcIp conn) m && matchDstPort (dstPort conn) m
              && matchPrincipal (Identity_String (srcIdentity conn)) m
              && matchNamespace (id_namespace (srcIdentity conn)) m
      then true
      else clause_loop conn l
  end.
Fixpoint rule_loop (conn : rbacConnection) (ruleMatch : bool) (clauses : list (list Match)) : bool :=
  match clauses with
  | [] => ruleMatch
  | clause :: clauses =>
      let clauseMatch := clause_loop conn clause in
      let clauseMatch := if decide (length clause = 0%nat) then true else clauseMatch in
      let ruleMatch := ruleMatch && clauseMatch in
      if negb ruleMatch then ruleMatch else rule_loop conn ruleMatch clauses
  end.
Fixpoint rules_loop (conn : rbacConnection) (rules : list (list (list Match))) : bool :=
  match rules with
  | [] => false
  | rule :: rules => if rule_loop conn true rule then true else rules_loop conn rules
  end.
Definition matches (conn : rbacConnection) (policy : Authorization) : bool :=
  match az_rules policy with
  | [] => false
  | rules => rules_loop conn rules
  end.

(** ** Decisions *)
Section decisions.
Context `{Unsorted}.

(** The workloads are those of the cache, read from the heap. *)
Record Rbac : Type := mkRbac { rb_policies : policyStore; rb_workloads : cache }.

Fixpoint aggregate_loop (ps : policyStore) (names : list string) (allow deny : list Authorization)
    : list Authorization * list Authorization :=
  match names with
  | [] => (allow, deny)
  | name :: names =>
      match byKey ps !! name with
      | Some policy =>
          if decide (az_action policy = Action_ALLOW) then aggregate_loop ps names (allow ++ [policy]) deny
          else if decide (az_action policy = Action_DENY) then aggregate_loop ps names allow (deny ++ [policy])
          else aggregate_loop ps names allow deny
      | None => aggregate_loop ps names allow deny
      end
  end.
Definition aggregate (r : Rbac) (workload : Workload) : list Authorization * list Authorization :=
  let policyNames := wl_authorization_policies workload in
  let policyNames := policyNames ++ getByNamespace (wl_namespace workload) (rb_policies r) in
  let policyNames := policyNames ++ getByNamespace "" (rb_policies r) in
  aggregate_loop (rb_policies r) policyNames [] [].

Definition doRbac (w : World) (r : Rbac) (conn : rbacConnection) : bool :=
  let networkAddress := mkNetAddr (dstNetwork conn) (AddrFromSlice (dstIp conn)).1 in
  match GetWorkloadByAddr networkAddress (rb_workloads r) with
  | None => false
  | Some dstWorkload =>
      let '(allowPolicies, denyPolicies) := aggregate r (get_wl dstWorkload w) in
      if existsb (matches conn) denyPolicies then false
      else if decide (length allowPolicies = 0%nat) then true
      else existsb (matches conn) allowPolicies
  end.

Definition getIdentityByIp (w : World) (r : Rbac) (ip : bytes) : Identity :=
  let networkAddress := mkNetAddr "" (AddrFromSlice ip).1 in
  match GetWorkloadByAddr networkAddress (rb_workloads r) with
  | None => Identity_zero
  | Some q => let workload := get_wl q w in
      mkIdentity (wl_trust_domain workload) (wl_namespace workload) (wl_service_account workload)
  end.

(** ** Messages from the kernel *)

(** [binary.Read] of the next [n] bytes of the buffer. *)
Definition read_bytes (n : nat) (buf : bytes) : option (bytes * bytes) :=
  if decide (length buf < n)%nat then None else Some (take n buf, drop n buf).

(** The native byte order is little-endian. *)
Definition buildConnV4 (w : World) (r : Rbac) (buf : bytes) : option rbacConnection :=
  '(SrcAddr, buf) ← read_bytes 4 buf;
  '(DstAddr, buf) ← read_bytes 4 buf;
  '(SrcPort, buf) ← read_bytes 2 buf;
  '(DstPort, buf) ← read_bytes 2 buf;
  let srcIp := be_bytes 4 (be_uint SrcAddr) in
  let dstIp := be_bytes 4 (be_uint DstAddr) in
  Some (mkConn (getIdentityByIp w r srcIp) "" srcIp dstIp (le_uint DstPort)).

(** [[4]uint32] read big-endian, and appended again in the same order. *)
Definition be_words (b : bytes) : bytes :=
  be_bytes 4 (be_uint (take 4 b)) ++ be_bytes 4 (be_uint (take 4 (drop 4 b))) ++
  be_bytes 4 (be_uint (take 4 (drop 8 b))) ++ be_bytes 4 (be_uint (take 4 (drop 12 b))).
Definition buildConnV6 (w : World) (r : Rbac) (buf : bytes) : option rbacConnection :=
  '(SrcAddr, buf) ← read_bytes 16 buf;
  '(DstAddr, buf) ← read_bytes 16 buf;
  '(SrcPort, buf) ← read_bytes 2 buf;
  '(DstPort, buf) ← read_bytes 2 buf;
  let srcIp := be_words SrcAddr in
  let dstIp := be_words DstAddr in
  Some (mkConn (getIdentityByIp w r srcIp) "" srcIp dstIp (le_uint DstPort)).

Definition MSG_TYPE_IPV4 : Z := 0.
Definition MSG_TYPE_IPV6 : Z := 1.
Definition IPV4_TUPLE_LENGTH : nat := 12.
Definition TUPLE_LEN : nat := 36.
Definition MSG_LEN : nat := 40.

(** [fails] says that the update of the map is refused. *)
Definition xdpNotifyConnRst (fails : bool) (msgType : Z) (key : bytes) (mapOfAuth : gmap bytes Z) : gmap bytes Z :=
  let key := if decide (msgType = MSG_TYPE_IPV4)
             then take IPV4_TUPLE_LENGTH key ++ replicate (length key - IPV4_TUPLE_LENGTH) 0 else key in
  if fails then mapOfAuth else <[key := 1]> mapOfAuth.

(** One turn of the loop of [Run]: a record of the ring buffer. *)
Definition run_record (w : World) (r : Rbac) (fails : bool) (RawSample : bytes) (authRes : gmap bytes Z) : gmap bytes Z :=
  if decide (length RawSample <> MSG_LEN) then authRes
  else
    let msgType := le_uint (take 4 RawSample) in
    let tupleData := drop 4 RawSample in
    let conn :=
      if decide (msgType = MSG_TYPE_IPV4) then buildConnV4 w r tupleData
      else if decide (msgType = MSG_TYPE_IPV6) then buildConnV6 w r tupleData
      else None in
    match conn with
    | None => authRes
    | Some conn => if negb (doRbac w r conn) then xdpNotifyConnRst fails msgType tupleData authRes else authRes
    end.
End decisions.

(** ** What a policy selects *)

(** A list of positive patterns that is empty selects everything. *)
Definition selects {A} (P : A -> Prop) (pos neg : list A) : Prop :=
  (pos = [] \/ exists a, a ∈ pos /\ P a) /\ ~ exists a, a ∈ neg /\ P a.

Definition addr_ok (ip : bytes) (a : SecAddress) : Prop :=
  exists n, ParseCIDR (ad_address a) (ad_length a) = Some n /\ Contains n ip = true.

(** A pattern with an empty text stands for the empty string. *)
Definition pattern_ok (s : string) (m : StringMatch) : Prop :=
  match m with
  | MatchNone => s = ""
  | MatchExact x => s = x
  | MatchPrefix x => if decide (x = "") then s = "" else exists r, s = x +:+ r
  | MatchSuffix x => if decide (x = "") then s = "" else exists r, s = r +:+ x
  end.

Definition principal (id : Identity) : string :=
  trustDomain id +:+ "/ns/" +:+ id_namespace id +:+ "/sa/" +:+ serviceAccount id.

Definition match_ok (conn : rbacConnection) (m : Match) : Prop :=
  m <> Match_zero /\
  selects (addr_ok (dstIp conn)) (destination_ips m) (not_destination_ips m) /\
  selects (addr_ok (srcIp conn)) (source_ips m) (not_source_ips m) /\
  selects (eq (dstPort conn)) (destination_ports m) (not_destination_ports m) /\
  selects (pattern_ok (principal (srcIdentity conn))) (principals m) (not_principals m) /\
  selects (pattern_ok (id_namespace (srcIdentity conn))) (namespaces m) (not_namespaces m).

Definition policy_ok (conn : rbacConnection) (p : Authorization) : Prop :=
  exists rule, rule ∈ az_rules p /\
    forall clause, clause ∈ rule -> clause = [] \/ exists m, m ∈ clause /\ match_ok conn m.

(** *** Strings *)
Lemma string_app_cons c (a b : string) : String c a +:+ b = String c (a +:+ b).
Proof. done. Qed.
Lemma string_length_app (a b : string) : String.length (a +:+ b) = (String.length a + String.length b)%nat.
Proof. induction a as [|c a IH]; [done|]. rewrite string_app_cons. cbn. by rewrite IH. Qed.

Lemma substring_all (s : string) : String.substring 0 (String.length s) s = s.
Proof. induction s as [|c s IH]; [done|]. cbn. by rewrite IH. Qed.
Lemma substring_app (a b : string) n : String.substring (String.length a) n (a +:+ b) = String.substring 0 n b.
Proof. induction a as [|c a IH]; [done|]. rewrite string_app_cons. exact IH. Qed.
Lemma string_split (n : nat) (s : string) :
  (n <= String.length s)%nat -> exists a b, s = a +:+ b /\ String.length a = n.
Proof.
  revert s. induction n as [|n IH]; intros s Hn; [by exists "", s|].
  destruct s as [|c s]; [cbn in Hn; lia|]. destruct (IH s) as (a & b & -> & Ha); [cbn in Hn; lia|].
  exists (String c a), b. split; [done|]. cbn. by rewrite Ha.
Qed.

Lemma HasPrefix_spec s x : HasPrefix s x = true <-> exists r, s = x +:+ r.
Proof.
  unfold HasPrefix. revert s. induction x as [|c x IH]; intros s.
  - split; [by exists s|]. by destruct s.
  - destruct s as [|d s]; cbn [String.prefix]; [split; [done|by intros (r & ?)]|].
    destruct (Ascii.ascii_dec c d) as [->|Hne]; [|split; [done|intros (r & Hr); rewrite string_app_cons in Hr; congruence]].
    rewrite IH. split; intros (r & Hr); exists r; rewrite ?string_app_cons in *; congruence.
Qed.
Lemma HasSuffix_spec s x : HasSuffix s x = true <-> exists r, s = r +:+ x.
Proof.
  unfold HasSuffix. rewrite andb_true_iff, !bool_decide_eq_true. split.
  - intros [Hl He]. destruct (string_split (String.length s - String.length x) s) as (a & b & -> & Ha); [lia|].
    exists a. rewrite string_length_app in *. rewrite <-Ha, substring_app in He.
    replace (String.length x) with (String.length b) in He by lia. rewrite substring_all in He. by subst.
  - intros (r & ->). rewrite string_length_app. split; [lia|].
    replace (_ + _ - _)%nat with (String.length r) by lia. by rewrite substring_app, substring_all.
Qed.
Lemma TrimPrefix_app x s : TrimPrefix (x +:+ s) x = s.
Proof.
  unfold TrimPrefix. rewrite (proj2 (HasPrefix_spec _ _)) by eauto.
  rewrite string_length_app, substring_app. replace (_ + _ - _)%nat with (String.length s) by lia. apply substring_all.
Qed.

(** *** Loops are quantifiers *)
Lemma match_any_spec s l : match_any s l = true <-> exists m, m ∈ l /\ match_pattern s m = true.
Proof.
  induction l as [|m l IH]; cbn [match_any]; [set_solver|].
  destruct (match_pattern s m) eqn:E; [set_solver|]. rewrite IH.
  split; [set_solver|]. intros (m' & Hin & Hm). apply elem_of_cons in Hin as [->|Hin]; [congruence|eauto].
Qed.
Lemma internalMatchSrcIp_dst ip l : internalMatchSrcIp ip l = internalMatchDstIp ip l.
Proof. induction l as [|a l IH]; cbn; [done|]. by rewrite IH. Qed.
Lemma internalMatchDstIp_spec ip l : internalMatchDstIp ip l = true <-> exists a, a ∈ l /\ addr_ok ip a.
Proof.
  unfold addr_ok. induction l as [|a l IH]; cbn [internalMatchDstIp]; [set_solver|].
  assert (Hc : forall P : Prop, (P \/ exists a, a ∈ l /\ addr_ok ip a) <->
    (P \/ internalMatchDstIp ip l = true)) by (intros P; unfold addr_ok; by rewrite IH).
  destruct (ParseCIDR (ad_address a) (ad_length a)) as [n|] eqn:En; [destruct (Contains n ip) eqn:Ec|].
  - split; [|done]. intros _. exists a. split; [by left|eauto].
  - rewrite IH. split; [set_solver|]. intros (b & Hb & n' & Hn & Hc'). apply elem_of_cons in Hb as [->|Hb]; [congruence|eauto].
  - rewrite IH. split; [set_solver|]. intros (b & Hb & n' & Hn & Hc'). apply elem_of_cons in Hb as [->|Hb]; [congruence|eauto].
Qed.
Lemma internalMatchDstPort_spec p l : internalMatchDstPort p l = true <-> exists q, q ∈ l /\ p = q.
Proof.
  induction l as [|q l IH]; cbn [internalMatchDstPort]; [set_solver|].
  destruct (Z.eqb_spec p q) as [->|Hne]; [set_solver|]. rewrite IH. set_solver.
Qed.

Lemma nonempty_length (x : string) : (0 < String.length x)%nat <-> x <> "".
Proof. destruct x; cbn; split; (done || lia). Qed.
Lemma match_pattern_spec s m : match_pattern s m = true <-> pattern_ok s m.
Proof.
  assert (Hz : bool_decide (String.length s = 0%nat) = true <-> s = "").
  { rewrite bool_decide_eq_true. by destruct s. }
  assert (He : forall x, ~ (0 < String.length x)%nat -> x = "") by (by intros []; cbn; [|lia]).
  unfold match_pattern. destruct m as [|x|x|x]; cbn [GetPrefix GetSuffix GetExact pattern_ok];
    repeat (rewrite (decide_False (P := (0 < String.length "")%nat)) by (cbn; lia)); [done|..];
    (destruct (decide (0 < String.length x)%nat) as [Hx|Hx%He];
       [apply nonempty_length in Hx; rewrite ?(decide_False (P := x = "")) by done|subst x]).
  - by rewrite bool_decide_eq_true.
  - done.
  - apply HasPrefix_spec.
  - done.
  - apply HasSuffix_spec.
  - done.
Qed.

(** One kind of field, positive and negative. *)
Lemma selects_spec {A} (P : A -> Prop) (f : list A -> bool) (pos neg : list A) :
  (forall l, f l = true <-> exists a, a ∈ l /\ P a) ->
  (if decide (length pos = 0%nat) then true else f pos) &&
  (if decide (length neg = 0%nat) then true else negb (f neg)) = true <-> selects P pos neg.
Proof.
  intros Hf. unfold selects. rewrite andb_true_iff. apply Morphisms_Prop.and_iff_morphism.
  - destruct pos as [|a pos]; [by rewrite decide_True by done; intuition|].
    rewrite decide_False by done. rewrite Hf. intuition congruence.
  - destruct neg as [|a neg]; [rewrite decide_True by done; split; [set_solver|done]|].
    rewrite decide_False by done. rewrite negb_true_iff, <-not_true_iff_false. by rewrite Hf.
Qed.

Lemma isEmptyMatch_spec m : isEmptyMatch m = true <-> m = Match_zero.
Proof.
  destruct m as [a b c d e f g h i j]. unfold isEmptyMatch, Match_zero. cbn.
  split; [|by intros [=-> -> -> -> -> -> -> -> -> ->]].
  by destruct a, b, c, d, e, f, g, h, i, j.
Qed.

Lemma Identity_String_prefix id : HasPrefix (Identity_String id) SPIFFE_PREFIX = true.
Proof. apply HasPrefix_spec. by exists (principal id). Qed.
Lemma matchPrincipal_spec id m :
  matchPrincipal (Identity_String id) m = true <-> selects (pattern_ok (principal id)) (principals m) (not_principals m).
Proof.
  unfold matchPrincipal. rewrite Identity_String_prefix. cbn [negb]. apply selects_spec. intros l.
  unfold internalMatchPrincipal. change (Identity_String id) with (SPIFFE_PREFIX +:+ principal id).
  rewrite TrimPrefix_app, match_any_spec.
  by setoid_rewrite match_pattern_spec.
Qed.
Lemma matchNamespace_spec ns m :
  matchNamespace ns m = true <-> selects (pattern_ok ns) (namespaces m) (not_namespaces m).
Proof.
  apply selects_spec. intros l. unfold internalMatchNamespace. rewrite match_any_spec.
  by setoid_rewrite match_pattern_spec.
Qed.
Lemma matchDstIp_spec ip m :
  matchDstIp ip m = true <-> selects (addr_ok ip) (destination_ips m) (not_destination_ips m).
Proof. apply selects_spec, internalMatchDstIp_spec. Qed.
Lemma matchSrcIp_spec ip m :
  matchSrcIp ip m = true <-> selects (addr_ok ip) (source_ips m) (not_source_ips m).
Proof. apply selects_spec. intros l. rewrite internalMatchSrcIp_dst. apply internalMatchDstIp_spec. Qed.
Lemma matchDstPort_spec p m :
  matchDstPort p m = true <-> selects (eq p) (destination_ports m) (not_destination_ports m).
Proof. apply selects_spec, internalMatchDstPort_spec. Qed.

Lemma clause_loop_spec conn l : clause_loop conn l = true <-> exists m, m ∈ l /\ match_ok conn m.
Proof.
  assert (Hm : forall m, isEmptyMatch m = false ->
    matchDstIp (dstIp conn) m && matchSrcIp (srcIp conn) m && matchDstPort (dstPort conn) m
      && matchPrincipal (Identity_String (srcIdentity conn)) m
      && matchNamespace (id_namespace (srcIdentity conn)) m = true <-> match_ok conn m).
  { intros m He. rewrite <-not_true_iff_false, isEmptyMatch_spec in He. unfold match_ok.
    rewrite !andb_true_iff, matchDstIp_spec, matchSrcIp_spec, matchDstPort_spec, matchPrincipal_spec,
      matchNamespace_spec. intuition. }
  induction l as [|m l IH]; cbn [clause_loop]; [set_solver|].
  setoid_rewrite elem_of_cons. destruct (isEmptyMatch m) eqn:He.
  - apply isEmptyMatch_spec in He as ->. rewrite IH. unfold match_ok. naive_solver.
  - specialize (Hm m He). destruct (_ && _) eqn:E.
    + split; [|done]. intros _. exists m. intuition.
    + rewrite IH. split; [naive_solver|]. intros (m' & [->|Hin] & Hok); [|eauto]. by apply Hm in Hok.
Qed.

Lemma rule_loop_spec conn l :
  rule_loop conn true l = true <-> forall clause, clause ∈ l -> clause = [] \/ exists m, m ∈ clause /\ match_ok conn m.
Proof.
  induction l as [|c l IH]; cbn [rule_loop]; [set_solver|].
  assert (Hc : (if decide (length c = 0%nat) then true else clause_loop conn c) = true <->
               c = [] \/ exists m, m ∈ c /\ match_ok conn m).
  { destruct c as [|m c]; [by rewrite decide_True by done; intuition|].
    rewrite decide_False by done. rewrite clause_loop_spec. intuition congruence. }
  cbn [andb]. setoid_rewrite elem_of_cons. destruct (if decide _ then _ else _); cbn [negb].
  - rewrite IH. naive_solver.
  - split; [done|]. intros Hall. apply Hc. apply Hall. by left.
Qed.

Lemma matches_spec conn p : matches conn p = true <-> policy_ok conn p.
Proof.
  assert (Hl : forall rules, rules_loop conn rules = true <-> exists rule, rule ∈ rules /\
    forall clause, clause ∈ rule -> clause = [] \/ exists m, m ∈ clause /\ match_ok conn m).
  { induction rules as [|r l IH]; cbn [rules_loop]; [set_solver|]. setoid_rewrite elem_of_cons.
    pose proof (rule_loop_spec conn r) as Hr. destruct (rule_loop conn true r).
    - split; [|done]. intros _. exists r. intuition.
    - rewrite IH. split; [naive_solver|]. intros (r' & [->|Hin] & Hok); [by apply Hr in Hok|eauto]. }
  unfold matches, policy_ok. destruct (az_rules p) as [|r l]; [|apply Hl]. set_solver.
Qed.

(** ** Which policies apply, and the decision *)
Definition in_force (ps : policyStore) (wl : Workload) (p : Authorization) : Prop :=
  exists name, byKey ps !! name = Some p /\
    (name ∈ wl_authorization_policies wl \/
     (exists s, byNamespace ps !! wl_namespace wl = Some s /\ name ∈ s) \/
     (exists s, byNamespace ps !! "" = Some s /\ name ∈ s)).

Section decision.
Context `{Unsorted}.

Lemma aggregate_loop_spec ps names allow deny p :
  (p ∈ (aggregate_loop ps names allow deny).1 <->
     p ∈ allow \/ exists name, name ∈ names /\ byKey ps !! name = Some p /\ az_action p = Action_ALLOW) /\
  (p ∈ (aggregate_loop ps names allow deny).2 <->
     p ∈ deny \/ exists name, name ∈ names /\ byKey ps !! name = Some p /\ az_action p = Action_DENY).
Proof.
  revert allow deny. induction names as [|n names IH]; intros allow deny; cbn [aggregate_loop]; [set_solver|].
  assert (Hstep : forall a, (exists name, name ∈ n :: names /\ byKey ps !! name = Some p /\ az_action p = a) <->
    (byKey ps !! n = Some p /\ az_action p = a) \/
    exists name, name ∈ names /\ byKey ps !! name = Some p /\ az_action p = a).
  { intros a. setoid_rewrite elem_of_cons. naive_solver. }
  rewrite !Hstep. clear Hstep. destruct (byKey ps !! n) as [q|] eqn:Eq.
  - assert (Hq : Some q = Some p <-> p = q) by (split; congruence). rewrite !Hq.
    case_decide as Ha; [|case_decide as Hd].
    + destruct (IH (allow ++ [q]) deny) as [-> ->]. rewrite elem_of_app, list_elem_of_singleton.
      split; intuition (subst; try congruence). by rewrite Ha in *.
    + destruct (IH allow (deny ++ [q])) as [-> ->]. rewrite elem_of_app, list_elem_of_singleton.
      split; intuition (subst; try congruence).
    + destruct (IH allow deny) as [-> ->]. split; intuition (subst; try congruence).
  - destruct (IH allow deny) as [-> ->]. split; intuition congruence.
Qed.

Lemma getByNamespace_spec ns ps name :
  name ∈ getByNamespace ns ps <-> exists s, byNamespace ps !! ns = Some s /\ name ∈ s.
Proof.
  unfold getByNamespace. destruct (byNamespace ps !! ns) as [s|].
  - rewrite (UnsortedList_elements s), elem_of_elements. naive_solver.
  - split; [by intros ?%not_elem_of_nil|by intros (s & ? & ?)].
Qed.

Lemma aggregate_spec r wl p :
  (p ∈ (aggregate r wl).1 <-> in_force (rb_policies r) wl p /\ az_action p = Action_ALLOW) /\
  (p ∈ (aggregate r wl).2 <-> in_force (rb_policies r) wl p /\ az_action p = Action_DENY).
Proof.
  unfold aggregate, in_force.
  destruct (aggregate_loop_spec (rb_policies r) ((wl_authorization_policies wl ++
    getByNamespace (wl_namespace wl) (rb_policies r)) ++ getByNamespace "" (rb_policies r)) [] [] p) as [-> ->].
  setoid_rewrite elem_of_app. setoid_rewrite elem_of_app. setoid_rewrite getByNamespace_spec.
  setoid_rewrite elem_of_nil. naive_solver.
Qed.

(** The connection may pass to the workload. *)
Definition permitted (ps : policyStore) (wl : Workload) (conn : rbacConnection) : Prop :=
  (forall p, in_force ps wl p -> az_action p = Action_DENY -> ~ policy_ok conn p) /\
  ((forall p, in_force ps wl p -> az_action p <> Action_ALLOW) \/
   exists p, in_force ps wl p /\ az_action p = Action_ALLOW /\ policy_ok conn p).

Lemma existsb_matches conn l : existsb (matches conn) l = true <-> exists p, p ∈ l /\ policy_ok conn p.
Proof. rewrite existsb_exists. setoid_rewrite matches_spec. setoid_rewrite list_elem_of_In. done. Qed.

(** C8: [doRbac] lets a connection pass exactly when its destination is a known
    workload, no DENY policy in force there selects it, and either no ALLOW
    policy is in force or one of them selects it; in particular the order in
    which the policies are listed is irrelevant. *)
Theorem doRbac_decides w r conn :
  doRbac w r conn = true <->
  exists q, GetWorkloadByAddr (mkNetAddr (dstNetwork conn) (AddrFromSlice (dstIp conn)).1) (rb_workloads r) = Some q /\
    permitted (rb_policies r) (get_wl q w) conn.
Proof.
  unfold doRbac. destruct (GetWorkloadByAddr _ _) as [q|]; [|split; [done|by intros (q & ? & ?)]].
  assert (Heq : forall P : Prop, (exists q', Some q = Some q' /\ permitted (rb_policies r) (get_wl q' w) conn) <->
    permitted (rb_policies r) (get_wl q w) conn) by (intros _; naive_solver). rewrite (Heq True).
  pose proof (aggregate_spec r (get_wl q w)) as Ha. destruct (aggregate r (get_wl q w)) as [allow deny].
  cbn [fst snd] in Ha. unfold permitted.
  destruct (existsb (matches conn) deny) eqn:Ed.
  { split; [done|]. intros [Hno _]. apply existsb_matches in Ed as (p & Hp & Hok). apply Ha in Hp as [Hf Hd].
    by destruct (Hno p Hf Hd). }
  assert (Hno : forall p, in_force (rb_policies r) (get_wl q w) p -> az_action p = Action_DENY -> ~ policy_ok conn p).
  { intros p Hf Hd Hok. apply not_true_iff_false in Ed. apply Ed, existsb_matches. exists p. by rewrite (proj2 (Ha p)). }
  destruct allow as [|a allow].
  - rewrite decide_True by done. split; [|done]. intros _. split; [done|]. left. intros p Hf Hp.
    destruct (not_elem_of_nil p). by apply Ha.
  - rewrite decide_False by done. rewrite existsb_matches. setoid_rewrite (fun p => proj1 (Ha p)). split.
    + intros (p & [Hf Hp] & Hok). split; [done|]. right. eauto.
    + intros [_ [Hnone|(p & Hf & Hp & Hok)]]; [|eauto]. destruct (proj1 (proj1 (Ha a)) ltac:(left)) as [Hf Hp].
      by destruct (Hnone a Hf).
Qed.
End decision.

(** ** The policies delivered and the policies in force *)

(** Where a policy applies beyond the workloads that name it. *)
Definition home (p : Authorization) : option string :=
  if decide (az_scope p = Scope_GLOBAL) then Some ""
  else if decide (az_scope p = Scope_NAMESPACE) then Some (az_namespace p)
  else None.
Definition scope_ok (p : Authorization) : Prop :=
  az_scope p = Scope_GLOBAL \/ az_scope p = Scope_NAMESPACE \/ az_scope p = Scope_WORKLOAD_SELECTOR.
#[export] Instance scope_ok_dec p : Decision (scope_ok p).
Proof. unfold scope_ok. apply _. Defined.

Inductive store_op : Type := OpUpdate (p : Authorization) | OpRemove (key : string).
Definition store_step (ps : policyStore) (op : store_op) : policyStore :=
  match op with
  | OpUpdate p => (updatePolicy (Some p) ps).1
  | OpRemove key => removePolicy key ps
  end.
Definition live_step (m : gmap string Authorization) (op : store_op) : gmap string Authorization :=
  match op with
  | OpUpdate p => if decide (scope_ok p) then <[Authorization_ResourceName p := p]> m else m
  | OpRemove key => delete key m
  end.
Definition store_run (ops : list store_op) : policyStore := foldl store_step newPolicyStore ops.
Definition live (ops : list store_op) : gmap string Authorization := foldl live_step ∅ ops.

(** An update does not move a policy that is still there. *)
Definition step_stable (m : gmap string Authorization) (op : store_op) : Prop :=
  match op with
  | OpUpdate p => scope_ok p -> forall old, m !! Authorization_ResourceName p = Some old -> home old = home p
  | OpRemove _ => True
  end.
Fixpoint stable_from (m : gmap string Authorization) (ops : list store_op) : Prop :=
  match ops with
  | [] => True
  | op :: ops => step_stable m op /\ stable_from (live_step m op) ops
  end.

Definition members (ps : policyStore) (ns : string) : gset string := default ∅ (byNamespace ps !! ns).
Definition store_ok (ps : policyStore) : Prop :=
  forall key ns, key ∈ members ps ns <-> exists p, byKey ps !! key = Some p /\ home p = Some ns.

Lemma store_members_insert m b ns s ns' :
  members (mkPolicyStore m (<[ns := s]> b)) ns' = if decide (ns = ns') then s else members (mkPolicyStore m b) ns'.
Proof. unfold members. cbn. rewrite lookup_insert. by case_decide. Qed.
Lemma store_members_delete m b ns ns' :
  members (mkPolicyStore m (delete ns b)) ns' = if decide (ns = ns') then ∅ else members (mkPolicyStore m b) ns'.
Proof. unfold members. cbn. rewrite lookup_delete. by case_decide. Qed.

(** What a step does to the two indices. *)
Lemma byKey_step ps op : byKey (store_step ps op) = live_step (byKey ps) op.
Proof.
  destruct op as [p|key]; cbn [store_step live_step].
  - unfold updatePolicy, scope_ok. repeat case_decide; cbn; (done || tauto).
  - unfold removePolicy. destruct (byKey ps !! key) as [q|] eqn:Eq; [|by rewrite delete_id].
    by repeat (case_match; cbn).
Qed.
Lemma members_update p ps ns :
  scope_ok p ->
  members (updatePolicy (Some p) ps).1 ns =
    if decide (home p = Some ns) then {[Authorization_ResourceName p]} ∪ members ps ns else members ps ns.
Proof.
  intros Hs.
  assert (Hi : forall m s, members (mkPolicyStore m match byNamespace ps !! s with
       | Some x => <[s:={[Authorization_ResourceName p]} ∪ x]> (byNamespace ps)
       | None => <[s:={[Authorization_ResourceName p]}]> (byNamespace ps) end) ns =
     if decide (s = ns) then {[Authorization_ResourceName p]} ∪ members ps ns else members ps ns).
  { intros m s. destruct (byNamespace ps !! s) as [x|] eqn:Ex; rewrite store_members_insert; case_decide; try done; subst;
      unfold members; rewrite Ex; cbn; set_solver. }
  unfold updatePolicy, home, scope_ok, Scope_GLOBAL, Scope_NAMESPACE, Scope_WORKLOAD_SELECTOR in *.
  destruct (decide (az_scope p = 2)) as [H2|]; [by rewrite H2|].
  destruct (decide (az_scope p = 0)); [|destruct (decide (az_scope p = 1)); [|tauto]];
    cbn [fst]; rewrite Hi; repeat case_decide; congruence.
Qed.
Lemma members_remove key ps ns :
  store_ok ps -> members (removePolicy key ps) ns = members ps ns ∖ {[key]}.
Proof.
  intros Hok. unfold removePolicy. destruct (byKey ps !! key) as [p|] eqn:Ep.
  2:{ assert (key ∉ members ps ns); [|set_solver]. intros (p & Hp & _)%Hok. congruence. }
  assert (Hin : forall ns', home p <> Some ns' -> members ps ns' ∖ {[key]} = members ps ns').
  { intros ns' Hne. assert (key ∉ members ps ns'); [|set_solver]. intros (q & Hq & Hh)%Hok. congruence. }
  assert (Hr : forall s, home p = Some s ->
    members match byNamespace ps !! s with
      | Some x => if decide (x ∖ {[key]} = ∅) then mkPolicyStore (delete key (byKey ps)) (delete s (byNamespace ps))
                  else mkPolicyStore (delete key (byKey ps)) (<[s:=x ∖ {[key]}]> (byNamespace ps))
      | None => mkPolicyStore (delete key (byKey ps)) (byNamespace ps) end ns = members ps ns ∖ {[key]}).
  { intros s Hs. destruct (byNamespace ps !! s) as [x|] eqn:Ex.
    - case_decide as Hx; [rewrite store_members_delete|rewrite store_members_insert]; case_decide as Hn;
        try (rewrite Hin by congruence; done); subst; unfold members; rewrite Ex; done.
    - destruct (decide (s = ns)) as [->|Hne]; [unfold members; cbn; rewrite Ex; cbn; set_solver|].
      rewrite Hin by congruence. done. }
  unfold home in *. repeat case_decide; try by apply Hr. rewrite Hin; done.
Qed.

Lemma store_step_ok ps op : store_ok ps -> step_stable (byKey ps) op -> store_ok (store_step ps op).
Proof.
  intros Hok Hst key ns. rewrite byKey_step. destruct op as [p|k]; cbn [store_step live_step step_stable] in *.
  - case_decide as Hs.
    + rewrite members_update by done. rewrite lookup_insert. specialize (Hst Hs).
      destruct (decide (Authorization_ResourceName p = key)) as [<-|Hne].
      * destruct (decide (home p = Some ns)) as [Hh|Hh]; [split; [eauto|set_solver]|].
        rewrite (Hok _ ns). split; [|naive_solver]. intros (q & Hq & Hh'). by rewrite (Hst q Hq) in Hh'.
      * rewrite <-(Hok key ns). case_decide; set_solver.
    + unfold updatePolicy, scope_ok in *. rewrite !decide_False by tauto. apply Hok.
  - rewrite members_remove by done. rewrite elem_of_difference, (Hok key ns), elem_of_singleton.
    setoid_rewrite lookup_delete_Some. naive_solver.
Qed.

Lemma store_run_ok ops ps :
  store_ok ps -> stable_from (byKey ps) ops ->
  store_ok (foldl store_step ps ops) /\ byKey (foldl store_step ps ops) = foldl live_step (byKey ps) ops.
Proof.
  revert ps. induction ops as [|op ops IH]; intros ps Hok Hst; [done|]. destruct Hst as [Hop Hst]. cbn [foldl].
  rewrite <-byKey_step in Hst |- *. apply IH; [by apply store_step_ok|done].
Qed.

Lemma members_elem ps ns key : key ∈ members ps ns <-> exists s, byNamespace ps !! ns = Some s /\ key ∈ s.
Proof. unfold members. destruct (byNamespace ps !! ns); cbn; set_solver. Qed.

(** after any sequence of policy updates and removals in which no update
    changes where a policy applies, the policies in force for a workload are
    exactly those delivered and not removed since that the workload names, that
    are global, or that are of the workload's namespace. *)
Theorem policies_in_force ops wl p :
  stable_from ∅ ops ->
  in_force (store_run ops) wl p <->
  exists key, live ops !! key = Some p /\
    (key ∈ wl_authorization_policies wl \/ home p = Some (wl_namespace wl) \/ home p = Some "").
Proof.
  intros Hst. destruct (store_run_ok ops newPolicyStore) as [Hok Hk]; [|done|].
  { intros key ns. unfold members. cbn. rewrite lookup_empty. set_solver. }
  unfold in_force, live, store_run, store_ok in *. setoid_rewrite <-members_elem. setoid_rewrite Hok.
  change (byKey newPolicyStore) with (∅ : gmap string Authorization) in Hk. rewrite Hk.
  split; intros (key & Hkey & Hc); exists key; (split; [done|]); naive_solver.
Qed.

(** an update that turns a global policy into one for selected workloads
    leaves it in force for every workload: the index by namespace keeps the
    old entry. *)
Theorem scope_change_stays_global p p' wl :
  az_scope p = Scope_GLOBAL -> az_scope p' = Scope_WORKLOAD_SELECTOR ->
  Authorization_ResourceName p' = Authorization_ResourceName p ->
  in_force (store_run [OpUpdate p; OpUpdate p']) wl p'.
Proof.
  intros Hg Hw Hn. exists (Authorization_ResourceName p). unfold store_run. cbn [foldl].
  rewrite byKey_step. cbn [live_step store_step]. rewrite decide_True by (unfold scope_ok; tauto).
  rewrite Hn, lookup_insert_eq. split; [done|]. do 2 right. rewrite <-members_elem.
  rewrite members_update by (unfold scope_ok; tauto). case_decide; [set_solver|].
  rewrite members_update by (unfold scope_ok; tauto). rewrite decide_True; [set_solver|].
  unfold home. by rewrite decide_True.
Qed.

(** *** Witnesses *)
Definition demo_match : Match := mkMatch [MatchExact "default"] [] [] [] [] [] [] [] [80] [].
Definition demo_deny : Authorization := mkAuthorization "deny-80" "istio-system" Scope_GLOBAL Action_DENY [[[demo_match]]].
Definition demo_selected : Authorization :=
  mkAuthorization "deny-80" "istio-system" Scope_WORKLOAD_SELECTOR Action_DENY [[[demo_match]]].

Lemma policies_in_force_witness :
  in_force (store_run [OpUpdate demo_deny; OpRemove "istio-system/none"]) Workload_zero demo_deny.
Proof.
  apply policies_in_force.
  - cbn. split; [by intros _ old|]. done.
  - exists "istio-system/deny-80". split; [vm_compute; reflexivity|]. right. right. vm_compute. reflexivity.
Defined.
Lemma scope_change_stays_global_witness :
  in_force (store_run [OpUpdate demo_deny; OpUpdate demo_selected]) Workload_zero demo_selected.
Proof. apply scope_change_stays_global; reflexivity. Defined.
