(* ===== verification/Xdp.v ===== *)
(** * Authorization in the kernel: [authz.h] and [xdp.c]

    The programs that judge a packet of a connection against the policies of
    its destination, chained by tail calls.  A packet is its bytes.  A policy
    is the message that the kernel reads out of its maps, followed through its
    pointers: an array of a message is null exactly when it is empty. *)
From S2P Require Import Prelude GoNet Nets Api Runtime BpfCache BpfCommon WorkloadCache Rbac.

Definition UNMATCHED : bool := false.
Definition MATCHED : bool := true.
Definition TYPE_SRCIP : Z := 1.
Definition TYPE_DSTIP : Z := 2.
Definition AUTH_ALLOW : Z := 0.
Definition AUTH_DENY : Z := 1.
Definition XDP_DROP : Z := 1.
Definition XDP_PASS : Z := 2.
Definition MAX_MEMBER_NUM_PER_POLICY : nat := 4.
Definition IPV4_VERSION : Z := 4.
Definition IPV6_VERSION : Z := 6.

Record match_context : Type := mkMatchCtx {
  mc_action : Z;
  policy_index : Z;
  need_tailcall_to_userspace : bool;
  n_rules : Z;
  auth_result : Z;
  mc_policies : list Z;
  rulesPtr : option (list (list (list Match)));
  mc_policy_name : option string
}.
Definition set_policy_name (name : string) (c : match_context) : match_context :=
  mkMatchCtx (mc_action c) (policy_index c) (need_tailcall_to_userspace c) (n_rules c) (auth_result c) (mc_policies c)
    (rulesPtr c) (Some name).

(** ** Packets *)

(** [struct xdp_info]: where the headers are, and the version field. *)
Record xdp_info : Type := mkXdpInfo { xi_version : Z; xi_ip : nat; xi_tcp : nat }.

Definition SIZEOF_ETHHDR : nat := 14.
Definition SIZEOF_IPHDR : nat := 20.
Definition SIZEOF_IPV6HDR : nat := 40.
Definition SIZEOF_TCPHDR : nat := 20.

Definition parser_xdp_info (pkt : bytes) : option xdp_info :=
  if decide (length pkt < SIZEOF_ETHHDR)%nat then None
  else if decide (length pkt < SIZEOF_ETHHDR + 1)%nat then None
  else
    let begin := SIZEOF_ETHHDR in
    let version := Z.shiftr (ld 1 begin pkt) 4 in
    let tcp (tcph : nat) :=
      if decide (length pkt < tcph + SIZEOF_TCPHDR)%nat then None else Some (mkXdpInfo version begin tcph) in
    if version =? IPV4_VERSION then
      if decide (length pkt < begin + SIZEOF_IPHDR)%nat then None
      else if negb (ld 1 (begin + 9) pkt =? IPPROTO_TCP) then None
      else tcp (begin + SIZEOF_IPHDR)%nat
    else if version =? IPV6_VERSION then
      if decide (length pkt < begin + SIZEOF_IPV6HDR)%nat then None
      else if negb (ld 1 (begin + 6) pkt =? IPPROTO_TCP) then None
      else tcp (begin + SIZEOF_IPV6HDR)%nat
    else None.

Definition parser_tuple (pkt : bytes) (info : xdp_info) (tuple_info : bpf_sock_tuple) : bpf_sock_tuple :=
  if xi_version info =? IPV4_VERSION then
    let tuple_info := set_v4_saddr (ld 4 (xi_ip info + 12) pkt) tuple_info in
    let tuple_info := set_v4_daddr (ld 4 (xi_ip info + 16) pkt) tuple_info in
    let tuple_info := set_v4_sport (bpf_ntohs (ld 2 (xi_tcp info) pkt)) tuple_info in
    set_v4_dport (bpf_ntohs (ld 2 (xi_tcp info + 2) pkt)) tuple_info
  else
    let tuple_info := set_v6_saddr (take 16 (drop (xi_ip info + 8) pkt)) tuple_info in
    let tuple_info := set_v6_daddr (take 16 (drop (xi_ip info + 24) pkt)) tuple_info in
    let tuple_info := set_v6_sport (bpf_ntohs (ld 2 (xi_tcp info) pkt)) tuple_info in
    set_v6_dport (bpf_ntohs (ld 2 (xi_tcp info + 2) pkt)) tuple_info.

Definition construct_tuple_key (pkt : bytes) : option (xdp_info * bpf_sock_tuple) :=
  info ← parser_xdp_info pkt;
  Some (info, parser_tuple pkt info tuple_zero).

(** The flags are the byte at offset 13 of the TCP header: fin, syn, rst, psh
    and ack from bit 0 on. *)
Definition shutdown_tuple (info : xdp_info) (pkt : bytes) : bytes :=
  let off := (xi_tcp info + 13)%nat in
  st 1 off (Z.lor (Z.land (ld 1 off pkt) 0xE0) 4) pkt.

(** ** Matching *)
Definition match_dst_ports (m : Match) (info : xdp_info) (tuple_info : bpf_sock_tuple) : bool :=
  if decide (length (destination_ports m) = 0%nat /\ length (not_destination_ports m) = 0%nat) then MATCHED
  else
    let dport := if xi_version info =? IPV4_VERSION then v4_dport tuple_info else v6_dport tuple_info in
    let listed ports := existsb (fun p => u16 p =? dport) (take MAX_MEMBER_NUM_PER_POLICY ports) in
    if listed (not_destination_ports m) then UNMATCHED
    else if decide (length (destination_ports m) = 0%nat) then MATCHED
    else if listed (destination_ports m) then MATCHED
    else UNMATCHED.

Definition byte_at (i : nat) (data : bytes) : Z := nth i data 0.
Definition convert_ipv4_to_u32 (data : bytes) (is_ipv4_in_ipv6 : bool) : Z :=
  if decide (length data <> 4%nat /\ length data <> 16%nat) then 0
  else
    let word i := u32 (Z.lor (Z.lor (Z.lor (Z.shiftl (byte_at i data) 24) (Z.shiftl (byte_at (i + 1) data) 16))
                                    (Z.shiftl (byte_at (i + 2) data) 8)) (byte_at (i + 3) data)) in
    if is_ipv4_in_ipv6 then word 12%nat else word 0%nat.

(** [ip6[i] |= v6addr[i * 4 + j] << (i * 8)], on a zeroed address. *)
Definition convert_ipv6_to_ip6addr (data : bytes) : option ip_addr :=
  if decide (length data <> 16%nat) then None
  else
    let word (i : nat) :=
      let at_ (j : nat) := Z.shiftl (byte_at (i * 4 + j) data) (Z.of_nat i * 8) in
      u32 (Z.lor (Z.lor (Z.lor (at_ 0%nat) (at_ 1%nat)) (at_ 2%nat)) (at_ 3%nat)) in
    Some (le_bytes 4 (word 0%nat) ++ le_bytes 4 (word 1%nat) ++ le_bytes 4 (word 2%nat) ++ le_bytes 4 (word 3%nat)).

Definition GET_PREFIX (prefix : Z) : Z :=
  bpf_htonl (if prefix <=? 0 then 0
             else if prefix <? 32 then u32 (Z.shiftl (Z.shiftl 1 prefix - 1) (32 - prefix))
             else 0xFFFFFFFF).
Definition ipv6_addr_clear_suffix (a : ip_addr) (prefix : Z) : ip_addr :=
  let a := st 4 0 (Z.land (ip6 0 a) (GET_PREFIX prefix)) a in
  let prefix := prefix - 32 in
  let a := st 4 4 (Z.land (ip6 1 a) (GET_PREFIX prefix)) a in
  let prefix := prefix - 32 in
  let a := st 4 8 (Z.land (ip6 2 a) (GET_PREFIX prefix)) a in
  let prefix := prefix - 32 in
  st 4 12 (Z.land (ip6 3 a) (GET_PREFIX prefix)) a.

(** ** State of a run: the kernel, the map [kmesh_tc_args], the packet *)
Record XState : Type := mkXState {
  x_kernel : Kernel;
  kmesh_tc_args : gmap bytes match_context;
  x_pkt : bytes
}.
Definition set_x_kernel v (s : XState) := mkXState v (kmesh_tc_args s) (x_pkt s).
Definition set_tc_args v (s : XState) := mkXState (x_kernel s) v (x_pkt s).
Definition set_x_pkt v (s : XState) := mkXState (x_kernel s) (kmesh_tc_args s) v.

Definition X (A : Type) : Type := XState -> A * XState.
#[export] Instance x_ret : MRet X := fun A a s => (a, s).
#[export] Instance x_bind : MBind X := fun A B f m s => let '(a, s) := m s in f a s.
Definition xgets {A} (f : XState -> A) : X A := fun s => (f s, s).
Definition xmod (f : XState -> XState) : X unit := fun s => (tt, f s).
Definition in_kernel {A} (m : K A) : X A := fun s => let '(a, k) := m (x_kernel s) in (a, set_x_kernel k s).

(** How a program ends: with a verdict, or in a tail call to the program of an
    index.  Every tail call of these programs is followed by
    [return XDP_PASS], the result of a tail call that fails. *)
Inductive verdict : Type := Return (v : Z) | TailCall (index : Z).
Definition TAIL_CALL_POLICIES_CHECK : Z := 0.
Definition TAIL_CALL_POLICY_CHECK : Z := 1.
Definition TAIL_CALL_AUTH_IN_USER_SPACE : Z := 2.

Section programs.
Context `{Helpers}.
(** What the machine makes of [0xFFFFFFFF << 32], which C leaves undefined;
    [beyond] is the memory after the four policies of a workload. *)
Context (shift_out : Z) (beyond : Z -> option Z).

Definition match_ipv4_rule (ruleIp preFixLen : Z) (tuple_info : bpf_sock_tuple) (type : Z) : bool :=
  let targetIP := if negb (Z.land type TYPE_SRCIP =? 0) then v4_saddr tuple_info else v4_daddr tuple_info in
  if 32 <? preFixLen then UNMATCHED
  else
    let mask := if preFixLen =? 0 then u32 shift_out else u32 (Z.shiftl 0xFFFFFFFF (32 - preFixLen)) in
    if Z.land ruleIp mask =? Z.land (bpf_ntohl targetIP) mask then MATCHED else UNMATCHED.

Definition match_ipv6_rule (rule_addr target_addr : ip_addr) (prefixLen : Z) : bool :=
  if 128 <? prefixLen then UNMATCHED
  else
    let target_addr := ipv6_addr_clear_suffix target_addr prefixLen in
    if (ip6 0 rule_addr =? ip6 0 target_addr) && (ip6 1 rule_addr =? ip6 1 target_addr)
       && (ip6 2 rule_addr =? ip6 2 target_addr) && (ip6 3 rule_addr =? ip6 3 target_addr)
    then MATCHED else UNMATCHED.

Definition match_ip_rule (addrInfo : bytes) (preFixLen : Z) (tuple_info : bpf_sock_tuple) (type : Z) : bool :=
  if decide (length addrInfo = 0%nat) then UNMATCHED
  else if decide (length addrInfo = 4%nat) then
    match_ipv4_rule (convert_ipv4_to_u32 addrInfo false) preFixLen tuple_info type
  else if decide (length addrInfo = 16%nat) then
    if negb (Z.land type (Z.lor TYPE_SRCIP TYPE_DSTIP) =? 0) then
      match convert_ipv6_to_ip6addr addrInfo with
      | None => UNMATCHED
      | Some rule_addr =>
          if is_ipv4_mapped_addr rule_addr then
            match_ipv4_rule (convert_ipv4_to_u32 addrInfo true) preFixLen tuple_info type
          else
            let target_addr :=
              if negb (Z.land type TYPE_SRCIP =? 0) then v6_saddr tuple_info
              else if negb (Z.land type TYPE_DSTIP =? 0) then v6_daddr tuple_info
              else replicate 16 0 in
            match_ipv6_rule rule_addr target_addr preFixLen
      end
    else UNMATCHED
  else UNMATCHED.

Definition match_ip_common (tuple_info : bpf_sock_tuple) (ips not_ips : list SecAddress) (ip_type : Z) : bool :=
  if decide (length ips = 0%nat /\ length not_ips = 0%nat) then MATCHED
  else
    let listed l := existsb (fun ip => match_ip_rule (ad_address ip) (ad_length ip) tuple_info ip_type)
                            (take MAX_MEMBER_NUM_PER_POLICY l) in
    if listed not_ips then UNMATCHED
    else if listed ips then MATCHED
    else UNMATCHED.

Definition match_src_ip (m : Match) (tuple_info : bpf_sock_tuple) : bool :=
  match_ip_common tuple_info (source_ips m) (not_source_ips m) TYPE_SRCIP.
Definition match_dst_ip (m : Match) (tuple_info : bpf_sock_tuple) : bool :=
  match_ip_common tuple_info (destination_ips m) (not_destination_ips m) TYPE_DSTIP.
Definition match_IPs (m : Match) (tuple_info : bpf_sock_tuple) : bool :=
  match_src_ip m tuple_info && match_dst_ip m tuple_info.
Definition match_check (m : Match) (info : xdp_info) (tuple_info : bpf_sock_tuple) : bool :=
  match_dst_ports m info tuple_info && match_IPs m tuple_info.

Definition need_tail_call_to_user (m : Match) : bool :=
  negb (is_nil (namespaces m)) || negb (is_nil (not_namespaces m)) ||
  negb (is_nil (principals m)) || negb (is_nil (not_principals m)).

(** The second component is [match_ctx->need_tailcall_to_userspace]. *)
Fixpoint clause_match_loop (l : list Match) (info : xdp_info) (tuple_info : bpf_sock_tuple) (need : bool)
    : bool * bool :=
  match l with
  | [] => (UNMATCHED, need)
  | m :: l =>
      if match_check m info tuple_info then (MATCHED, need)
      else clause_match_loop l info tuple_info (if need_tail_call_to_user m then true else need)
  end.
Definition clause_match_check (cl : list Match) (info : xdp_info) (tuple_info : bpf_sock_tuple) (need : bool)
    : bool * bool :=
  if decide (length cl = 0%nat) then (UNMATCHED, need)
  else clause_match_loop (take MAX_MEMBER_NUM_PER_POLICY cl) info tuple_info need.

Fixpoint rule_match_loop (l : list (list Match)) (info : xdp_info) (tuple_info : bpf_sock_tuple) (need : bool)
    : bool * bool :=
  match l with
  | [] => (MATCHED, need)
  | clause :: l =>
      let '(r, need) := clause_match_check clause info tuple_info need in
      if r then rule_match_loop l info tuple_info need else (UNMATCHED, need)
  end.
Definition rule_match_check (rule : list (list Match)) (info : xdp_info) (tuple_info : bpf_sock_tuple) (need : bool)
    : bool * bool :=
  if decide (length rule = 0%nat) then (MATCHED, need)
  else rule_match_loop (take MAX_MEMBER_NUM_PER_POLICY rule) info tuple_info need.

(** The loop of [policy_check] over the rules. *)
Fixpoint rules_match_loop (l : list (list (list Match))) (info : xdp_info) (tuple_info : bpf_sock_tuple) (need : bool)
    : bool * bool :=
  match l with
  | [] => (false, need)
  | rule :: l =>
      let '(r, need) := rule_match_check rule info tuple_info need in
      if r then (true, need) else rules_match_loop l info tuple_info need
  end.

(** ** The programs *)

(** [map_of_authz_policy] and the flag [authz_offload], which user space
    writes; [authz_offload] is [authz_offload == 1].  The name of a policy lies
    in another map, [kmesh_map192]: [policy_name] is what [KMESH_GET_PTR_VAL]
    finds there for the policy's [name], [None] for a null pointer. *)
Context (map_of_authz_policy : gmap Z Authorization) (policy_name : Authorization -> option string)
  (authz_offload : bool).

(** [bpf_map_update_elem] on [kmesh_tc_args]; the result says if it failed. *)
Definition tc_args_update (tuple_key : bpf_sock_tuple) (c : match_context) : X bool :=
  fails ← in_kernel (ask update_fails);
  if fails : bool then mret true
  else xmod (fun s => set_tc_args (<[tuple_key := c]> (kmesh_tc_args s)) s);; mret false.

Definition frontend_key_of (info : xdp_info) (tuple_info : bpf_sock_tuple) : bytes :=
  if xi_version info =? 4 then set_ip4 (v4_daddr tuple_info) (replicate 16 0)
  else if is_ipv4_mapped_addr (v6_daddr tuple_info) then set_ip4 (ip6 3 (v6_daddr tuple_info)) (replicate 16 0)
  else v6_daddr tuple_info.
Definition get_workload_policies (info : xdp_info) (tuple_info : bpf_sock_tuple) : X (option (list Z)) :=
  maps ← xgets (fun s => k_maps (x_kernel s));
  match KmFrontend maps !! frontend_key_of info tuple_info with
  | None => mret None
  | Some workload_uid => mret (KmWlpolicy maps !! workload_uid)
  end.

(** The policy at an index: past the fourth it is whatever follows. *)
Definition policy_at (policies : list Z) (index : Z) : option Z :=
  if decide (index < Z.of_nat MAX_MEMBER_NUM_PER_POLICY) then policies !! Z.to_nat index else beyond index.

Definition policies_check : X verdict :=
  pkt ← xgets x_pkt;
  match construct_tuple_key pkt with
  | None => mret (Return XDP_PASS)
  | Some (info, tuple_key) =>
      args ← xgets kmesh_tc_args;
      match args !! tuple_key with
      | None => mret (Return XDP_PASS)
      | Some match_ctx =>
          match policy_at (mc_policies match_ctx) (policy_index match_ctx) with
          | None => mret (Return XDP_PASS)
          | Some policyId =>
              match map_of_authz_policy !! policyId with
              | None =>
                  if need_tailcall_to_userspace match_ctx then mret (TailCall TAIL_CALL_AUTH_IN_USER_SPACE)
                  else mret (Return (auth_result match_ctx))
              | Some policy =>
                  match az_rules policy with
                  | [] => mret (Return XDP_PASS)
                  | rules =>
                      let match_ctx :=
                        mkMatchCtx (az_action policy) (policy_index match_ctx) (need_tailcall_to_userspace match_ctx)
                          (Z.of_nat (length rules) mod 256) (auth_result match_ctx) (mc_policies match_ctx) (Some rules)
                          (mc_policy_name match_ctx) in
                      xmod (fun s => set_tc_args (<[tuple_key := match_ctx]> (kmesh_tc_args s)) s);;
                      match policy_name policy with
                      | None => mret (Return XDP_PASS)
                      | Some name =>
                          let match_ctx := set_policy_name name match_ctx in
                          xmod (fun s => set_tc_args (<[tuple_key := match_ctx]> (kmesh_tc_args s)) s);;
                          failed ← tc_args_update tuple_key match_ctx;
                          if failed : bool then mret (Return XDP_PASS)
                          else mret (TailCall TAIL_CALL_POLICY_CHECK)
                      end
                  end
              end
          end
      end
  end.

Definition policy_check : X verdict :=
  pkt ← xgets x_pkt;
  match construct_tuple_key pkt with
  | None => mret (Return XDP_PASS)
  | Some (info, tuple_key) =>
      args ← xgets kmesh_tc_args;
      match args !! tuple_key with
      | None => mret (Return XDP_PASS)
      | Some c =>
          if (0 <? n_rules c) && bool_decide (~ is_Some (rulesPtr c)) then mret (Return XDP_PASS)
          else
            let '(matched, need) :=
              rules_match_loop (take (Z.to_nat (n_rules c)) (take MAX_MEMBER_NUM_PER_POLICY (default [] (rulesPtr c)))) info tuple_key
                (need_tailcall_to_userspace c) in
            if matched then
              xmod (fun s => set_tc_args (delete tuple_key (kmesh_tc_args s)) s);;
              fails ← in_kernel (ask update_fails);
              (if fails : bool then mret tt
               else in_kernel (kmod (fun k =>
                      set_auth_result (<[tuple_key := if mc_action c =? Action_DENY then AUTH_DENY else AUTH_ALLOW]>
                                         (map_of_auth_result k)) k)));;
              mret (Return (if mc_action c =? Action_DENY then XDP_DROP else XDP_PASS))
            else
              let result := if auth_result c =? XDP_PASS
                            then (if mc_action c =? Action_DENY then XDP_PASS else XDP_DROP) else auth_result c in
              let c := mkMatchCtx (mc_action c) ((policy_index c + 1) mod 256) need (n_rules c) result
                         (mc_policies c) (rulesPtr c) (mc_policy_name c) in
              xmod (fun s => set_tc_args (<[tuple_key := c]> (kmesh_tc_args s)) s);;
              failed ← tc_args_update tuple_key c;
              if failed : bool then mret (Return XDP_PASS) else mret (TailCall TAIL_CALL_POLICIES_CHECK)
      end
  end.

Definition should_shutdown (tuple_info : bpf_sock_tuple) : X bool :=
  value ← xgets (fun s => map_of_auth_result (x_kernel s) !! tuple_info);
  match value with
  | Some value =>
      if value =? 1 then
        in_kernel (kmod (fun k => set_auth_result (delete tuple_info (map_of_auth_result k)) k));; mret true
      else mret false
  | None => mret false
  end.

Definition xdp_shutdown_in_userspace : X verdict :=
  pkt ← xgets x_pkt;
  match parser_xdp_info pkt with
  | None => mret (Return XDP_PASS)
  | Some info =>
      if negb (xi_version info =? 4) && negb (xi_version info =? 6) then mret (Return XDP_PASS)
      else
        forbid ← should_shutdown (parser_tuple pkt info tuple_zero);
        (if forbid : bool then xmod (set_x_pkt (shutdown_tuple info pkt)) else mret tt);;
        mret (Return XDP_PASS)
  end.

Definition xdp_authz : X verdict :=
  if negb authz_offload then mret (TailCall TAIL_CALL_AUTH_IN_USER_SPACE)
  else
    pkt ← xgets x_pkt;
    match parser_xdp_info pkt with
    | None => mret (Return XDP_PASS)
    | Some info =>
        if negb (xi_version info =? 4) && negb (xi_version info =? 6) then mret (Return XDP_PASS)
        else
          let tuple_key := parser_tuple pkt info tuple_zero in
          value ← xgets (fun s => map_of_auth_result (x_kernel s) !! tuple_key);
          match value with
          | Some value => mret (Return (if value =? 0 then XDP_PASS else XDP_DROP))
          | None =>
              policies ← get_workload_policies info tuple_key;
              match policies with
              | None => mret (Return XDP_PASS)
              | Some policies =>
                  failed ← tc_args_update tuple_key (mkMatchCtx 0 0 false 0 XDP_PASS policies None None);
                  if failed : bool then mret (Return XDP_PASS) else mret (TailCall TAIL_CALL_POLICIES_CHECK)
              end
          end
    end.

(** ** Tail calls

    [map_of_xdp_tailcall] holds the three programs.  The kernel lets a program
    make 33 tail calls ([MAX_TAIL_CALL_CNT]); one more fails, like any tail
    call that the helper refuses. *)
Definition program (index : Z) : X verdict :=
  if index =? TAIL_CALL_POLICIES_CHECK then policies_check
  else if index =? TAIL_CALL_POLICY_CHECK then policy_check
  else xdp_shutdown_in_userspace.
Fixpoint tail_calls (budget : nat) (v : verdict) : X Z :=
  match v with
  | Return v => mret v
  | TailCall index =>
      match budget with
      | O => mret XDP_PASS
      | S budget =>
          fails ← in_kernel (ask tail_call_fails);
          if fails : bool then mret XDP_PASS
          else v ← program index; tail_calls budget v
      end
  end.
Definition run_xdp : X Z := v ← xdp_authz; tail_calls MAX_TAIL_CALL_CNT v.
End programs.
