(* ===== verification/Authz.v ===== *)
(** * The two authorizers and the verdict on the wire

    The decision of user space ([Rbac.v]) and that of the XDP programs
    ([Xdp.v]) on the same connection, and the way of a denial from the accepted
    socket over user space to the client's next packet. *)
From S2P Require Import Prelude GoNet Nets Api Runtime BpfCache WorkloadCache BpfCommon SockOps Delivery Rbac Xdp.

(** ** Bits and bytes *)
Lemma testbit_byte a b n : 0 <= b < 256 -> 0 <= n ->
  Z.testbit (a * 256 + b) n = if n <? 8 then Z.testbit b n else Z.testbit a (n - 8).
Proof.
  intros Hb Hn. destruct (Z.ltb_spec n 8) as [Hlt|Hge].
  - rewrite <-(Z.mod_pow2_bits_low (a * 256 + b) 8 n) by lia. change (2 ^ 8) with 256.
    rewrite Z.add_comm, Z.mod_add by lia. by rewrite Z.mod_small.
  - replace n with (n - 8 + 8) at 1 by lia. rewrite <-Z.div_pow2_bits by lia. change (2 ^ 8) with 256.
    rewrite Z.add_comm, Z.div_add by lia. by rewrite Z.div_small.
Qed.
Lemma land_u8 a b : is_u8 a -> is_u8 b -> is_u8 (Z.land a b).
Proof.
  unfold is_u8. intros Ha Hb. pose proof (proj2 (Z.land_nonneg a b) ltac:(lia)). split; [done|].
  destruct (Z.eq_dec (Z.land a b) 0) as [->|Hne]; [lia|]. apply (Z.log2_lt_pow2 _ 8); [lia|].
  eapply Z.le_lt_trans; [apply Z.log2_land; lia|]. apply Z.min_lt_iff. left.
  destruct (Z.eq_dec a 0) as [->|]; [done|]. apply Z.log2_lt_pow2; lia.
Qed.
Lemma land_bytes a b c d : is_u8 b -> is_u8 d ->
  Z.land (a * 256 + b) (c * 256 + d) = Z.land a c * 256 + Z.land b d.
Proof.
  intros Hb Hd. apply Z.bits_inj'. intros n Hn. rewrite Z.land_spec, !testbit_byte by (try done; by apply land_u8).
  destruct (n <? 8); by rewrite Z.land_spec.
Qed.
Lemma lor_byte a b : is_u8 b -> Z.lor (Z.shiftl a 8) b = a * 256 + b.
Proof.
  intros Hb. apply Z.bits_inj'. intros n Hn. rewrite Z.lor_spec, testbit_byte by done.
  destruct (Z.ltb_spec n 8) as [Hlt|Hge]; [by rewrite Z.shiftl_spec_low|].
  rewrite Z.shiftl_spec by done. replace (Z.testbit b n) with false; [by rewrite orb_false_r|].
  symmetry. destruct (Z.eq_dec b 0) as [->|]; [apply Z.bits_0|]. apply Z.bits_above_log2; [apply Hb|].
  unfold is_u8 in *. apply Z.lt_le_trans with 8; [|lia]. apply Z.log2_lt_pow2; lia.
Qed.

Lemma Forall_cons3 {A} (P : A -> Prop) a b c : Forall P [a; b; c] -> P a /\ P b /\ P c /\ True.
Proof. intros (?&(?&(?&_)%Forall_cons)%Forall_cons)%Forall_cons. done. Qed.

(** A number of four bytes, most significant first. *)
Definition word4 (a b c d : Z) : Z := ((a * 256 + b) * 256 + c) * 256 + d.
Lemma land_word4 a b c d a' b' c' d' :
  Forall is_u8 [b; c; d] -> Forall is_u8 [b'; c'; d'] ->
  Z.land (word4 a b c d) (word4 a' b' c' d') = word4 (Z.land a a') (Z.land b b') (Z.land c c') (Z.land d d').
Proof.
  intros (?&?&?&_)%Forall_cons3 (?&?&?&_)%Forall_cons3. unfold word4. by rewrite !land_bytes.
Qed.
Lemma word4_lor a b c d : Forall is_u8 [a; b; c; d] ->
  Z.lor (Z.lor (Z.lor (Z.shiftl a 24) (Z.shiftl b 16)) (Z.shiftl c 8)) d = word4 a b c d.
Proof.
  intros Hf. apply Forall_cons in Hf as [Ha Hf]. apply Forall_cons in Hf as [Hb Hf]. apply Forall_cons in Hf as [Hc Hf].
  apply Forall_cons in Hf as [Hd _]. unfold word4.
  change 24 with (8 + 16). rewrite <-Z.shiftl_shiftl, <-Z.shiftl_lor, (lor_byte a b) by (done || lia).
  change 16 with (8 + 8). rewrite <-Z.shiftl_shiftl, <-Z.shiftl_lor, (lor_byte _ c) by (done || lia). by apply lor_byte.
Qed.
Lemma word4_inj a b c d a' b' c' d' : Forall is_u8 [b; c; d] -> Forall is_u8 [b'; c'; d'] ->
  word4 a b c d = word4 a' b' c' d' <-> a = a' /\ b = b' /\ c = c' /\ d = d'.
Proof.
  intros (?&?&?&_)%Forall_cons3 (?&?&?&_)%Forall_cons3. unfold word4, is_u8 in *. lia.
Qed.

(** ** IPv4 blocks: the two implementations *)
Lemma forall_seqZ (P : Z -> bool) m n : forallb P (seqZ m n) = true -> forall x, m <= x < m + n -> P x = true.
Proof. intros Hf x Hx. rewrite forallb_forall in Hf. apply Hf, list_elem_of_In, elem_of_seqZ. lia. Qed.

Lemma prefix_mask n : 1 <= n <= 32 ->
  u32 (Z.shiftl 0xFFFFFFFF (32 - n)) = word4 (mask_byte n) (mask_byte (n - 8)) (mask_byte (n - 16)) (mask_byte (n - 24)).
Proof.
  intros Hn. apply Z.eqb_eq. revert n Hn.
  assert (Hall := forall_seqZ (fun n => u32 (Z.shiftl 0xFFFFFFFF (32 - n)) =?
    word4 (mask_byte n) (mask_byte (n - 8)) (mask_byte (n - 16)) (mask_byte (n - 24))) 1 32 ltac:(vm_compute; reflexivity)).
  intros n Hn. apply (Hall n). lia.
Qed.
Lemma mask_byte_u8 n : is_u8 (mask_byte n).
Proof.
  unfold mask_byte, is_u8. repeat case_decide; [lia..|]. assert (0 < 2 ^ (8 - n) <= 2 ^ 8).
  { split; [apply Z.pow_pos_nonneg; lia|apply Z.pow_le_mono_r; lia]. } lia.
Qed.

Lemma be_uint_word4 a b c d : be_uint [a; b; c; d] = word4 a b c d.
Proof. unfold be_uint, word4. change (reverse [a; b; c; d]) with [d; c; b; a]. cbn [le_uint]. lia. Qed.

(** The mask and the comparison byte by byte agree. *)
Lemma land_same_prefix a b n : length a = 4%nat -> length b = 4%nat -> Forall is_u8 a -> Forall is_u8 b -> 1 <= n <= 32 ->
  (Z.land (be_uint a) (u32 (Z.shiftl 0xFFFFFFFF (32 - n))) =? Z.land (be_uint b) (u32 (Z.shiftl 0xFFFFFFFF (32 - n))))
  = same_prefix n a b.
Proof.
  intros Ha Hb Fa Fb Hn. destruct a as [|a0 [|a1 [|a2 [|a3 []]]]]; try done.
  destruct b as [|b0 [|b1 [|b2 [|b3 []]]]]; try done.
  apply Forall_cons in Fa as [? Fa]. apply Forall_cons in Fb as [? Fb].
  rewrite prefix_mask by done. rewrite !be_uint_word4, !land_word4 by (done || (repeat constructor; apply mask_byte_u8)).
  apply eq_bool_prop_intro. rewrite !Is_true_true, Z.eqb_eq, word4_inj.
  2-3: apply Forall_cons3 in Fa as (?&?&?&_); apply Forall_cons3 in Fb as (?&?&?&_);
    repeat constructor; apply land_u8; (done || apply mask_byte_u8).
  cbn [same_prefix]. rewrite !andb_true_iff, !Z.eqb_eq.
  replace (n - 8 - 8) with (n - 16) by lia. replace (n - 16 - 8) with (n - 24) by lia. tauto.
Qed.

Section agreement.
Context (shift_out : Z).

(** The target address that a rule of the type is about. *)
Definition target_ip (type : Z) (t : bpf_sock_tuple) : bytes :=
  le_bytes 4 (if type =? TYPE_SRCIP then v4_saddr t else v4_daddr t).

Definition ipv4_block (a : SecAddress) : Prop :=
  length (ad_address a) = 4%nat /\ Forall is_u8 (ad_address a) /\ 1 <= ad_length a <= 32.

Lemma addr_ok_v4 a ip :
  ipv4_block a -> length ip = 4%nat -> addr_ok ip a <-> same_prefix (ad_length a) (ad_address a) ip = true.
Proof.
  intros (Hl & _ & Hn) Hip.
  assert (Hc : Contains {| net_IP := ad_address a; net_bits := ad_length a |} ip =
               same_prefix (ad_length a) (ad_address a) ip).
  { unfold Contains, To4. rewrite (decide_True _ _ Hip).
    change (default ip (Some ip)) with ip. cbn [net_IP net_bits]. by rewrite bool_decide_true by (by rewrite Hip, Hl). }
  unfold addr_ok, ParseCIDR, To4. rewrite (decide_True _ _ Hl), decide_True by lia. rewrite <-Hc. naive_solver.
Qed.

Lemma match_ip_rule_v4 a t type :
  ipv4_block a -> type = TYPE_SRCIP \/ type = TYPE_DSTIP ->
  match_ip_rule shift_out (ad_address a) (ad_length a) t type = true <-> addr_ok (target_ip type t) a.
Proof.
  intros (Hl & Hb & Hn) Ht. unfold match_ip_rule. rewrite decide_False by lia. rewrite decide_True by done.
  assert (Hc : convert_ipv4_to_u32 (ad_address a) false = be_uint (ad_address a)).
  { destruct (ad_address a) as [|a0 [|a1 [|a2 [|a3 []]]]]; try done.
    unfold convert_ipv4_to_u32. rewrite decide_False by (cbn; lia). cbn [byte_at nth Nat.add].
    rewrite word4_lor, be_uint_word4 by done. apply u32_small. apply Forall_cons in Hb as [? Hb].
    apply Forall_cons3 in Hb as (?&?&?&_). unfold word4, is_u8, is_u32 in *. lia. }
  rewrite Hc. unfold match_ipv4_rule.
  replace (if negb (Z.land type TYPE_SRCIP =? 0) then v4_saddr t else v4_daddr t)
    with (if type =? TYPE_SRCIP then v4_saddr t else v4_daddr t) by (by destruct Ht as [-> | ->]).
  rewrite (proj2 (Z.ltb_ge 32 (ad_length a))), (proj2 (Z.eqb_neq (ad_length a) 0)) by lia.
  unfold bpf_ntohl. fold (target_ip type t). rewrite land_same_prefix; [|done|apply length_le_bytes|done|apply le_bytes_is|done].
  rewrite addr_ok_v4 by (done || apply length_le_bytes). by destruct (same_prefix _ _ _).
Qed.

(** ** Policies that the kernel can judge alone *)
Definition short {A} (l : list A) : Prop := (length l <= MAX_MEMBER_NUM_PER_POLICY)%nat.
Definition blocks_offloadable (ips not_ips : list SecAddress) : Prop :=
  short ips /\ short not_ips /\ Forall ipv4_block ips /\ Forall ipv4_block not_ips /\ (not_ips <> [] -> ips <> []).
Definition match_offloadable (m : Match) : Prop :=
  m <> Match_zero /\ namespaces m = [] /\ not_namespaces m = [] /\ principals m = [] /\ not_principals m = [] /\
  blocks_offloadable (source_ips m) (not_source_ips m) /\
  blocks_offloadable (destination_ips m) (not_destination_ips m) /\
  short (destination_ports m) /\ short (not_destination_ports m) /\
  Forall is_u16 (destination_ports m) /\ Forall is_u16 (not_destination_ports m).
Definition policy_offloadable (p : Authorization) : Prop :=
  az_rules p <> [] /\ short (az_rules p) /\
  Forall (fun rule => short rule /\ Forall (fun cl => cl <> [] /\ short cl /\ Forall match_offloadable cl) rule) (az_rules p).

(** The connection of an IPv4 packet. *)
Definition packet_conn (id : Identity) (t : bpf_sock_tuple) : rbacConnection :=
  mkConn id "" (le_bytes 4 (v4_saddr t)) (le_bytes 4 (v4_daddr t)) (v4_dport t).

Lemma take_short {A} (l : list A) : short l -> take MAX_MEMBER_NUM_PER_POLICY l = l.
Proof. apply take_ge. Qed.

Lemma match_ip_common_spec t ips not_ips type :
  blocks_offloadable ips not_ips -> type = TYPE_SRCIP \/ type = TYPE_DSTIP ->
  match_ip_common shift_out t ips not_ips type = true <-> selects (addr_ok (target_ip type t)) ips not_ips.
Proof.
  intros (Hs & Hsn & Hb & Hbn & Hne) Ht.
  assert (Hex : forall l, Forall ipv4_block l ->
    existsb (fun ip => match_ip_rule shift_out (ad_address ip) (ad_length ip) t type) l = true <->
    exists a, a ∈ l /\ addr_ok (target_ip type t) a).
  { intros l Hl. rewrite existsb_exists. setoid_rewrite list_elem_of_In. rewrite Forall_forall in Hl.
    split; intros (a & Hin & Ha); exists a; (split; [done|]);
      apply (match_ip_rule_v4 a t type); (done || by apply Hl, list_elem_of_In). }
  unfold match_ip_common, selects. rewrite !take_short by done. case_decide as Hz.
  { destruct Hz as [->%nil_length_inv ->%nil_length_inv]. split; [|done]. intros _. split; [by left|set_solver]. }
  specialize (Hex not_ips Hbn) as Hexn. specialize (Hex ips Hb).
  destruct (existsb _ not_ips); [split; [done|]; intros [_ []]; by apply Hexn|].
  assert (ips <> []) as Hips by (intros ->; destruct not_ips; [by apply Hz|by destruct Hne]).
  destruct (existsb _ ips); split; try done.
  - intros _. split; [right; by apply Hex|]. intros Hc. by apply Hexn in Hc.
  - intros [[?|Hc] _]; [done|]. by apply Hex in Hc.
Qed.

Lemma match_dst_ports_spec m info t :
  xi_version info = IPV4_VERSION -> short (destination_ports m) -> short (not_destination_ports m) ->
  Forall is_u16 (destination_ports m) -> Forall is_u16 (not_destination_ports m) ->
  match_dst_ports m info t = true <-> selects (eq (v4_dport t)) (destination_ports m) (not_destination_ports m).
Proof.
  intros Hv Hs Hsn Hb Hbn.
  assert (Hex : forall l, Forall is_u16 l -> existsb (fun p => u16 p =? v4_dport t) l = true <->
    exists a, a ∈ l /\ v4_dport t = a).
  { intros l Hl. rewrite existsb_exists. setoid_rewrite list_elem_of_In. rewrite Forall_forall in Hl.
    split; intros (a & Hin & Ha); exists a; (split; [done|]).
    - apply Z.eqb_eq in Ha. rewrite u16_small in Ha by (by apply Hl, list_elem_of_In). done.
    - subst a. rewrite u16_small by (by apply Hl, list_elem_of_In). apply Z.eqb_refl. }
  unfold match_dst_ports, selects. rewrite Hv, Z.eqb_refl, !take_short by done. case_decide as Hz.
  { destruct Hz as [E1%nil_length_inv E2%nil_length_inv]. rewrite E1, E2. split; [|done]. intros _.
    split; [by left|set_solver]. }
  specialize (Hex _ Hbn) as Hexn. specialize (Hex _ Hb).
  destruct (existsb _ (not_destination_ports m)); [split; [done|]; intros [_ []]; by apply Hexn|].
  assert (Hno : ~ exists a, a ∈ not_destination_ports m /\ v4_dport t = a) by (intros Hc; by apply Hexn in Hc).
  case_decide as Hl; [apply nil_length_inv in Hl; rewrite Hl; split; [intros _; split; [by left|done]|done]|].
  destruct (existsb _ (destination_ports m)); split; try done.
  - intros _. split; [right; by apply Hex|done].
  - intros [[Hn|Hc] _]; [by rewrite Hn in Hl|]. by apply Hex in Hc.
Qed.

Lemma match_check_spec m info t id :
  xi_version info = IPV4_VERSION -> match_offloadable m ->
  match_check shift_out m info t = true <-> match_ok (packet_conn id t) m.
Proof.
  intros Hv (Hz & E1 & E2 & E3 & E4 & Hsrc & Hdst & Hp). unfold match_check, match_IPs, match_src_ip, match_dst_ip.
  rewrite !andb_true_iff, match_dst_ports_spec, !match_ip_common_spec by (tauto || naive_solver).
  unfold match_ok. rewrite E1, E2, E3, E4. cbn [packet_conn dstIp srcIp dstPort srcIdentity].
  assert (Ht : forall P : string -> StringMatch -> Prop, forall x, selects (P x) [] []) by (split; [by left|set_solver]).
  change (target_ip TYPE_SRCIP t) with (le_bytes 4 (v4_saddr t)). change (target_ip TYPE_DSTIP t) with (le_bytes 4 (v4_daddr t)).
  split; [|tauto]. intros (? & ? & ?). split_and!; (done || apply (Ht pattern_ok)).
Qed.

Section loops.
Context (info : xdp_info) (t : bpf_sock_tuple) (id : Identity) (Hv : xi_version info = IPV4_VERSION).

Lemma clause_match_loop_eq l need :
  Forall match_offloadable l -> clause_match_loop shift_out l info t need = (clause_loop (packet_conn id t) l, need).
Proof.
  induction l as [|m l IH]; intros Hf; [done|]. apply Forall_cons in Hf as [Hm Hf]. cbn [clause_match_loop].
  pose proof (match_check_spec m info t id Hv Hm) as Hc. pose proof (clause_loop_spec (packet_conn id t) (m :: l)) as Hl.
  destruct (match_check _ m info t).
  - rewrite (proj2 Hl); [done|]. exists m. split; [by left|]. by apply Hc.
  - replace (need_tail_call_to_user m) with false.
    + rewrite IH by done. f_equal. apply eq_bool_prop_intro. rewrite !Is_true_true, Hl, clause_loop_spec.
      split; [intros (x & ? & ?); exists x; split; [by right|done]|].
      intros (x & [->|Hx]%elem_of_cons & Hok); [by apply Hc in Hok|eauto].
    + destruct Hm as (_ & E1 & E2 & E3 & E4 & _). unfold need_tail_call_to_user. by rewrite E1, E2, E3, E4.
Qed.
Lemma rule_match_check_eq rule need :
  short rule -> Forall (fun cl => cl <> [] /\ short cl /\ Forall match_offloadable cl) rule ->
  rule_match_check shift_out rule info t need = (rule_loop (packet_conn id t) true rule, need).
Proof.
  intros Hs Hf. unfold rule_match_check. case_decide as Hz; [by apply nil_length_inv in Hz as ->|].
  rewrite take_short by done. clear Hz Hs. induction rule as [|cl l IH]; [done|].
  apply Forall_cons in Hf as [(Hne & Hs & Hm) Hf]. cbn [rule_match_loop rule_loop andb]. unfold clause_match_check.
  rewrite !decide_False by (by intros ?%nil_length_inv). rewrite take_short, clause_match_loop_eq by done.
  destruct (clause_loop _ cl); [by apply IH|done].
Qed.
Lemma rules_match_loop_eq rules need :
  Forall (fun rule => short rule /\ Forall (fun cl => cl <> [] /\ short cl /\ Forall match_offloadable cl) rule) rules ->
  rules_match_loop shift_out rules info t need = (rules_loop (packet_conn id t) rules, need).
Proof.
  induction rules as [|r l IH]; intros Hf; [done|]. apply Forall_cons in Hf as [[Hs Hr] Hf].
  cbn [rules_match_loop rules_loop]. rewrite rule_match_check_eq by done. destruct (rule_loop _ true r); [done|by apply IH].
Qed.
End loops.
End agreement.

(** ** The chain of tail calls *)
Lemma xrun_bind {A B} (m : X A) (f : A -> X B) s : (m ≫= f) s = f (m s).1 (m s).2.
Proof. unfold mbind, x_bind. by destruct (m s). Qed.

Section chain.
Context `{Helpers} (Hup : forall n, update_fails n = false) (Htc : forall n, tail_call_fails n = false).
Context (shift_out : Z) (beyond : Z -> option Z) (map_of_authz_policy : gmap Z Authorization).
Context (policy_name : Authorization -> option string).
Context (pkt : bytes) (info : xdp_info) (t : bpf_sock_tuple) (id : Identity).
Context (Hpkt : construct_tuple_key pkt = Some (info, t)) (Hv : xi_version info = IPV4_VERSION).
Context (ids : list Z).
#[local] Abbreviation conn := (packet_conn id t).
#[local] Abbreviation run budget v := (tail_calls shift_out beyond map_of_authz_policy policy_name budget v).

(** The policies that the programs visit, at most four: those of the workload,
    in order, each in the map and with its name stored, up to the first index
    whose policy is not in the map. *)
Definition visits (ps : list Authorization) : Prop :=
  (length ps <= MAX_MEMBER_NUM_PER_POLICY)%nat /\
  (forall i p, ps !! i = Some p ->
     exists k, policy_at beyond ids (Z.of_nat i) = Some k /\ map_of_authz_policy !! k = Some p /\ is_Some (policy_name p)) /\
  (exists k, policy_at beyond ids (Z.of_nat (length ps)) = Some k /\ map_of_authz_policy !! k = None).

(** The verdict: that of the first policy that matches; otherwise the packet is
    dropped if an ALLOW policy was visited. *)
Definition action_verdict (p : Authorization) : Z := if az_action p =? Action_DENY then XDP_DROP else XDP_PASS.
Fixpoint chain_verdict (result : Z) (ps : list Authorization) : Z :=
  match ps with
  | [] => result
  | p :: ps =>
      if matches conn p then action_verdict p
      else chain_verdict (if result =? XDP_PASS then (if az_action p =? Action_DENY then XDP_PASS else XDP_DROP)
                          else result) ps
  end.

Definition context_at (i : nat) (result : Z) (s : XState) : Prop :=
  x_pkt s = pkt /\ exists c, kmesh_tc_args s !! t = Some c /\ policy_index c = Z.of_nat i /\
    need_tailcall_to_userspace c = false /\ auth_result c = result /\ mc_policies c = ids.
Definition context_for (p : Authorization) (i : nat) (result : Z) (s : XState) : Prop :=
  x_pkt s = pkt /\ exists c, kmesh_tc_args s !! t = Some c /\ policy_index c = Z.of_nat i /\
    need_tailcall_to_userspace c = false /\ auth_result c = result /\ mc_policies c = ids /\
    mc_action c = az_action p /\ n_rules c = Z.of_nat (length (az_rules p)) /\ rulesPtr c = Some (az_rules p).

Lemma tc_args_update_run c s :
  tc_args_update t c s = (false, set_tc_args (<[t := c]> (kmesh_tc_args s))
    (set_x_kernel (set_clock (S (k_clock (x_kernel s))) (x_kernel s)) s)).
Proof. unfold tc_args_update. rewrite xrun_bind. cbn. by rewrite Hup. Qed.

Lemma policies_check_next p i result s :
  context_at i result s -> policy_offloadable p ->
  (exists k, policy_at beyond ids (Z.of_nat i) = Some k /\ map_of_authz_policy !! k = Some p /\ is_Some (policy_name p)) ->
  exists s', policies_check beyond map_of_authz_policy policy_name s = (TailCall TAIL_CALL_POLICY_CHECK, s') /\
    context_for p i result s'.
Proof.
  intros (Hs & c & Hc & Hi & Hn & Hr & Hp) (Hne & Hsh & _) (k & Hk & Hm & name & Hname).
  unfold policies_check. rewrite xrun_bind. cbn [xgets fst snd]. rewrite Hs, Hpkt, xrun_bind. cbn [xgets fst snd].
  rewrite Hc, Hp, Hi, Hk, Hm.
  destruct (az_rules p) as [|r rs] eqn:Er; [done|]. rewrite xrun_bind, Hname. cbn [xmod fst snd].
  rewrite !xrun_bind, tc_args_update_run. cbn [xmod fst snd].
  eexists. split; [reflexivity|]. split; [exact Hs|]. eexists. cbn -[Z.of_nat Z.modulo]. rewrite lookup_insert_eq.
  split; [done|]. rewrite Er. cbn [policy_index need_tailcall_to_userspace auth_result mc_policies mc_action n_rules rulesPtr].
  split_and!; try done. apply Z.mod_small. unfold short, MAX_MEMBER_NUM_PER_POLICY in Hsh. cbn in *. lia.
Qed.

Lemma policy_check_next p i result s :
  context_for p i result s -> policy_offloadable p -> (i < MAX_MEMBER_NUM_PER_POLICY)%nat ->
  exists s', policy_check shift_out s =
      (if matches conn p then Return (action_verdict p) else TailCall TAIL_CALL_POLICIES_CHECK, s') /\
    (matches conn p = false ->
     context_at (S i) (if result =? XDP_PASS then (if az_action p =? Action_DENY then XDP_PASS else XDP_DROP)
                       else result) s').
Proof.
  intros (Hs & c & Hc & Hi & Hn & Hr & Hp & Ha & Hnr & Hrp) (Hne & Hsh & Hf) Hlt.
  unfold policy_check. rewrite xrun_bind. cbn [xgets fst snd]. rewrite Hs, Hpkt, xrun_bind. cbn [xgets fst snd].
  rewrite Hc, Hrp. rewrite bool_decide_false by naive_solver. rewrite andb_false_r.
  change (default [] (Some ?x)) with x.
  rewrite Hnr, Nat2Z.id, take_short, take_ge, (rules_match_loop_eq _ _ _ id) by done. rewrite Hn, Ha.
  replace (rules_loop conn (az_rules p)) with (matches conn p) by (unfold matches; by destruct (az_rules p)).
  destruct (matches conn p).
  - rewrite !xrun_bind. cbn [xmod in_kernel ask fst snd]. rewrite Hup. eexists. by split.
  - rewrite !xrun_bind, tc_args_update_run. cbn [xmod fst snd]. eexists. split; [reflexivity|]. intros _.
    split; [exact Hs|]. eexists. cbn -[Z.of_nat Z.modulo]. rewrite lookup_insert_eq. split; [done|].
    cbn [policy_index need_tailcall_to_userspace auth_result mc_policies]. rewrite Hr, Hi. split_and!; try done.
    rewrite Z.mod_small by (unfold MAX_MEMBER_NUM_PER_POLICY in *; lia). lia.
Qed.

Lemma context_at_clock i result k s : context_at i result s -> context_at i result (set_x_kernel k s).
Proof. done. Qed.

Lemma run_step budget index s :
  run (S budget) (TailCall index) s =
  (v ← program shift_out beyond map_of_authz_policy policy_name index; run budget v)
    (set_x_kernel (set_clock (S (k_clock (x_kernel s))) (x_kernel s)) s).
Proof. cbn [tail_calls]. rewrite xrun_bind. cbn [in_kernel ask fst snd]. by rewrite Htc. Qed.

Lemma chain_runs ps i result s budget :
  context_at i result s -> Forall policy_offloadable ps -> (i + length ps <= MAX_MEMBER_NUM_PER_POLICY)%nat ->
  (forall j p, ps !! j = Some p ->
     exists k, policy_at beyond ids (Z.of_nat (i + j)) = Some k /\ map_of_authz_policy !! k = Some p /\ is_Some (policy_name p)) ->
  (exists k, policy_at beyond ids (Z.of_nat (i + length ps)) = Some k /\ map_of_authz_policy !! k = None) ->
  (2 * length ps < budget)%nat ->
  (run budget (TailCall TAIL_CALL_POLICIES_CHECK) s).1 = chain_verdict result ps.
Proof.
  revert i result s budget. induction ps as [|p ps IH]; intros i result s budget Hc Hf Hlen Hat Hend Hb.
  - destruct budget as [|budget]; [cbn in Hb; lia|]. rewrite run_step, xrun_bind. cbn [program].
    change (program _ _ _ _ TAIL_CALL_POLICIES_CHECK) with (policies_check beyond map_of_authz_policy policy_name).
    destruct Hend as (k & Hk & Hm). rewrite Nat.add_0_r in Hk. destruct Hc as (Hs & c & Hc & Hi & Hn & Hr & Hp).
    unfold policies_check. rewrite xrun_bind. cbn [xgets fst snd]. rewrite (Hs : x_pkt (set_x_kernel _ s) = pkt), Hpkt.
    rewrite xrun_bind. cbn [xgets fst snd]. rewrite (Hc : kmesh_tc_args (set_x_kernel _ s) !! t = Some c).
    rewrite Hp, Hi, Hk, Hm, Hn. cbn. by destruct budget.
  - destruct budget as [|[|budget]]; [cbn in Hb; lia..|]. apply Forall_cons in Hf as [Hpo Hf].
    rewrite run_step, xrun_bind.
    change (program _ _ _ _ TAIL_CALL_POLICIES_CHECK) with (policies_check beyond map_of_authz_policy policy_name).
    destruct (policies_check_next p i result (set_x_kernel (set_clock (S (k_clock (x_kernel s))) (x_kernel s)) s)) as (s1 & -> & H1);
      [done|done|rewrite <-(Nat.add_0_r i); by apply (Hat 0%nat)|]. cbn [fst snd].
    rewrite run_step, xrun_bind.
    change (program _ _ _ _ TAIL_CALL_POLICY_CHECK) with (policy_check shift_out).
    destruct (policy_check_next p i result (set_x_kernel (set_clock (S (k_clock (x_kernel s1))) (x_kernel s1)) s1)) as (s2 & -> & H2);
      [done|done|cbn in Hlen; lia|]. cbn [fst snd chain_verdict].
    destruct (matches conn p); [by destruct budget|]. apply (IH (S i)); [by apply H2|done|cbn in *; lia|..|cbn in Hb; lia].
    + intros j q Hq. replace (S i + j)%nat with (i + S j)%nat by lia. by apply Hat.
    + replace (S i + length ps)%nat with (i + S (length ps))%nat by lia. done.
Qed.
End chain.

(** ** Agreement of the two authorizers *)
Section verdicts.
Context (id : Identity) (t : bpf_sock_tuple).
#[local] Abbreviation conn := (packet_conn id t).

Lemma chain_denies result ps ps' :
  Forall (fun p => az_action p = Action_DENY) ps ->
  chain_verdict t id result (ps ++ ps') =
    if existsb (matches conn) ps then XDP_DROP else chain_verdict t id result ps'.
Proof.
  induction ps as [|p ps IH]; intros Hf; [done|]. apply Forall_cons in Hf as [Hp Hf]. cbn [app chain_verdict existsb].
  unfold action_verdict. rewrite Hp, Z.eqb_refl. destruct (matches conn p); [done|]. cbn [orb]. rewrite <-IH by done.
  f_equal. destruct (Z.eqb_spec result XDP_PASS); congruence.
Qed.
Lemma chain_allows result ps :
  Forall (fun p => az_action p = Action_ALLOW) ps -> result = XDP_PASS \/ result = XDP_DROP ->
  chain_verdict t id result ps =
    if existsb (matches conn) ps then XDP_PASS else if decide (ps = []) then result else XDP_DROP.
Proof.
  revert result. induction ps as [|p ps IH]; intros result Hf Hr; [done|]. apply Forall_cons in Hf as [Hp Hf].
  cbn [chain_verdict existsb]. unfold action_verdict. rewrite Hp. cbn. destruct (matches conn p); [done|]. cbn [orb].
  rewrite IH; [|done|destruct Hr as [-> | ->]; by right]. destruct (existsb _ ps); [done|].
  case_decide; [|done]. by destruct Hr as [-> | ->].
Qed.
End verdicts.

Section theorems.
Context `{Helpers} `{Unsorted}.

Lemma run_xdp_offloaded shift_out beyond authz names pkt info t id uid ids ps s :
  (forall n, update_fails n = false) -> (forall n, tail_call_fails n = false) ->
  construct_tuple_key pkt = Some (info, t) -> xi_version info = IPV4_VERSION ->
  x_pkt s = pkt -> map_of_auth_result (x_kernel s) !! t = None ->
  KmFrontend (k_maps (x_kernel s)) !! frontend_key_of info t = Some uid ->
  KmWlpolicy (k_maps (x_kernel s)) !! uid = Some ids ->
  visits beyond authz names ids ps -> Forall policy_offloadable ps ->
  (run_xdp shift_out beyond authz names true s).1 = chain_verdict t id XDP_PASS ps.
Proof.
  intros Hup Htc Hpkt Hv Hs Hres Hfe Hwp (Hlen & Hat & Hend) Hf.
  assert (Hp : parser_xdp_info pkt = Some info /\ parser_tuple pkt info tuple_zero = t).
  { unfold construct_tuple_key in Hpkt. destruct (parser_xdp_info pkt); [|done]. by injection Hpkt as -> <-. }
  destruct Hp as [Hpi Hpt]. unfold run_xdp. rewrite xrun_bind. unfold xdp_authz. cbn [negb].
  rewrite xrun_bind. cbn [xgets fst snd]. rewrite Hs, Hpi, Hv. cbn [negb andb IPV4_VERSION Z.eqb Pos.eqb].
  rewrite xrun_bind. cbn [xgets fst snd]. rewrite Hpt, Hres. rewrite xrun_bind.
  unfold get_workload_policies. rewrite xrun_bind. cbn [xgets fst snd]. rewrite Hfe. cbn [mret x_ret fst snd]. rewrite Hwp.
  rewrite xrun_bind, tc_args_update_run by done. cbn [fst snd mret x_ret].
  eapply (chain_runs Hup Htc _ _ _ _ pkt info t id Hpkt Hv ids ps 0); [|done|done|exact Hat|exact Hend|].
  - split; [exact Hs|]. eexists. cbn -[Z.of_nat]. rewrite lookup_insert_eq. by split.
  - unfold MAX_MEMBER_NUM_PER_POLICY, MAX_TAIL_CALL_CNT in *. lia.
Qed.

(** C4: on an IPv4 packet of a connection without a recorded verdict, when no
    helper fails and the policies in force for the destination are the ones its
    workload lists in the kernel (at most four, the DENY policies first, each in
    the map with its name stored, and the list ended by an id that is not in the
    map), the chain of XDP programs passes the packet exactly when [doRbac]
    permits the connection, and otherwise drops it.  This is for policies
    within [policy_offloadable] only, which leaves out more than what the
    kernel hands to user space: a policy has one to four rules, of at most four
    clauses, each of one to four matches; a match names at least one field, no
    namespace or principal, at most four entries of each kind, IPv4 blocks of
    length 1 to 32 only, and no excluded addresses without listed ones.  Outside
    of it the two authorizers can differ: the kernel passes a packet at a policy
    without rules, matches no clause that is empty, takes a match without fields
    as matching, never matches a match that only excludes addresses, and what it
    makes of a block of length 0 depends on the machine. *)
Theorem xdp_agrees_with_rbac shift_out beyond authz names pkt info t id uid ids denies allows s w r q :
  (forall n, update_fails n = false) -> (forall n, tail_call_fails n = false) ->
  construct_tuple_key pkt = Some (info, t) -> xi_version info = IPV4_VERSION ->
  x_pkt s = pkt -> map_of_auth_result (x_kernel s) !! t = None ->
  KmFrontend (k_maps (x_kernel s)) !! frontend_key_of info t = Some uid ->
  KmWlpolicy (k_maps (x_kernel s)) !! uid = Some ids ->
  visits beyond authz names ids (denies ++ allows) -> Forall policy_offloadable (denies ++ allows) ->
  Forall (fun p => az_action p = Action_DENY) denies -> Forall (fun p => az_action p = Action_ALLOW) allows ->
  GetWorkloadByAddr (mkNetAddr "" (AddrFromSlice (le_bytes 4 (v4_daddr t))).1) (rb_workloads r) = Some q ->
  (forall p, in_force (rb_policies r) (get_wl q w) p <-> p ∈ denies ++ allows) ->
  (run_xdp shift_out beyond authz names true s).1 = if doRbac w r (packet_conn id t) then XDP_PASS else XDP_DROP.
Proof.
  intros Hup Htc Hpkt Hv Hs Hres Hfe Hwp Hvis Hoff Hd Ha Hq Hin.
  erewrite (run_xdp_offloaded _ _ _ _ _ _ _ id) by done. rewrite chain_denies, chain_allows by (done || by left).
  assert (Hagg : forall p, (p ∈ (aggregate r (get_wl q w)).1 <-> p ∈ allows) /\ (p ∈ (aggregate r (get_wl q w)).2 <-> p ∈ denies)).
  { intros p. destruct (aggregate_spec r (get_wl q w) p) as [-> ->]. rewrite Hin, elem_of_app.
    rewrite Forall_forall in Hd, Ha. pose proof (Hd p). pose proof (Ha p).
    assert (Action_ALLOW <> Action_DENY) by done. split; intuition congruence. }
  unfold doRbac. cbn [packet_conn dstNetwork dstIp]. rewrite Hq. fold (packet_conn id t).
  destruct (aggregate r (get_wl q w)) as [al de]. cbn [fst snd] in Hagg.
  assert (Hex : forall l l' : list Authorization, (forall p, p ∈ l <-> p ∈ l') ->
    existsb (matches (packet_conn id t)) l = existsb (matches (packet_conn id t)) l').
  { intros l l' Hl. apply eq_bool_prop_intro. rewrite !Is_true_true, !existsb_matches. by setoid_rewrite Hl. }
  rewrite (Hex de denies) by apply Hagg. rewrite (Hex al allows) by apply Hagg.
  destruct (existsb _ denies); [done|].
  destruct al as [|a al]; destruct allows as [|b allows]; try done.
  - destruct (not_elem_of_nil b). apply Hagg. by left.
  - destruct (not_elem_of_nil a). apply Hagg. by left.
Qed.

(** C40: when a workload has two policies, both within [policy_offloadable], the
    ALLOW policy listed before the DENY policy, and both select the connection
    of an IPv4 packet without a recorded verdict, the XDP programs let the
    packet pass although [doRbac] denies the connection: the kernel stops at
    the first policy that matches. *)
Theorem allow_listed_first_bypasses_deny shift_out beyond authz names pkt info t id uid ids a d s w r q :
  (forall n, update_fails n = false) -> (forall n, tail_call_fails n = false) ->
  construct_tuple_key pkt = Some (info, t) -> xi_version info = IPV4_VERSION ->
  x_pkt s = pkt -> map_of_auth_result (x_kernel s) !! t = None ->
  KmFrontend (k_maps (x_kernel s)) !! frontend_key_of info t = Some uid ->
  KmWlpolicy (k_maps (x_kernel s)) !! uid = Some ids ->
  visits beyond authz names ids [a; d] -> Forall policy_offloadable [a; d] ->
  az_action a = Action_ALLOW -> az_action d = Action_DENY ->
  matches (packet_conn id t) a = true -> matches (packet_conn id t) d = true ->
  GetWorkloadByAddr (mkNetAddr "" (AddrFromSlice (le_bytes 4 (v4_daddr t))).1) (rb_workloads r) = Some q ->
  (forall p, in_force (rb_policies r) (get_wl q w) p <-> p ∈ [a; d]) ->
  (run_xdp shift_out beyond authz names true s).1 = XDP_PASS /\ doRbac w r (packet_conn id t) = false.
Proof.
  intros Hup Htc Hpkt Hv Hs Hres Hfe Hwp Hvis Hoff Ha Hd Hma Hmd Hq Hin. split.
  - erewrite (run_xdp_offloaded _ _ _ _ _ _ _ id) by done. cbn [chain_verdict]. rewrite Hma.
    unfold action_verdict. by rewrite Ha.
  - unfold doRbac. cbn [packet_conn dstNetwork dstIp]. rewrite Hq. fold (packet_conn id t).
    pose proof (proj2 (aggregate_spec r (get_wl q w) d)) as Hagg. destruct (aggregate r (get_wl q w)) as [al de].
    cbn [snd] in Hagg. rewrite (proj2 (existsb_matches _ de)); [done|]. exists d. rewrite Hagg, Hin, <-matches_spec.
    split_and!; [right; by left|done|done].
Qed.
End theorems.

(** ** A denial reaches the client *)
Lemma v4_tuple_bytes a b c d t : (12 <= length t)%nat ->
  set_v4_dport d (set_v4_sport c (set_v4_daddr b (set_v4_saddr a t))) =
  le_bytes 4 a ++ le_bytes 4 b ++ le_bytes 2 c ++ le_bytes 2 d ++ drop 12 t.
Proof.
  intros Hl. do 12 (destruct t as [|? t]; [cbn in Hl; lia|]). reflexivity.
Qed.

(** The connection that an accepted IPv4 socket stands for. *)
Definition accepted_conn (w : World) (r : Rbac) (skops : bpf_sock_ops) : rbacConnection :=
  mkConn (getIdentityByIp w r (le_bytes 4 (remote_ip4 skops))) "" (le_bytes 4 (remote_ip4 skops))
    (le_bytes 4 (local_ip4 skops)) (GET_SKOPS_LOCAL_PORT skops).

(** What the record of the ring buffer holds, and what is entered for it. *)
Definition v4_fields (skops : bpf_sock_ops) : bytes :=
  le_bytes 4 (remote_ip4 skops) ++ le_bytes 4 (local_ip4 skops) ++
  le_bytes 2 (bpf_ntohs (GET_SKOPS_REMOTE_PORT skops)) ++ le_bytes 2 (GET_SKOPS_LOCAL_PORT skops).

Lemma accepted_tuple stale skops :
  so_family skops = AF_INET -> is_u32 (remote_ip4 skops) -> remote_ip4 skops <> 0 -> length stale = 36%nat ->
  is_ipv4_mapped_addr (v6_daddr stale) = false ->
  extract_skops_to_tuple_reverse skops stale = v4_fields skops ++ drop 12 stale.
Proof.
  intros Hf Hu Hne Hl Hm. unfold extract_skops_to_tuple_reverse. rewrite Hf. cbn [Z.eqb AF_INET AF_INET6 Pos.eqb].
  rewrite v4_tuple_bytes by lia. unfold v4_fields. rewrite <-!app_assoc.
  match goal with |- (if _ then _ else ?x) = _ => set (t := x) end.
  assert (Hs : is_ipv4_mapped_addr (v6_saddr t) = false).
  { unfold is_ipv4_mapped_addr. rewrite (proj2 (Z.eqb_neq (ip6 0 (v6_saddr t)) 0)); [done|].
    change (ip6 0 (v6_saddr t)) with (le_uint (le_bytes 4 (remote_ip4 skops))). rewrite le_uint_le_bytes.
    rewrite Z.mod_small by exact Hu. done. }
  assert (Hd : is_ipv4_mapped_addr (v6_daddr t) = false).
  { replace (v6_daddr t) with (v6_daddr stale); [done|]. unfold v6_daddr, t.
    do 12 (destruct stale as [|? stale]; [cbn in Hl; lia|]). reflexivity. }
  by rewrite Hs, Hd.
Qed.

Lemma be_le_bytes n x : be_bytes n (be_uint (le_bytes n x)) = le_bytes n x.
Proof. rewrite <-(length_le_bytes n x) at 1. apply be_bytes_be_uint, le_bytes_is. Qed.

Lemma run_record_v4 w r rest skops auth `{Unsorted} :
  length rest = 24%nat ->
  run_record w r false (le_bytes 4 IPV4 ++ v4_fields skops ++ rest) auth =
  if doRbac w r (accepted_conn w r skops) then auth else <[v4_fields skops ++ replicate 24 0 := 1]> auth.
Proof.
  intros Hl. unfold run_record.
  rewrite decide_False by (unfold v4_fields, MSG_LEN; rewrite !length_app, !length_le_bytes, Hl; lia).
  change (le_uint (take 4 (le_bytes 4 IPV4 ++ v4_fields skops ++ rest))) with 0. rewrite decide_True by done.
  change (drop 4 (le_bytes 4 IPV4 ++ v4_fields skops ++ rest)) with (v4_fields skops ++ rest).
  assert (Hb : buildConnV4 w r (v4_fields skops ++ rest) = Some (accepted_conn w r skops)).
  { change (buildConnV4 w r (v4_fields skops ++ rest)) with
      (Some (mkConn (getIdentityByIp w r (be_bytes 4 (be_uint (le_bytes 4 (remote_ip4 skops))))) ""
         (be_bytes 4 (be_uint (le_bytes 4 (remote_ip4 skops)))) (be_bytes 4 (be_uint (le_bytes 4 (local_ip4 skops))))
         (le_uint (le_bytes 2 (GET_SKOPS_LOCAL_PORT skops))))).
    rewrite !be_le_bytes, le_uint_le_bytes. unfold accepted_conn. f_equal. f_equal. apply Z.mod_small, u16_is. }
  rewrite Hb. destruct (doRbac _ _ _); [done|]. cbn [negb]. unfold xdpNotifyConnRst. rewrite decide_True by done.
  f_equal. change (take IPV4_TUPLE_LENGTH (v4_fields skops ++ rest)) with (v4_fields skops). f_equal. f_equal.
  unfold v4_fields, IPV4_TUPLE_LENGTH. rewrite !length_app, !length_le_bytes, Hl. done.
Qed.

Lemma should_shutdown_denied t s :
  map_of_auth_result (x_kernel s) !! t = Some 1 ->
  should_shutdown t s = (true, set_x_kernel (set_auth_result (delete t (map_of_auth_result (x_kernel s))) (x_kernel s)) s).
Proof. intros Hlk. unfold should_shutdown. rewrite xrun_bind. cbn [xgets fst snd]. by rewrite Hlk. Qed.

Section denial.
Context `{Helpers} `{Unsorted}.

(** C11: a connection accepted over IPv4 that [doRbac] denies ends on the wire:
    the socket program asks user space about it, the record is parsed back to
    the same connection, and the key entered for it is the one that the XDP
    programs compute from the client's next packet, which is dropped when the
    kernel authorizes and has its reset flag set when user space does.  The
    client's address is not 0.0.0.0, the ring buffer has room, tail calls do not
    fail, and the 36 bytes that the record had before, which the program does
    not clear, do not hold an IPv4-mapped address where the IPv6 destination
    would be; with such leftovers the key is not the connection's. *)
Theorem denied_connection_is_reset shift_out beyond authz names stale skops k w r pkt info :
  so_family skops = AF_INET -> is_u32 (remote_ip4 skops) -> remote_ip4 skops <> 0 -> length stale = 36%nat ->
  is_ipv4_mapped_addr (v6_daddr stale) = false -> reserve_fails (k_clock k) = false ->
  (forall n, tail_call_fails n = false) ->
  doRbac w r (accepted_conn w r skops) = false ->
  parser_xdp_info pkt = Some info -> xi_version info = IPV4_VERSION ->
  ld 4 (xi_ip info + 12) pkt = remote_ip4 skops -> ld 4 (xi_ip info + 16) pkt = local_ip4 skops ->
  ld 2 (xi_tcp info) pkt = GET_SKOPS_REMOTE_PORT skops ->
  bpf_ntohs (ld 2 (xi_tcp info + 2) pkt) = GET_SKOPS_LOCAL_PORT skops ->
  exists msg, map_of_auth_req (auth_ip_tuple stale skops k).2 = map_of_auth_req k ++ [msg] /\
    forall auth s, x_pkt s = pkt ->
      map_of_auth_result (x_kernel s) = run_record w r false (le_bytes 4 msg.1 ++ msg.2) auth ->
      (run_xdp shift_out beyond authz names true s).1 = XDP_DROP /\
      (run_xdp shift_out beyond authz names false s).1 = XDP_PASS /\
      x_pkt (run_xdp shift_out beyond authz names false s).2 = shutdown_tuple info pkt.
Proof.
  intros Hf Hu Hne Hl Hm Hres Htc Hden Hpi Hv Hs Hd Hsp Hdp.
  exists (IPV4, v4_fields skops ++ drop 12 stale). split.
  { unfold auth_ip_tuple. rewrite krun_bind. cbn [ask fst snd]. rewrite Hres, accepted_tuple by done.
    rewrite Hf. by destruct (is_ipv4_mapped_addr (local_ip6 skops)). }
  intros auth s Hpkt Hauth. cbn [fst snd] in Hauth.
  rewrite run_record_v4, Hden in Hauth by (rewrite length_drop; lia).
  assert (Hkey : parser_tuple pkt info tuple_zero = v4_fields skops ++ replicate 24 0).
  { unfold parser_tuple. rewrite Hv, Z.eqb_refl, v4_tuple_bytes by (cbn; lia). rewrite Hs, Hd, Hsp, Hdp.
    unfold v4_fields. by rewrite <-!app_assoc. }
  assert (Hlk : map_of_auth_result (x_kernel s) !! parser_tuple pkt info tuple_zero = Some 1)
    by (by rewrite Hauth, Hkey, lookup_insert_eq).
  split.
  - unfold run_xdp. rewrite xrun_bind. unfold xdp_authz. cbn [negb]. rewrite xrun_bind. cbn [xgets fst snd].
    rewrite Hpkt, Hpi, Hv. cbn [negb andb IPV4_VERSION Z.eqb Pos.eqb]. rewrite xrun_bind. cbn [xgets fst snd]. by rewrite Hlk.
  - set (s' := set_x_kernel (set_clock (S (k_clock (x_kernel s))) (x_kernel s)) s).
    assert (Hrun : run_xdp shift_out beyond authz names false s =
      (v ← xdp_shutdown_in_userspace; tail_calls shift_out beyond authz names 32 v) s').
    { unfold run_xdp, MAX_TAIL_CALL_CNT. rewrite xrun_bind. unfold xdp_authz. cbn [negb mret x_ret fst snd]. by rewrite run_step. }
    assert (Hsd : xdp_shutdown_in_userspace s' = (Return XDP_PASS, set_x_pkt (shutdown_tuple info pkt)
      (set_x_kernel (set_auth_result (delete (parser_tuple pkt info tuple_zero) (map_of_auth_result (x_kernel s)))
                       (x_kernel s')) s'))).
    { unfold xdp_shutdown_in_userspace. rewrite xrun_bind. cbn [xgets fst snd].
      rewrite (Hpkt : x_pkt s' = pkt), Hpi, Hv. cbn [negb andb IPV4_VERSION Z.eqb Pos.eqb].
      rewrite xrun_bind, (should_shutdown_denied _ s' Hlk). reflexivity. }
    rewrite Hrun, xrun_bind, Hsd. done.
Qed.
End denial.

(** *** Witnesses: 10.0.0.9:40000 connects to 10.0.0.1:8080 *)
Definition demo_client : Z := le_uint [10; 0; 0; 9].
Definition demo_server : Z := le_uint [10; 0; 0; 1].
Definition demo_pkt : bytes :=
  replicate 14 0 ++
  [69; 0; 0; 40; 0; 0; 0; 0; 64; 6; 0; 0; 10; 0; 0; 9; 10; 0; 0; 1] ++
  be_bytes 2 40000 ++ be_bytes 2 8080 ++ replicate 9 0 ++ [24] ++ replicate 6 0.
Definition demo_info : xdp_info := mkXdpInfo 4 14 34.
Definition demo_tuple : bytes := parser_tuple demo_pkt demo_info tuple_zero.
Definition demo_accept : bpf_sock_ops :=
  mkSkops BPF_SOCK_OPS_PASSIVE_ESTABLISHED_CB 0 AF_INET demo_server (replicate 16 0) 8080 demo_client (replicate 16 0)
    (Z.shiftl (bpf_htons 40000) 16) None.
Definition demo_server_wl : Workload :=
  mkWorkload "cluster//Pod/default/app-1" "app-1" "default" [[10; 0; 0; 1]] "" "" "" None "n1" ∅
    ["default/p1"; "default/p2"] 0 "c1" None 0 "" "" "" "".
Definition authz_world : World := mkWorld 0 ∅ {[1%positive := demo_server_wl]}.
Definition authz_workloads : cache := WorkloadCache.mkCache ∅ {[mkNetAddr "" (Addr4 [10; 0; 0; 1]) := 1%positive]}.

(** Two policies for the workload: one about the client's network, one about
    the port. *)
Definition net_match : Match := mkMatch [] [] [] [] [mkSecAddress [10; 0; 0; 0] 24] [] [] [] [] [].
Definition port_match : Match := mkMatch [] [] [] [] [] [] [] [] [8080] [].
Definition demo_p1 (action : Z) : Authorization := mkAuthorization "p1" "default" Scope_WORKLOAD_SELECTOR action [[[net_match]]].
Definition demo_p2 (action : Z) : Authorization := mkAuthorization "p2" "default" Scope_WORKLOAD_SELECTOR action [[[port_match]]].
Definition demo_rbac (a1 a2 : Z) : Rbac :=
  mkRbac (mkPolicyStore {["default/p1" := demo_p1 a1; "default/p2" := demo_p2 a2]} ∅) authz_workloads.
Definition demo_authz (a1 a2 : Z) : gmap Z Authorization := {[11 := demo_p1 a1; 12 := demo_p2 a2]}.
Definition demo_names (p : Authorization) : option string := Some (az_name p).
Definition demo_xstate : XState :=
  mkXState (mkKernel (NewCache ∅ ∅ {[set_ip4 demo_server (replicate 16 0) := 7]} ∅ {[7 := [11; 12; 0; 0]]})
              ∅ None ∅ [] [] ∅ 0) ∅ demo_pkt.

Lemma demo_offloadable a1 a2 : Forall policy_offloadable [demo_p1 a1; demo_p2 a2].
Proof.
  assert (Hm : match_offloadable net_match /\ match_offloadable port_match).
  { unfold match_offloadable, blocks_offloadable, short, ipv4_block, is_u16, is_u8, MAX_MEMBER_NUM_PER_POLICY. cbn.
    split_and!; try done; repeat constructor; cbn; try lia; try done; repeat constructor; lia. }
  destruct Hm. repeat constructor; (done || unfold short, MAX_MEMBER_NUM_PER_POLICY; cbn; lia).
Qed.
Lemma demo_in_force a1 a2 p :
  in_force (rb_policies (demo_rbac a1 a2)) demo_server_wl p <-> p ∈ [demo_p1 a1; demo_p2 a2].
Proof.
  unfold in_force. cbn [rb_policies demo_rbac byKey byNamespace]. setoid_rewrite lookup_empty. split.
  - intros (name & Hp & [Hn|[(s & ? & _)|(s & ? & _)]]); [|done..].
    apply elem_of_cons in Hn as [->|[->|[]%not_elem_of_nil]%elem_of_cons]; vm_compute in Hp; injection Hp as <-;
      [left|right; left].
  - intros [->|[->|[]%not_elem_of_nil]%elem_of_cons]%elem_of_cons.
    + exists "default/p1". split; [by vm_compute|]. left. left.
    + exists "default/p2". split; [by vm_compute|]. left. right. left.
Qed.
Lemma demo_visits a1 a2 :
  visits (fun _ => None) (demo_authz a1 a2) demo_names [11; 12; 0; 0] [demo_p1 a1; demo_p2 a2].
Proof.
  split; [cbn; unfold MAX_MEMBER_NUM_PER_POLICY; lia|]. split.
  - intros [|[|i]] p; [intros [= <-]; exists 11; eauto|intros [= <-]; exists 12; eauto|done].
  - by exists 0.
Qed.

(** The DENY policy on the client's network comes first: both authorizers
    refuse. *)
Lemma xdp_agrees_with_rbac_witness :
  (@run_xdp HelpersOk 0 (fun _ => None) (demo_authz 1 0) demo_names true demo_xstate).1 =
  if @doRbac UnsortedOk authz_world (demo_rbac 1 0) (packet_conn Identity_zero demo_tuple) then XDP_PASS else XDP_DROP.
Proof.
  apply (@xdp_agrees_with_rbac HelpersOk UnsortedOk 0 (fun _ => None) (demo_authz 1 0) demo_names demo_pkt demo_info demo_tuple
    Identity_zero 7 [11; 12; 0; 0] [demo_p1 1] [demo_p2 0] demo_xstate authz_world (demo_rbac 1 0) 1%positive);
    try reflexivity; try (vm_compute; reflexivity).
  - apply demo_visits.
  - apply demo_offloadable.
  - by repeat constructor.
  - by repeat constructor.
  - apply demo_in_force.
Defined.
Lemma allow_listed_first_bypasses_deny_witness :
  (@run_xdp HelpersOk 0 (fun _ => None) (demo_authz 0 1) demo_names true demo_xstate).1 = XDP_PASS /\
  @doRbac UnsortedOk authz_world (demo_rbac 0 1) (packet_conn Identity_zero demo_tuple) = false.
Proof.
  apply (@allow_listed_first_bypasses_deny HelpersOk UnsortedOk 0 (fun _ => None) (demo_authz 0 1) demo_names demo_pkt demo_info
    demo_tuple Identity_zero 7 [11; 12; 0; 0] (demo_p1 0) (demo_p2 1) demo_xstate authz_world (demo_rbac 0 1) 1%positive);
    try reflexivity; try (vm_compute; reflexivity).
  - apply demo_visits.
  - apply demo_offloadable.
  - apply demo_in_force.
Defined.
Lemma denied_connection_is_reset_witness :
  exists msg, map_of_auth_req (@auth_ip_tuple HelpersOk (replicate 36 7) demo_accept (x_kernel demo_xstate)).2 = [] ++ [msg] /\
    forall auth s, x_pkt s = demo_pkt ->
      map_of_auth_result (x_kernel s) = @run_record UnsortedOk authz_world (demo_rbac 1 0) false (le_bytes 4 msg.1 ++ msg.2) auth ->
      (@run_xdp HelpersOk 0 (fun _ => None) ∅ demo_names true s).1 = XDP_DROP /\
      (@run_xdp HelpersOk 0 (fun _ => None) ∅ demo_names false s).1 = XDP_PASS /\
      x_pkt (@run_xdp HelpersOk 0 (fun _ => None) ∅ demo_names false s).2 = shutdown_tuple demo_info demo_pkt.
Proof.
  apply (@denied_connection_is_reset HelpersOk UnsortedOk 0 (fun _ => None) ∅ demo_names (replicate 36 7) demo_accept
    (x_kernel demo_xstate) authz_world (demo_rbac 1 0) demo_pkt demo_info);
    first [reflexivity | vm_compute; reflexivity | vm_compute; split; congruence | vm_compute; congruence].
Defined.
