(* ===== verification/Controller.v ===== *)
(** * The workload controller: [workload_controller.go] and the rest of
      [workload_processor.go]

    The stream to the control plane: what is asked for when it opens, how a
    response is dispatched and acknowledged, and the handler of authorization
    policies, which writes the policy store and the map that the XDP programs
    read.  The calls of [maps_v2] on that map are its operations, which the
    kernel may refuse. *)
From S2P Require Import Prelude GoNet Nets HashName Api Runtime BpfCache Locality WorkloadCache ServiceCache EndpointCache WaypointCache Processor Binding Rbac.

(** ** Messages of the stream ([DeltaDiscoveryRequest], [DeltaDiscoveryResponse]) *)
Record DeltaRequest : Type := mkRequest {
  rq_TypeUrl : string;
  rq_ResourceNamesSubscribe : list string;
  rq_InitialResourceVersions : gset string;   (* all versions are empty *)
  rq_ResponseNonce : string;
  rq_Node : string
}.

(** The resources of a response, decoded by type. *)
Inductive Resources : Type :=
  | Addresses (l : list (Address_ + error))
  | Authorizations (l : list (Authorization + error))
  | OtherResources.
Record DeltaResponse : Type := mkResponse {
  rs_TypeUrl : string;
  rs_Nonce : string;
  rs_Resources : Resources;
  rs_RemovedResources : list string
}.

Definition AddressType : string := "type.googleapis.com/istio.workload.Address".
Definition AuthorizationType : string := "type.googleapis.com/istio.security.Authorization".

Definition address_resources (r : Resources) : list (Address_ + error) :=
  match r with Addresses l => l | _ => [] end.
Definition authorization_resources (r : Resources) : list (Authorization + error) :=
  match r with Authorizations l => l | _ => [] end.

(** ** State *)
Record Controller : Type := mkController {
  c_Processor : Processor;
  c_Rbac : option policyStore;                 (* nil, or the store behind it *)
  KmAuthzPolicy : gmap Z Authorization;        (* map_of_authz_policy *)
  authzOnce : bool;
  addressDone : bool;                          (* addressRespOnce has run *)
  authzDone : bool;                            (* authzRespOnce has run *)
  c_ack : option DeltaRequest;
  sent : list DeltaRequest;                    (* what the stream was sent *)
  handled : list DeltaResponse                 (* what the registered handlers were called with *)
}.
Definition set_processor x c := mkController x (c_Rbac c) (KmAuthzPolicy c) (authzOnce c) (addressDone c)
  (authzDone c) (c_ack c) (sent c) (handled c).
Definition set_rbac x c := mkController (c_Processor c) x (KmAuthzPolicy c) (authzOnce c) (addressDone c)
  (authzDone c) (c_ack c) (sent c) (handled c).
Definition set_authz x c := mkController (c_Processor c) (c_Rbac c) x (authzOnce c) (addressDone c)
  (authzDone c) (c_ack c) (sent c) (handled c).
Definition set_authzOnce x c := mkController (c_Processor c) (c_Rbac c) (KmAuthzPolicy c) x (addressDone c)
  (authzDone c) (c_ack c) (sent c) (handled c).
Definition set_addressDone x c := mkController (c_Processor c) (c_Rbac c) (KmAuthzPolicy c) (authzOnce c) x
  (authzDone c) (c_ack c) (sent c) (handled c).
Definition set_authzDone x c := mkController (c_Processor c) (c_Rbac c) (KmAuthzPolicy c) (authzOnce c) (addressDone c)
  x (c_ack c) (sent c) (handled c).
Definition set_ack x c := mkController (c_Processor c) (c_Rbac c) (KmAuthzPolicy c) (authzOnce c) (addressDone c)
  (authzDone c) x (sent c) (handled c).
Definition add_sent x c := mkController (c_Processor c) (c_Rbac c) (KmAuthzPolicy c) (authzOnce c) (addressDone c)
  (authzDone c) (c_ack c) (sent c ++ [x]) (handled c).
Definition add_handled x c := mkController (c_Processor c) (c_Rbac c) (KmAuthzPolicy c) (authzOnce c) (addressDone c)
  (authzDone c) (c_ack c) (sent c) (handled c ++ [x]).

Definition proc_l := mkLens c_Processor set_processor.
Definition authz_l := mkLens KmAuthzPolicy set_authz.

(** ** [maps_v2] *)
Section maps.
Context `{Env}.
Definition AuthorizationUpdate (policyKey : Z) (value : Authorization) : Go Controller (option error) :=
  zoom authz_l (map_Update policyKey value).
Definition AuthorizationLookup (key : Z) : Go Controller (Authorization + error) :=
  zoom authz_l (map_Lookup key).
Definition AuthorizationDelete (key : Z) : Go Controller (option error) :=
  zoom authz_l (map_Delete key).
End maps.

Section controller.
Context `{Env} `{Persist} `{Dns}.
Abbreviation C := (Go Controller).

(** ** Authorization policies *)
Definition handleRemovedAuthzPolicyDuringRestart (policyCache : gset string) : C unit :=
  m ← gets (fun c => GetStrToNum (hashName (c_Processor c)));
  l ← range (map_to_list m);
  fold_each l tt (fun _ '(str, num) =>
    if decide (str ∈ policyCache) then mret tt
    else
      v ← AuthorizationLookup num;
      match v with
      | inl _ => AuthorizationDelete num;; mret tt
      | inr _ => mret tt
      end).

Definition update_rbac (ps : policyStore) : C unit := modify (set_rbac (Some ps)).

(** One resource of the response; an error ends the handler. *)
Definition handleAuthorization (resource : Authorization + error) : C (ctl error) :=
  match resource with
  | inr _ => mret Continue
  | inl authPolicy =>
      rbac ← gets c_Rbac;
      match rbac with
      | None => mret Continue
      | Some ps =>
          let '(ps, err) := updatePolicy (Some authPolicy) ps in
          match err with
          | Some err => mret (Return err)
          | None =>
              update_rbac ps;;
              num ← zoom proc_l (hash (Authorization_ResourceName authPolicy));
              err ← AuthorizationUpdate num authPolicy;
              match err with
              | Some _ => mret (Return (Errorf "AuthorizationUpdate failed"))
              | None => mret Continue
              end
          end
      end
  end.
Definition handleRemovedAuthorization (resourceName : string) : C unit :=
  rbac ← gets c_Rbac;
  match rbac with
  | None => mret tt
  | Some ps =>
      update_rbac (removePolicy resourceName ps);;
      num ← zoom proc_l (hash resourceName);
      AuthorizationDelete num;;
      mret tt
  end.
Definition handleAuthorizationTypeResponse (resources : list (Authorization + error)) (removed : list string)
    : C (option error) :=
  rbac ← gets c_Rbac;
  match rbac with
  | None => mret (Some (Errorf "rbac module uninitialized"))
  | Some _ =>
      err ← for_each resources handleAuthorization;
      match err with
      | Some err => mret (Some err)
      | None =>
          fold_each removed tt (fun _ name => handleRemovedAuthorization name);;
          ran ← gets authzOnce;
          (if ran : bool then mret tt
           else
             modify (set_authzOnce true);;
             rbac ← gets c_Rbac;
             handleRemovedAuthzPolicyDuringRestart (from_option getAllPolicies ∅ rbac));;
          mret None
      end
  end.

(** ** The stream *)
Context (node : string).   (* config.GetConfig(...).GetNode() *)

Definition newDeltaRequest (typeUrl : string) (names : list string) (initialResourceVersions : gset string) : DeltaRequest :=
  mkRequest typeUrl names initialResourceVersions "" node.
Definition newAckRequest (rsp : DeltaResponse) : DeltaRequest :=
  mkRequest (rs_TypeUrl rsp) [] ∅ (rs_Nonce rsp) node.

(** The handlers registered for a type, of other components, are told. *)
Definition processWorkloadResponse (rsp : DeltaResponse) : C unit :=
  modify (set_ack (Some (newAckRequest rsp)));;
  (if decide (rs_TypeUrl rsp = AddressType) then
     zoom proc_l (handleAddressTypeResponse (address_resources (rs_Resources rsp)) (rs_RemovedResources rsp));;
     modify (set_addressDone true)
   else if decide (rs_TypeUrl rsp = AuthorizationType) then
     handleAuthorizationTypeResponse (authorization_resources (rs_Resources rsp)) (rs_RemovedResources rsp);;
     modify (set_authzDone true)
   else mret tt);;
  modify (add_handled rsp).

(** [recv] is what the stream delivers, [send_err] whether it takes the
    acknowledgement; [req] of the processor is never set. *)
Definition HandleWorkloadStream (recv : DeltaResponse + error) (send_err : option error) : C (option error) :=
  match recv with
  | inr _ => mret (Some (Errorf "stream recv failed"))
  | inl rspDelta =>
      processWorkloadResponse rspDelta;;
      match send_err with
      | Some _ => mret (Some (Errorf "stream send ack failed"))
      | None =>
          ack ← gets c_ack;
          (match ack with Some a => modify (add_sent a) | None => mret tt end);;
          mret None
      end
  end.

(** The names of the cached services and workloads. *)
Definition cached_names : C (gset string) :=
  services ← zoom proc_l (zoom svc_l ServiceCache.List);
  workloads ← zoom proc_l (zoom wl_l WorkloadCache.List);
  world (fun w => list_to_set ((fun q => Service_ResourceName (get_svc q w)) <$> services) ∪
                  list_to_set ((fun q => Workload_ResourceName (get_wl q w)) <$> workloads)).
Definition WorkloadStreamCreateAndSend (create_err send1_err send2_err : option error) : C (option error) :=
  match create_err with
  | Some _ => mret (Some (Errorf "DeltaAggregatedResources failed"))
  | None =>
      names ← cached_names;
      match send1_err with
      | Some _ => mret (Some (Errorf "send request failed"))
      | None =>
          modify (add_sent (newDeltaRequest AddressType [] names));;
          rbac ← gets c_Rbac;
          match send2_err with
          | Some _ => mret (Some (Errorf "authorization subscribe failed"))
          | None =>
              modify (add_sent (newDeltaRequest AuthorizationType [] (from_option getAllPolicies ∅ rbac)));;
              mret None
          end
      end
  end.

(** The entry of the daemon itself, [podIp] the parsed [INSTANCE_IP] unless it
    is empty. *)
Definition PrepareDNSProxy (EnableDNSProxy : bool) (podIp : option bytes) : Go Processor (option error) :=
  if negb EnableDNSProxy then zoom bpf_l (BackendDelete 0)
  else
    match podIp with
    | None => mret (Some (Errorf "ip of kmesh daemon is not set"))
    | Some ip =>
        zoom bpf_l (BackendUpdate 0 (mkBackendValue (CopyIpByteFromSlice zero_ip ip) 0 (replicate MaxServiceNum 0) zero_ip 0))
    end.
End controller.

(** ** The policies in user space and in the kernel *)
Definition policies (c : Controller) : gmap string Authorization := from_option byKey ∅ (c_Rbac c).
Definition numbers (c : Controller) : gmap string Z := strToNum (hashName (c_Processor c)).

Section sync.
Context `{E : Env} `{!DeletesSucceed E} `{Persist} `{Dns}.

(** What [Hash] does to the table, as seen by the other names. *)
Record hashes (key : string) (num : Z) (h h' : HashName) : Prop := {
  ha_wf : hash_wf h';
  ha_settled : settled h' key num;
  ha_mono : forall k n, settled h k n -> settled h' k n;
  ha_names : forall k n, strToNum h !! k = Some n -> strToNum h' !! k = Some n;
  ha_top : strToNum h' !! key = Some num \/ (num = MaxUint32 /\ strToNum h' !! key = None);
  ha_cases : forall k n, strToNum h' !! k = Some n ->
    (k = key /\ n = num) \/ (k <> key /\ n <> num /\ strToNum h !! k = Some n)
}.

Lemma wp_controller_hash p key (Q : Z -> World -> Processor -> Prop) w P :
  hash_wf (hashName P) ->
  (forall num h, hashes key num (hashName P) h -> Q num w (set_hashName h P)) ->
  wp p (hash key) Q w P.
Proof.
  intros Hwf HQ. unfold wp, hash. destruct (Hash_spec key (hashName P) Hwf) as (n & h & HE & Hwf' & Hr & Hlow & Htop & Hoth & Hkeep).
  rewrite HE. apply HQ. split; [done|exact (settled_Hash _ _ _ _ Hwf HE)|
    intros k m Hs; exact (settled_mono _ _ _ _ _ _ Hwf Hs HE)|done| |].
  - destruct (decide (n = MaxUint32)) as [->|Hn]; [right|left; apply Hlow; lia]. destruct (Htop eq_refl) as [-> Hnone]. done.
  - intros k m Hk. destruct (decide (k = key)) as [->|Hne].
    + left. split; [done|]. destruct (decide (n = MaxUint32)) as [->|Hn].
      * destruct (Htop eq_refl) as [-> Hnone]. congruence.
      * rewrite Hlow in Hk by lia. congruence.
    + right. split; [done|]. split; [|by apply Hoth]. intros ->.
      destruct (decide (n = MaxUint32)) as [->|Hn].
      * apply Hwf' in Hk. apply (hw_range _ Hwf') in Hk. lia.
      * pose proof (Hlow ltac:(lia)) as Hkey. apply Hwf' in Hkey, Hk. congruence.
Qed.

(** Every stored policy is in the kernel under its number, unless the name
    table had no number for it; the kernel has entries only under numbers in
    use; and, once the entries of an earlier run are cleaned up, only those of
    stored policies. *)
Record authz_inv (c : Controller) : Prop := {
  az_wf : hash_wf (hashName (c_Processor c));
  az_present : forall key p num, policies c !! key = Some p -> numbers c !! key = Some num -> KmAuthzPolicy c !! num = Some p;
  az_unnamed : forall key p, policies c !! key = Some p -> numbers c !! key = None ->
    settled (hashName (c_Processor c)) key MaxUint32;
  az_used : forall num p, KmAuthzPolicy c !! num = Some p -> num = MaxUint32 \/ exists key, numbers c !! key = Some num;
  az_clean : authzOnce c = true -> forall key num, numbers c !! key = Some num -> policies c !! key = None ->
    KmAuthzPolicy c !! num = None
}.

Lemma authz_inv_update c key num h p ps :
  authz_inv c -> hashes key num (hashName (c_Processor c)) h -> byKey ps = <[key := p]> (policies c) ->
  authz_inv (set_authz (<[num := p]> (KmAuthzPolicy c)) (set_processor (set_hashName h (c_Processor c)) (set_rbac (Some ps) c))).
Proof.
  intros [Hwf Hpre Hun Hus Hcl] Hh Hk. unfold policies, numbers in *.
  split; unfold policies, numbers; cbn [c_Processor c_Rbac KmAuthzPolicy authzOnce set_authz set_processor set_rbac
    set_hashName hashName from_option]; try setoid_rewrite Hk.
  - apply Hh.
  - intros k q n Hq Hn. destruct (ha_cases _ _ _ _ Hh _ _ Hn) as [[-> ->]|(Hne & Hnn & Hold)].
    + rewrite lookup_insert_eq in Hq. rewrite lookup_insert_eq. done.
    + rewrite lookup_insert_ne in Hq by done. rewrite lookup_insert_ne by done. eauto.
  - intros k q Hq Hn. destruct (decide (k = key)) as [->|Hne].
    + destruct (ha_top _ _ _ _ Hh) as [?|[-> _]]; [congruence|apply Hh].
    + rewrite lookup_insert_ne in Hq by done. apply (ha_mono _ _ _ _ Hh). eapply Hun; [exact Hq|].
      destruct (strToNum (hashName (c_Processor c)) !! k) eqn:Eo; [|done]. apply (ha_names _ _ _ _ Hh) in Eo. congruence.
  - intros n q Hq. destruct (decide (n = num)) as [->|Hne].
    + destruct (ha_top _ _ _ _ Hh) as [?|[-> _]]; [right; eauto|by left].
    + rewrite lookup_insert_ne in Hq by done. destruct (Hus _ _ Hq) as [->|[k Hk']]; [by left|right].
      exists k. by apply (ha_names _ _ _ _ Hh).
  - intros Ho k n Hn Hnone. destruct (ha_cases _ _ _ _ Hh _ _ Hn) as [[-> ->]|(Hne & Hnn & Hold)].
    + rewrite lookup_insert_eq in Hnone. done.
    + rewrite lookup_insert_ne in Hnone by done. rewrite lookup_insert_ne by done. eauto.
Qed.

Lemma authz_inv_remove c key num h ps :
  authz_inv c -> hashes key num (hashName (c_Processor c)) h -> byKey ps = delete key (policies c) ->
  authz_inv (set_authz (delete num (KmAuthzPolicy c)) (set_processor (set_hashName h (c_Processor c)) (set_rbac (Some ps) c))).
Proof.
  intros [Hwf Hpre Hun Hus Hcl] Hh Hk. unfold policies, numbers in *.
  split; unfold policies, numbers; cbn [c_Processor c_Rbac KmAuthzPolicy authzOnce set_authz set_processor set_rbac
    set_hashName hashName from_option]; try setoid_rewrite Hk.
  - apply Hh.
  - intros k q n [Hne Hq]%lookup_delete_Some Hn. destruct (ha_cases _ _ _ _ Hh _ _ Hn) as [[-> ->]|(_ & Hnn & Hold)]; [done|].
    rewrite lookup_delete_ne by done. eauto.
  - intros k q [Hne Hq]%lookup_delete_Some Hn. apply (ha_mono _ _ _ _ Hh). eapply Hun; [exact Hq|].
    destruct (strToNum (hashName (c_Processor c)) !! k) eqn:Eo; [|done]. apply (ha_names _ _ _ _ Hh) in Eo. congruence.
  - intros n q [Hne Hq]%lookup_delete_Some. destruct (Hus _ _ Hq) as [->|[k Hk']]; [by left|right]. exists k. by apply (ha_names _ _ _ _ Hh).
  - intros Ho k n Hn Hnone. destruct (ha_cases _ _ _ _ Hh _ _ Hn) as [[-> ->]|(Hne & Hnn & Hold)].
    + apply lookup_delete_eq.
    + rewrite lookup_delete_ne in Hnone by done. rewrite lookup_delete_ne by done. eauto.
Qed.

Lemma updatePolicy_done p ps ps' :
  updatePolicy (Some p) ps = (ps', None) -> scope_ok p /\ byKey ps' = <[Authorization_ResourceName p := p]> (byKey ps).
Proof.
  unfold updatePolicy, scope_ok. repeat case_decide; intros [= <-]; (split; [tauto|done]).
Qed.

(** The operations of a response on the policies. *)
Definition resource_ops (resources : list (Authorization + error)) : list store_op :=
  omap (fun r => match r with inl p => Some (OpUpdate p) | inr _ => None end) resources.
Definition response_ops (resources : list (Authorization + error)) (removed : list string) : list store_op :=
  resource_ops resources ++ (OpRemove <$> removed).

(** The invariant, with the operations still to do. *)
Definition authz_todo (once : bool) (goal : gmap string Authorization) (ops : list store_op) (c : Controller) : Prop :=
  authz_inv c /\ is_Some (c_Rbac c) /\ authzOnce c = once /\ foldl live_step (policies c) ops = goal.

Lemma wp_handleAuthorization once goal r l w c :
  authz_todo once goal (resource_ops (r :: l)) c ->
  wp false (handleAuthorization r)
    (fun c' _ c => match c' with Continue => authz_todo once goal (resource_ops l) c | Break => False | Return _ => True end) w c.
Proof.
  intros (Hinv & [ps Hps] & Ho & Hgoal). unfold handleAuthorization. destruct r as [p|e].
  2:{ apply wp_ret. by split_and!. }
  wp_steps. rewrite Hps. destruct (updatePolicy (Some p) ps) as [ps' err] eqn:Eu. destruct err as [err|]; [by apply wp_ret|].
  apply updatePolicy_done in Eu as [Hs Hk]. unfold update_rbac. wp_steps. apply wp_controller_hash; [apply Hinv|]. intros num h Hh. wp_step. unfold AuthorizationUpdate.
  wp_step. apply wp_map_Update; [intros _|intros e _; by apply wp_ret]. apply wp_ret.
  assert (Hpol : policies c = byKey ps) by (unfold policies; by rewrite Hps).
  split; [|split; [by eexists|split; [done|]]].
  - apply (authz_inv_update c (Authorization_ResourceName p) num h p ps' Hinv Hh). by rewrite Hpol.
  - unfold policies. cbn [set_authz lset authz_l set_processor proc_l set_rbac c_Rbac from_option]. rewrite Hk, <-Hgoal, Hpol.
    cbn [resource_ops omap list_omap foldl live_step]. by rewrite decide_True.
Qed.

Lemma wp_AuthorizationDelete num (Q : option error -> World -> Controller -> Prop) w c :
  (forall err, Q err (tick w) (set_authz (delete num (KmAuthzPolicy c)) c)) -> wp false (AuthorizationDelete num) Q w c.
Proof.
  intros HQ. unfold AuthorizationDelete. apply wp_zoom, wp_map_Delete.
  - intros _ _. apply HQ.
  - intros _ Hn. cbn [lset authz_l lget] in *. rewrite <-(delete_id _ _ Hn) at 1. apply HQ.
  - intros e He. by rewrite deletes_succeed in He.
Qed.

Lemma wp_handleRemovedAuthorization once goal name l w c :
  authz_todo once goal (OpRemove <$> name :: l) c ->
  wp false (handleRemovedAuthorization name) (fun _ _ c => authz_todo once goal (OpRemove <$> l) c) w c.
Proof.
  intros (Hinv & [ps Hps] & Ho & Hgoal). unfold handleRemovedAuthorization. wp_steps. rewrite Hps. unfold update_rbac. wp_steps.
  apply wp_controller_hash; [apply Hinv|]. intros num h Hh. wp_step. apply wp_AuthorizationDelete. intros err. apply wp_ret.
  assert (Hpol : policies c = byKey ps) by (unfold policies; by rewrite Hps).
  pose proof (byKey_step ps (OpRemove name)) as Hk. cbn [store_step live_step] in Hk.
  split; [|split; [by eexists|split; [done|]]].
  - apply (authz_inv_remove c name num h (removePolicy name ps) Hinv Hh). by rewrite Hpol.
  - unfold policies. cbn [set_authz lset authz_l set_processor proc_l set_rbac c_Rbac from_option]. by rewrite Hk, <-Hgoal, Hpol.
Qed.

(** Cleaning up after a restart: entries of names still to visit may be stale. *)
Definition cleaning (c0 : Controller) (l : list (string * Z)) (c : Controller) : Prop :=
  (exists m, c = set_authz m c0 /\ m ⊆ KmAuthzPolicy c0) /\
  (forall key p num, policies c0 !! key = Some p -> numbers c0 !! key = Some num -> KmAuthzPolicy c !! num = Some p) /\
  (forall key num, numbers c0 !! key = Some num -> policies c0 !! key = None -> (key, num) ∉ l -> KmAuthzPolicy c !! num = None).

Lemma wp_cleanup c0 w :
  hash_wf (hashName (c_Processor c0)) ->
  (forall key p num, policies c0 !! key = Some p -> numbers c0 !! key = Some num -> KmAuthzPolicy c0 !! num = Some p) ->
  wp false (handleRemovedAuthzPolicyDuringRestart (dom (policies c0)))
    (fun _ _ c => cleaning c0 [] c) w c0.
Proof.
  intros Hwf Hpresent. unfold handleRemovedAuthzPolicyDuringRestart. wp_steps.
  match goal with Hp : ?l' ≡ₚ _ |- _ => rename l' into l; rename Hp into Hl end.
  assert (Hin : forall key num, (key, num) ∈ l <-> numbers c0 !! key = Some num).
  { intros key num. rewrite Hl, elem_of_map_to_list. done. }
  assert (Hall : forall x, x ∈ l -> numbers c0 !! x.1 = Some x.2) by (intros [k n]; apply Hin).
  apply (wp_fold_each false (fun l' _ _ c => (forall x, x ∈ l' -> numbers c0 !! x.1 = Some x.2) /\ cleaning c0 l' c)).
  - split; [done|]. split; [by exists (KmAuthzPolicy c0); destruct c0|]. split; [exact Hpresent|].
    intros key num Hn _ []. by apply Hin.
  - intros [str num] l' _ w1 c [Hl' (Hc & Hpre & Hdone)].
    assert (Hnum : numbers c0 !! str = Some num) by (apply (Hl' (str, num)); left).
    assert (Hrest : forall x, x ∈ l' -> numbers c0 !! x.1 = Some x.2) by (intros; apply Hl'; by right).
    assert (Hskip : (policies c0 !! str = None -> KmAuthzPolicy c !! num = None) -> cleaning c0 l' c).
    { intros Hs. split_and!; [done|done|]. intros k n Hn Hp Hnin.
      destruct (decide ((k, n) = (str, num))) as [[= -> ->]|Hne]; [by apply Hs|].
      apply (Hdone k n Hn Hp). by intros [?|?]%elem_of_cons. }
    case_decide as Hd.
    + apply wp_ret. split; [done|]. apply Hskip. intros Hn. by apply elem_of_dom in Hd as [? Hd]; rewrite Hn in Hd.
    + apply not_elem_of_dom in Hd. wp_step. unfold AuthorizationLookup. wp_step. apply wp_map_Lookup.
      * intros v Hv. wp_step. apply wp_AuthorizationDelete. intros err. apply wp_ret. split; [done|].
        destruct Hc as (m & -> & Hm). split_and!.
        { exists (delete num m). split; [done|]. etrans; [apply delete_subseteq|done]. }
        { intros k p n Hp Hn. cbn. rewrite lookup_delete_ne; [by eapply (Hpre k)|]. intros <-.
          apply Hwf in Hn, Hnum. congruence. }
        { intros k n Hn Hp Hnin. cbn. destruct (decide (n = num)) as [->|Hne]; [apply lookup_delete_eq|].
          rewrite lookup_delete_ne by done. apply (Hdone k n Hn Hp). by intros [[= _ ?]|?]%elem_of_cons. }
      * intros Hv. apply wp_ret. split; [done|].
        replace (lset authz_l (lget authz_l c) c) with c by (by destruct c). apply Hskip. intros _. exact Hv.
  - intros _ w1 c [_ Hc]. done.
Qed.

Lemma cleaning_inv c0 c : authz_inv c0 -> cleaning (set_authzOnce true c0) [] c -> authz_inv c.
Proof.
  intros [Hwf _ Hun Hus _] ((m & -> & Hm) & Hpre & Hdone). split; [exact Hwf|exact Hpre|exact Hun| |].
  - intros num p Hp. apply (Hus num p). by eapply lookup_weaken.
  - intros _ key num Hn Hp. apply (Hdone key num Hn Hp). apply not_elem_of_nil.
Qed.

(** C26: the handler of a response with authorization policies always returns.
    Whatever policies and map entries an earlier run has left and whatever
    updates the kernel refuses, if it reports success then the policies held
    are those before the response with its updates and removals applied, and
    the kernel map, which the XDP programs read, holds under the number of
    each name exactly the policy of that name that user space holds. *)
Theorem authorization_response_syncs resources removed w c :
  authz_inv c -> is_Some (c_Rbac c) ->
  exists err w' c', handleAuthorizationTypeResponse resources removed w c = Done (err, w', c') /\
    (err = None ->
     policies c' = foldl live_step (policies c) (response_ops resources removed) /\
     (forall key num, numbers c' !! key = Some num -> KmAuthzPolicy c' !! num = policies c' !! key) /\
     authz_inv c').
Proof.
  intros Hinv Hsome. apply wp_inv. unfold handleAuthorizationTypeResponse. wp_step. wp_step. destruct Hsome as [ps Hps]. rewrite Hps.
  set (goal := foldl live_step (policies c) (response_ops resources removed)).
  set (mid := foldl live_step (policies c) (resource_ops resources)).
  wp_step.
  apply (wp_for_each false (fun l _ c1 => authz_todo (authzOnce c) mid (resource_ops l) c1)).
  { split_and!; [done|by eexists|done|done]. }
  { intros r l w1 c1 Ht. eapply wp_mono; [by apply wp_handleAuthorization|]. cbn beta. intros [| |e] w2 c2 Hc; [done|done|by apply wp_ret]. }
  intros w1 c1 (Hinv1 & Hs1 & Ho1 & Hp1). cbn [resource_ops omap list_omap foldl] in Hp1. wp_step.
  apply (wp_fold_each false (fun l _ _ c2 => authz_todo (authzOnce c) goal (OpRemove <$> l) c2)).
  { split_and!; [done|done|done|]. rewrite Hp1. unfold goal, response_ops. by rewrite foldl_app. }
  { intros name l _ w2 c2 Ht. by apply wp_handleRemovedAuthorization. }
  intros _ w2 c2 (Hinv2 & [ps2 Hps2] & Ho2 & Hp2). cbn [fmap list_fmap foldl] in Hp2. do 3 wp_step. rewrite Ho2.
  assert (Hfin : forall c3, authz_inv c3 -> authzOnce c3 = true -> policies c3 = goal ->
    (None : option error) = None -> policies c3 = goal /\
     (forall key num, numbers c3 !! key = Some num -> KmAuthzPolicy c3 !! num = policies c3 !! key) /\ authz_inv c3).
  { intros c3 Hinv3 Ho3 Hp3 _. split_and!; [done| |done]. intros key num Hn. destruct (policies c3 !! key) as [q|] eqn:Eq.
    - by eapply (az_present _ Hinv3).
    - by eapply (az_clean _ Hinv3). }
  destruct (authzOnce c) eqn:Eo.
  - wp_steps. by apply Hfin.
  - wp_steps. unfold set_authzOnce at 1. cbn [c_Rbac]. rewrite Hps2. cbn [from_option].
    replace (getAllPolicies ps2) with (dom (policies (set_authzOnce true c2))) by (unfold policies; cbn; by rewrite Hps2).
    eapply wp_mono; [apply (wp_cleanup (set_authzOnce true c2)); [apply Hinv2|apply Hinv2]|].
    cbn beta. intros _ w3 c3 Hc. apply wp_ret.
    pose proof (cleaning_inv c2 c3 Hinv2 Hc) as Hinv3. destruct Hc as ((m & -> & _) & _). by apply Hfin.
Qed.
End sync.

(** *** Witness: the first response after a restart, with a stale entry *)
Definition restart_hash : HashName := mkHashName {[9 := "default/old"]} {["default/old" := 9]} None.
Definition demo_controller : Controller :=
  mkController (NewProcessor restart_hash (NewCache ∅ ∅ ∅ ∅ ∅) "n1" true) (Some newPolicyStore)
    {[9 := mkAuthorization "old" "default" Scope_GLOBAL Action_DENY []]} false false false None [] [].

Lemma demo_controller_inv : @authz_inv PersistOk demo_controller.
Proof.
  split.
  - split.
    + intros s n. cbn. rewrite !lookup_singleton_Some. naive_solver.
    + intros n s. cbn. intros [<- _]%lookup_singleton_Some. unfold MaxUint32. lia.
  - intros key p num. cbn. by rewrite lookup_empty.
  - intros key p. cbn. by rewrite lookup_empty.
  - intros num p. cbn. intros [<- _]%lookup_singleton_Some. right. by exists "default/old".
  - done.
Qed.
Lemma authorization_response_syncs_witness :
  exists err w' c', @handleAuthorizationTypeResponse EnvOk PersistOk [inl demo_deny] [] (mkWorld 0 ∅ ∅) demo_controller
      = Done (err, w', c') /\
    (err = None ->
     policies c' = foldl live_step (policies demo_controller) (response_ops [inl demo_deny] []) /\
     (forall key num, numbers c' !! key = Some num -> KmAuthzPolicy c' !! num = policies c' !! key) /\
     @authz_inv PersistOk c').
Proof.
  apply (@authorization_response_syncs EnvOk _ PersistOk [inl demo_deny] [] (mkWorld 0 ∅ ∅) demo_controller).
  - apply demo_controller_inv.
  - by eexists.
Defined.
