(* ===== verification/AdsApi.v ===== *)
(** * Messages of kernel-native mode

    The kmesh messages of [api/{core,cluster,endpoint,listener,filter,route}]
    that the daemon keeps and writes to the BPF maps, and the fields it reads
    of the Envoy messages they are made from.  Conventions as in [Api]: an
    enumeration is a [Z] with named values, a nil message or wrapper is
    [None], a repeated field is nil exactly when it is empty. *)
From S2P Require Import Prelude.

(** ** [google.protobuf.Any] *)
Record Any : Type := mkAny { type_url : string; any_value : bytes }.
#[export] Instance Any_eq_dec : EqDecision Any.
Proof. solve_decision. Defined.
#[export] Instance Any_countable : Countable Any.
Proof.
  apply (inj_countable' (fun a => (type_url a, any_value a)) (fun '(t, v) => mkAny t v)).
  by intros [].
Defined.

(** ** Envoy messages *)
Definition SocketAddress_TCP : Z := 0.
Record SocketAddressV3 : Type := mkSocketAddressV3 {
  sa3_protocol : Z;
  sa3_address : string;
  sa3_port_value : Z
}.
Inductive AddressV3 : Type :=
  | Address_SocketAddress (a : option SocketAddressV3)
  | Address_Other.

Record LbEndpointV3 : Type := mkLbEndpointV3 {
  le3_health_status : Z;
  le3_address : option AddressV3;       (* GetEndpoint().GetAddress() *)
  le3_load_balancing_weight : option Z
}.
Record LocalityLbEndpointsV3 : Type := mkLocalityLbEndpointsV3 {
  ll3_load_balancing_weight : option Z;
  ll3_priority : Z;
  ll3_lb_endpoints : list LbEndpointV3
}.
Record ClusterLoadAssignmentV3 : Type := mkClusterLoadAssignmentV3 {
  cla3_cluster_name : string;
  cla3_endpoints : list LocalityLbEndpointsV3
}.

Definition Cluster_STATIC : Z := 0.
Definition Cluster_STRICT_DNS : Z := 1.
Definition Cluster_LOGICAL_DNS : Z := 2.
Definition Cluster_EDS : Z := 3.
Definition Cluster_ORIGINAL_DST : Z := 4.
Record ThresholdsV3 : Type := mkThresholdsV3 {
  th3_priority : Z;
  th3_max_connections : option Z;
  th3_max_pending_requests : option Z;
  th3_max_requests : option Z;
  th3_max_retries : option Z;
  th3_max_connection_pools : option Z
}.
Record ClusterV3 : Type := mkClusterV3 {
  c3_name : string;
  c3_type : Z;
  c3_connect_timeout_seconds : Z;
  c3_lb_policy : Z;
  c3_circuit_breakers : option (list ThresholdsV3);
  c3_load_assignment : option ClusterLoadAssignmentV3;
  c3_dns_refresh_rate : Z               (* nanoseconds *)
}.

Record CidrRangeV3 : Type := mkCidrRangeV3 { cr3_address_prefix : string; cr3_prefix_len : option Z }.
Record FilterChainMatchV3 : Type := mkFilterChainMatchV3 {
  fm3_destination_port : option Z;
  fm3_transport_protocol : string;
  fm3_application_protocols : list string;
  fm3_prefix_ranges : list CidrRangeV3
}.
Inductive FilterConfigV3 : Type :=
  | Filter_TypedConfig (a : Any)
  | Filter_ConfigDiscovery
  | Filter_ConfigNone.
Record FilterV3 : Type := mkFilterV3 { f3_name : string; f3_config_type : FilterConfigV3 }.
Record FilterChainV3 : Type := mkFilterChainV3 {
  fc3_name : string;
  fc3_filter_chain_match : option FilterChainMatchV3;
  fc3_filters : list FilterV3
}.
Record ListenerV3 : Type := mkListenerV3 {
  l3_name : string;
  l3_address : option AddressV3;
  l3_filter_chains : list FilterChainV3
}.

Inductive TcpClusterSpecifierV3 : Type :=
  | TcpProxy_Cluster3 (c : string)
  | TcpProxy_WeightedClusters3 (l : list (string * Z))
  | TcpProxy_ClusterNone3.
Record TcpProxyV3 : Type := mkTcpProxyV3 {
  tp3_stat_prefix : string;
  tp3_cluster_specifier : TcpClusterSpecifierV3;
  tp3_max_connect_attempts : option Z
}.

Inductive StringMatcherV3 : Type :=
  | StringMatcher_Exact (s : string)
  | StringMatcher_Prefix (s : string)
  | StringMatcher_Other.
Inductive HeaderMatchSpecifierV3 : Type :=
  | HeaderMatcher_PrefixMatch3 (s : string)
  | HeaderMatcher_ExactMatch3 (s : string)
  | HeaderMatcher_StringMatch3 (m : StringMatcherV3)
  | HeaderMatcher_Other3.
Record HeaderMatcherV3 : Type := mkHeaderMatcherV3 {
  hm3_name : string;
  hm3_specifier : HeaderMatchSpecifierV3
}.
Record RouteMatchV3 : Type := mkRouteMatchV3 {
  rm3_prefix : string;
  rm3_case_sensitive : option bool;
  rm3_headers : list HeaderMatcherV3
}.
Inductive RouteClusterSpecifierV3 : Type :=
  | RouteAction_Cluster3 (c : string)
  | RouteAction_WeightedClusters3 (l : list (string * option Z))
  | RouteAction_ClusterOther3.
Inductive HashPolicyV3 : Type :=
  | HashPolicy_Header3 (header_name : string)
  | HashPolicy_Other3.
Record RouteActionV3 : Type := mkRouteActionV3 {
  ra3_cluster_specifier : RouteClusterSpecifierV3;
  ra3_timeout_seconds : Z;
  ra3_num_retries : option Z;
  ra3_hash_policy : list HashPolicyV3
}.
Inductive ActionV3 : Type :=
  | Route_Route3 (a : option RouteActionV3)
  | Route_FilterAction3
  | Route_Redirect3
  | Route_ActionOther3.
Record RouteV3 : Type := mkRouteV3 {
  r3_name : string;
  r3_match : option RouteMatchV3;
  r3_action : ActionV3
}.
Record VirtualHostV3 : Type := mkVirtualHostV3 {
  vh3_name : string;
  vh3_domains : list string;
  vh3_routes : list RouteV3
}.
Record RouteConfigurationV3 : Type := mkRouteConfigurationV3 {
  rc3_name : string;
  rc3_virtual_hosts : list VirtualHostV3
}.
Record HttpConnectionManagerV3 : Type := mkHttpConnectionManagerV3 {
  hcm3_route_config : option RouteConfigurationV3;
  hcm3_rds_route_config_name : option string
}.

Record DiscoveryResponse : Type := mkDiscoveryResponse {
  dr_type_url : string;
  dr_version_info : string;
  dr_resources : list Any;
  dr_nonce : string
}.
Record DiscoveryRequest : Type := mkDiscoveryRequest {
  dq_type_url : string;
  dq_version_info : string;
  dq_resource_names : list string;
  dq_response_nonce : string
}.

(** ** What the protobuf and hash libraries compute

    The decoders of [anypb.UnmarshalTo], the text of [Any.String] and
    [xxhash.Sum64String] are outside the repository. *)
Class Wire : Type := {
  any_String : Any -> string;
  to_Cluster : Any -> option ClusterV3;
  to_ClusterLoadAssignment : Any -> option ClusterLoadAssignmentV3;
  to_Listener : Any -> option ListenerV3;
  to_RouteConfiguration : Any -> option RouteConfigurationV3;
  to_TcpProxy : Any -> option TcpProxyV3;
  to_HttpConnectionManager : Any -> option HttpConnectionManagerV3;
  xxhash_Sum64String : string -> Z
}.

(** ** kmesh messages: [api/core/{base,address}.proto] *)
Definition ApiStatus_NONE : Z := 0.
Definition ApiStatus_DELETE : Z := 1.
Definition ApiStatus_UPDATE : Z := 2.
Definition ApiStatus_UNCHANGED : Z := 3.
Definition ApiStatus_ALL : Z := 4.
Definition ApiStatus_WAITING : Z := 5.

Record SocketAddress : Type := mkSocketAddress {
  sa_protocol : Z;
  sa_port : Z;
  sa_ipv4 : Z
}.
#[export] Instance SocketAddress_eq_dec : EqDecision SocketAddress.
Proof. solve_decision. Defined.
#[export] Instance SocketAddress_countable : Countable SocketAddress.
Proof.
  apply (inj_countable' (fun a => (sa_protocol a, sa_port a, sa_ipv4 a))
    (fun '(p, q, i) => mkSocketAddress p q i)).
  by intros [].
Defined.
Record CidrRange : Type := mkCidrRange { cr_address_prefix : string; cr_prefix_len : Z }.

(** ** [api/cluster], [api/endpoint] *)
Definition LbPolicy_ROUND_ROBIN : Z := 0.
Definition LbPolicy_MAGLEV : Z := 5.
Record CircuitBreakers : Type := mkCircuitBreakers {
  cb_priority : Z;
  cb_max_connections : Z;
  cb_max_pending_requests : Z;
  cb_max_requests : Z;
  cb_max_retries : Z;
  cb_max_connection_pools : Z
}.
(** An endpoint is its address; [newApiClusterLoadAssignment] keeps none
    without. *)
Record Endpoint : Type := mkEndpoint { ep_address : SocketAddress }.
Record LocalityLbEndpoints : Type := mkLocalityLbEndpoints {
  ll_lb_endpoints : list Endpoint;
  ll_load_balancing_weight : Z;
  ll_priority : Z
}.
Record ClusterLoadAssignment : Type := mkClusterLoadAssignment {
  cla_cluster_name : string;
  cla_endpoints : list LocalityLbEndpoints
}.
Record Cluster : Type := mkCluster {
  c_api_status : Z;
  c_name : string;
  c_id : Z;
  c_connect_timeout : Z;
  c_lb_policy : Z;
  c_load_assignment : option ClusterLoadAssignment;
  c_circuit_breakers : option CircuitBreakers
}.
Definition Cluster_zero : Cluster := mkCluster 0 "" 0 0 0 None None.

(** ** [api/route] *)
Inductive HeaderMatchSpecifier : Type :=
  | HeaderMatcher_ExactMatch (s : string)
  | HeaderMatcher_PrefixMatch (s : string).
Record HeaderMatcher : Type := mkHeaderMatcher {
  hm_name : string;
  hm_specifier : option HeaderMatchSpecifier
}.
Record RouteMatch : Type := mkRouteMatch {
  rm_prefix : string;
  rm_case_sensitive : bool;
  rm_headers : list HeaderMatcher
}.
Inductive ClusterSpecifier : Type :=
  | RouteAction_Cluster (c : string)
  | RouteAction_WeightedClusters (l : list (string * Z)).
Record RouteAction : Type := mkRouteAction {
  ra_cluster_specifier : option ClusterSpecifier;
  ra_timeout : Z;
  ra_num_retries : option Z;            (* RetryPolicy *)
  ra_hash_policy : list string          (* the header names *)
}.
Record Route : Type := mkRoute {
  r_name : string;
  r_match : RouteMatch;
  r_route : option RouteAction
}.
(** [routes] is a list of pointers; one may be nil. *)
Record VirtualHost : Type := mkVirtualHost {
  vh_name : string;
  vh_domains : list string;
  vh_routes : list (option Route)
}.
Record RouteConfiguration : Type := mkRouteConfiguration {
  rc_api_status : Z;
  rc_name : string;
  rc_virtual_hosts : list VirtualHost
}.
Definition RouteConfiguration_zero : RouteConfiguration := mkRouteConfiguration 0 "" [].

(** ** [api/listener], [api/filter] *)
Inductive TcpClusterSpecifier : Type :=
  | TcpProxy_Cluster (c : string)
  | TcpProxy_WeightedClusters (l : list (string * Z)).
Record TcpProxy : Type := mkTcpProxy {
  tp_stat_prefix : string;
  tp_cluster_specifier : option TcpClusterSpecifier;
  tp_max_connect_attempts : Z
}.
Inductive RouteSpecifier : Type :=
  | HttpConnectionManager_RouteConfigName (s : string)
  | HttpConnectionManager_RouteConfig (rc : RouteConfiguration).
Inductive ConfigType : Type :=
  | Filter_TcpProxy (t : TcpProxy)
  | Filter_HttpConnectionManager (h : option RouteSpecifier).
Record Filter : Type := mkFilter { f_name : string; f_config_type : ConfigType }.
Record FilterChainMatch : Type := mkFilterChainMatch {
  fm_prefix_ranges : list CidrRange;
  fm_destination_port : Z;
  fm_transport_protocol : string;
  fm_application_protocols : list string
}.
Definition FilterChainMatch_zero : FilterChainMatch := mkFilterChainMatch [] 0 "" [].
Record FilterChain : Type := mkFilterChain {
  fc_filter_chain_match : FilterChainMatch;
  fc_filters : list Filter;
  fc_name : string
}.
Record Listener : Type := mkListener {
  l_api_status : Z;
  l_name : string;
  l_address : option SocketAddress;
  l_filter_chains : list FilterChain
}.

(** ** In-place changes of the status *)
Definition c_set_status (status : Z) (c : Cluster) : Cluster :=
  mkCluster status (c_name c) (c_id c) (c_connect_timeout c) (c_lb_policy c)
    (c_load_assignment c) (c_circuit_breakers c).
Definition c_set_id (id : Z) (c : Cluster) : Cluster :=
  mkCluster (c_api_status c) (c_name c) id (c_connect_timeout c) (c_lb_policy c)
    (c_load_assignment c) (c_circuit_breakers c).
Definition c_set_assignment (la : option ClusterLoadAssignment) (c : Cluster) : Cluster :=
  mkCluster (c_api_status c) (c_name c) (c_id c) (c_connect_timeout c) (c_lb_policy c)
    la (c_circuit_breakers c).
Definition l_set_status (status : Z) (l : Listener) : Listener :=
  mkListener status (l_name l) (l_address l) (l_filter_chains l).
Definition rc_set_status (status : Z) (r : RouteConfiguration) : RouteConfiguration :=
  mkRouteConfiguration status (rc_name r) (rc_virtual_hosts r).
