(* ===== verification/AdsConvert.v ===== *)
(** * From Envoy messages to kmesh messages: [pkg/controller/ads/cache.go],
    [pkg/controller/ads/convert_filter.go]

    The pure part of the ads cache.  A conversion that reads an address can
    crash ([nets.ConvertIpToUint32] on an IPv6 text), so those return an
    outcome.  The theorems characterise the results declaratively: which
    endpoints of an assignment are kept, in which order the routes of a
    virtual host are tried, which filters of a listener survive and which
    route names are subscribed to. *)
From S2P Require Import Prelude GoNet Nets AdsApi.

(** ** Addresses and assignments *)
Definition newApiSocketAddress (address : option AddressV3) : outcome (option SocketAddress) :=
  match address with
  | None => Done None
  | Some Address_Other => Done None
  | Some (Address_SocketAddress None) => Done None
  | Some (Address_SocketAddress (Some addr)) =>
      if decide (sa3_protocol addr <> SocketAddress_TCP) then Done None
      else
        ipv4 ← ConvertIpToUint32 (sa3_address addr);
        Done (Some (mkSocketAddress (sa3_protocol addr)
                      (ConvertPortToBigEndian (sa3_port_value addr)) ipv4))
  end.

(** The loops over the endpoints of a locality and over the localities. *)
Fixpoint newApiEndpoints (l : list LbEndpointV3) : outcome (list Endpoint) :=
  match l with
  | [] => Done []
  | endpoint :: l =>
      address ← newApiSocketAddress (le3_address endpoint);
      rest ← newApiEndpoints l;
      match address with
      | None => Done rest
      | Some a => if decide (sa_ipv4 a = 0) then Done rest else Done (mkEndpoint a :: rest)
      end
  end.

Fixpoint newApiLocalities (l : list LocalityLbEndpointsV3) : outcome (list LocalityLbEndpoints) :=
  match l with
  | [] => Done []
  | localityLb :: l =>
      eps ← newApiEndpoints (ll3_lb_endpoints localityLb);
      rest ← newApiLocalities l;
      Done (mkLocalityLbEndpoints eps (default 0 (ll3_load_balancing_weight localityLb))
              (ll3_priority localityLb) :: rest)
  end.

(** Of a nil assignment the getters give the empty one. *)
Definition newApiClusterLoadAssignment (loadAssignment : option ClusterLoadAssignmentV3)
    : outcome ClusterLoadAssignment :=
  let name := from_option cla3_cluster_name "" loadAssignment in
  eps ← newApiLocalities (from_option cla3_endpoints [] loadAssignment);
  Done (mkClusterLoadAssignment name eps).

Definition newApiCircuitBreakers (cb : option (list ThresholdsV3)) : option CircuitBreakers :=
  match cb with
  | None => None
  | Some [] => None
  | Some (t :: _) =>
      Some (mkCircuitBreakers (th3_priority t) (default 0 (th3_max_connections t))
              (default 0 (th3_max_pending_requests t)) (default 0 (th3_max_requests t))
              (default 0 (th3_max_retries t)) (default 0 (th3_max_connection_pools t)))
  end.

(** The message that [CreateApiClusterByCds] and [UpdateApiClusterIfExists]
    both build. *)
Definition newApiCluster (status : Z) (cluster : ClusterV3) : outcome Cluster :=
  let apiCluster :=
    mkCluster status (c3_name cluster) 0 (u32 (c3_connect_timeout_seconds cluster))
      (c3_lb_policy cluster) None (newApiCircuitBreakers (c3_circuit_breakers cluster)) in
  if decide (c3_type cluster <> Cluster_EDS) then
    la ← newApiClusterLoadAssignment (c3_load_assignment cluster);
    Done (c_set_assignment (Some la) apiCluster)
  else Done apiCluster.

(** ** Routes *)
Definition parseStringMatch (m : StringMatcherV3) : option HeaderMatchSpecifier :=
  match m with
  | StringMatcher_Exact s => Some (HeaderMatcher_ExactMatch s)
  | StringMatcher_Prefix s => Some (HeaderMatcher_PrefixMatch s)
  | StringMatcher_Other => None
  end.

Definition newApiHeader (header : HeaderMatcherV3) : option HeaderMatcher :=
  match hm3_specifier header with
  | HeaderMatcher_PrefixMatch3 s =>
      Some (mkHeaderMatcher (hm3_name header) (Some (HeaderMatcher_PrefixMatch s)))
  | HeaderMatcher_ExactMatch3 s =>
      Some (mkHeaderMatcher (hm3_name header) (Some (HeaderMatcher_ExactMatch s)))
  | HeaderMatcher_StringMatch3 m =>
      Some (mkHeaderMatcher (hm3_name header) (parseStringMatch m))
  | HeaderMatcher_Other3 => None
  end.

Definition newApiRouteMatch (match_ : option RouteMatchV3) : RouteMatch :=
  match match_ with
  | None => mkRouteMatch "" false []
  | Some m =>
      mkRouteMatch (rm3_prefix m) (default false (rm3_case_sensitive m))
        (omap newApiHeader (rm3_headers m))
  end.

Definition newApiRouteAction (action : option RouteActionV3) : option RouteAction :=
  match action with
  | None => Some (mkRouteAction None 0 None [])
  | Some a =>
      let hash_policy :=
        omap (fun hp => match hp with
                        | HashPolicy_Header3 name => Some name
                        | HashPolicy_Other3 => None
                        end) (ra3_hash_policy a) in
      let mk spec :=
        Some (mkRouteAction (Some spec) (u32 (ra3_timeout_seconds a))
                (Some (default 0 (ra3_num_retries a))) hash_policy) in
      match ra3_cluster_specifier a with
      | RouteAction_Cluster3 c => mk (RouteAction_Cluster c)
      | RouteAction_WeightedClusters3 l =>
          mk (RouteAction_WeightedClusters ((fun '(name, weight) => (name, default 0 weight)) <$> l))
      | RouteAction_ClusterOther3 => None
      end
  end.

Definition newApiRoute (route : RouteV3) : option Route :=
  let apiMatch := newApiRouteMatch (r3_match route) in
  match r3_action route with
  | Route_Route3 a => Some (mkRoute (r3_name route) apiMatch (newApiRouteAction a))
  | Route_FilterAction3 | Route_Redirect3 => Some (mkRoute (r3_name route) apiMatch None)
  | Route_ActionOther3 => None
  end.

(** The loop over the routes of a host: those kept so far and the default. *)
Fixpoint split_default (routes : list RouteV3) (defaultRoute : option Route) (acc : list Route)
    : list Route * option Route :=
  match routes with
  | [] => (acc, defaultRoute)
  | route :: routes =>
      match newApiRoute route with
      | None => split_default routes defaultRoute acc
      | Some apiRoute =>
          if decide (rm_headers (r_match apiRoute) = [] /\ defaultRoute = None) then
            split_default routes (Some apiRoute) acc
          else split_default routes defaultRoute (acc ++ [apiRoute])
      end
  end.

Definition newApiVirtualHost (host : VirtualHostV3) : VirtualHost :=
  let '(routes, defaultRoute) := split_default (vh3_routes host) None [] in
  mkVirtualHost (vh3_name host) (vh3_domains host) ((Some <$> routes) ++ [defaultRoute]).

Definition newApiRouteConfiguration (routeConfig : option RouteConfigurationV3)
    : option RouteConfiguration :=
  match routeConfig with
  | None => None
  | Some rc =>
      Some (mkRouteConfiguration ApiStatus_NONE (rc3_name rc)
              (newApiVirtualHost <$> rc3_virtual_hosts rc))
  end.

(** ** Filters *)
Definition newFilterTcpProxy (p : TcpProxyV3) : TcpProxy :=
  let spec :=
    match tp3_cluster_specifier p with
    | TcpProxy_Cluster3 c => Some (TcpProxy_Cluster c)
    | TcpProxy_WeightedClusters3 l => Some (TcpProxy_WeightedClusters l)
    | TcpProxy_ClusterNone3 => None
    end in
  mkTcpProxy (tp3_stat_prefix p) spec (default 0 (tp3_max_connect_attempts p)).

Definition newApiFilterChainMatch (match_ : option FilterChainMatchV3) : FilterChainMatch :=
  match match_ with
  | None => FilterChainMatch_zero
  | Some m =>
      mkFilterChainMatch
        ((fun r => mkCidrRange (cr3_address_prefix r) (default 0 (cr3_prefix_len r)))
           <$> fm3_prefix_ranges m)
        (default 0 (fm3_destination_port m)) (fm3_transport_protocol m)
        (fm3_application_protocols m)
  end.

Definition wellknown_TCPProxy : string := "envoy.filters.network.tcp_proxy".
Definition wellknown_HTTPConnectionManager : string :=
  "envoy.filters.network.http_connection_manager".

Section filters.
Context `{Wire}.

Definition newApiFilterAndRouteName (filter : FilterV3) : option Filter * string :=
  match f3_config_type filter with
  | Filter_TypedConfig cfg =>
      if decide (f3_name filter = wellknown_TCPProxy) then
        match to_TcpProxy cfg with
        | None => (None, "")
        | Some filterTcp =>
            (Some (mkFilter (f3_name filter) (Filter_TcpProxy (newFilterTcpProxy filterTcp))), "")
        end
      else if decide (f3_name filter = wellknown_HTTPConnectionManager) then
        match to_HttpConnectionManager cfg with
        | None => (None, "")
        | Some filterHttp =>
            let mk spec := Some (mkFilter (f3_name filter) (Filter_HttpConnectionManager spec)) in
            match newApiRouteConfiguration (hcm3_route_config filterHttp) with
            | Some rc => (mk (Some (HttpConnectionManager_RouteConfig rc)), "")
            | None =>
                match hcm3_rds_route_config_name filterHttp with
                | Some routeName =>
                    (mk (Some (HttpConnectionManager_RouteConfigName routeName)), routeName)
                | None => (mk None, "")
                end
            end
        end
      else (None, "")
  | Filter_ConfigDiscovery | Filter_ConfigNone => (None, "")
  end.

(** The loops of [CreateApiListenerByLds]: the chains and the route names in the
    order in which they are appended. *)
Definition newApiFilterChain (fc : FilterChainV3) : FilterChain :=
  mkFilterChain (newApiFilterChainMatch (fc3_filter_chain_match fc))
    (omap (fun f => (newApiFilterAndRouteName f).1) (fc3_filters fc)) (fc3_name fc).

Definition chain_route_names (fc : FilterChainV3) : list string :=
  filter (fun name => name <> "") ((fun f => (newApiFilterAndRouteName f).2) <$> fc3_filters fc).

Definition newApiListener (status : Z) (listener : ListenerV3)
    : outcome (Listener * list string) :=
  address ← newApiSocketAddress (l3_address listener);
  Done (mkListener status (l3_name listener) address
          (newApiFilterChain <$> l3_filter_chains listener),
        l3_filter_chains listener ≫= chain_route_names).
End filters.

(** ** What the conversions keep *)

(** The IPv4 bytes and the port of a TCP endpoint whose address is the text of
    an IPv4 address; [v6_text] is the case in which [To4] has no answer. *)
Definition v6_text (e : LbEndpointV3) : Prop :=
  exists addr b, le3_address e = Some (Address_SocketAddress (Some addr)) /\
    sa3_protocol addr = SocketAddress_TCP /\ ParseIP (sa3_address addr) = Some b /\ To4 b = None.

Definition v4_endpoint (e : LbEndpointV3) : option (bytes * Z) :=
  match le3_address e with
  | Some (Address_SocketAddress (Some addr)) =>
      if decide (sa3_protocol addr = SocketAddress_TCP) then
        b ← ParseIP (sa3_address addr) ≫= To4;
        if decide (b = [0; 0; 0; 0]) then None else Some (b, sa3_port_value addr)
      else None
  | _ => None
  end.

(** What [ConvertIpToUint32] says of a text. *)
Lemma ConvertIpToUint32_cases ip :
  (exists b, ParseIP ip ≫= To4 = Some b /\ ConvertIpToUint32 ip = Done (le_uint b) /\
     length b = 4%nat /\ Forall is_u8 b) \/
  (ParseIP ip = None /\ ConvertIpToUint32 ip = Done 0) \/
  (exists b why, ParseIP ip = Some b /\ To4 b = None /\ ConvertIpToUint32 ip = Panic why).
Proof.
  unfold ConvertIpToUint32. destruct (ParseIP ip) as [b|] eqn:Ep; cbn; [|by auto].
  apply ParseIP_wf in Ep as [Hl Hu]. rewrite decide_True by done.
  destruct (To4 b) as [b4|] eqn:E4; [left; exists b4|by eauto 8].
  unfold To4 in E4. rewrite Hl, decide_False in E4 by done. destruct (is4In6 b); [|done]. injection E4 as <-.
  rewrite firstn_all2 by (rewrite length_drop; lia).
  split_and!; [done|done|rewrite length_drop; lia|by apply Forall_drop].
Qed.

Lemma le_uint_zero b : length b = 4%nat -> Forall is_u8 b -> le_uint b = 0 <-> b = [0; 0; 0; 0].
Proof.
  intros Hl Hu. destruct b as [|a [|b [|c [|d [|]]]]]; try done. rewrite !Forall_cons in Hu.
  unfold is_u8 in Hu.
  destruct Hu as (? & ? & ? & ? & _). cbn. split; [intros Hz|by intros [= -> -> -> ->]].
  assert (a = 0 /\ b = 0 /\ c = 0 /\ d = 0) as (-> & -> & -> & ->) by lia. done.
Qed.

Definition to_endpoint (a : bytes * Z) : Endpoint :=
  mkEndpoint (mkSocketAddress SocketAddress_TCP (ConvertPortToBigEndian a.2) (le_uint a.1)).

(** One endpoint. *)
Lemma newApiSocketAddress_cases e :
  (v6_text e /\ exists why, newApiSocketAddress (le3_address e) = Panic why) \/
  (~ v6_text e /\ exists a, newApiSocketAddress (le3_address e) = Done a /\
     match a with
     | Some a => if decide (sa_ipv4 a = 0) then v4_endpoint e = None
                 else exists x, v4_endpoint e = Some x /\ mkEndpoint a = to_endpoint x
     | None => v4_endpoint e = None
     end).
Proof.
  unfold v6_text, v4_endpoint, newApiSocketAddress.
  destruct (le3_address e) as [[[addr|]|]|]; try (right; split; [naive_solver|by eexists]).
  destruct (decide (sa3_protocol addr = SocketAddress_TCP)) as [Hp|Hp];
    [rewrite decide_False by naive_solver
    |rewrite decide_True by done; right; split; [naive_solver|by eexists]].
  destruct (ConvertIpToUint32_cases (sa3_address addr))
    as [(b & Hb & -> & Hl & Hu)|[[Hno ->]|(b & why & Hb & Hb4 & ->)]]; cbn.
  - right. split.
    { intros (? & b' & [= <-] & _ & Hb' & H4). rewrite Hb' in Hb. cbn in Hb. congruence. }
    eexists. split; [done|]. cbn. rewrite Hb. cbn.
    destruct (decide (le_uint b = 0)) as [Hz|Hz]; rewrite (le_uint_zero b Hl Hu) in Hz.
    + by rewrite decide_True.
    + rewrite decide_False by done. rewrite Hp. by eexists.
  - right. split; [naive_solver|]. eexists. split; [done|]. cbn. by rewrite Hno.
  - left. split; [by exists addr, b|by eexists].
Qed.

Lemma newApiEndpoints_spec l :
  match newApiEndpoints l with
  | Done eps => Forall (fun e => ~ v6_text e) l /\ eps = to_endpoint <$> omap v4_endpoint l
  | Panic _ => Exists v6_text l
  | NoFuel => False
  end.
Proof.
  induction l as [|e l IH]; cbn; [by split; [constructor|]|].
  destruct (newApiSocketAddress_cases e) as [[Hv [why ->]]|[Hv (a & -> & Ha)]]; cbn; [by left|].
  destruct (newApiEndpoints l) as [eps|why|]; cbn; [|by right|done]. destruct IH as [Hn ->].
  destruct a as [a|]; [|by rewrite Ha; auto using Forall_cons_2].
  case_decide; [by rewrite Ha; auto using Forall_cons_2|]. destruct Ha as (x & -> & ->). auto using Forall_cons_2.
Qed.

Definition to_locality (l : LocalityLbEndpointsV3) : LocalityLbEndpoints :=
  mkLocalityLbEndpoints (to_endpoint <$> omap v4_endpoint (ll3_lb_endpoints l))
    (default 0 (ll3_load_balancing_weight l)) (ll3_priority l).

Lemma newApiLocalities_spec l :
  match newApiLocalities l with
  | Done ls => Forall (fun x => ~ Exists v6_text (ll3_lb_endpoints x)) l /\ ls = to_locality <$> l
  | Panic _ => Exists (fun x => Exists v6_text (ll3_lb_endpoints x)) l
  | NoFuel => False
  end.
Proof.
  induction l as [|x l IH]; cbn; [by split; [constructor|]|].
  pose proof (newApiEndpoints_spec (ll3_lb_endpoints x)) as He.
  destruct (newApiEndpoints _) as [eps|why|]; cbn; [|by left|done]. destruct He as [Hn ->].
  destruct (newApiLocalities l) as [ls|why|]; cbn; [|by right|done]. destruct IH as [Hn' ->].
  split; [|done]. apply Forall_cons_2; [|done]. by apply Forall_not_Exists.
Qed.

(** An assignment is converted locality by locality: of the endpoints
    exactly those with a TCP socket address that is the text of an IPv4
    address other than 0.0.0.0 are kept, in their order, with the address and
    the port as the kernel reads them.  The conversion has no result, the
    process crashes, exactly when some TCP endpoint has the text of an IPv6
    address. *)
Theorem newApiClusterLoadAssignment_spec la :
  match newApiClusterLoadAssignment (Some la) with
  | Done a =>
      Forall (fun x => ~ Exists v6_text (ll3_lb_endpoints x)) (cla3_endpoints la) /\
      a = mkClusterLoadAssignment (cla3_cluster_name la) (to_locality <$> cla3_endpoints la)
  | Panic _ => Exists (fun x => Exists v6_text (ll3_lb_endpoints x)) (cla3_endpoints la)
  | NoFuel => False
  end.
Proof.
  unfold newApiClusterLoadAssignment. cbn. pose proof (newApiLocalities_spec (cla3_endpoints la)) as Hl.
  destruct (newApiLocalities _) as [ls|why|]; cbn; [|done|done]. by destruct Hl as [Hn ->].
Qed.

(** ** The order of the routes of a host *)
Definition headerless (r : Route) : bool := bool_decide (rm_headers (r_match r) = []).

Lemma split_default_some routes d acc :
  split_default routes (Some d) acc = (acc ++ omap newApiRoute routes, Some d).
Proof.
  revert acc. induction routes as [|r routes IH]; intros acc; cbn; [by rewrite app_nil_r|].
  destruct (newApiRoute r) as [a|]; [|apply IH]. rewrite decide_False by (by intros [_ ?]).
  by rewrite IH, <-app_assoc.
Qed.

Lemma split_default_none routes acc :
  split_default routes None acc =
  match list_find headerless (omap newApiRoute routes) with
  | Some (i, d) => (acc ++ delete i (omap newApiRoute routes), Some d)
  | None => (acc ++ omap newApiRoute routes, None)
  end.
Proof.
  revert acc. induction routes as [|r routes IH]; intros acc; cbn; [by rewrite app_nil_r|].
  destruct (newApiRoute r) as [a|]; [|apply IH]. cbn.
  destruct (decide (headerless a)) as [Hd|Hd]; unfold headerless in Hd; rewrite bool_decide_spec in Hd.
  - rewrite decide_True by done. by rewrite split_default_some.
  - rewrite decide_False by naive_solver. rewrite IH.
    destruct (list_find headerless (omap newApiRoute routes)) as [[i d]|]; cbn; by rewrite <-app_assoc.
Qed.

(** The routes of a virtual host are tried in the order of the
    configuration, except that the first one without header conditions goes
    to the end, where it is the default; when no route is without header
    conditions the list ends in a nil route. *)
Theorem newApiVirtualHost_order host :
  let routes := omap newApiRoute (vh3_routes host) in
  newApiVirtualHost host =
    mkVirtualHost (vh3_name host) (vh3_domains host)
      match list_find headerless routes with
      | Some (i, d) => (Some <$> delete i routes) ++ [Some d]
      | None => (Some <$> routes) ++ [None]
      end.
Proof.
  cbn zeta. unfold newApiVirtualHost. rewrite split_default_none.
  by destruct (list_find _ _) as [[i d]|].
Qed.
