(* ===== verification/AdsCaches.v ===== *)
(** * The caches of kernel-native mode: [pkg/cache/v2/{cluster,listener,route}.go]

    Each cache holds the messages with a status that says what is still to be
    done for them, the hashes of the resources they came from, and, next to
    them here, the kernel maps that [Flush] writes through
    [pkg/cache/v2/maps].  A message in a cache is reached through its cache
    entry only, so the entries are values and a change through the pointer is
    an update of the entry. *)
From S2P Require Import Prelude Api Runtime Murmur3 Maglev HashName AdsApi.

(** ** The environment of the caches

    What the deserialization library accepts (a message with a string that
    does not fit a slot, for one, is refused), and the answers of the kernel to
    the system calls of [maglev] and to [BatchDelete]: [Some k] when it fails
    after [k] deletions.  [sa_String] is the text of an address. *)
Class Library : Type := {
  cluster_fits : Cluster -> bool;
  listener_fits : Listener -> bool;
  route_fits : RouteConfiguration -> bool;
  maglev_reply : nat -> KernelReply;
  batch_fails : nat -> option nat;
  sa_String : SocketAddress -> string
}.

(** ** [deserial_update_elem] and [deserial_delete_elem] seen from the caller

    An update first deletes the old value of the key; when it fails the key is
    left without a value.  The deletion of a key that has none fails. *)
Section maps.
Context `{Env} {K V : Type} `{Countable K}.

Definition deserial_update_elem (fits : V -> bool) (k : K) (v : V)
    : Go (gmap K V) (option error) := fun w m =>
  if fits v then
    match upd_err (clock w) (size (<[k := v]> m)) with
    | Some _ => Done (Some (Errorf "deserial_update_elem failed"), tick w, delete k m)
    | None => Done (None, tick w, <[k := v]> m)
    end
  else Done (Some (Errorf "deserial_update_elem failed"), tick w, delete k m).

Definition deserial_delete_elem (k : K) : Go (gmap K V) (option error) := map_Delete k.

(** [deserial_lookup_all_elems] has no answer for an empty map. *)
Definition deserial_lookup_all_elems : Go (gmap K V) (list V + error) :=
  m ← gets id;
  if decide (m = ∅) then mret (inr (Errorf "deserial_lookup_all_elems failed"))
  else l ← range (map_to_list m); mret (inl (snd <$> l)).
End maps.

(** A message whose wire form is empty is not written, with success: the key
    of a listener without an address or with the address 0.0.0.0:0. *)
Definition listener_key (a : option SocketAddress) : option SocketAddress :=
  match a with
  | Some a => if decide (a = mkSocketAddress 0 0 0) then None else Some a
  | None => None
  end.

Inductive StartType : Type := Normal | Restart | Update.
#[export] Instance StartType_eq_dec : EqDecision StartType.
Proof. solve_decision. Defined.

(** ** Cluster cache *)
Record ClusterCache : Type := mkClusterCache {
  apiClusterCache : gmap string Cluster;
  cc_resourceHash : gmap string (Z * Z);      (* cds, eds *)
  cc_hashName : HashName;
  clusterStatsMap : option (gmap (Z * Z) Z);  (* (netns cookie, cluster id) *)
  map_of_cluster : gmap string Cluster;
  cc_maglev : MaglevState
}.

Definition set_apiClusterCache f (c : ClusterCache) : ClusterCache :=
  mkClusterCache (f (apiClusterCache c)) (cc_resourceHash c) (cc_hashName c)
    (clusterStatsMap c) (map_of_cluster c) (cc_maglev c).
Definition set_cc_resourceHash f (c : ClusterCache) : ClusterCache :=
  mkClusterCache (apiClusterCache c) (f (cc_resourceHash c)) (cc_hashName c)
    (clusterStatsMap c) (map_of_cluster c) (cc_maglev c).
Definition set_cc_hashName f (c : ClusterCache) : ClusterCache :=
  mkClusterCache (apiClusterCache c) (cc_resourceHash c) (f (cc_hashName c))
    (clusterStatsMap c) (map_of_cluster c) (cc_maglev c).
Definition set_clusterStatsMap f (c : ClusterCache) : ClusterCache :=
  mkClusterCache (apiClusterCache c) (cc_resourceHash c) (cc_hashName c)
    (f (clusterStatsMap c)) (map_of_cluster c) (cc_maglev c).
Definition l_map_of_cluster : lens ClusterCache (gmap string Cluster) :=
  mkLens map_of_cluster (fun m c =>
    mkClusterCache (apiClusterCache c) (cc_resourceHash c) (cc_hashName c)
      (clusterStatsMap c) m (cc_maglev c)).
Definition set_cc_maglev f (c : ClusterCache) : ClusterCache :=
  mkClusterCache (apiClusterCache c) (cc_resourceHash c) (cc_hashName c)
    (clusterStatsMap c) (map_of_cluster c) (f (cc_maglev c)).

Section cluster_cache.
Context `{E : Env} `{Persist} `{Library}.

Definition ClusterUpdate (key : string) (value : Cluster) : Go ClusterCache (option error) :=
  zoom l_map_of_cluster (deserial_update_elem cluster_fits key value).
Definition ClusterDelete (key : string) : Go ClusterCache (option error) :=
  zoom l_map_of_cluster (deserial_delete_elem key).
Definition ClusterLookupAll : Go ClusterCache (list Cluster + error) :=
  zoom l_map_of_cluster deserial_lookup_all_elems.

(** The state already holds the kernel maps; the cache proper starts empty, or
    on a restart with an entry for every cluster of the kernel map. *)
Definition NewClusterCache (start : StartType) (hashName : HashName)
    (stats : option (gmap (Z * Z) Z)) : Go ClusterCache unit :=
  modify (fun c => mkClusterCache ∅ ∅ hashName stats (map_of_cluster c) (cc_maglev c));;
  if decide (start = Restart) then
    r ← ClusterLookupAll;
    match r with
    | inr _ => mret tt
    | inl Clusters =>
        modify (set_apiClusterCache (fun m =>
          foldl (fun m c => <[c_name c := Cluster_zero]> m) m Clusters))
    end
  else mret tt.

Definition cc_GetResourceNames (c : ClusterCache) : gset string := dom (apiClusterCache c).
Definition GetApiCluster (key : string) (c : ClusterCache) : option Cluster :=
  apiClusterCache c !! key.
Definition SetApiCluster (key : string) (value : Cluster) : ClusterCache -> ClusterCache :=
  set_apiClusterCache (<[key := value]>).
Definition cc_UpdateApiClusterIfExists (key : string) (value : Cluster) (c : ClusterCache)
    : bool * ClusterCache :=
  match apiClusterCache c !! key with
  | None => (false, c)
  | Some _ => (true, set_apiClusterCache (<[key := value]>) c)
  end.
Definition cc_UpdateApiClusterStatus (key : string) (status : Z) : ClusterCache -> ClusterCache :=
  set_apiClusterCache (alter (c_set_status status) key).
Definition cc_GetApiClusterStatus (key : string) (c : ClusterCache) : Z :=
  from_option c_api_status ApiStatus_NONE (apiClusterCache c !! key).

Definition hashes (key : string) (c : ClusterCache) : Z * Z :=
  default (0, 0) (cc_resourceHash c !! key).
Definition GetCdsHash (key : string) (c : ClusterCache) : Z := (hashes key c).1.
Definition SetCdsHash (key : string) (value : Z) (c : ClusterCache) : ClusterCache :=
  set_cc_resourceHash (<[key := (value, (hashes key c).2)]>) c.
Definition GetEdsHash (key : string) (c : ClusterCache) : Z := (hashes key c).2.
Definition SetEdsHash (key : string) (value : Z) (c : ClusterCache) : ClusterCache :=
  set_cc_resourceHash (<[key := ((hashes key c).1, value)]>) c.

(** [BatchDelete], which may stop early. *)
Definition BatchDelete (keys : list (Z * Z)) : Go ClusterCache unit := fun w c =>
  let n := match batch_fails (clock w) with Some k => k | None => length keys end in
  Done (tt, tick w,
        set_clusterStatsMap (fmap (fun m => foldl (fun m k => delete k m) m (take n keys))) c).

Definition clearClusterStats (clusterName : string) : Go ClusterCache unit :=
  s ← gets clusterStatsMap;
  match s with
  | None => mret tt
  | Some stats =>
      clusterId ← gets (fun c => StrToNum clusterName (cc_hashName c));
      entries ← range (map_to_list stats);
      let keysToDelete := filter (fun k => snd k = clusterId) (fst <$> entries) in
      if decide (keysToDelete = []) then mret tt else BatchDelete keysToDelete
  end.

(** The view of a cluster that [maglev.CreateLB] has. *)
Definition maglev_cluster (c : Cluster) : Maglev.Cluster (Endpoint := SocketAddress) :=
  {| cluster_name := c_name c;
     localityLbEndpoints :=
       from_option (fun la => (fun ll => ep_address <$> ll_lb_endpoints ll) <$> cla_endpoints la)
         [] (c_load_assignment c) |}.

Definition maglev_CreateLB (cluster : Cluster) : Go ClusterCache (option error) := fun w c =>
  match CreateLB sa_String (maglev_reply (clock w)) (Some (maglev_cluster cluster)) (cc_maglev c) with
  | Done (st, err) => Done (err, tick w, set_cc_maglev (fun _ => st) c)
  | Panic why => Panic why
  | NoFuel => NoFuel
  end.

(** Dropping a cluster after it has been deleted from the kernel map. *)
Definition cc_forget (name : string) : Go ClusterCache unit :=
  modify (set_apiClusterCache (delete name));;
  modify (set_cc_resourceHash (delete name));;
  modify (set_cc_hashName (HashName.Delete name)).

(** The body of the loop of [Flush]. *)
Definition cc_flush_one (name : string) (cluster : Cluster) : Go ClusterCache unit :=
  if decide (c_api_status cluster = ApiStatus_UPDATE) then
    id ← gets (fun c => StrToNum name (cc_hashName c));
    let cluster := c_set_id id cluster in
    modify (set_apiClusterCache (<[name := cluster]>));;
    err ← ClusterUpdate name cluster;
    (if decide (c_lb_policy cluster = LbPolicy_MAGLEV) then
       maglev_CreateLB cluster;; mret tt
     else mret tt);;
    if decide (err = None) then
      modify (set_apiClusterCache (<[name := c_set_status ApiStatus_NONE cluster]>))
    else mret tt
  else if decide (c_api_status cluster = ApiStatus_DELETE) then
    clearClusterStats name;;
    err ← ClusterDelete name;
    if decide (err = None) then cc_forget name else mret tt
  else mret tt.

Definition cc_Flush : Go ClusterCache unit :=
  names ← (m ← gets apiClusterCache; range (map_to_list m));
  fold_each names tt (fun _ '(name, _) =>
    c ← gets (fun c => apiClusterCache c !! name);
    match c with Some cluster => cc_flush_one name cluster | None => mret tt end).

Definition cc_Delete : Go ClusterCache unit :=
  names ← (m ← gets apiClusterCache; range (map_to_list m));
  fold_each names tt (fun _ '(name, _) =>
    c ← gets (fun c => apiClusterCache c !! name);
    match c with
    | Some cluster =>
        if decide (c_api_status cluster = ApiStatus_DELETE) then
          err ← ClusterDelete name;
          if decide (err = None) then cc_forget name else mret tt
        else mret tt
    | None => mret tt
    end).

Definition cc_Dump : Go ClusterCache (list Cluster) :=
  m ← gets apiClusterCache; l ← range (map_to_list m); mret (snd <$> l).
End cluster_cache.

(** ** Listener cache *)
Record ListenerCache : Type := mkListenerCache {
  apiListenerCache : gmap string Listener;
  lc_resourceHash : gmap string Z;
  map_of_listener : gmap SocketAddress Listener
}.
Definition set_apiListenerCache f (c : ListenerCache) : ListenerCache :=
  mkListenerCache (f (apiListenerCache c)) (lc_resourceHash c) (map_of_listener c).
Definition set_lc_resourceHash f (c : ListenerCache) : ListenerCache :=
  mkListenerCache (apiListenerCache c) (f (lc_resourceHash c)) (map_of_listener c).
Definition l_map_of_listener : lens ListenerCache (gmap SocketAddress Listener) :=
  mkLens map_of_listener (fun m c => mkListenerCache (apiListenerCache c) (lc_resourceHash c) m).

Section listener_cache.
Context `{E : Env} `{Library}.

Definition ListenerUpdate (key : option SocketAddress) (value : Listener)
    : Go ListenerCache (option error) :=
  match listener_key key with
  | None => mret None
  | Some k => zoom l_map_of_listener (deserial_update_elem listener_fits k value)
  end.
Definition ListenerDelete (key : option SocketAddress) : Go ListenerCache (option error) :=
  match listener_key key with
  | None => mret None
  | Some k => zoom l_map_of_listener (deserial_delete_elem k)
  end.
Definition ListenerLookupAll : Go ListenerCache (list Listener + error) :=
  zoom l_map_of_listener deserial_lookup_all_elems.

Definition NewListenerCache (start : StartType) : Go ListenerCache unit :=
  modify (fun c => mkListenerCache ∅ ∅ (map_of_listener c));;
  if decide (start = Restart) then
    r ← ListenerLookupAll;
    match r with
    | inr _ => mret tt
    | inl listeners =>
        modify (set_apiListenerCache (fun m =>
          foldl (fun m l => <[l_name l := mkListener ApiStatus_NONE "" (l_address l) []]> m)
            m listeners))
    end
  else mret tt.

Definition GetApiListener (key : string) (c : ListenerCache) : option Listener :=
  apiListenerCache c !! key.
Definition lc_GetResourceNames (c : ListenerCache) : gset string := dom (apiListenerCache c).
Definition SetApiListener (key : string) (value : Listener) : ListenerCache -> ListenerCache :=
  set_apiListenerCache (<[key := value]>).
Definition lc_UpdateApiListenerStatus (key : string) (status : Z)
    : ListenerCache -> ListenerCache :=
  set_apiListenerCache (alter (l_set_status status) key).
Definition DeleteApiListener (key : string) (c : ListenerCache) : ListenerCache :=
  set_lc_resourceHash (delete key) (set_apiListenerCache (delete key) c).
Definition GetLdsHash (key : string) (c : ListenerCache) : Z := default 0 (lc_resourceHash c !! key).
Definition AddOrUpdateLdsHash (key : string) (value : Z) : ListenerCache -> ListenerCache :=
  set_lc_resourceHash (<[key := value]>).

Definition lc_flush_one (name : string) (listener : Listener) : Go ListenerCache unit :=
  if decide (l_api_status listener = ApiStatus_UPDATE) then
    err ← ListenerUpdate (l_address listener) listener;
    if decide (err = None) then
      modify (set_apiListenerCache (<[name := l_set_status ApiStatus_NONE listener]>))
    else mret tt
  else if decide (l_api_status listener = ApiStatus_DELETE) then
    err ← ListenerDelete (l_address listener);
    if decide (err = None) then modify (DeleteApiListener name) else mret tt
  else mret tt.

Definition lc_Flush : Go ListenerCache unit :=
  names ← (m ← gets apiListenerCache; range (map_to_list m));
  fold_each names tt (fun _ '(name, _) =>
    c ← gets (fun c => apiListenerCache c !! name);
    match c with Some listener => lc_flush_one name listener | None => mret tt end).

Definition lc_Dump : Go ListenerCache (list Listener) :=
  m ← gets apiListenerCache; l ← range (map_to_list m); mret (snd <$> l).
End listener_cache.

(** ** Route cache *)
Record RouteConfigCache : Type := mkRouteConfigCache {
  apiRouteConfigCache : gmap string RouteConfiguration;
  rc_resourceHash : gmap string Z;
  map_of_router_config : gmap string RouteConfiguration
}.
Definition set_apiRouteConfigCache f (c : RouteConfigCache) : RouteConfigCache :=
  mkRouteConfigCache (f (apiRouteConfigCache c)) (rc_resourceHash c) (map_of_router_config c).
Definition set_rc_resourceHash f (c : RouteConfigCache) : RouteConfigCache :=
  mkRouteConfigCache (apiRouteConfigCache c) (f (rc_resourceHash c)) (map_of_router_config c).
Definition l_map_of_router_config : lens RouteConfigCache (gmap string RouteConfiguration) :=
  mkLens map_of_router_config (fun m c =>
    mkRouteConfigCache (apiRouteConfigCache c) (rc_resourceHash c) m).

Section route_cache.
Context `{E : Env} `{Library}.

Definition RouteConfigUpdate (key : string) (value : RouteConfiguration)
    : Go RouteConfigCache (option error) :=
  zoom l_map_of_router_config (deserial_update_elem route_fits key value).
Definition RouteConfigDelete (key : string) : Go RouteConfigCache (option error) :=
  zoom l_map_of_router_config (deserial_delete_elem key).
Definition RouteConfigLookupAll : Go RouteConfigCache (list RouteConfiguration + error) :=
  zoom l_map_of_router_config deserial_lookup_all_elems.

Definition NewRouteConfigCache (start : StartType) : Go RouteConfigCache unit :=
  modify (fun c => mkRouteConfigCache ∅ ∅ (map_of_router_config c));;
  if decide (start = Restart) then
    r ← RouteConfigLookupAll;
    match r with
    | inr _ => mret tt
    | inl routes =>
        modify (set_apiRouteConfigCache (fun m =>
          foldl (fun m r => <[rc_name r := RouteConfiguration_zero]> m) m routes))
    end
  else mret tt.

Definition SetApiRouteConfig (key : string) (value : RouteConfiguration)
    : RouteConfigCache -> RouteConfigCache :=
  set_apiRouteConfigCache (<[key := value]>).
Definition GetApiRouteConfig (key : string) (c : RouteConfigCache) : option RouteConfiguration :=
  apiRouteConfigCache c !! key.
Definition rc_GetResourceNames (c : RouteConfigCache) : gset string := dom (apiRouteConfigCache c).
Definition rc_UpdateApiRouteStatus (key : string) (status : Z)
    : RouteConfigCache -> RouteConfigCache :=
  set_apiRouteConfigCache (alter (rc_set_status status) key).
Definition GetRdsHash (key : string) (c : RouteConfigCache) : Z :=
  default 0 (rc_resourceHash c !! key).
Definition SetRdsHash (key : string) (value : Z) : RouteConfigCache -> RouteConfigCache :=
  set_rc_resourceHash (<[key := value]>).

Definition rc_flush_one (name : string) (route : RouteConfiguration) : Go RouteConfigCache unit :=
  if decide (rc_api_status route = ApiStatus_UPDATE) then
    if decide (rc_virtual_hosts route = []) then
      modify (set_apiRouteConfigCache (<[name := rc_set_status ApiStatus_NONE route]>))
    else
      err ← RouteConfigUpdate name route;
      if decide (err = None) then
        modify (set_apiRouteConfigCache (<[name := rc_set_status ApiStatus_NONE route]>))
      else mret tt
  else if decide (rc_api_status route = ApiStatus_DELETE) then
    err ← RouteConfigDelete name;
    if decide (err = None) then
      modify (set_apiRouteConfigCache (delete name));;
      modify (set_rc_resourceHash (delete name))
    else mret tt
  else mret tt.

Definition rc_Flush : Go RouteConfigCache unit :=
  names ← (m ← gets apiRouteConfigCache; range (map_to_list m));
  fold_each names tt (fun _ '(name, _) =>
    c ← gets (fun c => apiRouteConfigCache c !! name);
    match c with Some route => rc_flush_one name route | None => mret tt end).

Definition rc_Dump : Go RouteConfigCache (list RouteConfiguration) :=
  m ← gets apiRouteConfigCache; l ← range (map_to_list m); mret (snd <$> l).
End route_cache.
