(* ===== verification/AdsProcessor.v ===== *)
(** * Discovery responses of kernel-native mode: [pkg/controller/ads/ads_processor.go],
    [pkg/controller/ads/ads_controller.go], the stateful part of
    [pkg/controller/ads/cache.go]

    The processor turns CDS, EDS, LDS and RDS responses into entries of the
    three caches, flushes them to the kernel maps, and decides what to
    acknowledge and to subscribe to next. *)
From S2P Require Import Prelude Api Runtime Murmur3 Maglev HashName AdsApi AdsConvert AdsCaches.

Definition ClusterType : string := "type.googleapis.com/envoy.config.cluster.v3.Cluster".
Definition EndpointType : string :=
  "type.googleapis.com/envoy.config.endpoint.v3.ClusterLoadAssignment".
Definition ListenerType : string := "type.googleapis.com/envoy.config.listener.v3.Listener".
Definition RouteType : string := "type.googleapis.com/envoy.config.route.v3.RouteConfiguration".

(** Istio's [slices.EqualUnordered], used on lists without repetitions. *)
Class Slices : Type := {
  EqualUnordered : list string -> list string -> bool;
  EqualUnordered_spec a b : NoDup a -> NoDup b -> EqualUnordered a b = true <-> a ≡ₚ b
}.

(** ** State *)
Record AdsCache : Type := mkAdsCache {
  edsClusterNames : list string;
  routeNames : list string;
  ListenerCache_ : ListenerCache;
  ClusterCache_ : ClusterCache;
  RouteCache_ : RouteConfigCache
}.
Definition set_edsClusterNames f (c : AdsCache) : AdsCache :=
  mkAdsCache (f (edsClusterNames c)) (routeNames c) (ListenerCache_ c) (ClusterCache_ c) (RouteCache_ c).
Definition set_routeNames f (c : AdsCache) : AdsCache :=
  mkAdsCache (edsClusterNames c) (f (routeNames c)) (ListenerCache_ c) (ClusterCache_ c) (RouteCache_ c).
Definition l_ListenerCache : lens AdsCache ListenerCache :=
  mkLens ListenerCache_ (fun x c =>
    mkAdsCache (edsClusterNames c) (routeNames c) x (ClusterCache_ c) (RouteCache_ c)).
Definition l_ClusterCache : lens AdsCache ClusterCache :=
  mkLens ClusterCache_ (fun x c =>
    mkAdsCache (edsClusterNames c) (routeNames c) (ListenerCache_ c) x (RouteCache_ c)).
Definition l_RouteCache : lens AdsCache RouteConfigCache :=
  mkLens RouteCache_ (fun x c =>
    mkAdsCache (edsClusterNames c) (routeNames c) (ListenerCache_ c) (ClusterCache_ c) x).

Record lastNonce : Type := mkLastNonce {
  cdsNonce : string; edsNonce : string; ldsNonce : string; rdsNonce : string
}.
(** [DnsResolverChan] is the sequence of the lists sent on the channel, [None]
    when the channel is nil. *)
Record processor : Type := mkProcessor {
  Cache : AdsCache;
  ack : option DiscoveryRequest;
  req : option DiscoveryRequest;
  last_nonce : lastNonce;
  DnsResolverChan : option (list (list ClusterV3))
}.
Definition l_Cache : lens processor AdsCache :=
  mkLens Cache (fun c p => mkProcessor c (ack p) (req p) (last_nonce p) (DnsResolverChan p)).
Definition set_ack a (p : processor) : processor :=
  mkProcessor (Cache p) a (req p) (last_nonce p) (DnsResolverChan p).
Definition set_req r (p : processor) : processor :=
  mkProcessor (Cache p) (ack p) r (last_nonce p) (DnsResolverChan p).
Definition set_last_nonce f (p : processor) : processor :=
  mkProcessor (Cache p) (ack p) (req p) (f (last_nonce p)) (DnsResolverChan p).
Definition send_dns l (p : processor) : processor :=
  mkProcessor (Cache p) (ack p) (req p) (last_nonce p) ((fun sent => sent ++ [l]) <$> DnsResolverChan p).

Definition lastNonce_zero : lastNonce := mkLastNonce "" "" "" "".
Definition set_cdsNonce s n := mkLastNonce s (edsNonce n) (ldsNonce n) (rdsNonce n).
Definition set_edsNonce s n := mkLastNonce (cdsNonce n) s (ldsNonce n) (rdsNonce n).
Definition set_ldsNonce s n := mkLastNonce (cdsNonce n) (edsNonce n) s (rdsNonce n).
Definition set_rdsNonce s n := mkLastNonce (cdsNonce n) (edsNonce n) (ldsNonce n) s.

(** The node of the requests is a constant of the daemon and left out. *)
Definition newAdsRequest (typeUrl : string) (names : list string) (nonce : string)
    : DiscoveryRequest := mkDiscoveryRequest typeUrl "" names nonce.
Definition newAckRequest (resp : DiscoveryResponse) : DiscoveryRequest :=
  mkDiscoveryRequest (dr_type_url resp) (dr_version_info resp) [] (dr_nonce resp).

Section processor.
Context `{E : Env} `{Persist} `{Library} `{Wire} `{Slices}.

(** ** The stateful part of the ads cache *)
Definition NewAdsCache (start : StartType) (hashName : HashName)
    (stats : option (gmap (Z * Z) Z)) : Go AdsCache unit :=
  zoom l_ListenerCache (NewListenerCache start);;
  zoom l_ClusterCache (NewClusterCache start hashName stats);;
  zoom l_RouteCache (NewRouteConfigCache start);;
  modify (set_edsClusterNames (fun _ => []));;
  modify (set_routeNames (fun _ => [])).

Definition from_outcome {S A} (o : outcome A) : Go S A := fun w s =>
  match o with
  | Done a => Done (a, w, s)
  | Panic why => Panic why
  | NoFuel => NoFuel
  end.

Definition CreateApiClusterByCds (status : Z) (cluster : ClusterV3) : Go AdsCache unit :=
  apiCluster ← from_outcome (newApiCluster status cluster);
  zoom l_ClusterCache (modify (SetApiCluster (c3_name cluster) apiCluster)).

Definition UpdateApiClusterIfExists (status : Z) (cluster : ClusterV3) : Go AdsCache bool :=
  apiCluster ← from_outcome (newApiCluster status cluster);
  zoom l_ClusterCache (fun w c =>
    let '(b, c) := cc_UpdateApiClusterIfExists (c3_name cluster) apiCluster c in Done (b, w, c)).

Definition UpdateApiClusterStatus (key : string) (status : Z) : Go AdsCache unit :=
  zoom l_ClusterCache (modify (cc_UpdateApiClusterStatus key status)).

(** The changes through the pointer that [GetApiCluster] returns. *)
Definition CreateApiClusterByEds (status : Z) (loadAssignment : ClusterLoadAssignmentV3)
    : Go AdsCache unit :=
  let name := cla3_cluster_name loadAssignment in
  apiCluster ← zoom l_ClusterCache (gets (GetApiCluster name));
  match apiCluster with
  | None => mret tt
  | Some apiCluster =>
      la ← from_outcome (newApiClusterLoadAssignment (Some loadAssignment));
      zoom l_ClusterCache (modify (SetApiCluster name
        (c_set_assignment (Some la) (c_set_status status apiCluster))))
  end.

Definition UpdateApiListenerStatus (key : string) (status : Z) : Go AdsCache unit :=
  zoom l_ListenerCache (modify (lc_UpdateApiListenerStatus key status)).

Definition CreateApiListenerByLds (status : Z) (listener : ListenerV3) : Go AdsCache unit :=
  r ← from_outcome (newApiListener status listener);
  let '(apiListener, names) := r in
  modify (set_routeNames (fun l => l ++ names));;
  if decide (status = ApiStatus_UNCHANGED) then mret tt
  else zoom l_ListenerCache (modify (SetApiListener (l_name apiListener) apiListener)).

Definition CreateApiRouteByRds (status : Z) (routeConfig : RouteConfigurationV3) : Go AdsCache unit :=
  match newApiRouteConfiguration (Some routeConfig) with
  | None => panic "nil pointer dereference"
  | Some rc =>
      let apiRouteConfig := rc_set_status status rc in
      zoom l_RouteCache (modify (SetApiRouteConfig (rc_name apiRouteConfig) apiRouteConfig))
  end.
Definition UpdateApiRouteStatus (key : string) (status : Z) : Go AdsCache unit :=
  zoom l_RouteCache (modify (rc_UpdateApiRouteStatus key status)).

Definition Sum64String (s : string) : Z := xxhash_Sum64String s.
Definition newHash (resource : Any) : Z := Sum64String (any_String resource).

(** ** CDS *)
Definition is_dns (cluster : ClusterV3) : bool :=
  bool_decide (c3_type cluster = Cluster_STRICT_DNS) ||
  bool_decide (c3_type cluster = Cluster_LOGICAL_DNS).

(** One resource: the set of names and the DNS clusters so far. *)
Definition handle_cds_resource (acc : gset string * list ClusterV3) (resource : Any)
    : Go AdsCache (gset string * list ClusterV3) :=
  let '(current, dnsClusters) := acc in
  match to_Cluster resource with
  | None => mret acc
  | Some cluster =>
      let name := c3_name cluster in
      let current := {[name]} ∪ current in
      (if decide (c3_type cluster = Cluster_EDS) then
         modify (set_edsClusterNames (fun l => l ++ [name]))
       else mret tt);;
      let dnsClusters :=
        if decide (c3_type cluster = Cluster_EDS) then dnsClusters
        else if is_dns cluster then dnsClusters ++ [cluster] else dnsClusters in
      old ← zoom l_ClusterCache (gets (GetCdsHash name));
      (if decide (newHash resource <> old) then
         let status :=
           if decide (c3_type cluster = Cluster_EDS) then ApiStatus_WAITING
           else if is_dns cluster then ApiStatus_WAITING
           else ApiStatus_UPDATE in
         zoom l_ClusterCache (modify (SetCdsHash name (newHash resource)));;
         CreateApiClusterByCds status cluster
       else mret tt);;
      mret (current, dnsClusters)
  end.

Definition handleCdsResponse (resp : DiscoveryResponse) : Go processor (option error) :=
  modify (set_last_nonce (set_cdsNonce (dr_nonce resp)));;
  lastEdsClusterNames ← zoom l_Cache (gets edsClusterNames);
  zoom l_Cache (modify (set_edsClusterNames (fun _ => [])));;
  acc ← zoom l_Cache (fold_each (dr_resources resp) (∅, []) handle_cds_resource);
  let '(current, dnsClusters) := acc in
  modify (send_dns dnsClusters);;
  names ← zoom l_Cache (zoom l_ClusterCache (gets cc_GetResourceNames));
  removed ← range (elements (names ∖ current));
  zoom l_Cache (fold_each removed tt (fun _ key => UpdateApiClusterStatus key ApiStatus_DELETE));;
  zoom l_Cache (zoom l_ClusterCache cc_Flush);;
  names ← zoom l_Cache (gets edsClusterNames);
  (if EqualUnordered names lastEdsClusterNames then mret tt
   else modify (set_req (Some (newAdsRequest EndpointType names ""))));;
  mret None.

(** ** EDS *)
Definition handle_eds_resource (resource : Any) : Go AdsCache unit :=
  match to_ClusterLoadAssignment resource with
  | None => mret tt
  | Some loadAssignment =>
      let name := cla3_cluster_name loadAssignment in
      cluster ← zoom l_ClusterCache (gets (GetApiCluster name));
      match cluster with
      | None => mret tt
      | Some cluster =>
          old ← zoom l_ClusterCache (gets (GetEdsHash name));
          if decide (c_api_status cluster = ApiStatus_WAITING \/ newHash resource <> old) then
            zoom l_ClusterCache (modify (SetEdsHash name (newHash resource)));;
            CreateApiClusterByEds ApiStatus_UPDATE loadAssignment
          else mret tt
      end
  end.

Definition handleEdsResponse (resp : DiscoveryResponse) : Go processor (option error) :=
  modify (set_last_nonce (set_edsNonce (dr_nonce resp)));;
  zoom l_Cache (fold_each (dr_resources resp) tt (fun _ r => handle_eds_resource r));;
  names ← zoom l_Cache (gets edsClusterNames);
  a ← gets ack;
  match a with
  | None => panic "nil pointer dereference"
  | Some a =>
      modify (set_ack (Some (mkDiscoveryRequest (dq_type_url a) (dq_version_info a) names
                               (dq_response_nonce a))));;
      n ← gets last_nonce;
      (if decide (ldsNonce n = "") then
         modify (set_req (Some (newAdsRequest ListenerType [] "")))
       else mret tt);;
      zoom l_Cache (zoom l_ClusterCache cc_Flush);;
      mret None
  end.

(** ** LDS *)
Definition unmarshal_error : error := Errorf "unmarshal".

(** [err] is the variable of the function: the loop leaves in it the result of
    the last decoding. *)
Definition handle_lds_resource (acc : gset string * option error) (resource : Any)
    : Go AdsCache (gset string * option error) :=
  let '(current, _) := acc in
  match to_Listener resource with
  | None => mret (current, Some unmarshal_error)
  | Some listener =>
      match l3_address listener with
      | None => mret (current, None)
      | Some _ =>
          let name := l3_name listener in
          old ← zoom l_ListenerCache (gets (GetLdsHash name));
          apiStatus ← (if decide (newHash resource <> old) then
                         zoom l_ListenerCache
                           (modify (AddOrUpdateLdsHash name (newHash resource)));;
                         mret ApiStatus_UPDATE
                       else mret ApiStatus_UNCHANGED);
          CreateApiListenerByLds apiStatus listener;;
          mret ({[name]} ∪ current, None)
      end
  end.

Definition handleLdsResponse (resp : DiscoveryResponse) : Go processor (option error) :=
  modify (set_last_nonce (set_ldsNonce (dr_nonce resp)));;
  lastRouteNames ← zoom l_Cache (gets routeNames);
  zoom l_Cache (modify (set_routeNames (fun _ => [])));;
  acc ← zoom l_Cache (fold_each (dr_resources resp) (∅, None) handle_lds_resource);
  let '(current, err) := acc in
  names ← zoom l_Cache (zoom l_ListenerCache (gets lc_GetResourceNames));
  removed ← range (elements (names ∖ current));
  zoom l_Cache (fold_each removed tt (fun _ key => UpdateApiListenerStatus key ApiStatus_DELETE));;
  zoom l_Cache (zoom l_ListenerCache lc_Flush);;
  names ← zoom l_Cache (gets routeNames);
  (if EqualUnordered names lastRouteNames then mret tt
   else modify (set_req (Some (newAdsRequest RouteType names ""))));;
  mret err.

(** ** RDS *)
Definition ack_append (name : string) (p : processor) : processor :=
  set_ack ((fun a => mkDiscoveryRequest (dq_type_url a) (dq_version_info a)
                       (dq_resource_names a ++ [name]) (dq_response_nonce a)) <$> ack p) p.

Definition handle_rds_resource (current : gset string) (resource : Any)
    : Go processor (gset string) :=
  match to_RouteConfiguration resource with
  | None => mret current
  | Some routeConfiguration =>
      let name := rc3_name routeConfiguration in
      old ← zoom l_Cache (zoom l_RouteCache (gets (GetRdsHash name)));
      (if decide (newHash resource <> old) then
         zoom l_Cache (zoom l_RouteCache (modify (SetRdsHash name (newHash resource))));;
         zoom l_Cache (CreateApiRouteByRds ApiStatus_UPDATE routeConfiguration)
       else mret tt);;
      (if decide (rc3_virtual_hosts routeConfiguration <> []) then
         a ← gets ack;
         match a with
         | None => panic "nil pointer dereference"
         | Some _ => modify (ack_append name)
         end
       else mret tt);;
      mret ({[name]} ∪ current)
  end.

Definition handleRdsResponse (resp : DiscoveryResponse) : Go processor (option error) :=
  modify (set_last_nonce (set_rdsNonce (dr_nonce resp)));;
  current ← fold_each (dr_resources resp) ∅ handle_rds_resource;
  names ← zoom l_Cache (zoom l_RouteCache (gets rc_GetResourceNames));
  removed ← range (elements (names ∖ current));
  zoom l_Cache (fold_each removed tt (fun _ key => UpdateApiRouteStatus key ApiStatus_DELETE));;
  zoom l_Cache (zoom l_RouteCache rc_Flush);;
  mret None.

(** ** Responses *)
Definition processAdsResponse (resp : DiscoveryResponse) : Go processor unit :=
  modify (set_ack (Some (newAckRequest resp)));;
  if decide (dr_resources resp = []) then mret tt
  else
    let url := dr_type_url resp in
    (if decide (url = ClusterType) then handleCdsResponse resp
     else if decide (url = EndpointType) then handleEdsResponse resp
     else if decide (url = ListenerType) then handleLdsResponse resp
     else if decide (url = RouteType) then handleRdsResponse resp
     else mret (Some (Errorf "unsupported type url")));;
    mret tt.

Definition Reset (p : processor) : processor :=
  mkProcessor (set_edsClusterNames (fun _ => []) (set_routeNames (fun _ => []) (Cache p)))
    (ack p) (req p) lastNonce_zero (DnsResolverChan p).

(** ** The controller

    [requestsChan] is unbounded: the requests put on it, in order.  [recv] is
    what [Stream.Recv] returned. *)
Definition HandleAdsStream (recv : DiscoveryResponse + error)
    : Go processor (list DiscoveryRequest * option error) :=
  match recv with
  | inr _ => mret ([], Some (Errorf "stream recv failed"))
  | inl rsp =>
      processAdsResponse rsp;;
      a ← gets ack;
      r ← gets req;
      modify (set_req None);;
      mret (option_list a ++ option_list r, None)
  end.

(** [opened] and [sent] are the errors of opening the stream and of the first
    [Send]; the result is the request sent. *)
Definition AdsStreamCreateAndSend (opened sent : option error)
    : Go processor (list DiscoveryRequest * option error) :=
  match opened with
  | Some _ => mret ([], Some (Errorf "StreamAggregatedResources failed"))
  | None =>
      modify Reset;;
      match sent with
      | Some _ => mret ([], Some (Errorf "send request failed"))
      | None => mret ([newAdsRequest ClusterType [] ""], None)
      end
  end.
End processor.
