(* ===== verification/AdsSync.v ===== *)
(** * The kernel maps follow the discovery responses

    Every operation of the cluster cache works name by name: what becomes of
    the cache entry, the hashes and the kernel entry of a name depends on
    nothing else.  [Flush], the loops of the CDS and EDS handlers and the
    marking of removed clusters are first reduced to functions on such
    entries; the theorems then follow by cases on one entry. *)
From S2P Require Import Prelude Api Runtime GoNet Nets Murmur3 Maglev HashName AdsApi AdsConvert AdsCaches AdsProcessor.

(** ** Environments *)
Definition MAP_SIZE_OF_CLUSTER : Z := 2 ^ 14.

(** The kernel takes up to [cap] entries in a map. *)
Class Accepting (E : Env) (cap : Z) : Prop :=
  accepts : forall n sz, Z.of_nat sz <= cap -> upd_err n sz = None.

Lemma wp_from_outcome {S A} p (o : outcome A) a (Q : A -> World -> S -> Prop) w s :
  o = Done a -> Q a w s -> wp p (from_outcome o) Q w s.
Proof. intros -> HQ. done. Qed.

(** ** Entries *)
Definition entry : Type := option Cluster * option (Z * Z) * option Cluster.
Definition entry_of (name : string) (c : ClusterCache) : entry :=
  (apiClusterCache c !! name, cc_resourceHash c !! name, map_of_cluster c !! name).

(** The parts of the cluster cache that no theorem below looks into, except
    that the size of the Maglev table stays as [InitMaglevMap] set it. *)
Definition maglev_ready (c : ClusterCache) : Prop := maglevTableSize (cc_maglev c) = DefaultTableSize.

(** Every cluster of the kernel map is known to the cache. *)
Definition covered (c : ClusterCache) : Prop :=
  forall name, is_Some (map_of_cluster c !! name) -> is_Some (apiClusterCache c !! name).

(** What [Flush] does to an entry; [id] is the number of the name. *)
Definition flush_entry (id : Z) (e : entry) : entry :=
  match e with
  | (Some cl, h, m) =>
      if decide (c_api_status cl = ApiStatus_UPDATE) then
        (Some (c_set_status ApiStatus_NONE (c_set_id id cl)), h, Some (c_set_id id cl))
      else if decide (c_api_status cl = ApiStatus_DELETE) then
        match m with
        | Some _ => (None, None, None)
        | None => e
        end
      else e
  | _ => e
  end.

Section flush.
Context `{E : Env} `{!DeletesSucceed E} `{!Accepting E MAP_SIZE_OF_CLUSTER} `{Persist} `{Library}.

Lemma CreateLB_total k (c : Cluster) (st : MaglevState) :
  maglevTableSize st = DefaultTableSize ->
  exists st' err, CreateLB sa_String k (Some (maglev_cluster c)) st = Done (st', err) /\
    maglevTableSize st' = DefaultTableSize.
Proof.
  intros Hm. unfold CreateLB. set (mc := maglev_cluster c).
  assert (exists t, getLookupTable sa_String st mc (maglevTableSize st) = Done t) as [t ->].
  { destruct (decide (concat (localityLbEndpoints mc) = [])) as [Hc|Hc].
    - unfold getLookupTable. case_decide; [eauto|]. rewrite Hc. cbn. eauto.
    - destruct (getLookupTable_balanced_aux sa_String st mc) as (table & -> & _);
        [rewrite Hm; apply DefaultTableSize_prime|rewrite Hm; done|done|eauto]. }
  cbn. destruct t as [table|err]; [|eauto].
  unfold updateMaglevTable. repeat case_match; simplify_eq/=; eauto.
Qed.

Lemma wp_maglev_CreateLB p cl (Q : option error -> World -> ClusterCache -> Prop) w c :
  maglev_ready c ->
  (forall err st, maglevTableSize st = DefaultTableSize ->
     Q err (tick w) (set_cc_maglev (fun _ => st) c)) ->
  wp p (maglev_CreateLB cl) Q w c.
Proof.
  intros Hm HQ. unfold wp, maglev_CreateLB.
  destruct (CreateLB_total (maglev_reply (clock w)) cl (cc_maglev c) Hm) as (st & err & -> & Hst).
  by apply HQ.
Qed.

Lemma wp_ClusterUpdate p key value (Q : option error -> World -> ClusterCache -> Prop) w c :
  cluster_fits value = true ->
  Z.of_nat (size (<[key := value]> (map_of_cluster c))) <= MAP_SIZE_OF_CLUSTER ->
  Q None (tick w) (lset l_map_of_cluster (<[key := value]> (map_of_cluster c)) c) ->
  wp p (ClusterUpdate key value) Q w c.
Proof.
  intros Hf Hsz HQ. unfold ClusterUpdate. apply wp_zoom. unfold wp, deserial_update_elem.
  rewrite Hf. cbn [lget l_map_of_cluster]. by rewrite accepts.
Qed.

Lemma wp_ClusterDelete p key (Q : option error -> World -> ClusterCache -> Prop) w c :
  (is_Some (map_of_cluster c !! key) ->
     Q None (tick w) (lset l_map_of_cluster (delete key (map_of_cluster c)) c)) ->
  (map_of_cluster c !! key = None -> forall e, Q (Some e) (tick w) c) ->
  wp p (ClusterDelete key) Q w c.
Proof.
  intros H1 H2. unfold ClusterDelete. apply wp_zoom, wp_map_Delete.
  - intros _ Hs. by apply H1.
  - intros _ Hn. replace (lset l_map_of_cluster (lget l_map_of_cluster c) c) with c by (by destruct c).
    by apply H2.
  - intros e He. by rewrite deletes_succeed in He.
Qed.

(** [clearClusterStats] touches the statistics only. *)
Lemma wp_clearClusterStats p name (Q : unit -> World -> ClusterCache -> Prop) w c :
  (forall w' f, same_heap w w' -> Q tt w' (set_clusterStatsMap f c)) ->
  wp p (clearClusterStats name) Q w c.
Proof.
  intros HQ. assert (set_clusterStatsMap id c = c) as Hid by (by destruct c).
  unfold clearClusterStats. wp_steps. destruct (clusterStatsMap c) as [stats|] eqn:Es; wp_steps.
  - case_decide; wp_steps; [rewrite <-Hid; by apply HQ|]. by apply HQ.
  - rewrite <-Hid. by apply HQ.
Qed.

Lemma StrToNum_Delete name name' h : name <> name' ->
  StrToNum name (HashName.Delete name' h) = StrToNum name h.
Proof.
  intros Hne. unfold StrToNum, HashName.Delete. destruct (strToNum h !! name'); [|done].
  destruct (flush_maps {| numToStr := delete z (numToStr h);
    strToNum := delete name' (strToNum h); file := file h |}) as [_ ->].
  cbn. by rewrite lookup_delete_ne.
Qed.

(** A change of one entry of a cache. *)
Definition changes_one (name : string) (e : entry) (c c' : ClusterCache) : Prop :=
  entry_of name c' = e /\ (forall n, n <> name -> entry_of n c' = entry_of n c) /\
  (maglev_ready c -> maglev_ready c') /\
  (forall n, n <> name \/ is_Some (apiClusterCache c' !! n) ->
     StrToNum n (cc_hashName c') = StrToNum n (cc_hashName c)).

Lemma flush_one_pointwise p name cl w c :
  apiClusterCache c !! name = Some cl -> maglev_ready c -> covered c ->
  Z.of_nat (size (apiClusterCache c)) <= MAP_SIZE_OF_CLUSTER ->
  (c_api_status cl = ApiStatus_UPDATE ->
     cluster_fits (c_set_id (StrToNum name (cc_hashName c)) cl) = true) ->
  wp p (cc_flush_one name cl) (fun _ w' c' => same_heap w w' /\
    changes_one name (flush_entry (StrToNum name (cc_hashName c)) (entry_of name c)) c c') w c.
Proof.
  intros Hc Hm Hcov Hsz Hfit. unfold cc_flush_one, changes_one, flush_entry, entry_of. rewrite Hc.
  case_decide as Hu; [|case_decide as Hd].
  - wp_steps. set (id := StrToNum name (cc_hashName c)). set (cl' := c_set_id id cl).
    apply wp_ClusterUpdate; [by apply Hfit| |].
    { cbn. enough (size (<[name := cl']> (map_of_cluster c)) <= size (apiClusterCache c))%nat by lia.
      rewrite <-!size_dom. apply subseteq_size. intros n. rewrite !elem_of_dom.
      destruct (decide (n = name)) as [->|Hn]; [by rewrite Hc|]. rewrite lookup_insert_ne by done.
      apply Hcov. }
    cbn [lset l_map_of_cluster]. wp_steps.
    assert (forall c1, apiClusterCache c1 = <[name := cl']> (apiClusterCache c) ->
      cc_resourceHash c1 = cc_resourceHash c -> cc_hashName c1 = cc_hashName c ->
      map_of_cluster c1 = <[name := cl']> (map_of_cluster c) -> maglev_ready c1 ->
      let c2 := set_apiClusterCache <[name := c_set_status ApiStatus_NONE cl']> c1 in
      entry_of name c2 = (Some (c_set_status ApiStatus_NONE cl'), cc_resourceHash c !! name, Some cl') /\
      (forall n, n <> name -> entry_of n c2 = entry_of n c) /\ (maglev_ready c -> maglev_ready c2) /\
      (forall n, n <> name \/ is_Some (apiClusterCache c2 !! n) ->
         StrToNum n (cc_hashName c2) = StrToNum n (cc_hashName c))) as Hend.
    { intros c1 H1 H2 H3 H4 H5 c2. unfold entry_of. cbn. rewrite H1, H2, H3, H4. split_and!; try done.
      - by rewrite !lookup_insert_eq.
      - intros n Hn. by rewrite !lookup_insert_ne. }
    case_decide as Hlb; wp_steps; [apply wp_maglev_CreateLB; [done|]; intros err st Hst; wp_steps|];
      rewrite decide_True by done; wp_step; (split; [done|]); by apply Hend.
  - wp_steps. apply wp_clearClusterStats. intros w1 f Hw1. wp_steps. apply wp_ClusterDelete; cbn.
    + intros [m Em]. rewrite decide_True by done. rewrite Em. unfold cc_forget. wp_steps.
      split; [etrans; [done|by apply same_heap_tick]|].
      unfold entry_of, maglev_ready. cbn. split_and!.
      * by rewrite !lookup_delete_eq.
      * intros n Hn. by rewrite !lookup_delete_ne by done.
      * done.
      * intros n [Hn|Hn]; [by apply StrToNum_Delete|]. destruct (decide (n = name)) as [->|Hne];
          [|by apply StrToNum_Delete]. rewrite lookup_delete_eq in Hn. by destruct Hn.
    + intros Em e. rewrite decide_False by done. rewrite Em. wp_steps.
      split; [etrans; [done|by apply same_heap_tick]|]. unfold entry_of. cbn. by rewrite Em, Hc.
  - wp_steps. unfold entry_of. by rewrite Hc.
Qed.

Lemma flush_entry_covered id e :
  (is_Some e.2 -> is_Some e.1.1) ->
  (is_Some (flush_entry id e).2 -> is_Some (flush_entry id e).1.1) /\
  (is_Some (flush_entry id e).1.1 -> is_Some e.1.1).
Proof.
  destruct e as [[[cl|] h] m]; cbn; [|done]. case_decide; [by eauto|]. case_decide; [|by eauto].
  destruct m; cbn; eauto.
Qed.

(** Whatever part of the entries has been flushed, the cache has not grown and
    still covers the kernel map. *)
Lemma partly_flushed c c' ids :
  covered c ->
  (forall n, entry_of n c' = entry_of n c \/ entry_of n c' = flush_entry (ids n) (entry_of n c)) ->
  covered c' /\ (size (apiClusterCache c') <= size (apiClusterCache c))%nat.
Proof.
  intros Hcov He.
  assert (forall n, (is_Some (entry_of n c').2 -> is_Some (entry_of n c').1.1) /\
    (is_Some (entry_of n c').1.1 -> is_Some (entry_of n c).1.1)) as Hn.
  { intros n. destruct (He n) as [->| ->]; [split; [apply Hcov|done]|].
    apply flush_entry_covered, Hcov. }
  split; [intros n; apply (Hn n)|].
  rewrite <-!size_dom. apply subseteq_size. intros n. rewrite !elem_of_dom. apply (Hn n).
Qed.

(** [Flush] treats every entry by [flush_entry]. *)
Lemma flush_pointwise p w c :
  maglev_ready c -> covered c -> Z.of_nat (size (apiClusterCache c)) <= MAP_SIZE_OF_CLUSTER ->
  (forall name cl, apiClusterCache c !! name = Some cl -> c_api_status cl = ApiStatus_UPDATE ->
     cluster_fits (c_set_id (StrToNum name (cc_hashName c)) cl) = true) ->
  wp p cc_Flush (fun _ w' c' => same_heap w w' /\ maglev_ready c' /\ covered c' /\
    (forall n, is_Some (apiClusterCache c' !! n) ->
       StrToNum n (cc_hashName c') = StrToNum n (cc_hashName c)) /\
    forall n, entry_of n c' = flush_entry (StrToNum n (cc_hashName c)) (entry_of n c)) w c.
Proof.
  intros Hm Hcov Hsz Hfit. unfold cc_Flush. wp_steps.
  match goal with Hp : ?l ≡ₚ map_to_list _ |- _ => rename Hp into Hperm; rename l into names end.
  set (ids := fun n => StrToNum n (cc_hashName c)).
  apply (wp_fold_each _ (fun l' _ w' c' => same_heap w w' /\ maglev_ready c' /\ NoDup (l'.*1) /\
    (forall n, n ∈ l'.*1 -> entry_of n c' = entry_of n c /\ StrToNum n (cc_hashName c') = ids n) /\
    (forall n, is_Some (apiClusterCache c' !! n) -> StrToNum n (cc_hashName c') = ids n) /\
    (forall n, n ∉ l'.*1 -> entry_of n c' = flush_entry (ids n) (entry_of n c)))).
  - split_and!; [done|done| | | |].
    + rewrite Hperm. apply NoDup_fst_map_to_list.
    + done.
    + done.
    + intros n Hn. unfold entry_of. rewrite Hperm in Hn.
      assert (apiClusterCache c !! n = None) as ->; [|done].
      apply eq_None_not_Some. intros [cl Hcl]. apply Hn. apply list_elem_of_fmap.
      exists (n, cl). split; [done|]. by apply elem_of_map_to_list.
  - intros [name cl0] l' [] w' c' (Hw & Hm' & Hnd & Hin & Hnum & Hout). cbn [fmap list_fmap fst] in *.
    apply NoDup_cons in Hnd as [Hni Hnd]. wp_steps.
    destruct (Hin name ltac:(left)) as [He Hid]. injection He as Ea _ Em.
    destruct (partly_flushed c c' ids Hcov) as [Hcov' Hsz'].
    { intros n. destruct (decide (n ∈ name :: l'.*1)) as [Hi|Hi];
        [left; by apply Hin|right; by apply Hout]. }
    destruct (apiClusterCache c' !! name) as [cl|] eqn:Ecl.
    + eapply wp_mono; [apply flush_one_pointwise; [done|done|done|lia|]|].
      { intros Hu. rewrite Hid. apply Hfit; [by rewrite <-Ea|done]. }
      intros _ w2 c2 (Hw2 & He2 & Hoth & Hm2 & Hids). split_and!; [by etrans|by apply Hm2|done| | |].
      * intros n Hn. assert (n <> name) as Hne by (by intros ->).
        rewrite Hoth, Hids by auto. apply Hin. by right.
      * intros n Hn. rewrite Hids by auto. destruct (decide (n = name)) as [->|Hne]; [done|].
        apply Hnum. pose proof (Hoth n Hne) as Hx. injection Hx as Hx _ _. by rewrite <-Hx.
      * intros n Hn. destruct (decide (n = name)) as [->|Hne].
        -- rewrite He2, Hid. f_equal. apply Hin. left.
        -- rewrite Hoth by done. apply Hout. intros Hx. by apply elem_of_cons in Hx as [].
    + wp_steps. split_and!; try done.
      * intros n Hn. apply Hin. by right.
      * intros n Hn. destruct (decide (n = name)) as [->|Hne].
        -- rewrite (proj1 (Hin name ltac:(left))). unfold entry_of. by rewrite <-Ea.
        -- apply Hout. intros Hx. by apply elem_of_cons in Hx as [].
  - intros [] w' c' (Hw & Hm' & _ & _ & Hnum & Hout). split_and!; [done|done| |done|].
    + apply (partly_flushed c c' ids Hcov). intros n. right. apply Hout, not_elem_of_nil.
    + intros n. apply Hout, not_elem_of_nil.
Qed.
End flush.

(** ** CDS, entry by entry *)
Definition cds_status (x : ClusterV3) : Z :=
  if decide (c3_type x = Cluster_EDS) then ApiStatus_WAITING
  else if is_dns x then ApiStatus_WAITING else ApiStatus_UPDATE.

(** The addresses of a cluster are such that its conversion does not crash. *)
Definition convertible (x : ClusterV3) : Prop :=
  exists c, newApiCluster (cds_status x) x = Done c.
Definition cds_cluster (x : ClusterV3) : Cluster :=
  match newApiCluster (cds_status x) x with Done c => c | _ => Cluster_zero end.

Section handlers.
Context `{E : Env} `{!DeletesSucceed E} `{!Accepting E MAP_SIZE_OF_CLUSTER}.
Context `{Persist} `{Library} `{Wire} `{Slices}.

Definition cds_of (rs : list Any) : list ClusterV3 := omap to_Cluster rs.
Definition cds_names (rs : list Any) : list string := c3_name <$> cds_of rs.
Definition eds_names (rs : list Any) : list string :=
  c3_name <$> filter (fun x => c3_type x = Cluster_EDS) (cds_of rs).

Definition cds_entry (r : Any) (x : ClusterV3) (e : entry) : entry :=
  let '(cl, h, m) := e in
  if decide (newHash r <> (default (0, 0) h).1) then
    (Some (cds_cluster x), Some (newHash r, (default (0, 0) h).2), m)
  else e.

#[local] Arguments cds_entry : simpl never.
#[local] Arguments entry_of : simpl never.
#[local] Arguments flush_entry : simpl never.

(** What the handlers leave alone besides the entries. *)
Definition cc_same (c c' : ClusterCache) : Prop :=
  cc_hashName c' = cc_hashName c /\ cc_maglev c' = cc_maglev c.
Definition ads_same (s s' : AdsCache) : Prop :=
  ListenerCache_ s' = ListenerCache_ s /\ RouteCache_ s' = RouteCache_ s /\
  routeNames s' = routeNames s /\ cc_same (ClusterCache_ s) (ClusterCache_ s').

Lemma cc_same_trans c1 c2 c3 : cc_same c1 c2 -> cc_same c2 c3 -> cc_same c1 c3.
Proof. unfold cc_same. intros [] []. split; congruence. Qed.
Lemma ads_same_trans s1 s2 s3 : ads_same s1 s2 -> ads_same s2 s3 -> ads_same s1 s3.
Proof.
  unfold ads_same. intros (?&?&?&?) (?&?&?&?). split_and!; try congruence. by eapply cc_same_trans.
Qed.

Lemma wp_cds_resource p acc r x w s :
  to_Cluster r = Some x -> convertible x ->
  wp p (handle_cds_resource acc r) (fun acc' w' s' => w' = w /\ ads_same s s' /\
    acc'.1 = {[c3_name x]} ∪ acc.1 /\
    edsClusterNames s' = edsClusterNames s ++
      (if decide (c3_type x = Cluster_EDS) then [c3_name x] else []) /\
    entry_of (c3_name x) (ClusterCache_ s') = cds_entry r x (entry_of (c3_name x) (ClusterCache_ s)) /\
    forall n, n <> c3_name x -> entry_of n (ClusterCache_ s') = entry_of n (ClusterCache_ s)) w s.
Proof.
  intros Hr [c0 Hc0]. unfold handle_cds_resource. destruct acc as [current dns]. rewrite Hr.
  apply wp_bind. unfold cds_entry, entry_of, GetCdsHash, hashes, cds_cluster. rewrite Hc0.
  fold (cds_status x).
  assert (forall s1 (Q : unit -> World -> AdsCache -> Prop),
    (forall w' s', w' = w -> s' = lset l_ClusterCache (SetApiCluster (c3_name x) c0
        (SetCdsHash (c3_name x) (newHash r) (ClusterCache_ s1))) s1 -> Q tt w' s') ->
    wp p (zoom l_ClusterCache (modify (SetCdsHash (c3_name x) (newHash r)));;
          CreateApiClusterByCds (cds_status x) x) Q w s1) as Hcreate.
  { intros s1 Q HQ. unfold CreateApiClusterByCds. wp_steps. eapply wp_from_outcome; [done|].
    wp_steps. by apply HQ. }
  case_decide as Heds; wp_steps; cbn [lget l_ClusterCache ClusterCache_ set_edsClusterNames].
  all: case_decide as Hh; [apply Hcreate; intros w' s' -> ->|]; wp_steps; cbn.
  all: rewrite ?app_nil_r; split_and!; try done.
  all: rewrite ?lookup_insert_eq; try done.
  all: intros n Hn; by rewrite !lookup_insert_ne.
Qed.

Lemma wp_cds_loop p rs : forall acc w s,
  NoDup (cds_names rs) -> Forall convertible (cds_of rs) ->
  wp p (fold_each rs acc handle_cds_resource) (fun acc' w' s' => w' = w /\ ads_same s s' /\
    acc'.1 = list_to_set (cds_names rs) ∪ acc.1 /\
    edsClusterNames s' = edsClusterNames s ++ eds_names rs /\
    (forall r x, r ∈ rs -> to_Cluster r = Some x ->
       entry_of (c3_name x) (ClusterCache_ s') =
       cds_entry r x (entry_of (c3_name x) (ClusterCache_ s))) /\
    forall n, n ∉ cds_names rs -> entry_of n (ClusterCache_ s') = entry_of n (ClusterCache_ s)) w s.
Proof.
  unfold cds_names, eds_names, cds_of. induction rs as [|r rs IH]; intros acc w s Hnd Hcv; cbn [fold_each].
  { apply wp_ret. split_and!; try done; [set_solver|by rewrite app_nil_r|].
    intros r x Hr. by apply not_elem_of_nil in Hr. }
  apply wp_bind. cbn in Hnd, Hcv |- *.
  destruct (to_Cluster r) as [x|] eqn:Er; cbn in Hnd, Hcv |- *.
  - apply NoDup_cons in Hnd as [Hni Hnd]. apply Forall_cons in Hcv as [Hx Hcv].
    eapply wp_mono; [by apply wp_cds_resource|]. cbn.
    intros acc1 w1 s1 (-> & Hs1 & Hacc & Heds & Hent & Hoth).
    eapply wp_mono; [by apply IH|]. cbn. intros acc2 w2 s2 (-> & Hs2 & Hacc2 & Heds2 & Hent2 & Hoth2).
    split_and!; [done|by eapply ads_same_trans| | | |].
    + rewrite Hacc2, Hacc. set_solver.
    + rewrite Heds2, Heds, <-app_assoc. by case_decide.
    + intros r' x' Hr' Hx'. apply elem_of_cons in Hr' as [->|Hr'].
      * rewrite Er in Hx'. simplify_eq. by rewrite Hoth2.
      * rewrite (Hent2 r' x') by done. f_equal. apply Hoth. intros Heq. apply Hni. rewrite <-Heq.
        apply list_elem_of_fmap. exists x'. split; [done|]. apply list_elem_of_omap. eauto.
    + intros n Hn. rewrite Hoth2, Hoth; [done| |]; set_solver.
  - unfold handle_cds_resource at 1. destruct acc as [current dns]. rewrite Er. wp_steps.
    eapply wp_mono; [by apply IH|]. cbn. intros acc2 w2 s2 (-> & Hs2 & Hacc2 & Heds2 & Hent2 & Hoth2).
    split_and!; try done. intros r' x' Hr' Hx'. apply elem_of_cons in Hr' as [->|Hr']; [congruence|].
    by apply Hent2.
Qed.

(** The marking of removed clusters. *)
Definition mark_entry (e : entry) : entry :=
  (c_set_status ApiStatus_DELETE <$> e.1.1, e.1.2, e.2).

Lemma wp_mark_loop p l : forall w s,
  wp p (fold_each l tt (fun _ key => UpdateApiClusterStatus key ApiStatus_DELETE))
    (fun _ w' s' => w' = w /\ ads_same s s' /\ edsClusterNames s' = edsClusterNames s /\
       forall n, entry_of n (ClusterCache_ s') =
         if decide (n ∈ l) then mark_entry (entry_of n (ClusterCache_ s))
         else entry_of n (ClusterCache_ s)) w s.
Proof.
  induction l as [|key l IH]; intros w s; cbn [fold_each].
  { apply wp_ret. split_and!; done. }
  apply wp_bind. unfold UpdateApiClusterStatus at 1. wp_steps.
  eapply wp_mono; [by apply IH|]. cbn. intros [] w2 s2 (-> & Hs2 & Heds & Hent).
  split_and!; [done|done|done|]. intros n. rewrite Hent. unfold entry_of, mark_entry. cbn.
  destruct (decide (n = key)) as [->|Hne].
  - rewrite lookup_alter_eq, (decide_True (P := key ∈ key :: l)) by left.
    case_decide; [|done]. by destruct (_ !! key) as [[]|].
  - rewrite lookup_alter_ne by done. destruct (decide (n ∈ l)) as [Hl|Hl].
    + by rewrite decide_True by (by right).
    + rewrite decide_False; [done|]. intros Hx. by apply elem_of_cons in Hx as [].
Qed.

(** No write is pending. *)
Definition calm (c : ClusterCache) : Prop :=
  forall n cl, apiClusterCache c !! n = Some cl -> c_api_status cl <> ApiStatus_UPDATE.

(** The entries that [handleCdsResponse] hands to [Flush]. *)
Definition cds_marked (rs : list Any) (c c1 : ClusterCache) : Prop :=
  (forall r x, r ∈ rs -> to_Cluster r = Some x ->
     entry_of (c3_name x) c1 = cds_entry r x (entry_of (c3_name x) c)) /\
  (forall n, n ∉ cds_names rs -> entry_of n c1 = mark_entry (entry_of n c)).

Lemma elem_cds_names n rs :
  n ∈ cds_names rs <-> exists r x, r ∈ rs /\ to_Cluster r = Some x /\ n = c3_name x.
Proof.
  unfold cds_names, cds_of. rewrite list_elem_of_fmap. setoid_rewrite list_elem_of_omap. naive_solver.
Qed.

Lemma cds_marked_ok rs c c1 :
  cds_marked rs c c1 -> covered c ->
  Z.of_nat (size (dom (apiClusterCache c) ∪ list_to_set (cds_names rs))) <= MAP_SIZE_OF_CLUSTER ->
  covered c1 /\ Z.of_nat (size (apiClusterCache c1)) <= MAP_SIZE_OF_CLUSTER.
Proof.
  intros [Hin Hout] Hcov Hsz. split.
  - intros n. destruct (decide (n ∈ cds_names rs)) as [Hn|Hn].
    + apply elem_cds_names in Hn as (r & x & Hr & Hx & ->). specialize (Hin r x Hr Hx).
      specialize (Hcov (c3_name x)). unfold entry_of, cds_entry in Hin.
      case_decide; injection Hin as Ha Hh Hm; rewrite Ha, Hm; [eauto|done].
    + specialize (Hout n Hn). injection Hout as Ha Hh Hm.
      cbn in Ha, Hm. rewrite Ha, Hm, fmap_is_Some. apply Hcov.
  - etrans; [|exact Hsz]. apply inj_le. rewrite <-size_dom. apply subseteq_size. intros n Hn.
    apply elem_of_union. destruct (decide (n ∈ cds_names rs)) as [Hm|Hm];
      [right; by apply elem_of_list_to_set|left].
    specialize (Hout n Hm). injection Hout as Ha _ _. cbn in Ha.
    apply elem_of_dom in Hn. rewrite Ha, fmap_is_Some in Hn. by apply elem_of_dom.
Qed.

Lemma cds_marked_fits rs c c1 :
  cds_marked rs c c1 -> calm c -> cc_hashName c1 = cc_hashName c ->
  (forall x, x ∈ cds_of rs -> cds_status x = ApiStatus_UPDATE ->
     cluster_fits (c_set_id (StrToNum (c3_name x) (cc_hashName c)) (cds_cluster x)) = true) ->
  forall n cl, apiClusterCache c1 !! n = Some cl -> c_api_status cl = ApiStatus_UPDATE ->
    cluster_fits (c_set_id (StrToNum n (cc_hashName c1)) cl) = true.
Proof.
  intros [Hin Hout] Hcalm Hh Hfit n cl Hcl Hu. rewrite Hh.
  destruct (decide (n ∈ cds_names rs)) as [Hn|Hn].
  - apply elem_cds_names in Hn as (r & x & Hr & Hx & ->). specialize (Hin r x Hr Hx).
    unfold entry_of, cds_entry in Hin. case_decide; injection Hin as Ha Hh' Hm; rewrite Ha in Hcl.
    + simplify_eq. apply Hfit; [apply list_elem_of_omap; eauto|]. revert Hu.
      unfold cds_cluster. destruct (newApiCluster (cds_status x) x) as [c'| |] eqn:Ec; [|done|done].
      unfold newApiCluster in Ec. case_decide; [|by simplify_eq/=].
      destruct (newApiClusterLoadAssignment _); by simplify_eq/=.
    + by apply Hcalm in Hcl.
  - specialize (Hout n Hn). injection Hout as Ha _ _. cbn in Ha.
    rewrite Ha in Hcl. by destruct (apiClusterCache c !! n); simplify_eq/=.
Qed.

(** The state after a CDS response. *)
Record cds_done (resp : DiscoveryResponse) (s s' : processor) : Prop := {
  cd_entries : exists c1, cds_marked (dr_resources resp) (ClusterCache_ (Cache s)) c1 /\
    forall n, entry_of n (ClusterCache_ (Cache s')) =
      flush_entry (StrToNum n (cc_hashName (ClusterCache_ (Cache s)))) (entry_of n c1);
  cd_numbers : forall n, is_Some (apiClusterCache (ClusterCache_ (Cache s')) !! n) ->
    StrToNum n (cc_hashName (ClusterCache_ (Cache s'))) =
    StrToNum n (cc_hashName (ClusterCache_ (Cache s)));
  cd_maglev : maglev_ready (ClusterCache_ (Cache s'));
  cd_covered : covered (ClusterCache_ (Cache s'));
  cd_eds : edsClusterNames (Cache s') = eds_names (dr_resources resp);
  cd_listeners : ListenerCache_ (Cache s') = ListenerCache_ (Cache s);
  cd_routes : RouteCache_ (Cache s') = RouteCache_ (Cache s) /\
    routeNames (Cache s') = routeNames (Cache s);
  cd_ack : ack s' = ack s;
  cd_nonce : last_nonce s' = set_cdsNonce (dr_nonce resp) (last_nonce s);
  cd_req : req s' =
    if EqualUnordered (eds_names (dr_resources resp)) (edsClusterNames (Cache s)) then req s
    else Some (newAdsRequest EndpointType (eds_names (dr_resources resp)) "")
}.

Lemma wp_handleCdsResponse p resp w s :
  NoDup (cds_names (dr_resources resp)) -> Forall convertible (cds_of (dr_resources resp)) ->
  maglev_ready (ClusterCache_ (Cache s)) -> covered (ClusterCache_ (Cache s)) ->
  calm (ClusterCache_ (Cache s)) ->
  Z.of_nat (size (dom (apiClusterCache (ClusterCache_ (Cache s))) ∪
                  list_to_set (cds_names (dr_resources resp)))) <= MAP_SIZE_OF_CLUSTER ->
  (forall x, x ∈ cds_of (dr_resources resp) -> cds_status x = ApiStatus_UPDATE ->
     cluster_fits (c_set_id (StrToNum (c3_name x) (cc_hashName (ClusterCache_ (Cache s))))
                     (cds_cluster x)) = true) ->
  wp p (handleCdsResponse resp) (fun err w' s' =>
    same_heap w w' /\ err = None /\ cds_done resp s s') w s.
Proof.
  intros Hnd Hcv Hm Hcov Hcalm Hsz Hfit. unfold handleCdsResponse. wp_steps.
  eapply wp_mono; [by apply wp_cds_loop|]. cbn.
  intros [current dns] w1 s1 (-> & Hs1 & Hacc & Heds & Hin & Hout). wp_steps. cbn.
  match goal with Hp : _ ≡ₚ elements _ |- _ => rename Hp into Hrem end.
  eapply wp_mono; [apply wp_mark_loop|]. cbn. intros [] w2 s2 (-> & Hs2 & Heds2 & Hent). wp_steps.
  assert (Hall : ads_same (Cache s) s2) by (by eapply ads_same_trans).
  destruct Hall as (HL & HR & Hrn & HH & HM).
  assert (cds_marked (dr_resources resp) (ClusterCache_ (Cache s)) (ClusterCache_ s2)) as Hmk.
  { cbn in Hacc. rewrite union_empty_r_L in Hacc. subst current. split.
    - intros r x Hr Hx. rewrite Hent, decide_False; [by apply Hin|].
      rewrite Hrem, elem_of_elements, elem_of_difference, elem_of_list_to_set. intros [_ Hn].
      apply Hn, elem_cds_names. eauto.
    - intros n Hn. rewrite Hent, Hout by done. case_decide as Hd; [done|].
      rewrite Hrem, elem_of_elements, elem_of_difference, elem_of_list_to_set in Hd.
      assert (apiClusterCache (ClusterCache_ (Cache s)) !! n = None) as Hno.
      { apply not_elem_of_dom. intros Hx. apply Hd. split; [|done].
        unfold cc_GetResourceNames. apply elem_of_dom. pose proof (Hout n Hn) as Ho.
        injection Ho as Ho _ _. cbn. rewrite Ho. by apply elem_of_dom. }
      unfold mark_entry, entry_of. cbn. by rewrite Hno. }
  destruct (cds_marked_ok _ _ _ Hmk Hcov Hsz) as [Hcov1 Hsz1]. cbn.
  eapply wp_mono; [apply flush_pointwise; [|done|done|]|].
  { unfold maglev_ready. cbn. by rewrite HM. }
  { by apply (cds_marked_fits (dr_resources resp) (ClusterCache_ (Cache s))). }
  intros [] w3 c3 (Hw3 & Hm3 & Hcov3 & Hnum & Hfl). wp_steps. cbn. rewrite Heds2, Heds. cbn.
  rewrite HH in Hnum, Hfl.
  case_match eqn:Eeq; wp_steps; (split; [by etrans; [apply same_heap_tick|]|]); split; try done;
    split; cbn; rewrite ?Eeq; try done; try (by eexists); by rewrite ?Heds2, ?Heds.
Qed.

(** *** EDS, entry by entry *)
Definition la_convertible (la : ClusterLoadAssignmentV3) : Prop :=
  exists a, newApiClusterLoadAssignment (Some la) = Done a.
Definition eds_assignment (la : ClusterLoadAssignmentV3) : ClusterLoadAssignment :=
  match newApiClusterLoadAssignment (Some la) with
  | Done a => a
  | _ => mkClusterLoadAssignment "" []
  end.
Definition cla_of (rs : list Any) : list ClusterLoadAssignmentV3 := omap to_ClusterLoadAssignment rs.
Definition cla_names (rs : list Any) : list string := cla3_cluster_name <$> cla_of rs.

Definition eds_entry (r : Any) (la : ClusterLoadAssignmentV3) (e : entry) : entry :=
  match e with
  | (Some cl, h, m) =>
      if decide (c_api_status cl = ApiStatus_WAITING \/ newHash r <> (default (0, 0) h).2) then
        (Some (c_set_assignment (Some (eds_assignment la)) (c_set_status ApiStatus_UPDATE cl)),
         Some ((default (0, 0) h).1, newHash r), m)
      else e
  | _ => e
  end.
#[local] Arguments eds_entry : simpl never.

Lemma wp_eds_resource p r la w s :
  to_ClusterLoadAssignment r = Some la -> la_convertible la ->
  wp p (handle_eds_resource r) (fun _ w' s' => w' = w /\ ads_same s s' /\
    edsClusterNames s' = edsClusterNames s /\
    entry_of (cla3_cluster_name la) (ClusterCache_ s') =
      eds_entry r la (entry_of (cla3_cluster_name la) (ClusterCache_ s)) /\
    forall n, n <> cla3_cluster_name la ->
      entry_of n (ClusterCache_ s') = entry_of n (ClusterCache_ s)) w s.
Proof.
  intros Hr [a Ha]. unfold handle_eds_resource. rewrite Hr. wp_steps.
  unfold eds_entry, entry_of, eds_assignment, GetApiCluster. rewrite Ha. cbn.
  set (name := cla3_cluster_name la). destruct (apiClusterCache _ !! name) as [cl|] eqn:Ecl;
    [|wp_steps; cbn; by rewrite Ecl].
  wp_steps. unfold GetEdsHash, hashes. cbn. case_decide as Hd; wp_steps; [|cbn; by rewrite Ecl].
  unfold CreateApiClusterByEds, GetApiCluster. wp_steps. cbn. fold name. rewrite Ecl. wp_steps.
  eapply wp_from_outcome; [done|]. wp_steps. cbn. split_and!; try done.
  - by rewrite !lookup_insert_eq.
  - intros n Hn. by rewrite !lookup_insert_ne.
Qed.

Lemma wp_eds_loop p rs : forall w s,
  NoDup (cla_names rs) -> Forall la_convertible (cla_of rs) ->
  wp p (fold_each rs tt (fun _ r => handle_eds_resource r)) (fun _ w' s' => w' = w /\ ads_same s s' /\
    edsClusterNames s' = edsClusterNames s /\
    (forall r la, r ∈ rs -> to_ClusterLoadAssignment r = Some la ->
       entry_of (cla3_cluster_name la) (ClusterCache_ s') =
       eds_entry r la (entry_of (cla3_cluster_name la) (ClusterCache_ s))) /\
    forall n, n ∉ cla_names rs -> entry_of n (ClusterCache_ s') = entry_of n (ClusterCache_ s)) w s.
Proof.
  unfold cla_names, cla_of. induction rs as [|r rs IH]; intros w s Hnd Hcv; cbn [fold_each].
  { apply wp_ret. split_and!; try done. intros r x Hr. by apply not_elem_of_nil in Hr. }
  apply wp_bind. cbn in Hnd, Hcv |- *.
  destruct (to_ClusterLoadAssignment r) as [la|] eqn:Er; cbn in Hnd, Hcv |- *.
  - apply NoDup_cons in Hnd as [Hni Hnd]. apply Forall_cons in Hcv as [Hx Hcv].
    eapply wp_mono; [by apply wp_eds_resource|]. cbn. intros [] w1 s1 (-> & Hs1 & Heds & Hent & Hoth).
    eapply wp_mono; [by apply IH|]. cbn. intros _ w2 s2 (-> & Hs2 & Heds2 & Hent2 & Hoth2).
    split_and!; [done|by eapply ads_same_trans|congruence| |].
    + intros r' la' Hr' Hla'. apply elem_of_cons in Hr' as [->|Hr'].
      * rewrite Er in Hla'. simplify_eq. by rewrite Hoth2.
      * rewrite (Hent2 r' la') by done. f_equal. apply Hoth. intros Heq. apply Hni. rewrite <-Heq.
        apply list_elem_of_fmap. exists la'. split; [done|]. apply list_elem_of_omap. eauto.
    + intros n Hn. rewrite Hoth2, Hoth; [done| |]; set_solver.
  - unfold handle_eds_resource at 1. rewrite Er. wp_steps.
    eapply wp_mono; [by apply IH|]. cbn. intros _ w2 s2 (-> & Hs2 & Heds2 & Hent2 & Hoth2).
    split_and!; try done. intros r' la' Hr' Hla'. apply elem_of_cons in Hr' as [->|Hr']; [congruence|].
    by apply Hent2.
Qed.

(** The state after an EDS response. *)
Definition eds_filled (rs : list Any) (c c1 : ClusterCache) : Prop :=
  (forall r la, r ∈ rs -> to_ClusterLoadAssignment r = Some la ->
     entry_of (cla3_cluster_name la) c1 = eds_entry r la (entry_of (cla3_cluster_name la) c)) /\
  (forall n, n ∉ cla_names rs -> entry_of n c1 = entry_of n c).

Record eds_done (resp : DiscoveryResponse) (s s' : processor) : Prop := {
  ed_entries : exists c1, eds_filled (dr_resources resp) (ClusterCache_ (Cache s)) c1 /\
    forall n, entry_of n (ClusterCache_ (Cache s')) =
      flush_entry (StrToNum n (cc_hashName (ClusterCache_ (Cache s)))) (entry_of n c1);
  ed_numbers : forall n, is_Some (apiClusterCache (ClusterCache_ (Cache s')) !! n) ->
    StrToNum n (cc_hashName (ClusterCache_ (Cache s'))) =
    StrToNum n (cc_hashName (ClusterCache_ (Cache s)));
  ed_maglev : maglev_ready (ClusterCache_ (Cache s'));
  ed_covered : covered (ClusterCache_ (Cache s'));
  ed_eds : edsClusterNames (Cache s') = edsClusterNames (Cache s);
  ed_listeners : ListenerCache_ (Cache s') = ListenerCache_ (Cache s);
  ed_routes : RouteCache_ (Cache s') = RouteCache_ (Cache s) /\
    routeNames (Cache s') = routeNames (Cache s);
  ed_ack : dq_resource_names <$> ack s' = Some (edsClusterNames (Cache s));
  ed_nonce : last_nonce s' = set_edsNonce (dr_nonce resp) (last_nonce s);
  ed_req : req s' =
    if decide (ldsNonce (last_nonce s) = "") then Some (newAdsRequest ListenerType [] "") else req s
}.

Lemma elem_cla_names n rs :
  n ∈ cla_names rs <-> exists r la, r ∈ rs /\ to_ClusterLoadAssignment r = Some la /\
    n = cla3_cluster_name la.
Proof.
  unfold cla_names, cla_of. rewrite list_elem_of_fmap. setoid_rewrite list_elem_of_omap. naive_solver.
Qed.

(** EDS neither adds nor removes clusters. *)
Lemma eds_filled_same rs c c1 n :
  eds_filled rs c c1 -> map_of_cluster c1 !! n = map_of_cluster c !! n /\
  (is_Some (apiClusterCache c1 !! n) <-> is_Some (apiClusterCache c !! n)).
Proof.
  intros [Hin Hout]. destruct (decide (n ∈ cla_names rs)) as [Hn|Hn].
  - apply elem_cla_names in Hn as (r & la & Hr & Hla & ->). specialize (Hin r la Hr Hla).
    unfold entry_of, eds_entry in Hin. repeat case_match; injection Hin as Ha Hh Hm; by rewrite Ha, Hm.
  - specialize (Hout n Hn). injection Hout as Ha Hh Hm. by rewrite Ha, Hm.
Qed.

Lemma wp_handleEdsResponse p resp w s a :
  ack s = Some a ->
  NoDup (cla_names (dr_resources resp)) -> Forall la_convertible (cla_of (dr_resources resp)) ->
  maglev_ready (ClusterCache_ (Cache s)) -> covered (ClusterCache_ (Cache s)) ->
  Z.of_nat (size (apiClusterCache (ClusterCache_ (Cache s)))) <= MAP_SIZE_OF_CLUSTER ->
  (forall c1 n cl, eds_filled (dr_resources resp) (ClusterCache_ (Cache s)) c1 ->
     apiClusterCache c1 !! n = Some cl -> c_api_status cl = ApiStatus_UPDATE ->
     cluster_fits (c_set_id (StrToNum n (cc_hashName (ClusterCache_ (Cache s)))) cl) = true) ->
  wp p (handleEdsResponse resp) (fun err w' s' =>
    same_heap w w' /\ err = None /\ eds_done resp s s') w s.
Proof.
  intros Ha Hnd Hcv Hm Hcov Hsz Hfit. unfold handleEdsResponse. wp_steps.
  eapply wp_mono; [by apply wp_eds_loop|]. cbn. intros _ w1 s1 (-> & Hs1 & Heds & Hin & Hout).
  destruct Hs1 as (HL & HR & Hrn & HH & HM).
  assert (eds_filled (dr_resources resp) (ClusterCache_ (Cache s)) (ClusterCache_ s1)) as Hf by done.
  wp_steps. cbn. rewrite Ha. wp_steps. cbn.
  assert (wp p cc_Flush (fun _ w' t => same_heap w w' /\ None = (None : option error) /\
     eds_done resp s (lset l_Cache (lset l_ClusterCache t s1)
       (mkProcessor s1 (Some (mkDiscoveryRequest (dq_type_url a) (dq_version_info a)
            (edsClusterNames s1) (dq_response_nonce a)))
          (if decide (ldsNonce (last_nonce s) = "") then Some (newAdsRequest ListenerType [] "") else req s)
          (set_edsNonce (dr_nonce resp) (last_nonce s)) (DnsResolverChan s)))) w (ClusterCache_ s1)) as Hfl.
  { eapply wp_mono; [apply flush_pointwise|].
    - unfold maglev_ready. by rewrite HM.
    - intros n Hn. destruct (eds_filled_same _ _ _ n Hf) as [E1 E2]. apply E2, Hcov. by rewrite <-E1.
    - etrans; [|exact Hsz]. apply inj_le. rewrite <-!size_dom. apply subseteq_size. intros n.
      rewrite !elem_of_dom. apply (eds_filled_same _ _ _ n Hf).
    - intros n cl Hcl Hu. rewrite HH. by eapply Hfit.
    - intros [] w3 c3 (Hw3 & Hm3 & Hcov3 & Hnum & Hfl). rewrite HH in Hnum, Hfl.
      split; [done|]. split; [done|]. split; cbn; rewrite ?Heds; try done. by eexists. }
  case_decide; wp_steps; (eapply wp_mono; [exact Hfl|]); intros [] w3 c3 Hx; wp_steps; exact Hx.
Qed.
End handlers.
