(* ===== verification/AdsSettle.v ===== *)
(** * A CDS response and the EDS response that follows it settle the clusters

    The invariant of the cluster cache relates each entry to the resources it
    was made from and to the kernel map; it holds at the start and after a
    restart, and a CDS response followed by the EDS response for its clusters
    leaves the kernel map with exactly what the two ask for. *)
From S2P Require Import Prelude Api Runtime GoNet Nets Murmur3 Maglev HashName AdsApi AdsConvert AdsCaches AdsProcessor AdsSync.

(** What the status, the number and the assignment do not say. *)
Definition core (c : Cluster) : Cluster := c_set_status 0 (c_set_id 0 (c_set_assignment None c)).

Lemma core_agree c c' status id la : core c = core c' ->
  c_set_status status (c_set_id id (c_set_assignment la c)) =
  c_set_status status (c_set_id id (c_set_assignment la c')).
Proof. destruct c, c'. unfold core, c_set_status, c_set_id, c_set_assignment. cbn. by intros [= -> -> -> ->]. Qed.

Definition is_static (x : ClusterV3) : Prop := cds_status x = ApiStatus_UPDATE.
Definition is_eds (x : ClusterV3) : Prop := c3_type x = Cluster_EDS.

Section settle.
Context `{E : Env} `{!DeletesSucceed E} `{!Accepting E MAP_SIZE_OF_CLUSTER}.
Context `{Persist} `{Library} `{Wire} `{Slices}.

(** The hash tells the resources of [U] apart, and from no resource. *)
Record collision_free (U : Any -> Prop) : Prop := {
  cf_inj : forall r r', U r -> U r' -> newHash r = newHash r' -> r = r';
  cf_nonzero : forall r, U r -> newHash r <> 0
}.

(** ** The invariant *)
Definition from_cds (U : Any -> Prop) (name : string) (hc : Z) (x : ClusterV3) : Prop :=
  exists r, U r /\ to_Cluster r = Some x /\ c3_name x = name /\ newHash r = hc.
Definition from_eds (U : Any -> Prop) (name : string) (he : Z) (la : ClusterLoadAssignmentV3) : Prop :=
  exists r, U r /\ to_ClusterLoadAssignment r = Some la /\ cla3_cluster_name la = name /\ newHash r = he.

(** An entry made from the CDS resource [x]. *)
Record made_from (U : Any -> Prop) (id : Z) (name : string) (x : ClusterV3)
    (cl : Cluster) (hc he : Z) (m : option Cluster) : Prop := {
  mf_cds : from_cds U name hc x;
  mf_core : core cl = core (cds_cluster x);
  mf_status : c_api_status cl = ApiStatus_NONE \/ c_api_status cl = ApiStatus_WAITING \/
    c_api_status cl = ApiStatus_DELETE;
  mf_written : c_api_status cl = ApiStatus_NONE ->
    m = Some (c_set_status ApiStatus_UPDATE cl) /\ c_id cl = id;
  mf_deleted : c_api_status cl = ApiStatus_DELETE -> m = None;
  mf_fresh : m = None -> he = 0;
  mf_static : is_static x ->
    c_api_status cl = ApiStatus_NONE /\ c_load_assignment cl = c_load_assignment (cds_cluster x);
  mf_eds : is_eds x -> c_api_status cl = ApiStatus_NONE ->
    exists la, from_eds U name he la /\ c_load_assignment cl = Some (eds_assignment la)
}.

Definition entry_ok (U : Any -> Prop) (id : Z) (name : string) (e : entry) : Prop :=
  match e with
  | (None, h, m) => h = None /\ m = None
  | (Some cl, None, m) => c_api_status cl = ApiStatus_NONE /\ is_Some m    (* found at a restart *)
  | (Some cl, Some (hc, he), m) => exists x, made_from U id name x cl hc he m
  end.

Definition cc_inv (U : Any -> Prop) (c : ClusterCache) : Prop :=
  maglev_ready c /\ forall n, entry_ok U (StrToNum n (cc_hashName c)) n (entry_of n c).

Lemma NoDup_fmap_eq {A B} (f : A -> B) (l : list A) x y :
  NoDup (f <$> l) -> x ∈ l -> y ∈ l -> f x = f y -> x = y.
Proof.
  induction l as [|z l IH]; cbn; [by intros _ ?%not_elem_of_nil|].
  intros [Hz Hnd]%NoDup_cons Hx Hy Hf. rewrite list_elem_of_fmap in Hz.
  apply elem_of_cons in Hx as [->|Hx], Hy as [->|Hy]; [done|destruct Hz; eauto|destruct Hz; eauto|auto].
Qed.

(** ** The invariant at the start *)
Lemma foldl_placeholders (cs : list Cluster) (m : gmap string Cluster) n :
  foldl (fun m c => <[c_name c := Cluster_zero]> m) m cs !! n =
  if decide (n ∈ c_name <$> cs) then Some Cluster_zero else m !! n.
Proof.
  revert m. induction cs as [|c cs IH]; intros m; [done|]. cbn. rewrite IH.
  destruct (decide (n ∈ c_name <$> cs)); [rewrite decide_True; [done|by apply elem_of_cons; right]|].
  destruct (decide (n = c_name c)) as [->|Hn].
  - by rewrite lookup_insert_eq, decide_True by (apply elem_of_cons; by left).
  - rewrite lookup_insert_ne, decide_False; [done| |done]. rewrite elem_of_cons. naive_solver.
Qed.

(** A daemon that starts with an empty kernel map, or restarts on one keyed by
    the names of its clusters, starts within the invariant. *)
Lemma NewClusterCache_inv p U start hn stats w c :
  maglev_ready c -> (forall n cl, map_of_cluster c !! n = Some cl -> c_name cl = n) ->
  start = Restart \/ map_of_cluster c = ∅ ->
  wp p (NewClusterCache start hn stats) (fun _ w' c' =>
    cc_inv U c' /\ map_of_cluster c' = map_of_cluster c) w c.
Proof.
  intros Hm Hkey Hst. unfold NewClusterCache, ClusterLookupAll, deserial_lookup_all_elems. wp_steps.
  destruct (decide (map_of_cluster c = ∅)) as [He|He].
  { case_decide; wp_steps; cbn; [rewrite decide_True by done; wp_steps|]; (split; [|done]);
      (split; [done|]); intros n; unfold entry_of; cbn; by rewrite He, !lookup_empty. }
  destruct Hst as [->|]; [|done]. rewrite decide_True by done. wp_steps. cbn.
  rewrite decide_False by done. wp_steps.
  match goal with Hp : _ ≡ₚ map_to_list _ |- _ => rename Hp into Hl end.
  split; [|done]. split; [done|]. intros n. unfold entry_of. cbn. rewrite foldl_placeholders, !lookup_empty.
  case_decide as Hn; rewrite list_elem_of_fmap in Hn; setoid_rewrite list_elem_of_fmap in Hn; setoid_rewrite Hl in Hn.
  - destruct Hn as (cl & -> & [k cl'] & -> & Hel). apply elem_of_map_to_list in Hel. cbn.
    rewrite (Hkey k cl' Hel), Hel. by eauto.
  - split; [done|]. destruct (map_of_cluster c !! n) as [cl|] eqn:Ecl; [|done]. destruct Hn.
    exists cl. split; [by rewrite (Hkey n cl Ecl)|]. exists (n, cl). split; [done|]. by apply elem_of_map_to_list.
Qed.

(** ** Statuses of converted clusters *)
Lemma cds_cluster_status x : convertible x -> c_api_status (cds_cluster x) = cds_status x /\ c_id (cds_cluster x) = 0.
Proof.
  intros [c Hc]. unfold cds_cluster. rewrite Hc. unfold newApiCluster in Hc.
  case_decide; [|by simplify_eq/=]. by destruct (newApiClusterLoadAssignment _); simplify_eq/=.
Qed.

Lemma cds_status_cases x : cds_status x = ApiStatus_WAITING \/ is_static x.
Proof. unfold is_static, cds_status. repeat case_match; auto. Qed.
Lemma eds_waiting x : is_eds x -> cds_status x = ApiStatus_WAITING.
Proof. unfold is_eds, cds_status. intros ->. done. Qed.

(** ** Entries through CDS *)
Lemma flush_ok U id name e : entry_ok U id name e -> flush_entry id e = e.
Proof.
  destruct e as [[[cl|] [[hc he]|]] m]; cbn; [|by intros [-> _]|done|done].
  intros [x Hx]. destruct (mf_status _ _ _ _ _ _ _ _ Hx) as [->|[->|Hd]]; [done|done|].
  rewrite Hd. cbn. by rewrite (mf_deleted _ _ _ _ _ _ _ _ Hx Hd).
Qed.

(** A cluster that the response does not name loses its kernel entry. *)
Lemma unnamed_ok U id name e : entry_ok U id name e ->
  entry_ok U id name (flush_entry id (mark_entry e)) /\ (flush_entry id (mark_entry e)).2 = None.
Proof.
  destruct e as [[[cl|] [[hc he]|]] m]; cbn; [|by intros [_ [m' ->]]|by intros [? ?]|by intros [? ->]].
  intros [x Hx]. destruct m as [m|]; [done|]. cbn. split; [|done]. exists x. destruct Hx. split; try done.
  - by right; right.
  - intros Hs. by destruct (mf_written0 (proj1 (mf_static0 Hs))).
Qed.

(** ... one that it names is made from the resource of the response. *)
Lemma named_ok U id name e r x :
  collision_free U -> entry_ok U id name e -> U r -> to_Cluster r = Some x -> c3_name x = name ->
  convertible x ->
  exists cl he m, flush_entry id (cds_entry r x e) = (Some cl, Some (newHash r, he), m) /\
    made_from U id name x cl (newHash r) he m.
Proof.
  intros HU He Hr Hx Hn Hcv. destruct (cds_cluster_status x Hcv) as [Hst Hid].
  assert (from_cds U name (newHash r) x) as Hf by (by exists r).
  destruct e as [[ocl h] m]. unfold cds_entry. case_decide as Hh.
  - assert (m = None -> (default (0, 0) h).2 = 0) as Hfresh.
    { destruct ocl as [cl|], h as [[hc he]|]; cbn in *; try done.
      - intros Hm. destruct He as [x' Hx']. by apply (mf_fresh _ _ _ _ _ _ _ _ Hx').
      - by destruct He as [? _]. }
    cbn. rewrite Hst. destruct (cds_status_cases x) as [Hw|Hs].
    + rewrite Hw. cbn. eexists _, _, _. split; [done|]. split; rewrite ?Hst, ?Hw; try done; [by auto|].
      unfold is_static. by rewrite Hw.
    + rewrite Hs. cbn. eexists _, _, _. split; [done|]. split; cbn; try done.
      { by auto. }
      { intros _. split; [|done]. unfold is_static in Hs. rewrite <-Hs, <-Hst. by destruct (cds_cluster x). }
      { intros Heds. apply eds_waiting in Heds. unfold is_static in Hs. by rewrite Hs in Heds. }
  - destruct h as [[hc he]|]; cbn in Hh.
    + destruct ocl as [cl|]; cbn in He; [|by destruct He]. subst hc.
      rewrite (flush_ok U id name) by done. exists cl, he, m. split; [done|].
      destruct He as [x' Hx']. enough (x' = x) by congruence.
      destruct (mf_cds _ _ _ _ _ _ _ _ Hx') as (r' & Hr' & Hto & _ & Heq).
      apply (cf_inj U HU) in Heq; [|done|done]. congruence.
    + by destruct (cf_nonzero U HU r Hr).
Qed.

(** ** Entries through EDS *)
Lemma assigned_ok U id name x cl hc he m r la :
  collision_free U -> made_from U id name x cl hc he m -> is_eds x ->
  U r -> to_ClusterLoadAssignment r = Some la -> cla3_cluster_name la = name ->
  exists cl' he' m', flush_entry id (eds_entry r la (Some cl, Some (hc, he), m)) =
      (Some cl', Some (hc, he'), m') /\
    made_from U id name x cl' hc he' m' /\
    m' = Some (c_set_status ApiStatus_UPDATE (c_set_id id
           (c_set_assignment (Some (eds_assignment la)) (cds_cluster x)))).
Proof.
  intros HU Hx Heds Hr Hla Hn. assert (from_eds U name (newHash r) la) as Hf by (by exists r).
  assert (~ is_static x) as Hns by (unfold is_static; by rewrite (eds_waiting x Heds)).
  unfold eds_entry. cbn [default snd fst]. case_decide as Hd.
  - cbn. eexists _, _, _. split; [done|]. split.
    + destruct Hx. split; cbn; try done; [by auto|by eauto].
    + f_equal. rewrite <-(core_agree cl) by apply Hx. by destruct cl.
  - assert (c_api_status cl <> ApiStatus_WAITING /\ newHash r = he) as [Hnw <-].
    { split; [by intros ?; apply Hd; left|]. apply dec_stable. intros ?. apply Hd. by right. }
    rewrite (flush_ok U id name) by (by exists x). exists cl, (newHash r), m. split; [done|]. split; [done|].
    destruct (mf_status _ _ _ _ _ _ _ _ Hx) as [Hs|[Hs|Hs]]; [|done|].
    + destruct (mf_written _ _ _ _ _ _ _ _ Hx Hs) as [-> Hid].
      destruct (mf_eds _ _ _ _ _ _ _ _ Hx Heds Hs) as (la' & (r' & Hr' & Hto & _ & Heq) & Hl).
      apply (cf_inj U HU) in Heq; [|done|done]. assert (la' = la) as -> by congruence.
      f_equal. rewrite <-(core_agree cl) by apply Hx. destruct cl. cbn in *. by subst.
    + exfalso. apply (cf_nonzero U HU r Hr). eapply mf_fresh; [exact Hx|]. by eapply mf_deleted.
Qed.

(** ** Whole responses *)
Abbreviation number s n := (StrToNum n (cc_hashName (ClusterCache_ (Cache s)))).
Abbreviation clusters s := (ClusterCache_ (Cache s)).

(** The kernel entry that a CDS resource and an assignment ask for. *)
Definition wanted (id : Z) (x : ClusterV3) (la : option ClusterLoadAssignmentV3) : Cluster :=
  c_set_status ApiStatus_UPDATE (c_set_id id
    match la with
    | Some la => c_set_assignment (Some (eds_assignment la)) (cds_cluster x)
    | None => cds_cluster x
    end).

Lemma entry_ok_number U id id' name e :
  (is_Some e.1.1 -> id' = id) -> entry_ok U id name e -> entry_ok U id' name e.
Proof. destruct e as [[[cl|] h] m]; cbn; [|done]. by intros ->. Qed.

Lemma cc_inv_covered U c : cc_inv U c -> covered c.
Proof.
  intros [_ He] n Hn. specialize (He n). unfold entry_of in He.
  destruct (apiClusterCache c !! n); [done|]. destruct He as [_ He]. rewrite He in Hn. by destruct Hn.
Qed.
Lemma cc_inv_calm U c : cc_inv U c -> calm c.
Proof.
  intros [_ He] n cl Hcl. specialize (He n). unfold entry_of in He. rewrite Hcl in He. cbn in He.
  destruct (cc_resourceHash c !! n) as [[hc hx]|]; [|by destruct He as [-> _]].
  destruct He as [x Hx]. by destruct (mf_status _ _ _ _ _ _ _ _ Hx) as [->|[->| ->]].
Qed.

Record cds_settled (U : Any -> Prop) (rs : list Any) (s s' : processor) : Prop := {
  cs_inv : cc_inv U (clusters s');
  cs_named : forall r x, r ∈ rs -> to_Cluster r = Some x ->
    exists cl he m, entry_of (c3_name x) (clusters s') = (Some cl, Some (newHash r, he), m) /\
      made_from U (number s (c3_name x)) (c3_name x) x cl (newHash r) he m;
  cs_numbers : forall n, n ∈ cds_names rs -> number s' n = number s n;
  cs_gone : forall n, n ∉ cds_names rs -> map_of_cluster (clusters s') !! n = None;
  cs_dom : dom (apiClusterCache (clusters s')) ⊆ dom (apiClusterCache (clusters s)) ∪ list_to_set (cds_names rs)
}.

Lemma cds_settles U resp s s' :
  collision_free U -> cc_inv U (clusters s) -> (forall r, r ∈ dr_resources resp -> U r) ->
  Forall convertible (cds_of (dr_resources resp)) ->
  cds_done resp s s' -> cds_settled U (dr_resources resp) s s'.
Proof.
  intros HU [Hm Hinv] Hr Hcv Hd. destruct (cd_entries _ _ _ Hd) as (c1 & [Hin Hout] & Hent).
  assert (forall r x, r ∈ dr_resources resp -> to_Cluster r = Some x ->
    exists cl he m, entry_of (c3_name x) (clusters s') = (Some cl, Some (newHash r, he), m) /\
      made_from U (number s (c3_name x)) (c3_name x) x cl (newHash r) he m) as Hnamed.
  { intros r x Hrr Hx. rewrite Hent, (Hin r x Hrr Hx). apply named_ok; auto.
    rewrite Forall_forall in Hcv. apply Hcv, list_elem_of_omap. eauto. }
  assert (forall n, entry_ok U (number s' n) n (entry_of n (clusters s'))) as Hok.
  { intros n. eapply entry_ok_number; [apply (cd_numbers _ _ _ Hd)|].
    destruct (decide (n ∈ cds_names (dr_resources resp))) as [Hn|Hn].
    - apply elem_cds_names in Hn as (r & x & Hrr & Hx & ->).
      destruct (Hnamed r x Hrr Hx) as (cl & he & m & -> & Hmf). by exists x.
    - rewrite Hent, (Hout n Hn). by apply unnamed_ok. }
  split; [by split; [apply Hd|]|done| | |].
  - intros n Hn. apply elem_cds_names in Hn as (r & x & Hrr & Hx & ->). apply (cd_numbers _ _ _ Hd).
    destruct (Hnamed r x Hrr Hx) as (cl & he & m & Heq & _). injection Heq as -> _ _. by eexists.
  - intros n Hn. specialize (Hent n). rewrite (Hout n Hn) in Hent.
    destruct (unnamed_ok U (number s n) n _ (Hinv n)) as [_ Hnone]. rewrite <-Hent in Hnone. exact Hnone.
  - intros n. rewrite elem_of_union, !elem_of_dom, elem_of_list_to_set. intros Hn.
    destruct (decide (n ∈ cds_names (dr_resources resp))) as [|Hn']; [by right|left].
    specialize (Hent n). rewrite (Hout n Hn') in Hent. unfold entry_of in Hent.
    destruct (apiClusterCache (clusters s) !! n); [done|]. injection Hent as Ha _ _.
    rewrite Ha in Hn. by destruct Hn.
Qed.

(** EDS after CDS: [x] is the CDS resource of the cluster. *)
Lemma eds_settles U rc re s0 s s' :
  collision_free U -> cds_settled U rc s0 s -> (forall r, r ∈ dr_resources re -> U r) ->
  (forall n, n ∈ cla_names (dr_resources re) -> n ∈ eds_names rc) ->
  eds_done re s s' ->
  cc_inv U (clusters s') /\
      (forall r x e la, r ∈ rc -> to_Cluster r = Some x -> is_eds x ->
     e ∈ dr_resources re -> to_ClusterLoadAssignment e = Some la ->
     cla3_cluster_name la = c3_name x ->
     map_of_cluster (clusters s') !! c3_name x = Some (wanted (number s0 (c3_name x)) x (Some la))) /\
      (forall n, n ∉ cla_names (dr_resources re) ->
     entry_of n (clusters s') = entry_of n (clusters s)).
Proof.
  intros HU Hc Hr Hsub Hd. destruct (ed_entries _ _ _ Hd) as (c1 & [Hin Hout] & Hent).
  assert (forall r x e la, r ∈ rc -> to_Cluster r = Some x -> is_eds x -> e ∈ dr_resources re ->
    to_ClusterLoadAssignment e = Some la -> cla3_cluster_name la = c3_name x ->
    exists cl hc he, entry_of (c3_name x) (clusters s') =
      (Some cl, Some (hc, he), Some (wanted (number s0 (c3_name x)) x (Some la))) /\
      made_from U (number s0 (c3_name x)) (c3_name x) x cl hc he
        (Some (wanted (number s0 (c3_name x)) x (Some la)))) as Hkey.
  { intros r x e la Hrr Hx Heds He Hla Hn.
    destruct (cs_named _ _ _ _ Hc r x Hrr Hx) as (cl & he & m & Heq & Hmf).
    rewrite Hent, <-Hn, (Hin e la He Hla), Hn, Heq, (cs_numbers _ _ _ _ Hc) by (apply elem_cds_names; eauto).
    destruct (assigned_ok U _ _ x cl (newHash r) he m e la HU Hmf Heds (Hr e He) Hla Hn)
      as (cl' & he' & m' & -> & Hmf' & ->). eauto. }
  assert (forall n, n ∉ cla_names (dr_resources re) ->
     entry_of n (clusters s') = entry_of n (clusters s)) as Hsame.
  { intros n Hn. rewrite Hent, (Hout n Hn). eapply flush_ok, Hc. }
  split_and!; [split; [apply Hd|]| |done].
  - intros n. eapply entry_ok_number; [apply (ed_numbers _ _ _ Hd)|].
    destruct (decide (n ∈ cla_names (dr_resources re))) as [Hn|Hn]; [|rewrite Hsame by done; apply Hc].
    pose proof (Hsub n Hn) as Hn'. apply elem_cla_names in Hn as (e & la & He & Hla & ->).
    unfold eds_names in Hn'. apply list_elem_of_fmap in Hn' as (x & Hnx & Hx).
    apply list_elem_of_filter in Hx as [Heds Hx]. apply list_elem_of_omap in Hx as (r & Hrr & Hx).
    destruct (Hkey r x e la Hrr Hx Heds He Hla Hnx) as (cl & hc & he & Heq & Hmf).
    rewrite Hnx, Heq, (cs_numbers _ _ _ _ Hc) by (apply elem_cds_names; eauto). by exists x.
  - intros r x e la Hrr Hx Heds He Hla Hn.
    destruct (Hkey r x e la Hrr Hx Heds He Hla Hn) as (cl & hc & he & Heq & _). by injection Heq.
Qed.

(** The entries that EDS makes for the kernel are the ones the responses ask for. *)
Lemma eds_updates_fit U rc re s0 s c1 n cl :
  cds_settled U rc s0 s ->
  (forall n, n ∈ cla_names (dr_resources re) -> n ∈ eds_names rc) ->
  (forall x la, x ∈ cds_of rc -> la ∈ cla_of (dr_resources re) -> cla3_cluster_name la = c3_name x ->
     cluster_fits (wanted (number s0 (c3_name x)) x (Some la)) = true) ->
  eds_filled (dr_resources re) (clusters s) c1 ->
  apiClusterCache c1 !! n = Some cl -> c_api_status cl = ApiStatus_UPDATE ->
  cluster_fits (c_set_id (number s n) cl) = true.
Proof.
  intros Hc Hsub Hfit [Hin Hout] Hcl Hu.
  assert (calm (clusters s)) as Hcalm by (by eapply cc_inv_calm, Hc).
  destruct (decide (n ∈ cla_names (dr_resources re))) as [Hn|Hn].
  2: { specialize (Hout n Hn). injection Hout as Ha _ _. rewrite Ha in Hcl. by apply Hcalm in Hcl. }
  pose proof (Hsub n Hn) as Hn'. apply elem_cla_names in Hn as (e & la & He & Hla & ->).
  apply list_elem_of_fmap in Hn' as (x & Hnx & Hx).
  apply list_elem_of_filter in Hx as [Heds Hx]. apply list_elem_of_omap in Hx as (r & Hrr & Hx).
  specialize (Hin e la He Hla). destruct (cs_named _ _ _ _ Hc r x Hrr Hx) as (cl0 & he & m & Heq & Hmf).
  rewrite Hnx, Heq in Hin. unfold eds_entry in Hin. rewrite <-Hnx in Hin. case_decide.
  - injection Hin as Ha _ _. rewrite Ha in Hcl. injection Hcl as <-.
    rewrite Hnx, (cs_numbers _ _ _ _ Hc) by (apply elem_cds_names; eauto).
    rewrite <-(Hfit x la); [|apply list_elem_of_omap; eauto|apply list_elem_of_omap; eauto|done].
    f_equal. unfold wanted. rewrite <-(core_agree cl0) by apply Hmf. by destruct cl0.
  - injection Hin as Ha _ _. rewrite Ha in Hcl. injection Hcl as <-.
    destruct (mf_status _ _ _ _ _ _ _ _ Hmf) as [Hs|[Hs|Hs]]; by rewrite Hs in Hu.
Qed.

Definition handle_stream (resps : list DiscoveryResponse) : Go processor unit :=
  fold_each resps tt (fun _ resp => HandleAdsStream (inl resp);; mret tt).

(** What the theorems ask of a CDS response, and of the EDS response after it. *)
Record cds_acceptable (U : Any -> Prop) (s : processor) (rc : DiscoveryResponse) : Prop := {
  ca_type : dr_type_url rc = ClusterType;
  ca_resources : forall r, r ∈ dr_resources rc -> U r;
  ca_some : dr_resources rc <> [];
  ca_once : NoDup (cds_names (dr_resources rc));
  ca_ok : Forall convertible (cds_of (dr_resources rc));
  ca_room : Z.of_nat (size (dom (apiClusterCache (clusters s)) ∪
                            list_to_set (cds_names (dr_resources rc)))) <= MAP_SIZE_OF_CLUSTER;
  ca_fits : forall x, x ∈ cds_of (dr_resources rc) -> is_static x ->
    cluster_fits (wanted (number s (c3_name x)) x None) = true
}.

Record settling (U : Any -> Prop) (s : processor) (rc re : DiscoveryResponse) : Prop := {
  st_cds : cds_acceptable U s rc;
  st_type : dr_type_url re = EndpointType;
  st_resources : forall r, r ∈ dr_resources re -> U r;
  st_some : dr_resources re <> [];
  st_ok : Forall la_convertible (cla_of (dr_resources re));
  st_names : cla_names (dr_resources re) ≡ₚ eds_names (dr_resources rc);
  st_fits : forall x la, x ∈ cds_of (dr_resources rc) -> la ∈ cla_of (dr_resources re) ->
    cla3_cluster_name la = c3_name x ->
    cluster_fits (wanted (number s (c3_name x)) x (Some la)) = true
}.

Lemma settled_static U id x cl hc he m :
  convertible x -> is_static x -> made_from U id (c3_name x) x cl hc he m -> m = Some (wanted id x None).
Proof.
  intros Hcv Hs Hmf. destruct (mf_static _ _ _ _ _ _ _ _ Hmf Hs) as [Hn Hla].
  destruct (mf_written _ _ _ _ _ _ _ _ Hmf Hn) as [-> <-]. f_equal. unfold wanted.
  transitivity (c_set_status ApiStatus_UPDATE (c_set_id (c_id cl)
     (c_set_assignment (c_load_assignment (cds_cluster x)) (cds_cluster x)))).
  - rewrite <-(core_agree cl), <-Hla by apply Hmf. by destruct cl.
  - by destruct (cds_cluster x).
Qed.

Lemma wanted_static x : convertible x -> is_static x ->
  forall id, wanted id x None = c_set_id id (cds_cluster x).
Proof.
  intros Hcv Hs id. destruct (cds_cluster_status x Hcv) as [Hst _]. rewrite Hs in Hst.
  unfold wanted. rewrite <-Hst. by destruct (cds_cluster x).
Qed.

Lemma wp_stream_cds p U rc w s :
  collision_free U -> cc_inv U (clusters s) -> cds_acceptable U s rc ->
  wp p (HandleAdsStream (inl rc)) (fun out w' s' =>
    cds_settled U (dr_resources rc) s s' /\ edsClusterNames (Cache s') = eds_names (dr_resources rc) /\
    last_nonce s' = set_cdsNonce (dr_nonce rc) (last_nonce s) /\
    req s' = None /\
    out = (newAckRequest rc :: option_list
      (if EqualUnordered (eds_names (dr_resources rc)) (edsClusterNames (Cache s)) then req s
       else Some (newAdsRequest EndpointType (eds_names (dr_resources rc)) "")), None)) w s.
Proof.
  intros HU Hinv [Htc Hres Hc0 Hnd Hcv Hsz Hf1].
  unfold HandleAdsStream, processAdsResponse. wp_steps. cbn.
  rewrite decide_False by done. rewrite Htc. wp_steps.
  eapply wp_mono; [apply wp_handleCdsResponse; try done|].
  { apply Hinv. } { by eapply cc_inv_covered. } { by eapply cc_inv_calm. }
  { intros x Hx Hs. rewrite <-(Hf1 x Hx Hs). f_equal. symmetry. apply wanted_static; [|done].
    rewrite Forall_forall in Hcv. by apply Hcv. }
  intros err w1 s1 (Hw1 & _ & Hd1). wp_steps.
  assert (cds_settled U (dr_resources rc) (set_ack (Some (newAckRequest rc)) s) s1) as Hs.
  { by eapply cds_settles. }
  split; [by destruct Hs|]. cbn. rewrite (cd_ack _ _ _ Hd1), (cd_nonce _ _ _ Hd1), (cd_req _ _ _ Hd1), (cd_eds _ _ _ Hd1). done.
Qed.

Lemma eds_names_once rs : NoDup (cds_names rs) -> NoDup (eds_names rs).
Proof.
  intros Hnd. unfold eds_names. apply NoDup_fmap_2_strong; [|apply NoDup_filter; by eapply NoDup_fmap_1].
  intros x y [_ Hx]%list_elem_of_filter [_ Hy]%list_elem_of_filter. by eapply (NoDup_fmap_eq c3_name).
Qed.

Lemma wp_stream_eds p U rc re w s0 s :
  collision_free U -> settling U s0 rc re -> cds_settled U (dr_resources rc) s0 s ->
  wp p (HandleAdsStream (inl re)) (fun out w' s' =>
    exists s1, eds_done re (set_ack (Some (newAckRequest re)) s) s1 /\ clusters s' = clusters s1 /\
    exists a, dq_resource_names a = edsClusterNames (Cache s) /\
      out = (a :: option_list (if decide (ldsNonce (last_nonce s) = "")
                               then Some (newAdsRequest ListenerType [] "") else req s), None)) w s.
Proof.
  intros HU [[_ _ _ Hnd _ Hsz _] Hte Hres He0 Hla Hperm Hf2] Hs.
  unfold HandleAdsStream, processAdsResponse. wp_steps. cbn.
  rewrite decide_False by done. rewrite Hte. wp_steps.
  eapply wp_mono; [eapply wp_handleEdsResponse; try done|].
  - rewrite Hperm. by apply eds_names_once.
  - apply Hs.
  - eapply cc_inv_covered, Hs.
  - etrans; [|exact Hsz]. apply inj_le. rewrite <-size_dom. apply subseteq_size, Hs.
  - intros c1 n cl Hfl Hcl Hu. eapply (eds_updates_fit U (dr_resources rc) re s0 s); try done.
    intros n' Hn'. by rewrite <-Hperm.
  - intros err w1 s1 (_ & _ & Hd). wp_steps. exists s1. split; [done|]. split; [done|].
    pose proof (ed_ack _ _ _ Hd) as Hack. pose proof (ed_req _ _ _ Hd) as Hreq. cbn in Hack, Hreq.
    destruct (ack s1) as [a|]; [|done]. injection Hack as Hack. exists a. rewrite Hreq. done.
Qed.

(** C5: Whatever the daemon has seen before, a CDS response and the EDS
    response that gives an assignment for each of its EDS clusters leave the
    kernel cluster map with exactly what they ask for: an EDS cluster with the
    assignment of the second response, a static one with its own, and no
    entry under any name the first does not mention.  Nothing else the
    responses leave behind (hashes, statuses) can break the next round: the
    invariant holds again. *)
Theorem clusters_settle U rc re w s :
  collision_free U -> cc_inv U (clusters s) -> settling U s rc re ->
  wp false (handle_stream [rc; re]) (fun _ w' s' =>
    cc_inv U (clusters s') /\
    (forall x la, x ∈ cds_of (dr_resources rc) -> is_eds x ->
       la ∈ cla_of (dr_resources re) -> cla3_cluster_name la = c3_name x ->
       map_of_cluster (clusters s') !! c3_name x = Some (wanted (number s (c3_name x)) x (Some la))) /\
    (forall x, x ∈ cds_of (dr_resources rc) -> is_static x ->
       map_of_cluster (clusters s') !! c3_name x = Some (wanted (number s (c3_name x)) x None)) /\
    (forall n, n ∉ cds_names (dr_resources rc) -> map_of_cluster (clusters s') !! n = None)) w s.
Proof.
  intros HU Hinv Hst. unfold handle_stream. cbn [fold_each]. wp_steps.
  eapply wp_mono; [by eapply wp_stream_cds, Hst|]. intros ? w1 s1 (Hs1 & _). wp_steps.
  eapply wp_mono; [by eapply wp_stream_eds|]. intros ? w2 s2 (s2' & Hd & Heq & _). wp_steps. rewrite Heq.
  destruct Hst as [[_ _ _ Hnd Hcv _ _] _ Hres _ _ Hperm _].
  destruct (eds_settles U (dr_resources rc) re s (set_ack (Some (newAckRequest re)) s1) s2' HU)
    as (Hinv2 & Heds & Hrest); [by destruct Hs1| | |done|].
  { done. } { intros n Hn. by rewrite <-Hperm. }
  split_and!; [done| | |].
  - intros x la Hx He Hla Hn. apply list_elem_of_omap in Hx as (r & Hr & Hx).
    apply list_elem_of_omap in Hla as (e & He' & Hla). by eapply Heds.
  - intros x Hx Hs. rewrite Forall_forall in Hcv. pose proof (Hcv x Hx) as Hcx.
    apply list_elem_of_omap in Hx as (r & Hr & Hx).
    destruct (cs_named _ _ _ _ Hs1 r x Hr Hx) as (cl & he & m & Hent & Hmf).
    rewrite <-(settled_static U _ x cl _ _ _ Hcx Hs Hmf). rewrite <-Hrest in Hent; [by injection Hent|].
    rewrite Hperm. intros (y & Hny & Hy)%list_elem_of_fmap.
    apply list_elem_of_filter in Hy as [Hey Hy].
    assert (x = y) as <- by (eapply (NoDup_fmap_eq c3_name); try done; apply list_elem_of_omap; eauto).
    apply eds_waiting in Hey. unfold is_static in Hs. by rewrite Hs in Hey.
  - intros n Hn. assert (n ∉ cla_names (dr_resources re)) as Hn'.
    { rewrite Hperm. intros (y & -> & Hy)%list_elem_of_fmap. apply Hn, list_elem_of_fmap.
      apply list_elem_of_filter in Hy as [_ Hy]. eauto. }
    apply Hrest in Hn'. injection Hn' as _ _ ->. by apply (cs_gone _ _ _ _ Hs1).
Qed.

(** ** The requests of a stream *)
Definition stream_requests (resps : list DiscoveryResponse) : Go processor (list DiscoveryRequest) :=
  first ← AdsStreamCreateAndSend None None;
  fold_each resps (fst first) (fun sent resp =>
    r ← HandleAdsStream (inl resp); mret (sent ++ fst r)).

Lemma cds_acceptable_reset U s rc : cds_acceptable U s rc -> cds_acceptable U (Reset s) rc.
Proof. by intros []. Qed.
Lemma settling_reset U s rc re : settling U s rc re -> settling U (Reset s) rc re.
Proof. intros []. split; try done. by apply cds_acceptable_reset. Qed.

(** C22: A new stream asks for the clusters, then, on the CDS response, for the
    endpoints of exactly the EDS clusters in it, and on the EDS response for
    the listeners; every response is acknowledged, the EDS one with the names
    subscribed to. *)
Theorem stream_subscribes U rc re w s :
  collision_free U -> cc_inv U (clusters s) -> settling U s rc re -> req s = None ->
  eds_names (dr_resources rc) <> [] ->
  wp false (stream_requests [rc; re]) (fun out w' s' =>
    exists a, dq_resource_names a = eds_names (dr_resources rc) /\
      out = [newAdsRequest ClusterType [] ""; newAckRequest rc;
             newAdsRequest EndpointType (eds_names (dr_resources rc)) "";
             a; newAdsRequest ListenerType [] ""]) w s.
Proof.
  intros HU Hinv Hst Hreq Hne. unfold stream_requests, AdsStreamCreateAndSend. cbn [fold_each]. wp_steps.
  apply settling_reset in Hst. eapply wp_mono; [eapply wp_stream_cds; [done|done|apply Hst]|].
  intros out w1 s1 (Hs1 & Heds & Hnonce & Hr & Ho). wp_steps.
  eapply wp_mono; [by eapply wp_stream_eds|].
  intros out' w2 s2 (s2' & Hd & _ & a & Ha & Ho'). wp_steps. exists a. split; [congruence|].
  rewrite Ho', Ho, Hnonce. cbn. destruct (EqualUnordered _ _) eqn:Eq; [|done].
  apply EqualUnordered_spec in Eq; [|by apply eds_names_once, Hst|by constructor].
  by apply Permutation_nil_r in Eq.
Qed.

(** The clusters sent again are as acceptable as the first time. *)
Lemma cds_acceptable_again U s s' rc :
  cds_acceptable U s rc -> cds_settled U (dr_resources rc) s s' -> cds_acceptable U s' rc.
Proof.
  intros [] Hs. split; try done.
  - etrans; [|exact ca_room0]. apply inj_le, subseteq_size. pose proof (cs_dom _ _ _ _ Hs). set_solver.
  - intros x Hx Hst. rewrite (cs_numbers _ _ _ _ Hs); [auto|].
    apply list_elem_of_fmap. eauto.
Qed.

Lemma wp_static_clusters p U rc k : forall w s sent,
  collision_free U -> cc_inv U (clusters s) -> cds_acceptable U s rc -> req s = None ->
  eds_names (dr_resources rc) = [] -> edsClusterNames (Cache s) = [] ->
  wp p (fold_each (replicate k rc) sent (fun sent resp =>
          r ← HandleAdsStream (inl resp); mret (sent ++ fst r)))
    (fun out w' s' => out = sent ++ replicate k (newAckRequest rc)) w s.
Proof.
  induction k as [|k IH]; intros w s sent HU Hinv Hca Hreq Hno Heds; cbn [fold_each replicate].
  { apply wp_ret. by rewrite app_nil_r. }
  wp_steps. eapply wp_mono; [by eapply wp_stream_cds|].
  intros out w1 s1 (Hs1 & Heds1 & Hnonce & Hr & Ho). wp_steps.
  rewrite Hno, Heds, Hreq in Ho. rewrite (proj2 (EqualUnordered_spec [] [] (NoDup_nil_2) (NoDup_nil_2)) (Permutation_refl _)) in Ho.
  eapply wp_mono; [apply IH; try done|].
  - apply Hs1.
  - by eapply cds_acceptable_again.
  - congruence.
  - intros out' w2 s2 ->. by rewrite Ho, <-app_assoc.
Qed.

(** C36: When no cluster of the mesh is an EDS cluster the daemon never asks for
    listeners: however many times the server sends the clusters, the only
    requests on the stream are those for clusters. *)
Theorem no_eds_no_listeners U rc w s k :
  collision_free U -> cc_inv U (clusters s) -> cds_acceptable U s rc -> req s = None ->
  eds_names (dr_resources rc) = [] ->
  wp false (stream_requests (replicate k rc)) (fun out w' s' =>
    out = newAdsRequest ClusterType [] "" :: replicate k (newAckRequest rc)) w s.
Proof.
  intros HU Hinv Hca Hreq Hno. unfold stream_requests, AdsStreamCreateAndSend. wp_steps.
  eapply wp_mono; [apply (wp_static_clusters false U); try done; by apply cds_acceptable_reset|].
  by intros out w1 s1 ->.
Qed.
End settle.

(** ** A concrete mesh

    Resources are identified by their type URL.  The daemon restarts on a
    kernel map that still holds the cluster [old]; the server then sends an
    EDS cluster [web] with two endpoints and a static cluster [db]. *)
Definition ep3 (ip : string) (port : Z) : LbEndpointV3 :=
  mkLbEndpointV3 0 (Some (Address_SocketAddress (Some (mkSocketAddressV3 SocketAddress_TCP ip port)))) (Some 1).
Definition la3 (name : string) (eps : list LbEndpointV3) : ClusterLoadAssignmentV3 :=
  mkClusterLoadAssignmentV3 name [mkLocalityLbEndpointsV3 (Some 1) 0 eps].
Definition web3 : ClusterV3 := mkClusterV3 "web" Cluster_EDS 1 0 None None 0.
Definition db3 : ClusterV3 :=
  mkClusterV3 "db" Cluster_STATIC 5 0 None (Some (la3 "db" [ep3 "10.0.0.9" 5432])) 0.
Definition web_la3 : ClusterLoadAssignmentV3 := la3 "web" [ep3 "10.0.0.1" 80; ep3 "10.0.0.2" 80].

Definition rWeb : Any := mkAny "cds-web" [].
Definition rDb : Any := mkAny "cds-db" [].
Definition rEds : Any := mkAny "eds-web" [].

Definition DemoWire : Wire := {|
  any_String := type_url;
  to_Cluster := fun a => if decide (a = rWeb) then Some web3 else if decide (a = rDb) then Some db3 else None;
  to_ClusterLoadAssignment := fun a => if decide (a = rEds) then Some web_la3 else None;
  to_Listener := fun _ => None;
  to_RouteConfiguration := fun _ => None;
  to_TcpProxy := fun _ => None;
  to_HttpConnectionManager := fun _ => None;
  xxhash_Sum64String := fun s =>
    if decide (s = "cds-web") then 11 else if decide (s = "cds-db") then 22 else 33
|}.
Definition DemoLibrary : Library := {|
  cluster_fits := fun _ => true;
  listener_fits := fun _ => true;
  route_fits := fun _ => true;
  maglev_reply := fun _ => {| new_map := None; inner_update := None; outer_update := None |};
  batch_fails := fun _ => None;
  sa_String := fun _ => "addr"
|}.
Lemma EqualUnordered_dec_spec (a b : list string) :
  NoDup a -> NoDup b -> bool_decide (a ≡ₚ b) = true <-> a ≡ₚ b.
Proof. intros _ _. apply bool_decide_eq_true. Qed.
Definition DemoSlices : Slices := {|
  EqualUnordered := fun a b => bool_decide (a ≡ₚ b);
  EqualUnordered_spec := EqualUnordered_dec_spec
|}.
Lemma EnvOk_accepting : Accepting EnvOk MAP_SIZE_OF_CLUSTER.
Proof. intros n sz Hsz. apply updates_succeed. unfold MAP_SIZE_OF_CLUSTER, max_entries in *. lia. Qed.

Definition demo_world : World := mkWorld 0 ∅ ∅.
Definition demo_maglev : MaglevState :=
  {| outer := Some ∅; seedMurmur := 0; maglevTableSize := DefaultTableSize |}.
Definition old_cluster : Cluster := cds_cluster (mkClusterV3 "old" Cluster_STATIC 1 0 None None 0).
Definition demo_clusters : ClusterCache :=
  mkClusterCache {["old" := Cluster_zero]} ∅ (mkHashName ∅ ∅ None) None {["old" := old_cluster]} demo_maglev.
Definition demo_ads : processor :=
  mkProcessor (mkAdsCache [] [] (mkListenerCache ∅ ∅ ∅) demo_clusters (mkRouteConfigCache ∅ ∅ ∅))
    None None lastNonce_zero None.
Definition demo_cds : DiscoveryResponse := mkDiscoveryResponse ClusterType "v1" [rWeb; rDb] "n1".
Definition demo_eds : DiscoveryResponse := mkDiscoveryResponse EndpointType "v1" [rEds] "n2".
Definition demo_U (r : Any) : Prop := r = rWeb \/ r = rDb \/ r = rEds.

#[local] Existing Instances EnvOk PersistOk DemoWire DemoLibrary DemoSlices EnvOk_accepting.

Lemma demo_collision_free : collision_free demo_U.
Proof.
  split.
  - intros r r' [->|[->| ->]] [->|[->| ->]]; done.
  - intros r [->|[->| ->]]; done.
Qed.

Lemma demo_inv : cc_inv demo_U demo_clusters.
Proof.
  split; [done|]. intros n. unfold entry_of. cbn. rewrite lookup_empty.
  destruct (decide (n = "old")) as [->|Hn]; [by rewrite !lookup_singleton_eq; eauto|].
  by rewrite !lookup_singleton_ne by done.
Qed.

Lemma demo_settling : settling demo_U demo_ads demo_cds demo_eds.
Proof.
  split; [split| | | | | |].
  - reflexivity.
  - intros r Hr. apply elem_of_cons in Hr as [->|Hr]; [by left|].
    apply list_elem_of_singleton in Hr as ->. by right; left.
  - discriminate.
  - refine (bool_decide_unpack _ _). by vm_compute.
  - repeat constructor; eexists; vm_compute; reflexivity.
  - by vm_compute.
  - intros x _ _. reflexivity.
  - reflexivity.
  - intros r Hr. apply list_elem_of_singleton in Hr as ->. by right; right.
  - discriminate.
  - repeat constructor; eexists; vm_compute; reflexivity.
  - vm_compute. reflexivity.
  - intros x la _ _ _. reflexivity.
Qed.

Lemma clusters_settle_witness :
  collision_free demo_U /\ cc_inv demo_U demo_clusters /\ settling demo_U demo_ads demo_cds demo_eds /\
  wp false (handle_stream [demo_cds; demo_eds]) (fun _ _ s' =>
    map_of_cluster (ClusterCache_ (Cache s')) !! "web" = Some (wanted 0 web3 (Some web_la3)) /\
    map_of_cluster (ClusterCache_ (Cache s')) !! "db" = Some (wanted 0 db3 None) /\
    map_of_cluster (ClusterCache_ (Cache s')) !! "old" = None) demo_world demo_ads.
Proof.
  split; [exact demo_collision_free|]. split; [exact demo_inv|]. split; [exact demo_settling|].
  eapply wp_mono;
    [exact (clusters_settle demo_U demo_cds demo_eds demo_world demo_ads demo_collision_free demo_inv demo_settling)|].
  intros _ w s (_ & He & Hs & Hg). split_and!.
  - apply (He web3 web_la3); vm_compute; try done; repeat constructor.
  - apply (Hs db3); vm_compute; try done; repeat constructor.
  - apply Hg. refine (bool_decide_unpack _ _). by vm_compute.
Defined.

Lemma stream_subscribes_witness :
  wp false (stream_requests [demo_cds; demo_eds]) (fun out _ _ => exists a,
    dq_resource_names a = ["web"] /\
    out = [newAdsRequest ClusterType [] ""; newAckRequest demo_cds;
           newAdsRequest EndpointType ["web"] ""; a; newAdsRequest ListenerType [] ""]) demo_world demo_ads.
Proof.
  exact (stream_subscribes demo_U demo_cds demo_eds demo_world demo_ads
           demo_collision_free demo_inv demo_settling eq_refl ltac:(done)).
Defined.

Definition static_cds : DiscoveryResponse := mkDiscoveryResponse ClusterType "v1" [rDb] "n1".
Lemma static_acceptable : cds_acceptable demo_U demo_ads static_cds.
Proof.
  split.
  - reflexivity.
  - intros r Hr. apply list_elem_of_singleton in Hr as ->. by right; left.
  - discriminate.
  - refine (bool_decide_unpack _ _). by vm_compute.
  - repeat constructor; eexists; vm_compute; reflexivity.
  - by vm_compute.
  - intros x _ _. reflexivity.
Qed.

Lemma no_eds_no_listeners_witness :
  cds_acceptable demo_U demo_ads static_cds /\
  wp false (stream_requests (replicate 3 static_cds)) (fun out _ _ =>
    out = newAdsRequest ClusterType [] "" :: replicate 3 (newAckRequest static_cds)) demo_world demo_ads.
Proof.
  split; [exact static_acceptable|].
  exact (no_eds_no_listeners demo_U static_cds demo_world demo_ads 3
           demo_collision_free demo_inv static_acceptable eq_refl eq_refl).
Defined.
