(* ===== verification/AdsScenarios.v ===== *)
(** * Discovery responses that crash the daemon or leave the kernel maps stale *)
From S2P Require Import Prelude Api Runtime GoNet Nets Murmur3 Maglev HashName AdsApi AdsConvert AdsCaches AdsProcessor AdsSync AdsSettle.

(** ** An IPv6 endpoint *)
Section crash.
Context `{E : Env} `{Persist} `{Library} `{Wire} `{Slices}.

Lemma wp_no_result {S A} (m : Go S A) w s :
  wp true m (fun _ _ _ => False) w s -> exists why, m w s = Panic why.
Proof. unfold wp. destruct (m w s) as [[[a w'] s']|why|]; [done|by eexists|done]. Qed.
Lemma wp_crash {S A} (o : outcome A) why (Q : A -> World -> S -> Prop) w s :
  o = Panic why -> wp true (from_outcome o) Q w s.
Proof. by intros ->. Qed.

(** An EDS response whose first assignment gives a cluster that waits for
    its endpoints a TCP endpoint with an IPv6 address crashes the daemon. *)
Theorem ipv6_endpoint_crashes resp r rest la cl w s :
  dr_type_url resp = EndpointType -> dr_resources resp = r :: rest ->
  to_ClusterLoadAssignment r = Some la ->
  apiClusterCache (ClusterCache_ (Cache s)) !! cla3_cluster_name la = Some cl ->
  c_api_status cl = ApiStatus_WAITING ->
  Exists (fun x => Exists v6_text (ll3_lb_endpoints x)) (cla3_endpoints la) ->
  exists why, processAdsResponse resp w s = Panic why.
Proof.
  intros Hurl Hres Hto Hcl Hst Hv6.
  assert (exists why, newApiClusterLoadAssignment (Some la) = Panic why) as [why Hp].
  { unfold newApiClusterLoadAssignment. cbn. pose proof (newApiLocalities_spec (cla3_endpoints la)) as Hs.
    destruct (newApiLocalities _) as [a|why|]; [|by eexists|done].
    destruct Hs as [Hno _]. by apply Forall_not_Exists in Hno. }
  apply wp_no_result. unfold processAdsResponse. wp_steps. cbn.
  rewrite decide_False by (by rewrite Hres). rewrite Hurl, decide_False by done. rewrite decide_True by done. wp_steps.
  unfold handleEdsResponse. wp_steps. rewrite Hres. cbn [fold_each]. unfold handle_eds_resource. rewrite Hto.
  wp_steps. unfold GetApiCluster. cbn. rewrite Hcl. wp_steps. rewrite decide_True by (by left). wp_steps.
  unfold CreateApiClusterByEds, GetApiCluster. wp_steps. cbn. rewrite Hcl. wp_steps. by eapply wp_crash.
Qed.
End crash.

(** ** A concrete server *)
Definition v6_la : ClusterLoadAssignmentV3 := la3 "web" [ep3 "10.0.0.1" 80; ep3 "fd00::1" 80].
Definition listener_at (ip : string) : ListenerV3 :=
  mkListenerV3 "inbound" (Some (Address_SocketAddress (Some (mkSocketAddressV3 SocketAddress_TCP ip 80)))) [].
Definition route_to (cluster : string) : RouteV3 :=
  mkRouteV3 "r" None (Route_Route3 (Some (mkRouteActionV3 (RouteAction_Cluster3 cluster) 0 None []))).
Definition routes_of (hosts : list VirtualHostV3) : RouteConfigurationV3 := mkRouteConfigurationV3 "http" hosts.

Definition table {A} (l : list (string * A)) (a : Any) : option A :=
  snd <$> find (fun kv => bool_decide (kv.1 = type_url a)) l.
Definition StaleWire : Wire := {|
  any_String := type_url;
  to_Cluster := table [("cds-web", web3)];
  to_ClusterLoadAssignment := table [("eds-v6", v6_la)];
  to_Listener := table [("lds-1", listener_at "10.0.0.1"); ("lds-2", listener_at "10.0.0.2")];
  to_RouteConfiguration :=
    table [("rds-1", routes_of [mkVirtualHostV3 "web" ["*"] [route_to "web"]]); ("rds-2", routes_of [])];
  to_TcpProxy := fun _ => None;
  to_HttpConnectionManager := fun _ => None;
  xxhash_Sum64String := fun s =>
    from_option (fun r => Z.of_nat r.1) 0 (list_find (fun x => x = s) ["cds-web"; "eds-v6"; "lds-1"; "lds-2"; "rds-1"; "rds-2"]) + 1
|}.
#[local] Existing Instances EnvOk PersistOk StaleWire DemoLibrary DemoSlices.

Definition response_of (url : string) (names : list string) : DiscoveryResponse :=
  mkDiscoveryResponse url "v" ((fun n => mkAny n []) <$> names) "n".
Definition empty_ads : processor :=
  mkProcessor (mkAdsCache [] [] (mkListenerCache ∅ ∅ ∅)
      (mkClusterCache ∅ ∅ (mkHashName ∅ ∅ None) None ∅ demo_maglev) (mkRouteConfigCache ∅ ∅ ∅))
    None None lastNonce_zero None.
Definition run_stream {A} (f : AdsCache -> A) (l : list DiscoveryResponse) : option A :=
  match handle_stream l demo_world empty_ads with
  | Done (_, _, s) => Some (f (Cache s))
  | _ => None
  end.

Definition waiting_ads : processor :=
  mkProcessor (mkAdsCache ["web"] [] (mkListenerCache ∅ ∅ ∅)
      (mkClusterCache {["web" := cds_cluster web3]} ∅ (mkHashName ∅ ∅ None) None ∅ demo_maglev)
      (mkRouteConfigCache ∅ ∅ ∅)) None None lastNonce_zero None.
Lemma ipv6_endpoint_crashes_witness : exists why,
  processAdsResponse (response_of EndpointType ["eds-v6"]) demo_world waiting_ads = Panic why.
Proof.
  apply (ipv6_endpoint_crashes _ (mkAny "eds-v6" []) [] v6_la (cds_cluster web3)); try reflexivity.
  left. right. left. exists (mkSocketAddressV3 SocketAddress_TCP "fd00::1" 80).
  exists [0xfd;0;0;0;0;0;0;0;0;0;0;0;0;0;0;1]. repeat split; reflexivity.
Defined.

(** A listener that changes its address keeps its entry under the old one. *)
Example moved_listener_stays :
  run_stream (fun c => list_to_set (sa_ipv4 <$> (map_to_list (map_of_listener (ListenerCache_ c))).*1) : gset Z)
    [response_of ListenerType ["lds-1"]; response_of ListenerType ["lds-2"]]
  = Some {[le_uint [10;0;0;1]; le_uint [10;0;0;2]]}.
Proof. vm_compute. reflexivity. Qed.

(** A route configuration that loses its last virtual host keeps routing. *)
Example emptied_route_stays :
  run_stream (fun c => (fun r => length (rc_virtual_hosts r)) <$> map_of_router_config (RouteCache_ c) !! "http")
    [response_of RouteType ["rds-1"]; response_of RouteType ["rds-2"]] = Some (Some 1%nat).
Proof. vm_compute. reflexivity. Qed.

(** A response without resources, the removal of the last cluster, changes nothing. *)
Example last_cluster_stays :
  run_stream (fun c => bool_decide (is_Some (apiClusterCache (ClusterCache_ c) !! "web")))
    [response_of ClusterType ["cds-web"]; response_of ClusterType []] = Some true.
Proof. vm_compute. reflexivity. Qed.
