(* ===== verification/Dns.v ===== *)
(** * The DNS resolver: [pkg/dns/dns.go], [pkg/dns/upstream.go],
    [pkg/dns/nametable.go]

    What the upstream servers answer is an argument: [exchange q u] is the
    answer of the server [u] to the question [q], [None] when there is none, and
    [Fqdn] the library's fully qualified form of a name.
    Durations are in nanoseconds.  The delaying queue is the list of what it
    holds, each element with the delay it was added with; [refreshDns] takes
    the element that the queue hands out.  The two queries of [doResolve] run
    in goroutines that add their results under a mutex: [a_first] says which
    comes first. *)
From stdpp Require Import sorting.
From S2P Require Import Prelude GoNet Api.

Definition Second : Z := 1000000000.
Definition Millisecond : Z := 1000000.
Definition DeRefreshInterval : Z := 15 * Second.

(** ** Messages *)
Definition TypeA : Z := 1.
Definition TypeAAAA : Z := 28.
Definition TypeOPT : Z := 41.
Definition RcodeSuccess : Z := 0.
Definition RcodeServerFailure : Z := 2.
Inductive rdata : Type :=
  | rr_A (a : bytes)
  | rr_AAAA (aaaa : bytes)
  | rr_other.
Record RR : Type := mkRR { Rrtype : Z; Ttl : Z; rr_data : rdata }.
Record Msg : Type := mkMsg { Rcode : Z; Answer : list RR; Ns : list RR; Extra : list RR }.
(** The question: the fully qualified name and the type. *)
Definition Question : Type := (string * Z)%type.
Definition servfail : Msg := mkMsg RcodeServerFailure [] [] [].

(** ** Upstream servers *)
Record upstreamResolver : Type := mkUpstream { upstreams : list string }.
Definition NewUpstreamResolver (us : list string) : upstreamResolver := mkUpstream us.
Definition WithUpstreams (us : list string) (r : upstreamResolver) : upstreamResolver :=
  mkUpstream (upstreams r ++ us).

(** The loop shared by [Resolve] and [Query]: the last answer, or the first
    successful one. *)
Fixpoint first_success (answers : list (option Msg)) (response : option Msg) : option Msg :=
  match answers with
  | [] => response
  | None :: l => first_success l response
  | Some res :: l =>
      if decide (Rcode res = RcodeSuccess) then Some res else first_success l (Some res)
  end.

Section network.
Variable exchange : Question -> string -> option Msg.
Variable Fqdn : string -> string.

Definition Resolve (r : upstreamResolver) (req : Question) : Msg :=
  default servfail (first_success (exchange req <$> upstreams r) None).

Definition Query (delegates : list upstreamResolver) (req : Question) : Msg :=
  default servfail (first_success ((fun d => Some (Resolve d req)) <$> delegates) None).

(** ** Time to live *)

(** [uint32(d.Seconds())] *)
Definition seconds32 (d : Z) : Z := u32 (d / Second).

Definition lower_ttl (minTTL : Z) (r : RR) : Z :=
  if decide (Ttl r < seconds32 minTTL) then Ttl r * Second else minTTL.

Definition getMinTTL (m : Msg) (refreshRate : Z) : Z :=
  if decide (length (Answer m) + length (Ns m) = 0 /\
             (length (Extra m) = 0 \/ (Rrtype <$> Extra m) = [TypeOPT]))%nat
  then refreshRate
  else
    let minTTL := foldl lower_ttl refreshRate (Answer m) in
    let minTTL := foldl lower_ttl minTTL (Ns m) in
    foldl (fun minTTL r => if decide (Rrtype r = TypeOPT) then minTTL else lower_ttl minTTL r)
      minTTL (Extra m).

(** ** Resolving *)

(** [sort.Strings] *)
Definition sort_Strings (l : list string) : list string := merge_sort String.le l.

Definition address_of (rr : RR) : option string :=
  match rr_data rr with
  | rr_A a => Some (IP_String a)
  | rr_AAAA a => Some (IP_String a)
  | rr_other => None
  end.

(** One goroutine, on the variables [out], [ttl] and the number of [errs]. *)
Definition resolve_type (delegates : list upstreamResolver) (domain : string) (acc : list string * Z * Z)
    (dnsType : Z) : list string * Z * Z :=
  let '(out, ttl, errs) := acc in
  let res := Query delegates (Fqdn domain, dnsType) in
  if decide (Rcode res = RcodeServerFailure) then (out, ttl, errs + 1)
  else
    let out := out ++ omap address_of (Answer res) in
    let minTTL := getMinTTL res DeRefreshInterval in
    (out, if decide (minTTL < ttl) then minTTL else ttl, errs).

Definition doResolve (a_first : bool) (delegates : list upstreamResolver) (domain : string)
    : (list string * Z) + error :=
  let '(out, ttl, errs) :=
    foldl (resolve_type delegates domain) ([], DeRefreshInterval, 0)
      (if a_first then [TypeA; TypeAAAA] else [TypeAAAA; TypeA]) in
  if decide (errs = 2) then inr (Errorf "upstream dns failure")
  else inl (sort_Strings out, ttl).

(** ** The resolver *)
Record DomainInfo : Type := mkDomainInfo { Domain : string; RefreshRate : Z }.
(** An entry with no addresses stands for the pending one: [Addresses] is nil
    before the first resolution, and after one that gave nothing. *)
Record DNSResolver : Type := mkDNSResolver {
  DnsChan : list string;                        (* what was sent *)
  dns_cache : gmap string (list string);
  refreshQueue : list (DomainInfo * Z);
  delegates : list upstreamResolver
}.
Definition set_dns_cache f (r : DNSResolver) : DNSResolver :=
  mkDNSResolver (DnsChan r) (f (dns_cache r)) (refreshQueue r) (delegates r).
Definition AddAfter (info : DomainInfo) (d : Z) (r : DNSResolver) : DNSResolver :=
  mkDNSResolver (DnsChan r) (dns_cache r) (refreshQueue r ++ [(info, d)]) (delegates r).
Definition send_domain (domain : string) (r : DNSResolver) : DNSResolver :=
  mkDNSResolver (DnsChan r ++ [domain]) (dns_cache r) (refreshQueue r) (delegates r).

(** [servers] and [port] are from /etc/resolv.conf. *)
Definition NewDNSResolver (servers : list string) (join : string -> string) : DNSResolver :=
  mkDNSResolver [] ∅ [] [WithUpstreams (join <$> servers) (NewUpstreamResolver [])].
Definition WithDelegateResolver (rs : list upstreamResolver) (r : DNSResolver) : DNSResolver :=
  mkDNSResolver (DnsChan r) (dns_cache r) (refreshQueue r) (delegates r ++ rs).

Definition resolve (a_first : bool) (domainName : string) (r : DNSResolver)
    : DNSResolver * ((list string * Z) + error) :=
  match dns_cache r !! domainName with
  | None => (r, inr (Errorf "cache entry not found"))
  | Some _ =>
      match doResolve a_first (delegates r) domainName with
      | inr _ => (r, inr (Errorf "dns resolve failed"))
      | inl (addrs, ttl) => (set_dns_cache (<[domainName := addrs]>) r, inl (addrs, ttl))
      end
  end.

(** [i] is the place of the element that [refreshQueue.Get] hands out. *)
Definition refreshDns (a_first : bool) (i : nat) (r : DNSResolver) : DNSResolver :=
  match refreshQueue r !! i with
  | None => r
  | Some (e, _) =>
      let r := mkDNSResolver (DnsChan r) (dns_cache r) (delete i (refreshQueue r)) (delegates r) in
      if decide (dns_cache r !! Domain e = None) then r
      else
        match resolve a_first (Domain e) r with
        | (r, inr _) => r
        | (r, inl (_, ttl)) =>
            let ttl := if decide (RefreshRate e < ttl) then RefreshRate e else ttl in
            let ttl := if decide (ttl = 0) then DeRefreshInterval else ttl in
            send_domain (Domain e) (AddAfter e ttl r)
        end
  end.
End network.

Definition GetAllCachedDomains (r : DNSResolver) : gset string := dom (dns_cache r).
Definition GetDNSAddresses (domain : string) (r : DNSResolver) : list string :=
  default [] (dns_cache r !! domain).
(** The address of an unknown domain is read through a nil pointer. *)
Definition GetDomainAddress (domain : string) (r : DNSResolver) : outcome (list string * bool) :=
  match dns_cache r !! domain with
  | Some a => Done (a, true)
  | None => Panic "nil pointer dereference"
  end.
Definition GetBatchAddressesFromCache (domains : gset string) (r : DNSResolver)
    : gmap string (list string) :=
  filter (fun '(d, _) => d ∈ domains) (dns_cache r).
Definition RemoveUnwatchDomain (domains : gset string) : DNSResolver -> DNSResolver :=
  set_dns_cache (filter (fun '(d, _) => d ∈ domains)).
Definition AddDomainInQueue (info : option DomainInfo) (time : Z) (r : DNSResolver) : DNSResolver :=
  match info with
  | None => r
  | Some info =>
      let r := if decide (dns_cache r !! Domain info = None)
               then set_dns_cache (<[Domain info := []]>) r else r in
      AddAfter info time r
  end.

(** ** Properties *)
Lemma sort_Strings_perm l l' : l ≡ₚ l' -> sort_Strings l = sort_Strings l'.
Proof.
  intros Hp. apply (StronglySorted_unique String.le); [apply StronglySorted_merge_sort; apply _..|].
  unfold sort_Strings. by rewrite !merge_sort_Permutation.
Qed.

Lemma doResolve_either exchange Fqdn ds domain :
  doResolve exchange Fqdn true ds domain = doResolve exchange Fqdn false ds domain.
Proof.
  unfold doResolve. cbn [foldl]. unfold resolve_type.
  set (q4 := Query exchange ds (Fqdn domain, TypeA)). set (q6 := Query exchange ds (Fqdn domain, TypeAAAA)).
  destruct (decide (Rcode q4 = _)), (decide (Rcode q6 = _)); [done|done|done|]. cbn.
  f_equal. f_equal; [apply sort_Strings_perm, Permutation_app_comm|]. repeat case_decide; lia.
Qed.

(** The two goroutines of a resolution may finish in either order: the
    addresses, the time to live and the failure are the same. *)
Theorem doResolve_order exchange Fqdn ds domain :
  doResolve exchange Fqdn true ds domain = doResolve exchange Fqdn false ds domain.
Proof. apply doResolve_either. Qed.

(** The times to live that count. *)
Definition ttls (m : Msg) : list Z :=
  Ttl <$> Answer m ++ Ns m ++ filter (fun r => Rrtype r <> TypeOPT) (Extra m).

Lemma foldr_min_shift k t l : foldr Z.min (Z.min k t) l = Z.min t (foldr Z.min k l).
Proof. induction l as [|x l IH]; cbn; lia. Qed.
Lemma foldr_min_bounds k l : 0 <= k < 2 ^ 32 -> Forall (fun t => 0 <= t) l ->
  0 <= foldr Z.min k l < 2 ^ 32.
Proof. intros Hk. induction 1; cbn; lia. Qed.

Lemma lower_ttl_min k r : 0 <= k < 2 ^ 32 -> lower_ttl (k * Second) r = Z.min k (Ttl r) * Second.
Proof.
  intros Hk. unfold lower_ttl, seconds32, u32. rewrite Z.div_mul, Z.mod_small by done.
  case_decide; f_equal; lia.
Qed.

Lemma foldl_lower_ttl l k : 0 <= k < 2 ^ 32 -> Forall (fun t => 0 <= t) (Ttl <$> l) ->
  foldl lower_ttl (k * Second) l = foldr Z.min k (Ttl <$> l) * Second.
Proof.
  revert k. induction l as [|r l IH]; intros k Hk Hl; cbn; [done|].
  cbn in Hl. apply Forall_cons in Hl as [Hr Hl]. rewrite lower_ttl_min, IH by (done || lia).
  by rewrite foldr_min_shift.
Qed.

Lemma foldl_skip_opt l d :
  foldl (fun d r => if decide (Rrtype r = TypeOPT) then d else lower_ttl d r) d l =
  foldl lower_ttl d (filter (fun r => Rrtype r <> TypeOPT) l).
Proof.
  revert d. induction l as [|r l IH]; intros d; [done|]. rewrite filter_cons. cbn.
  destruct (decide (Rrtype r = TypeOPT)); [rewrite decide_False by naive_solver|rewrite decide_True by done]; apply IH.
Qed.

(** The time to live of an answer is the least of the refresh interval and
    the times to live of the records, OPT records left out. *)
Theorem getMinTTL_min m k :
  0 <= k < 2 ^ 32 -> Forall (fun t => 0 <= t) (ttls m) ->
  getMinTTL m (k * Second) = foldr Z.min k (ttls m) * Second.
Proof.
  intros Hk Ht. unfold getMinTTL. case_decide as Hempty.
  - destruct Hempty as [Hl Ho]. unfold ttls. destruct (Answer m), (Ns m); cbn in *; try lia.
    destruct (Extra m) as [|r l]; [done|]. destruct Ho as [|Ho]; [done|]. destruct l; [|done].
    injection Ho as Ho. rewrite filter_cons, decide_False by naive_solver. done.
  - rewrite foldl_skip_opt, <-!foldl_app. by apply foldl_lower_ttl.
Qed.
Lemma getMinTTL_min_witness :
  let m := mkMsg RcodeSuccess [mkRR TypeA 60 (rr_A [10;0;0;1]); mkRR TypeA 5 (rr_A [10;0;0;2])] []
             [mkRR TypeOPT 0 rr_other] in
  getMinTTL m DeRefreshInterval = 5 * Second.
Proof.
  intros m. apply (getMinTTL_min m 15); [lia|]. refine (bool_decide_unpack _ _). by vm_compute.
Defined.

(** ** The refresh loop *)
Definition scheduled (domain : string) (r : DNSResolver) : Prop :=
  domain ∈ (fun x : DomainInfo * Z => Domain x.1) <$> refreshQueue r.
Definition all_scheduled (r : DNSResolver) : Prop :=
  forall d, is_Some (dns_cache r !! d) -> scheduled d r.

(** The calls on the resolver: those of its users and the refresh of the element
    at place [i] of the queue. *)
Inductive dns_call : Type :=
  | Add (info : DomainInfo) (time : Z)
  | Unwatch (domains : gset string)
  | Refresh (a_first : bool) (i : nat).
Definition run_call (exchange : Question -> string -> option Msg) (Fqdn : string -> string)
    (c : dns_call) (r : DNSResolver) : DNSResolver :=
  match c with
  | Add info time => AddDomainInQueue (Some info) time r
  | Unwatch domains => RemoveUnwatchDomain domains r
  | Refresh a_first i => refreshDns exchange Fqdn a_first i r
  end.

(** Some server answers each of the questions for [domain]. *)
Definition answered (exchange : Question -> string -> option Msg) (Fqdn : string -> string)
    (ds : list upstreamResolver) (domain : string) : Prop :=
  exists a, doResolve exchange Fqdn true ds domain = inl a.

(** What a refresh of [e] does to the queue. *)
Lemma scheduled_delete i e t d r :
  refreshQueue r !! i = Some (e, t) ->
  scheduled d r <-> d = Domain e \/ d ∈ (fun x : DomainInfo * Z => Domain x.1) <$> delete i (refreshQueue r).
Proof.
  intros Hi. unfold scheduled. apply delete_Permutation in Hi. rewrite Hi at 1. cbn. by rewrite elem_of_cons.
Qed.

Lemma refreshDns_outcome exchange Fqdn a_first i r :
  let r' := refreshDns exchange Fqdn a_first i r in
  delegates r' = delegates r /\
  match refreshQueue r !! i with
  | None => r' = r
  | Some (e, _) =>
      dom (dns_cache r') = dom (dns_cache r) /\
      match dns_cache r !! Domain e, doResolve exchange Fqdn a_first (delegates r) (Domain e) with
      | Some _, inl _ => exists d, refreshQueue r' = delete i (refreshQueue r) ++ [(e, d)]
      | _, _ => refreshQueue r' = delete i (refreshQueue r)
      end
  end.
Proof.
  cbn zeta. unfold refreshDns, resolve. destruct (refreshQueue r !! i) as [[e t]|]; [|done]. cbn.
  destruct (dns_cache r !! Domain e) as [a|] eqn:Ec; [rewrite decide_False by done|by rewrite decide_True].
  destruct (doResolve _ _ _ _ _) as [[addrs ttl]|]; cbn; [|done].
  split_and!; [done| |by eexists]. rewrite dom_insert_L. apply elem_of_dom_2 in Ec. set_solver.
Qed.

Lemma run_call_scheduled exchange Fqdn c r :
  (forall d, answered exchange Fqdn (delegates r) d) -> all_scheduled r ->
  all_scheduled (run_call exchange Fqdn c r) /\ delegates (run_call exchange Fqdn c r) = delegates r.
Proof.
  intros Ha Hr. destruct c as [info time|domains|a_first i]; cbn.
  - case_decide; (split; [|done]); intros d; unfold scheduled; cbn; rewrite fmap_app, elem_of_app; cbn.
    + destruct (decide (d = Domain info)) as [->|Hd]; [by right; left|]. rewrite lookup_insert_ne by done.
      intros Hd'. left. by apply Hr.
    + intros Hd. left. by apply Hr.
  - split; [|done]. intros d [a Hd]. apply map_lookup_filter_Some in Hd as [Hd _]. apply Hr. by eexists.
  - pose proof (refreshDns_outcome exchange Fqdn a_first i r) as [Hds Ho]. split; [|done].
    destruct (refreshQueue r !! i) as [[e t]|] eqn:Ei; [|by rewrite Ho]. destruct Ho as [Hdom Hq].
    intros d Hd. rewrite <-elem_of_dom, Hdom, elem_of_dom in Hd.
    destruct (Ha (Domain e)) as [x Hx]. assert (doResolve exchange Fqdn a_first (delegates r) (Domain e) = inl x) as Hx'.
    { destruct a_first; [done|]. by rewrite <-doResolve_either. }
    rewrite Hx' in Hq. pose proof (Hr d Hd) as Hs. apply (scheduled_delete _ _ _ _ _ Ei) in Hs.
    destruct (dns_cache r !! Domain e) as [a|] eqn:Ec; unfold scheduled.
    + destruct Hq as [t' ->]. rewrite fmap_app, elem_of_app. cbn. destruct Hs as [->|Hs]; [right; by left|by left].
    + rewrite Hq. destruct Hs as [->|Hs]; [|done]. rewrite Ec in Hd. by destruct Hd.
Qed.

(** C24: As long as the servers answer, every watched domain is scheduled for
    another resolution, whatever the users of the resolver add and remove and
    in whatever order the queue hands its elements out. *)
Theorem watched_domains_scheduled Fqdn
    (calls : list ((Question -> string -> option Msg) * dns_call)) r :
  (forall d, Forall (fun c => answered c.1 Fqdn (delegates r) d) calls) -> all_scheduled r ->
  all_scheduled (foldl (fun r c => run_call c.1 Fqdn c.2 r) r calls).
Proof.
  revert r. induction calls as [|[exchange c] calls IH]; intros r Ha Hr; [done|]. cbn.
  destruct (run_call_scheduled exchange Fqdn c r) as [Hr' Hd]; [|done|].
  - intros d. specialize (Ha d). by apply Forall_cons in Ha as [? _].
  - apply IH; [|done]. intros d. rewrite Hd. specialize (Ha d). by apply Forall_cons in Ha as [_ ?].
Qed.

(** A domain whose resolution fails once is not resolved again: it stays
    watched, but nothing that the refresh loop does later schedules it. *)
Theorem failed_refresh_is_final exchange Fqdn a_first i e t r err
    (later : list ((Question -> string -> option Msg) * (bool * nat))) :
  refreshQueue r !! i = Some (e, t) ->
  Domain e ∉ (fun x : DomainInfo * Z => Domain x.1) <$> delete i (refreshQueue r) ->
  is_Some (dns_cache r !! Domain e) ->
  doResolve exchange Fqdn a_first (delegates r) (Domain e) = inr err ->
  let r' := foldl (fun r c => refreshDns c.1 Fqdn c.2.1 c.2.2 r) (refreshDns exchange Fqdn a_first i r) later in
  is_Some (dns_cache r' !! Domain e) /\ ~ scheduled (Domain e) r'.
Proof.
  intros Hi Honce Hc Hfail. cbn zeta.
  assert (is_Some (dns_cache (refreshDns exchange Fqdn a_first i r) !! Domain e) /\
    ~ scheduled (Domain e) (refreshDns exchange Fqdn a_first i r)) as Hstart.
  { destruct (refreshDns_outcome exchange Fqdn a_first i r) as [_ Ho]. rewrite Hi in Ho. destruct Ho as [Hdom Hq].
    split; [by rewrite <-elem_of_dom, Hdom, elem_of_dom|]. rewrite Hfail in Hq. unfold scheduled.
    destruct (dns_cache r !! Domain e); by rewrite Hq. }
  revert Hstart. generalize (refreshDns exchange Fqdn a_first i r) as r0.
  induction later as [|[ex [b j]] later IH]; intros r0 [Hw Hs]; [done|]. cbn. apply IH.
  destruct (refreshDns_outcome ex Fqdn b j r0) as [_ Ho].
  destruct (refreshQueue r0 !! j) as [[e' t']|] eqn:Ej; [|by rewrite Ho]. destruct Ho as [Hdom Hq].
  split; [by rewrite <-elem_of_dom, Hdom, elem_of_dom|]. rewrite (scheduled_delete _ _ _ _ _ Ej) in Hs.
  unfold scheduled. destruct (dns_cache r0 !! Domain e'), (doResolve ex Fqdn b (delegates r0) (Domain e'));
    first [rewrite Hq|destruct Hq as [d ->]]; rewrite ?fmap_app, ?elem_of_app; cbn; rewrite ?list_elem_of_singleton; naive_solver.
Qed.

(** A server that knows every name, and one that is down. *)
Definition demo_exchange (q : Question) (u : string) : option Msg :=
  Some (mkMsg RcodeSuccess [mkRR TypeA 30 (rr_A [10;0;0;1])] [] []).
Definition down_exchange (q : Question) (u : string) : option Msg := None.
Definition demo_info : DomainInfo := mkDomainInfo "example.com" (200 * Millisecond).
Definition demo_resolver : DNSResolver :=
  AddDomainInQueue (Some demo_info) 0 (NewDNSResolver ["10.96.0.10"] (fun s => s +:+ ":53")).

Lemma watched_domains_scheduled_witness :
  all_scheduled (foldl (fun r c => run_call c.1 (fun d => d +:+ ".") c.2 r) demo_resolver
    [(demo_exchange, Refresh true 0); (demo_exchange, Add (mkDomainInfo "a.org" 1) 0);
     (demo_exchange, Refresh false 1); (demo_exchange, Unwatch {["a.org"]})]).
Proof.
  apply watched_domains_scheduled.
  - intros d. repeat constructor; (eexists; reflexivity).
  - intros d [a Hd]. change (dns_cache demo_resolver) with ({["example.com" := []]} : gmap string (list string)) in Hd.
    apply lookup_singleton_Some in Hd as [<- _]. by left.
Defined.

Lemma failed_refresh_is_final_witness :
  let r' := refreshDns demo_exchange (fun d => d +:+ ".") true 0
              (refreshDns down_exchange (fun d => d +:+ ".") true 0 demo_resolver) in
  is_Some (dns_cache r' !! "example.com") /\ ~ scheduled "example.com" r'.
Proof.
  exact (failed_refresh_is_final down_exchange (fun d => d +:+ ".") true 0 demo_info 0 demo_resolver
    (Errorf "upstream dns failure") [(demo_exchange, (true, 0%nat))] eq_refl (not_elem_of_nil _)
    (mk_is_Some _ _ eq_refl) eq_refl).
Defined.

(** ** The table of names for the DNS proxy

    [IsValidIPAddress] is istio's check of the text of an address. *)
Definition provider_Kubernetes : string := "Kubernetes".
Definition provider_External : string := "External".
Record NameInfo : Type := mkNameInfo {
  ni_ips : list string;
  ni_registry : string;
  ni_namespace : string;
  ni_shortname : string
}.

Section name_table.
Variable IsValidIPAddress : string -> bool.
Variable clusterDomain : string.

(** [net.IP.IsUnspecified] *)
Definition IsUnspecified (ip : bytes) : bool :=
  bool_decide (To4 ip = Some [0;0;0;0]) || bool_decide (ip = replicate 16 0).

Fixpoint svc_address_list (l : list NetworkAddress) : list string :=
  match l with
  | [] => []
  | svcAddress :: l =>
      let ip := na_address svcAddress in
      if IsUnspecified ip then []
      else if negb (IsValidIPAddress (IP_String ip)) then svc_address_list l
      else IP_String ip :: svc_address_list l
  end.

Definition lookupHeadlessEndpoints (svc : Service) (workloads : list Workload) : list Workload :=
  let key := svc_namespace svc +:+ "/" +:+ svc_hostname svc in
  filter (fun w => wl_addresses w <> [] /\
    forallb (fun a => IsValidIPAddress (IP_String a)) (wl_addresses w) = true /\
    is_Some (wl_services w !! key)) workloads.

Definition guessServiceRegistry (svc : Service) : string :=
  if decide (svc_hostname svc = svc_name svc +:+ "." +:+ svc_namespace svc +:+ ".svc." +:+ clusterDomain)
  then provider_Kubernetes else provider_External.

Definition svc_ips (workloads : list Workload) (svc : Service) : list string :=
  match svc_address_list (svc_addresses svc) with
  | [] => lookupHeadlessEndpoints svc workloads ≫= fun w => IP_String <$> wl_addresses w
  | l => l
  end.

Definition add_service (workloads : list Workload) (table : gmap string NameInfo) (svc : Service)
    : gmap string NameInfo :=
  let addressList := svc_ips workloads svc in
  if decide (addressList = []) then table
  else
    let registry := guessServiceRegistry svc in
    let kubernetes := mkNameInfo addressList provider_Kubernetes (svc_namespace svc) (svc_name svc) in
    match table !! svc_hostname svc with
    | None =>
        <[svc_hostname svc :=
          if decide (registry = provider_Kubernetes) then kubernetes
          else mkNameInfo addressList registry "" ""]> table
    | Some ni =>
        if decide (ni_registry ni <> provider_Kubernetes) then
          <[svc_hostname svc :=
            if decide (registry = provider_Kubernetes) then kubernetes
            else mkNameInfo (ni_ips ni ++ addressList) (ni_registry ni) (ni_namespace ni) (ni_shortname ni)]> table
        else table
    end.

Definition BuildNameTable (services : list Service) (workloads : list Workload) : gmap string NameInfo :=
  foldl (add_service workloads) ∅ services.

(** The services that have something to say about a name, and the entry that
    they make. *)
Definition naming (workloads : list Workload) (h : string) (services : list Service) : list Service :=
  filter (fun svc => svc_hostname svc = h /\ svc_ips workloads svc <> []) services.
Definition kubernetes_of (services : list Service) : option Service :=
  head (filter (fun svc => guessServiceRegistry svc = provider_Kubernetes) services).
Definition name_info (workloads : list Workload) (services : list Service) : option NameInfo :=
  match kubernetes_of services, services with
  | Some svc, _ => Some (mkNameInfo (svc_ips workloads svc) provider_Kubernetes (svc_namespace svc) (svc_name svc))
  | None, [] => None
  | None, _ => Some (mkNameInfo (services ≫= svc_ips workloads) provider_External "" "")
  end.

Lemma registry_cases svc : guessServiceRegistry svc = provider_Kubernetes \/ guessServiceRegistry svc = provider_External.
Proof. unfold guessServiceRegistry. case_decide; auto. Qed.

Lemma kubernetes_of_snoc l svc :
  kubernetes_of (l ++ [svc]) =
  match kubernetes_of l with
  | Some k => Some k
  | None => if decide (guessServiceRegistry svc = provider_Kubernetes) then Some svc else None
  end.
Proof.
  unfold kubernetes_of. rewrite filter_app. destruct (filter _ l); [|done]. cbn. by case_decide.
Qed.

(** One more service with the name [h]. *)
Lemma name_info_snoc workloads l svc : svc_ips workloads svc <> [] ->
  name_info workloads (l ++ [svc]) =
  match name_info workloads l with
  | None => Some (if decide (guessServiceRegistry svc = provider_Kubernetes)
                  then mkNameInfo (svc_ips workloads svc) provider_Kubernetes (svc_namespace svc) (svc_name svc)
                  else mkNameInfo (svc_ips workloads svc) provider_External "" "")
  | Some ni =>
      if decide (ni_registry ni <> provider_Kubernetes) then
        Some (if decide (guessServiceRegistry svc = provider_Kubernetes)
              then mkNameInfo (svc_ips workloads svc) provider_Kubernetes (svc_namespace svc) (svc_name svc)
              else mkNameInfo (ni_ips ni ++ svc_ips workloads svc) (ni_registry ni) (ni_namespace ni) (ni_shortname ni))
      else Some ni
  end.
Proof.
  intros Hne. unfold name_info. rewrite kubernetes_of_snoc. destruct (kubernetes_of l) as [k|] eqn:Ek; cbn.
  { by rewrite decide_False by naive_solver. }
  destruct l as [|x l]; cbn.
  - destruct (decide (guessServiceRegistry svc = _)); cbn; by rewrite ?app_nil_r.
  - destruct (decide (guessServiceRegistry svc = _)); (rewrite decide_True by discriminate); [done|].
    by rewrite bind_app, app_assoc; cbn; rewrite app_nil_r.
Qed.

(** C29: The table of the DNS proxy has an entry for a name exactly when some
    service of that name has an address, of its own or of a headless
    endpoint.  The first Kubernetes service of the name decides it; without
    one the entry merges the addresses of all of them, in the order of the
    list. *)
Theorem BuildNameTable_spec services workloads h :
  BuildNameTable services workloads !! h = name_info workloads (naming workloads h services).
Proof.
  induction services as [|svc services IH] using rev_ind; [done|].
  unfold BuildNameTable, naming in *. rewrite foldl_app, filter_app. cbn [foldl]. unfold add_service at 1.
  destruct (decide (svc_ips workloads svc = [])) as [He|He].
  { rewrite filter_cons_False, app_nil_r; [done|naive_solver]. }
  destruct (decide (svc_hostname svc = h)) as [<-|Hh].
  - rewrite filter_cons_True, IH by done. cbn. rewrite name_info_snoc by done.
    destruct (name_info _ _) as [ni|] eqn:Eni.
    + case_decide; [by rewrite lookup_insert_eq|]. by rewrite IH.
    + rewrite lookup_insert_eq. destruct (registry_cases svc) as [->| ->]; done.
  - rewrite (filter_cons_False _ svc), app_nil_r by naive_solver.
    destruct (foldl _ _ _ !! svc_hostname svc) as [ni|]; [case_decide|]; rewrite ?lookup_insert_ne by done; apply IH.
Qed.
End name_table.
