(* ===== verification/DnsAds.v ===== *)
(** * DNS clusters of kernel-native mode: [pkg/controller/ads/dns.go]

    The controller receives the DNS clusters of a CDS response, has their host
    names resolved and writes the clusters with the addresses in place of the
    names.  [processDomains] starts goroutines: it returns the calls that they
    make. *)
From S2P Require Import Prelude Api Runtime GoNet Nets Murmur3 Maglev HashName AdsApi AdsConvert AdsCaches AdsProcessor AdsSync AdsSettle Dns.

(** ** Host names of clusters *)

(** The text of the socket address of an endpoint; a socket address without a
    value is a nil dereference. *)
Definition le_text (le : LbEndpointV3) : outcome (option SocketAddressV3) :=
  match le3_address le with
  | Some (Address_SocketAddress None) => Panic "nil pointer dereference"
  | Some (Address_SocketAddress (Some a)) => Done (Some a)
  | _ => Done None
  end.
Definition is_name (s : string) : bool := bool_decide (ParseAddr s = None).
Definition le_host (le : LbEndpointV3) : outcome (option string) :=
  a ← le_text le;
  Done match a with
       | Some a => if is_name (sa3_address a) then Some (sa3_address a) else None
       | None => None
       end.

(** [Panic] for the first element that panics. *)
Fixpoint outcome_omap {A B} (f : A -> outcome (option B)) (l : list A) : outcome (list B) :=
  match l with
  | [] => Done []
  | a :: l => b ← f a; bs ← outcome_omap f l; Done (option_list b ++ bs)
  end.

Definition lb_endpoints (la : ClusterLoadAssignmentV3) : list LbEndpointV3 :=
  cla3_endpoints la ≫= ll3_lb_endpoints.

Definition getHostName (cluster : ClusterV3) : outcome (list string) :=
  match c3_load_assignment cluster with
  | None => Panic "nil pointer dereference"
  | Some la => outcome_omap le_host (lb_endpoints la)
  end.

Record pendingResolveDomain : Type := mkPending { prd_Clusters : list ClusterV3; prd_RefreshRate : Z }.

Definition add_pending (cluster : ClusterV3) (domains : gmap string pendingResolveDomain) (address : string)
    : gmap string pendingResolveDomain :=
  <[address :=
    match domains !! address with
    | Some v => mkPending (prd_Clusters v ++ [cluster]) (prd_RefreshRate v)
    | None => mkPending [cluster] (c3_dns_refresh_rate cluster)
    end]> domains.

Fixpoint getPendingResolveDomain_from (cds : list ClusterV3) (domains : gmap string pendingResolveDomain)
    : outcome (gmap string pendingResolveDomain) :=
  match cds with
  | [] => Done domains
  | cluster :: cds =>
      match c3_load_assignment cluster with
      | None => getPendingResolveDomain_from cds domains
      | Some la =>
          hosts ← outcome_omap le_host (lb_endpoints la);
          getPendingResolveDomain_from cds (foldl (add_pending cluster) domains hosts)
      end
  end.
Definition getPendingResolveDomain (cds : list ClusterV3) : outcome (gmap string pendingResolveDomain) :=
  getPendingResolveDomain_from cds ∅.

Definition HealthStatus_HEALTHY : Z := 1.
Definition buildLbEndpoints (port : Z) (addrs : list string) : list LbEndpointV3 :=
  omap (fun addr =>
    match ParseIP addr ≫= To4 with
    | None => None
    | Some _ =>
        Some (mkLbEndpointV3 HealthStatus_HEALTHY
                (Some (Address_SocketAddress (Some (mkSocketAddressV3 SocketAddress_TCP addr port)))) (Some 1))
    end) addrs.

(** The loop over the endpoints of a locality: [pos] and [lbEndpoints] after it,
    from the endpoint number [i] on. *)
Fixpoint find_host (addressesOfHostname : gmap string (list string)) (i : nat)
    (acc : option nat * list LbEndpointV3) (l : list LbEndpointV3) : outcome (option nat * list LbEndpointV3) :=
  match l with
  | [] => Done acc
  | le :: l =>
      a ← le_text le;
      find_host addressesOfHostname (S i)
        match a with
        | Some a =>
            if is_name (sa3_address a) then
              (Some i, buildLbEndpoints (sa3_port_value a) (default [] (addressesOfHostname !! sa3_address a)))
            else acc
        | None => acc
        end l
  end.

(** [slices.Replace(s, pos, pos+1, v...)] with [pos = -1] is out of range. *)
Definition overwrite_locality (addressesOfHostname : gmap string (list string)) (e : LocalityLbEndpointsV3)
    : outcome LocalityLbEndpointsV3 :=
  r ← find_host addressesOfHostname 0 (None, []) (ll3_lb_endpoints e);
  match r with
  | (None, _) => Panic "slice bounds out of range"
  | (Some pos, lbEndpoints) =>
      Done (mkLocalityLbEndpointsV3 (ll3_load_balancing_weight e) (ll3_priority e)
              (take pos (ll3_lb_endpoints e) ++ lbEndpoints ++ drop (pos + 1) (ll3_lb_endpoints e)))
  end.
Fixpoint overwrite_localities (addressesOfHostname : gmap string (list string))
    (l : list LocalityLbEndpointsV3) : outcome (list LocalityLbEndpointsV3) :=
  match l with
  | [] => Done []
  | e :: l => e ← overwrite_locality addressesOfHostname e;
              l ← overwrite_localities addressesOfHostname l; Done (e :: l)
  end.

Definition set_endpoints (la : ClusterLoadAssignmentV3) (l : list LocalityLbEndpointsV3) (c : ClusterV3) : ClusterV3 :=
  mkClusterV3 (c3_name c) (c3_type c) (c3_connect_timeout_seconds c) (c3_lb_policy c) (c3_circuit_breakers c)
    (Some (mkClusterLoadAssignmentV3 (cla3_cluster_name la) l)) (c3_dns_refresh_rate c).

(** ** The controller *)
Record dnsController : Type := mkDnsController {
  dc_cache : AdsCache;
  dc_resolver : DNSResolver;
  clusterCache : gmap string pendingResolveDomain;
  pendingHostnames : gmap string (list string)
}.
Definition l_dc_cache : lens dnsController AdsCache :=
  mkLens dc_cache (fun c d => mkDnsController c (dc_resolver d) (clusterCache d) (pendingHostnames d)).
Definition set_dc_resolver f (d : dnsController) : dnsController :=
  mkDnsController (dc_cache d) (f (dc_resolver d)) (clusterCache d) (pendingHostnames d).
Definition set_pendingHostnames f (d : dnsController) : dnsController :=
  mkDnsController (dc_cache d) (dc_resolver d) (clusterCache d) (f (pendingHostnames d)).
Definition newClusterCache (d : dnsController) : dnsController :=
  mkDnsController (dc_cache d) (dc_resolver d) ∅ (pendingHostnames d).
Definition NewDnsController (cache : AdsCache) (resolver : DNSResolver) : dnsController :=
  mkDnsController cache resolver ∅ ∅.
Definition getClustersByDomain (domain : string) (d : dnsController) : option pendingResolveDomain :=
  clusterCache d !! domain.

(** [None] when some host name has no addresses yet. *)
Definition addresses_of (r : DNSResolver) (hostNames : list string) : option (gmap string (list string)) :=
  if forallb (fun h => bool_decide (GetDNSAddresses h r <> [])) hostNames
  then Some (list_to_map ((fun h => (h, GetDNSAddresses h r)) <$> hostNames)) else None.

Definition overwriteDnsCluster (cluster : ClusterV3) (d : dnsController) : outcome (option ClusterV3) :=
  let hostNames := default [] (pendingHostnames d !! c3_name cluster) in
  match addresses_of (dc_resolver d) hostNames with
  | None => Done None
  | Some addressesOfHostname =>
      match c3_load_assignment cluster with
      | None => Panic "nil pointer dereference"
      | Some la =>
          l ← overwrite_localities addressesOfHostname (cla3_endpoints la);
          Done (Some (set_endpoints la l cluster))
      end
  end.

Section controller.
Context `{E : Env} `{Persist} `{Library} `{Wire} `{Slices}.

Definition updateClusters (pendingDomain : option pendingResolveDomain) (addrs : list string)
    : Go dnsController unit :=
  match pendingDomain with
  | None => mret tt
  | Some pendingDomain =>
      if decide (addrs = []) then mret tt
      else
        isClusterUpdate ← fold_each (prd_Clusters pendingDomain) false (fun upd cluster =>
          d ← gets id;
          r ← from_outcome (overwriteDnsCluster cluster d);
          match r with
          | None => mret upd
          | Some newCluster =>
              b ← zoom l_dc_cache (UpdateApiClusterIfExists ApiStatus_UPDATE newCluster);
              mret (if b : bool then true else upd)
          end);
        if isClusterUpdate : bool then zoom l_dc_cache (zoom l_ClusterCache cc_Flush) else mret tt
  end.

(** The result is the calls of [updateClusters] that were started. *)
Definition processDomains (cds : list ClusterV3) : Go dnsController (list (pendingResolveDomain * list string)) :=
  domains ← from_outcome (getPendingResolveDomain cds);
  fold_each cds tt (fun _ cluster =>
    info ← from_outcome (getHostName cluster);
    modify (set_pendingHostnames (<[c3_name cluster := info]>)));;
  modify (set_dc_resolver (RemoveUnwatchDomain (dom domains)));;
  l ← range (map_to_list domains);
  fold_each l [] (fun started '(k, v) =>
    d ← gets id;
    let addresses := GetDNSAddresses k (dc_resolver d) in
    if decide (addresses <> []) then mret (started ++ [(v, addresses)])
    else
      modify (set_dc_resolver (AddDomainInQueue (Some (mkDomainInfo k (prd_RefreshRate v))) 0));;
      mret started).

(** One turn of [refreshWorker]. *)
Definition refresh_domain (domain : string) : Go dnsController unit :=
  d ← gets id;
  updateClusters (getClustersByDomain domain d) (GetDNSAddresses domain (dc_resolver d)).
End controller.

(** ** Resolved clusters *)

(** A TCP endpoint that is a host name. *)
Definition host_endpoint (h : string) (port : Z) (le : LbEndpointV3) : Prop :=
  le3_address le = Some (Address_SocketAddress (Some (mkSocketAddressV3 SocketAddress_TCP h port))) /\
  ParseAddr h = None.
(** ... one that is not. *)
Definition no_host (le : LbEndpointV3) : Prop := le_host le = Done None.

Lemma find_host_none m i acc l : Forall no_host l -> find_host m i acc l = Done acc.
Proof.
  intros Hl. revert i acc. induction Hl as [|le l Hle Hl IH]; intros i acc; [done|]. cbn.
  unfold no_host, le_host in Hle. destruct (le_text le) as [[a|]| |]; cbn in *; [|apply IH|done|done].
  destruct (is_name (sa3_address a)); [done|apply IH].
Qed.

Lemma find_host_last m i acc pre le h port post :
  Forall no_host pre -> host_endpoint h port le -> Forall no_host post ->
  find_host m i acc (pre ++ le :: post) =
    Done (Some (i + length pre)%nat, buildLbEndpoints port (default [] (m !! h))).
Proof.
  intros Hpre [Hle Hh] Hpost. revert i acc. induction Hpre as [|x pre Hx Hpre IH]; intros i acc; cbn.
  - unfold le_text. rewrite Hle. cbn. unfold is_name. rewrite bool_decide_true by done.
    rewrite find_host_none by done. by rewrite Nat.add_0_r.
  - unfold no_host, le_host in Hx. rewrite Nat.add_succ_r, <-Nat.add_succ_l.
    destruct (le_text x) as [[a|]| |]; cbn in *; [|apply IH|done|done].
    destruct (is_name (sa3_address a)); [done|apply IH].
Qed.

(** The addresses of a host as endpoints. *)
Definition v4_of (port : Z) (addr : string) : option (bytes * Z) :=
  b ← ParseIP addr ≫= To4; if decide (b = [0;0;0;0]) then None else Some (b, port).
#[local] Arguments v4_endpoint : simpl never.
#[local] Arguments v4_of : simpl never.
Lemma v4_buildLbEndpoints port addrs : omap v4_endpoint (buildLbEndpoints port addrs) = omap (v4_of port) addrs.
Proof.
  induction addrs as [|a addrs IH]; [done|]. unfold buildLbEndpoints in *. cbn.
  destruct (ParseIP a ≫= To4) as [b|] eqn:Eb; cbn.
  - assert (v4_endpoint (mkLbEndpointV3 HealthStatus_HEALTHY
      (Some (Address_SocketAddress (Some (mkSocketAddressV3 SocketAddress_TCP a port)))) (Some 1)) = v4_of port a) as ->
      by done. by rewrite IH.
  - assert (v4_of port a = None) as -> by (unfold v4_of; by rewrite Eb). exact IH.
Qed.
Lemma buildLbEndpoints_v4 port addrs : ~ Exists v6_text (buildLbEndpoints port addrs).
Proof.
  rewrite Exists_exists. intros (le & Hle & addr & b & Ha & _ & Hp & H4). unfold buildLbEndpoints in Hle.
  apply list_elem_of_omap in Hle as (t & _ & Ht). destruct (ParseIP t ≫= To4) as [b'|] eqn:Et; [|done].
  injection Ht as <-. injection Ha as <-. cbn in Hp. rewrite Hp in Et. cbn in Et. congruence.
Qed.

(** The usual shape: every locality is one host name. *)
Inductive single_host : LocalityLbEndpointsV3 -> string -> Z -> Prop :=
  | single_host_intro weight priority le h port :
      host_endpoint h port le -> single_host (mkLocalityLbEndpointsV3 weight priority [le]) h port.

Definition resolved (r : DNSResolver) (e : LocalityLbEndpointsV3) (h : string) (port : Z) : LocalityLbEndpoints :=
  mkLocalityLbEndpoints (to_endpoint <$> omap (v4_of port) (GetDNSAddresses h r))
    (default 0 (ll3_load_balancing_weight e)) (ll3_priority e).

Lemma overwrite_single m e h port addrs : single_host e h port -> m !! h = Some addrs ->
  overwrite_locality m e = Done (mkLocalityLbEndpointsV3 (ll3_load_balancing_weight e) (ll3_priority e)
    (buildLbEndpoints port addrs)).
Proof.
  intros [weight priority le h' port' Hle] Hm. unfold overwrite_locality. cbn [ll3_lb_endpoints].
  pose proof (find_host_last m 0 (None, []) [] le h' port' []) as Hf. cbn [app] in Hf.
  rewrite Hf by (done || constructor). cbn. by rewrite Hm, app_nil_r.
Qed.

Lemma newApiEndpoints_v4 l : ~ Exists v6_text l ->
  newApiEndpoints l = Done (to_endpoint <$> omap v4_endpoint l).
Proof.
  intros Hl. pose proof (newApiEndpoints_spec l) as Hs.
  destruct (newApiEndpoints l); [by destruct Hs as [_ ->]|done|done].
Qed.

Lemma addresses_of_None r hosts :
  addresses_of r hosts = None -> ~ Forall (fun h => GetDNSAddresses h r <> []) hosts.
Proof.
  unfold addresses_of. destruct (forallb _ _) eqn:Ef; [done|]. intros _ Hf.
  apply not_true_iff_false in Ef. apply Ef, forallb_forall. intros h Hh. apply bool_decide_eq_true.
  rewrite Forall_forall in Hf. by apply Hf, list_elem_of_In.
Qed.
Lemma addresses_of_Some r hosts m h :
  addresses_of r hosts = Some m -> h ∈ hosts -> m !! h = Some (GetDNSAddresses h r).
Proof.
  unfold addresses_of. destruct (forallb _ _); [|done]. intros [= <-] Hh. clear -Hh.
  induction hosts as [|x hosts IH]; [by apply not_elem_of_nil in Hh|]. cbn.
  destruct (decide (h = x)) as [->|Hn]; [by rewrite lookup_insert_eq|]. rewrite lookup_insert_ne by done.
  apply IH. by apply elem_of_cons in Hh as [?|?].
Qed.

(** C28: A DNS cluster whose localities are one host name each, all resolved,
    is written with the IPv4 addresses of its hosts, in the order in which the
    resolver has them and on the ports of the cluster; IPv6 addresses and
    0.0.0.0 are left out, so the conversion cannot crash. *)
Theorem dns_cluster_resolves d cluster la (hosts : list (string * Z)) status :
  c3_load_assignment cluster = Some la -> c3_type cluster <> Cluster_EDS ->
  Forall2 (fun e '(h, port) => single_host e h port) (cla3_endpoints la) hosts ->
  pendingHostnames d !! c3_name cluster = Some hosts.*1 ->
  Forall (fun h => GetDNSAddresses h (dc_resolver d) <> []) hosts.*1 ->
  exists cluster', overwriteDnsCluster cluster d = Done (Some cluster') /\
    exists c, newApiCluster status cluster' = Done c /\
      c_load_assignment c = Some (mkClusterLoadAssignment (cla3_cluster_name la)
        (zip_with (fun e '(h, port) => resolved (dc_resolver d) e h port) (cla3_endpoints la) hosts)).
Proof.
  intros Hla Hty Hshape Hpend Hres. unfold overwriteDnsCluster. rewrite Hpend, Hla. cbn [default from_option id].
  destruct (addresses_of (dc_resolver d) hosts.*1) as [m|] eqn:Em; [|by apply addresses_of_None in Em].
  assert (forall h, h ∈ hosts.*1 -> m !! h = Some (GetDNSAddresses h (dc_resolver d))) as Hm
    by (intros h Hh; by apply (addresses_of_Some _ _ _ _ Em)).
  assert (forall l hs, Forall2 (fun e '(h, port) => single_host e h port) l hs -> (forall h, h ∈ hs.*1 -> h ∈ hosts.*1) ->
    exists l', overwrite_localities m l = Done l' /\
      newApiLocalities l' = Done (zip_with (fun e '(h, port) => resolved (dc_resolver d) e h port) l hs)) as Hloc.
  { clear -Hm. induction 1 as [|e [h port] l hs Hs Hl IH]; intros Hin; [by exists []|].
    destruct IH as (l' & Hl' & Hn); [set_solver|]. cbn. rewrite (overwrite_single m e h port _ Hs (Hm h ltac:(set_solver))), Hl'.
    cbn. eexists. split; [done|]. cbn. rewrite (newApiEndpoints_v4 _ (buildLbEndpoints_v4 _ _)), Hn. cbn.
    by rewrite v4_buildLbEndpoints. }
  destruct (Hloc _ _ Hshape) as (l' & -> & Hn); [done|]. cbn. eexists. split; [done|].
  unfold newApiCluster. cbn. rewrite decide_True by done. unfold newApiClusterLoadAssignment. cbn. rewrite Hn. cbn.
  eexists. split; [done|]. done.
Qed.

Lemma find_host_total m l : forall i acc, find_host m i acc l <> NoFuel.
Proof.
  induction l as [|le l IH]; intros i acc; [done|]. cbn.
  unfold le_text. repeat case_match; cbn; try done; apply IH.
Qed.
Lemma overwrite_locality_total m e : overwrite_locality m e <> NoFuel.
Proof.
  unfold overwrite_locality. pose proof (find_host_total m (ll3_lb_endpoints e) 0 (None, [])).
  by destruct (find_host _ _ _ _) as [[[pos|] lb]| |].
Qed.
Lemma overwrite_localities_crash m l :
  Exists (fun e => Forall no_host (ll3_lb_endpoints e)) l -> exists why, overwrite_localities m l = Panic why.
Proof.
  induction 1 as [e l He|e l He IH]; cbn.
  - unfold overwrite_locality. rewrite find_host_none by done. cbn. by eexists.
  - pose proof (overwrite_locality_total m e) as Ht. destruct (overwrite_locality m e); cbn; [|by eexists|done].
    destruct IH as [why ->]. by eexists.
Qed.

(** As soon as the host names of a DNS cluster are resolved the daemon
    crashes if some locality of the cluster has no host name in it (only IP
    addresses, or no endpoint). *)
Theorem hostless_locality_crashes d cluster la :
  c3_load_assignment cluster = Some la ->
  Forall (fun h => GetDNSAddresses h (dc_resolver d) <> []) (default [] (pendingHostnames d !! c3_name cluster)) ->
  Exists (fun e => Forall no_host (ll3_lb_endpoints e)) (cla3_endpoints la) ->
  exists why, overwriteDnsCluster cluster d = Panic why.
Proof.
  intros Hla Hres Hex. unfold overwriteDnsCluster. rewrite Hla.
  destruct (addresses_of _ _) as [m|] eqn:Em; [|by apply addresses_of_None in Em].
  destruct (overwrite_localities_crash m _ Hex) as [why ->]. by eexists.
Qed.

(** ** Refreshing

    [stable f m]: whatever [m] does, when it returns [f] of the state is as it
    was. *)
Definition stable {S A T} (f : S -> T) (m : Go S A) : Prop :=
  forall w s a w' s', m w s = Done (a, w', s') -> f s' = f s.

Section stable.
Context {S T : Type} (f : S -> T).

Lemma stable_ret {A} (a : A) : stable f (mret a).
Proof. by intros w s ? w' s' [= _ _ <-]. Qed.
Lemma stable_gets {A} (g : S -> A) : stable f (gets g).
Proof. by intros w s ? w' s' [= _ _ <-]. Qed.
Lemma stable_outcome {A} (o : outcome A) : stable f (from_outcome o).
Proof. intros w s a w' s'. destruct o; cbn; [by intros [= _ _ <-]|done|done]. Qed.
Lemma stable_modify (g : S -> S) : (forall s, f (g s) = f s) -> stable f (modify g).
Proof. intros Hg w s a w' s' [= _ _ <-]. apply Hg. Qed.
Lemma stable_range `{Env} {A} (l : list A) : stable f (range l).
Proof. by intros w s a w' s' [= _ _ <-]. Qed.
Lemma stable_bind {A B} (m : Go S A) (k : A -> Go S B) :
  stable f m -> (forall a, stable f (k a)) -> stable f (m ≫= k).
Proof.
  intros Hm Hk w s b w' s'. unfold mbind, go_bind. destruct (m w s) as [[[a w1] s1]| |] eqn:Em; [|done|done].
  intros Hb. rewrite (Hk a _ _ _ _ _ Hb). by eapply Hm.
Qed.
Lemma stable_zoom {U A} (l : lens S U) (m : Go U A) : (forall t s, f (lset l t s) = f s) -> stable f (zoom l m).
Proof.
  intros Hl w s a w' s'. unfold zoom. destruct (m w (lget l s)) as [[[? ?] t]| |]; [|done|done].
  intros [= _ _ <-]. apply Hl.
Qed.
Lemma stable_fold_each {A B} (l : list A) (acc : B) body :
  (forall acc a, stable f (body acc a)) -> stable f (fold_each l acc body).
Proof.
  intros Hb. revert acc. induction l as [|a l IH]; intros acc; cbn [fold_each]; [apply stable_ret|].
  apply stable_bind; [apply Hb|apply IH].
Qed.
End stable.
Create HintDb stable.
#[local] Hint Resolve stable_ret stable_gets stable_outcome stable_range stable_fold_each stable_bind stable_zoom stable_modify : stable.

Section refresh.
Context `{E : Env} `{Persist} `{Library} `{Wire} `{Slices}.

(** What happens to the controller: a list of DNS clusters, a goroutine that it
    started, a domain that was refreshed, a new ads response, and anything
    that the resolver does. *)
Inductive dns_event : Type :=
  | Clusters (cds : list ClusterV3)
  | Started (pending : pendingResolveDomain) (addrs : list string)
  | Refreshed (domain : string)
  | NewResponse
  | Resolver (f : DNSResolver -> DNSResolver).
Definition run_event (e : dns_event) : Go dnsController unit :=
  match e with
  | Clusters cds => processDomains cds;; mret tt
  | Started pending addrs => updateClusters (Some pending) addrs
  | Refreshed domain => refresh_domain domain
  | NewResponse => modify newClusterCache
  | Resolver f => modify (set_dc_resolver f)
  end.
Definition run_events (es : list dns_event) : Go dnsController unit :=
  fold_each es tt (fun _ e => run_event e).

Lemma updateClusters_stable pending addrs : stable clusterCache (updateClusters pending addrs).
Proof.
  unfold updateClusters. destruct pending; [|auto with stable]. case_decide; [auto with stable|].
  apply stable_bind; [apply stable_fold_each|]; intros; [|case_match; auto with stable].
  repeat (apply stable_bind; [auto with stable|intros]). case_match; [|auto with stable].
  apply stable_bind; auto with stable.
Qed.

Lemma run_event_stable e w d w' d' :
  clusterCache d = ∅ -> run_event e w d = Done (tt, w', d') -> clusterCache d' = ∅.
Proof.
  intros Hd Hr. destruct e as [cds|pending addrs|domain| |f]; cbn [run_event] in Hr.
  - rewrite <-Hd. revert Hr. eapply stable_bind; [|auto with stable]. unfold processDomains.
    apply stable_bind; [auto with stable|]. intros domains. apply stable_bind.
    { apply stable_fold_each. intros. apply stable_bind; auto with stable. }
    intros _. repeat (apply stable_bind; [auto with stable|intros]). apply stable_fold_each.
    intros acc [k v]. apply stable_bind; [auto with stable|intros]. case_decide; [auto with stable|].
    apply stable_bind; auto with stable.
  - rewrite <-Hd. exact (updateClusters_stable _ _ _ _ _ _ _ Hr).
  - rewrite <-Hd. revert Hr. eapply stable_bind; [auto with stable|]. intros. apply updateClusters_stable.
  - by injection Hr as _ <-.
  - by injection Hr as _ <-.
Qed.

(** The addresses that a refresh brings are never applied: whatever the
    controller has been through, the turn of the refresh worker for a domain
    changes nothing, since the table it looks the domain up in is never
    filled. *)
Theorem refresh_is_never_applied cache resolver es w w' d domain :
  run_events es w (NewDnsController cache resolver) = Done (tt, w', d) ->
  refresh_domain domain w' d = Done (tt, w', d).
Proof.
  intros Hr. enough (clusterCache d = ∅) as Hd.
  { unfold refresh_domain, updateClusters, getClustersByDomain, gets, mbind, go_bind. cbn. by rewrite Hd, lookup_empty. }
  assert (clusterCache (NewDnsController cache resolver) = ∅) as Hempty by done.
  revert Hr Hempty. generalize (NewDnsController cache resolver) as d0. unfold run_events. revert w.
  induction es as [|e es IH]; intros w d0; cbn [fold_each]; [by intros [= _ <-]|].
  unfold mbind, go_bind. destruct (run_event e w d0) as [[[[] w1] d1]| |] eqn:E1; [|done|done].
  intros Hr Hempty. eapply IH; [exact Hr|]. by eapply run_event_stable.
Qed.
End refresh.

(** ** A concrete cluster with two hosts *)
Definition host3 (h : string) (port : Z) : LbEndpointV3 :=
  mkLbEndpointV3 0 (Some (Address_SocketAddress (Some (mkSocketAddressV3 SocketAddress_TCP h port)))) None.
Definition dns_la : ClusterLoadAssignmentV3 :=
  mkClusterLoadAssignmentV3 "ext"
    [mkLocalityLbEndpointsV3 None 0 [host3 "a.example.com" 443]; mkLocalityLbEndpointsV3 None 1 [host3 "b.example.com" 8443]].
Definition dns_cluster : ClusterV3 := mkClusterV3 "ext" Cluster_STRICT_DNS 1 0 None (Some dns_la) Second.
(** ... and one where the second locality is an IP address. *)
Definition mixed_la : ClusterLoadAssignmentV3 :=
  mkClusterLoadAssignmentV3 "ext"
    [mkLocalityLbEndpointsV3 None 0 [host3 "a.example.com" 443]; mkLocalityLbEndpointsV3 None 1 [ep3 "10.0.0.7" 443]].
Definition mixed_cluster : ClusterV3 := mkClusterV3 "ext" Cluster_STRICT_DNS 1 0 None (Some mixed_la) Second.
Definition dns_table : gmap string (list string) :=
  {["a.example.com" := ["1.2.3.4"; "fd00::1"; "5.6.7.8"]; "b.example.com" := ["9.9.9.9"]]}.
Definition dns_demo (hosts : list string) : dnsController :=
  mkDnsController (Cache demo_ads) (mkDNSResolver [] dns_table [] []) ∅ {["ext" := hosts]}.

Lemma dns_cluster_resolves_witness :
  let d := dns_demo ["a.example.com"; "b.example.com"] in
  exists cluster', overwriteDnsCluster dns_cluster d = Done (Some cluster') /\
    exists c, newApiCluster ApiStatus_UPDATE cluster' = Done c /\
      c_load_assignment c = Some (mkClusterLoadAssignment "ext"
        [mkLocalityLbEndpoints [to_endpoint ([1;2;3;4], 443); to_endpoint ([5;6;7;8], 443)] 0 0;
         mkLocalityLbEndpoints [to_endpoint ([9;9;9;9], 8443)] 0 1]).
Proof.
  intros d. apply (dns_cluster_resolves d dns_cluster dns_la [("a.example.com", 443); ("b.example.com", 8443)]).
  - reflexivity.
  - discriminate.
  - repeat constructor.
  - reflexivity.
  - refine (bool_decide_unpack _ _). by vm_compute.
Defined.

Lemma hostless_locality_crashes_witness :
  exists why, overwriteDnsCluster mixed_cluster (dns_demo ["a.example.com"]) = Panic why.
Proof.
  apply (hostless_locality_crashes _ _ mixed_la).
  - reflexivity.
  - refine (bool_decide_unpack _ _). by vm_compute.
  - right. left. repeat constructor.
Defined.

#[local] Existing Instances EnvOk PersistOk DemoWire DemoLibrary DemoSlices.
Lemma refresh_is_never_applied_witness : exists w' d,
  run_events [Clusters [dns_cluster]; Resolver (set_dns_cache (fun _ => dns_table)); NewResponse] demo_world
    (NewDnsController (Cache demo_ads) (mkDNSResolver [] ∅ [] [])) = Done (tt, w', d) /\
  refresh_domain "a.example.com" w' d = Done (tt, w', d).
Proof.
  eexists _, _. split; [reflexivity|].
  eapply (refresh_is_never_applied (Cache demo_ads) (mkDNSResolver [] ∅ [] [])
    [Clusters [dns_cluster]; Resolver (set_dns_cache (fun _ => dns_table)); NewResponse] demo_world). reflexivity.
Defined.
