(* ===== verification/DnsWorkload.v ===== *)
(** * Workloads addressed by host name: [pkg/controller/workload/dns.go]

    A workload without addresses is sent to the controller, which has its host
    name resolved and sends it back with the addresses.  [received uid] says
    whether the processor takes the workload before the timeout.  As in
    [DnsAds], the calls that goroutines make are returned. *)
From S2P Require Import Prelude Api Runtime GoNet WorkloadCache AdsApi Dns.

Definition WorkloadDnsRefreshRate : Z := 200 * Millisecond.

Record pendingWorkloads : Type := mkPendingWorkloads { pw_Workload : list Workload; pw_RefreshRate : Z }.
Record dnsController : Type := mkDnsController {
  wd_cache : cache;
  wd_resolver : DNSResolver;
  ResolvedDomainChanMap : gset string;            (* the open channels *)
  sent : list Workload;                           (* what was received from them *)
  workloadCache : gmap string pendingWorkloads;
  pendingHostnames : gmap string string
}.
Definition l_wd_cache : lens dnsController cache :=
  mkLens wd_cache (fun c d => mkDnsController c (wd_resolver d) (ResolvedDomainChanMap d) (sent d)
    (workloadCache d) (pendingHostnames d)).
Definition set_wd_resolver f (d : dnsController) : dnsController :=
  mkDnsController (wd_cache d) (f (wd_resolver d)) (ResolvedDomainChanMap d) (sent d)
    (workloadCache d) (pendingHostnames d).
Definition set_chans f (d : dnsController) : dnsController :=
  mkDnsController (wd_cache d) (wd_resolver d) (f (ResolvedDomainChanMap d)) (sent d)
    (workloadCache d) (pendingHostnames d).
Definition send_workload x (d : dnsController) : dnsController :=
  mkDnsController (wd_cache d) (wd_resolver d) (ResolvedDomainChanMap d) (sent d ++ [x])
    (workloadCache d) (pendingHostnames d).
Definition set_workloadCache f (d : dnsController) : dnsController :=
  mkDnsController (wd_cache d) (wd_resolver d) (ResolvedDomainChanMap d) (sent d)
    (f (workloadCache d)) (pendingHostnames d).
Definition set_pendingHostnames f (d : dnsController) : dnsController :=
  mkDnsController (wd_cache d) (wd_resolver d) (ResolvedDomainChanMap d) (sent d)
    (workloadCache d) (f (pendingHostnames d)).
Definition NewDnsController (c : cache) (resolver : DNSResolver) : dnsController :=
  mkDnsController c resolver ∅ [] ∅ ∅.

Definition getPendingResolveDomain (workload : Workload) : gmap string pendingWorkloads :=
  let hostname := wl_hostname workload in
  if decide (hostname = "") then ∅
  else if decide (ParseAddr hostname <> None) then ∅
  else {[hostname := mkPendingWorkloads [workload] WorkloadDnsRefreshRate]}.

Definition set_wl_addresses (l : list bytes) (x : Workload) : Workload :=
  {| wl_uid := wl_uid x; wl_name := wl_name x; wl_namespace := wl_namespace x; wl_addresses := l;
     wl_network := wl_network x; wl_trust_domain := wl_trust_domain x;
     wl_service_account := wl_service_account x; wl_waypoint := wl_waypoint x; wl_node := wl_node x;
     wl_services := wl_services x; wl_authorization_policies := wl_authorization_policies x;
     wl_status := wl_status x; wl_cluster_id := wl_cluster_id x; wl_locality := wl_locality x;
     wl_network_mode := wl_network_mode x; wl_hostname := wl_hostname x;
     wl_canonical_name := wl_canonical_name x; wl_canonical_revision := wl_canonical_revision x;
     wl_workload_name := wl_workload_name x |}.

Definition overwriteDnsWorkload (workload : Workload) (domain : string) (addrs : list string) : option Workload :=
  if decide (wl_hostname workload <> domain) then None
  else if decide (addrs = []) then None
  else
    let addresses := wl_addresses workload ++ omap (fun addr => (fun a => AsSlice a.1) <$> ParseAddr addr) addrs in
    if decide (addresses = []) then None else Some (set_wl_addresses addresses workload).

Section controller.
Context `{E : Env}.
Variable received : string -> bool.

Definition updateWorkloads (pendingDomain : pendingWorkloads) (domain : string) (addrs : list string)
    : Go dnsController unit :=
  if decide (addrs = []) then mret tt
  else
    let readyWorkloads := omap (fun w => overwriteDnsWorkload w domain addrs) (pw_Workload pendingDomain) in
    fold_each readyWorkloads tt (fun _ newWorkload =>
      let uid := wl_uid newWorkload in
      chans ← gets ResolvedDomainChanMap;
      if decide (uid ∈ chans) then
        p ← new_wl newWorkload;
        zoom l_wd_cache (AddOrUpdateWorkload (Some p));;
        (if received uid then modify (send_workload newWorkload) else mret tt);;
        modify (set_chans (fun s => s ∖ {[uid]}))
      else mret tt);;
    if decide (readyWorkloads <> []) then modify (set_workloadCache (delete domain)) else mret tt.

Definition processDomains (workload : option Workload)
    : Go dnsController (list (pendingWorkloads * string * list string)) :=
  match workload with
  | None => mret []
  | Some workload =>
      let domains := getPendingResolveDomain workload in
      if decide (domains = ∅) then mret []
      else
        let hostname := wl_hostname workload in
        modify (set_pendingHostnames (<[wl_name workload := hostname]>));;
        modify (set_workloadCache (fun m =>
          let v := default (mkPendingWorkloads [] WorkloadDnsRefreshRate) (m !! hostname) in
          <[hostname := mkPendingWorkloads (pw_Workload v ++ [workload]) (pw_RefreshRate v)]> m));;
        modify (set_wd_resolver (RemoveUnwatchDomain (dom domains)));;
        l ← range (map_to_list domains);
        fold_each l [] (fun started '(k, v) =>
          d ← gets id;
          let addresses := GetDNSAddresses k (wd_resolver d) in
          if decide (addresses <> []) then mret (started ++ [(v, k, addresses)])
          else
            modify (set_wd_resolver (AddDomainInQueue (Some (mkDomainInfo k (pw_RefreshRate v))) 0));;
            mret started)
  end.

(** One turn of [refreshWorker]. *)
Definition refresh_domain (domain : string) : Go dnsController unit :=
  if decide (domain = "") then mret tt
  else
    d ← gets id;
    match workloadCache d !! domain with
    | None => mret tt
    | Some pendingDomain =>
        let addrs := GetDNSAddresses domain (wd_resolver d) in
        if decide (addrs = []) then mret tt else updateWorkloads pendingDomain domain addrs
    end.

Definition removeWorkloadFromDnsCache (workloadName : string) (d : dnsController) : dnsController :=
  match pendingHostnames d !! workloadName with
  | None => d
  | Some hostname =>
      let d := set_pendingHostnames (delete workloadName) d in
      match workloadCache d !! hostname with
      | None => d
      | Some pendingDomain =>
          let updatedWorkloads := filter (fun wl => wl_name wl <> workloadName) (pw_Workload pendingDomain) in
          if decide (updatedWorkloads = []) then
            set_wd_resolver (RemoveUnwatchDomain {[hostname]}) (set_workloadCache (delete hostname) d)
          else
            set_workloadCache (<[hostname := mkPendingWorkloads updatedWorkloads (pw_RefreshRate pendingDomain)]>) d
      end
  end.
End controller.

(** ** Addresses *)

(** The addresses that a list of texts stands for: the bytes of each text that
    is an address, in the order of the texts; the other texts are passed over. *)
Inductive addresses_of : list string -> list bytes -> Prop :=
  | addresses_nil : addresses_of [] []
  | addresses_addr text a zone texts new :
      ParseAddr text = Some (a, zone) -> addresses_of texts new -> addresses_of (text :: texts) (AsSlice a :: new)
  | addresses_other text texts new :
      ParseAddr text = None -> addresses_of texts new -> addresses_of (text :: texts) new.

Lemma addresses_of_omap texts new :
  addresses_of texts new <-> new = omap (fun addr => (fun a => AsSlice a.1) <$> ParseAddr addr) texts.
Proof.
  split.
  - induction 1 as [|text a zone texts new Ha _ ->|text texts new Ha _ ->]; [done|..]; cbn; by rewrite Ha.
  - intros ->. induction texts as [|text texts IH]; [constructor|]. cbn.
    destruct (ParseAddr text) as [[a zone]|] eqn:Ea; cbn; by econstructor.
Qed.
Lemma addresses_of_wf texts new : addresses_of texts new ->
  Forall (fun b => (length b = 4%nat \/ length b = 16%nat) /\ Forall is_u8 b) new.
Proof.
  induction 1 as [|text a zone texts new Ha _ IH|]; [done| |done]. constructor; [|done].
  apply ParseAddr_wf in Ha. destruct a; [done|..]; destruct Ha; auto.
Qed.

(** C30: A workload comes back exactly when the resolved name is its host name,
    the resolver gave something, and there is an address in the end; it is then
    the same workload, with the addresses it had followed by those that the
    resolver's texts stand for, in the order of the texts, each of 4 or 16
    bytes. *)
Theorem overwriteDnsWorkload_addresses workload domain addrs x :
  overwriteDnsWorkload workload domain addrs = Some x <->
  wl_hostname workload = domain /\ addrs <> [] /\
  exists new, addresses_of addrs new /\ wl_addresses workload ++ new <> [] /\
    Forall (fun b => (length b = 4%nat \/ length b = 16%nat) /\ Forall is_u8 b) new /\
    x = set_wl_addresses (wl_addresses workload ++ new) workload.
Proof.
  unfold overwriteDnsWorkload. split.
  - case_decide as Hh; [done|]. case_decide; [done|]. cbn zeta. case_decide; [done|]. intros [= <-].
    split; [by destruct (decide (wl_hostname workload = domain))|]. split; [done|].
    eexists. split; [by apply addresses_of_omap|]. split; [done|]. split; [by eapply addresses_of_wf, addresses_of_omap|done].
  - intros (<- & Hne & new & Hnew & Hadd & _ & ->). apply addresses_of_omap in Hnew as ->.
    rewrite !decide_False by (done || by intros ?). done.
Qed.

Definition web_workload : Workload := mkWorkload "c//Pod/default/a" "a" "default" [] "net" "" "" None "n1" ∅ [] 0 "c1" None 0 "a.example.com" "" "" "".
Lemma overwriteDnsWorkload_addresses_witness :
  overwriteDnsWorkload web_workload "a.example.com" ["1.2.3.4"; "none"; "fd00::1"] =
    Some (set_wl_addresses [[1; 2; 3; 4]; [253; 0; 0; 0; 0; 0; 0; 0; 0; 0; 0; 0; 0; 0; 0; 1]] web_workload).
Proof.
  apply overwriteDnsWorkload_addresses. split; [reflexivity|]. split; [discriminate|].
  exists [[1; 2; 3; 4]; [253; 0; 0; 0; 0; 0; 0; 0; 0; 0; 0; 0; 0; 0; 0; 1]]. split; [apply addresses_of_omap; vm_compute; reflexivity|].
  split; [discriminate|]. split; [|reflexivity]. refine (bool_decide_unpack _ _). vm_compute. exact I.
Defined.

(** ** Watching *)
Definition named_by (h : string) (workload : Workload) : Prop :=
  wl_hostname workload = h /\ h <> "" /\ ParseAddr h = None.

Lemma pending_of h workload : named_by h workload ->
  getPendingResolveDomain workload = {[h := mkPendingWorkloads [workload] WorkloadDnsRefreshRate]}.
Proof.
  intros (<- & Hne & Hp). unfold getPendingResolveDomain. rewrite decide_False by done.
  by rewrite decide_False by (by intros ?).
Qed.

Lemma GetDNSAddresses_unwatch h r : GetDNSAddresses h (RemoveUnwatchDomain {[h]} r) = GetDNSAddresses h r.
Proof.
  unfold GetDNSAddresses, RemoveUnwatchDomain. cbn. destruct (dns_cache r !! h) as [a|] eqn:Ea.
  - by rewrite (map_lookup_filter_Some_2 _ _ _ a) by set_solver.
  - by rewrite map_lookup_filter_None_2 by auto.
Qed.

(** The resolver after a workload with the host name [h]: it watches [h], and
    nothing else. *)
Lemma wp_processDomains `{E : Env} p h workload w d :
  named_by h workload ->
  wp p (processDomains (Some workload)) (fun _ _ d' =>
    dom (dns_cache (wd_resolver d')) = {[h]} /\
    GetDNSAddresses h (wd_resolver d') = GetDNSAddresses h (wd_resolver d) /\
    DnsChan (wd_resolver d') = DnsChan (wd_resolver d) /\
    delegates (wd_resolver d') = delegates (wd_resolver d)) w d.
Proof.
  intros Hn. unfold processDomains. rewrite (pending_of h workload Hn).
  rewrite decide_False by apply map_non_empty_singleton. rewrite dom_singleton_L. wp_steps.
  rewrite map_to_list_singleton in *.
  match goal with Hp : _ ≡ₚ [_] |- _ => apply Permutation_singleton_r in Hp; subst end.
  cbn [fold_each]. wp_steps. cbn [wd_resolver set_wd_resolver].
  unfold id. cbn [wd_resolver set_wd_resolver set_workloadCache set_pendingHostnames].
  set (r := RemoveUnwatchDomain {[h]} (wd_resolver d)).
  assert (GetDNSAddresses h r = GetDNSAddresses h (wd_resolver d)) as Hr by apply GetDNSAddresses_unwatch.
  assert (dom (dns_cache r) ⊆ {[h]}) as Hdom.
  { intros x [a (_ & Hx)%map_lookup_filter_Some]%elem_of_dom. done. }
  case_decide as Ha; wp_steps;
    cbn [wd_resolver set_wd_resolver set_workloadCache set_pendingHostnames pw_RefreshRate]; fold r.
  - split_and!; [|done|done|done]. apply set_eq. intros x. split; [apply Hdom|]. intros ->%elem_of_singleton.
    apply elem_of_dom. unfold GetDNSAddresses in Ha. destruct (dns_cache r !! h); [by eexists|done].
  - assert (dom (dns_cache (AddDomainInQueue (Some (mkDomainInfo h WorkloadDnsRefreshRate)) 0 r)) = {[h]} /\
      GetDNSAddresses h (AddDomainInQueue (Some (mkDomainInfo h WorkloadDnsRefreshRate)) 0 r) = GetDNSAddresses h r)
      as [Hd Hg];
      [|rewrite Hg; split_and!; [done|done|..]; unfold AddDomainInQueue; cbn; by case_decide].
    unfold AddDomainInQueue, GetDNSAddresses. cbn. case_decide as Hc; cbn.
    + rewrite dom_insert_L, lookup_insert_eq, Hc. split; [set_solver|done].
    + split; [|done]. apply set_eq. intros x. split; [apply Hdom|]. intros ->%elem_of_singleton.
      apply elem_of_dom. by apply not_eq_None_Some.
Qed.

(** A domain that is not watched is not announced by the refresh loop. *)
Lemma refreshDns_unwatched exchange Fqdn a_first i r h :
  dns_cache r !! h = None -> h ∉ DnsChan r ->
  dns_cache (refreshDns exchange Fqdn a_first i r) !! h = None /\
  h ∉ DnsChan (refreshDns exchange Fqdn a_first i r).
Proof.
  intros Hc Hn. unfold refreshDns, resolve. destruct (refreshQueue r !! i) as [[e t]|]; [|done]. cbn.
  case_decide as He; [done|]. destruct (dns_cache r !! Domain e) eqn:Ee; [|done].
  assert (Domain e <> h) as Hne by congruence.
  destruct (doResolve _ _ _ _ _) as [[addrs ttl]|]; cbn; [|done].
  rewrite lookup_insert_ne by done. split; [done|]. rewrite elem_of_app, list_elem_of_singleton. naive_solver.
Qed.

(** A workload whose host name is still being resolved is forgotten when
    another one with a different host name comes: the resolver stops watching
    the first name, so the refresh loop never announces it, whatever the
    servers answer. *)
Theorem second_host_unwatches_first `{E : Env} Fqdn h1 h2 w1 w2 w d
    (later : list ((Question -> string -> option Msg) * (bool * nat))) :
  named_by h1 w1 -> named_by h2 w2 -> h1 <> h2 -> h1 ∉ DnsChan (wd_resolver d) ->
  wp false (processDomains (Some w1);; processDomains (Some w2)) (fun _ _ d' =>
    let r := foldl (fun r c => refreshDns c.1 Fqdn c.2.1 c.2.2 r) (wd_resolver d') later in
    (h1 ∉ DnsChan r) /\ GetDNSAddresses h1 r = []) w d.
Proof.
  intros H1 H2 Hne Hch. wp_steps. eapply wp_mono; [by apply wp_processDomains|].
  intros ? wa da (_ & _ & Hca & _). eapply wp_mono; [by apply wp_processDomains|].
  intros ? wb db (Hdom & _ & Hcb & _). cbn zeta.
  assert (dns_cache (wd_resolver db) !! h1 = None) as Hno by (apply not_elem_of_dom; set_solver).
  assert (h1 ∉ DnsChan (wd_resolver db)) as Hn by congruence.
  revert Hno Hn. generalize (wd_resolver db) as r. induction later as [|[ex [b i]] later IH]; intros r Hno Hn; cbn.
  - split; [done|]. unfold GetDNSAddresses. by rewrite Hno.
  - destruct (refreshDns_unwatched ex Fqdn b i r h1 Hno Hn). by apply IH.
Qed.

Definition api_workload : Workload := mkWorkload "c//Pod/default/b" "b" "default" [] "net" "" "" None "n1" ∅ [] 0 "c1" None 0 "b.example.com" "" "" "".
Lemma second_host_unwatches_first_witness :
  wp (S := dnsController) false
    (@processDomains EnvOk (Some web_workload);; @processDomains EnvOk (Some api_workload)) (fun _ _ d' =>
    let r := foldl (fun r c => refreshDns c.1 (fun s => s +:+ ".") c.2.1 c.2.2 r) (wd_resolver d')
               [(demo_exchange, (true, 0%nat)); (demo_exchange, (true, 0%nat))] in
    ("a.example.com" ∉ DnsChan r) /\ GetDNSAddresses "a.example.com" r = [])
    (mkWorld 0 ∅ ∅) (NewDnsController NewWorkloadCache (NewDNSResolver ["10.96.0.10"] (fun s => s +:+ ":53"))).
Proof.
  apply (@second_host_unwatches_first EnvOk (fun s => s +:+ ".") "a.example.com" "b.example.com").
  - repeat split; discriminate.
  - repeat split; discriminate.
  - discriminate.
  - apply not_elem_of_nil.
Defined.

(** The removal of the last workload of a host name unwatches every other name
    and keeps that one. *)
Lemma removeWorkloadFromDnsCache_watches name h v d :
  pendingHostnames d !! name = Some h -> workloadCache d !! h = Some v ->
  Forall (fun wl => wl_name wl = name) (pw_Workload v) ->
  let d' := removeWorkloadFromDnsCache name d in
  workloadCache d' !! h = None /\
  forall x, dns_cache (wd_resolver d') !! x = if decide (x = h) then dns_cache (wd_resolver d) !! h else None.
Proof.
  intros Hp Hw Hall. cbn zeta. unfold removeWorkloadFromDnsCache. rewrite Hp. cbn. rewrite Hw. cbn.
  assert (filter (fun wl => wl_name wl <> name) (pw_Workload v) = []) as ->.
  { induction Hall as [|x l Hx Hl IH]; [done|]. rewrite filter_cons_False by naive_solver. apply IH. }
  rewrite decide_True by done. cbn. split; [by rewrite lookup_delete_eq|]. intros x. case_decide as Hx.
  - subst. destruct (dns_cache (wd_resolver d) !! h) as [a|] eqn:Ea.
    + apply map_lookup_filter_Some_2; [done|]. set_solver.
    + apply map_lookup_filter_None_2. by left.
  - apply map_lookup_filter_None_2. right. intros a _. set_solver.
Qed.
