(* ===== verification/Security.v ===== *)
(** * Certificates: [pkg/controller/security/manager.go], [caclient.go]

    The secret manager is a state machine: requests on a channel, handled one
    after the other; goroutines that fetch a certificate; timers that ask
    again after a failure; and a delaying queue of the identities to rotate.
    Each is a list of identities in the state.  A timer or the queue may fire
    at any moment, and the channel never blocks. *)
From S2P Require Import Prelude.

(** ** The CA client *)
Record SecretItem : Type := mkSecretItem {
  CertificateChain : string;
  PrivateKey : string;
  ResourceName : string;
  ExpireTime : Z;
  RootCert : string
}.

Definition newline : string := String (Ascii.ascii_of_nat 10) "".
Definition HasSuffix_newline (s : string) : bool :=
  bool_decide (String.get (String.length s - 1) s = Some (Ascii.ascii_of_nat 10)).

Fixpoint standardCerts (certsPEM : list string) : string :=
  match certsPEM with
  | [] => ""
  | [c] => c
  | c :: rest => c +:+ (if HasSuffix_newline c then "" else newline) +:+ standardCerts rest
  end.

Definition CsrSend (response : list string + error) : list string + error :=
  match response with
  | inr _ => inr (Errorf "create certificate failed")
  | inl CertChain => if decide (length CertChain <= 1)%nat then inr (Errorf "invalid empty CertChain") else inl CertChain
  end.

(** [csr] is the result of generating the request and the key, [response] what
    the CA answers, [expiry] the parser of the first certificate. *)
Definition FetchCert (identity : string) (csr : (string * string) + error) (response : list string + error)
    (expiry : string -> Z + error) : SecretItem + error :=
  match csr with
  | inr e => inr e
  | inl (_, keyPEM) =>
      match CsrSend response with
      | inr e => inr e
      | inl certChainPEM =>
          let certChain := standardCerts certChainPEM in
          match expiry certChain with
          | inr _ => inr (Errorf "failed to extract expire time")
          | inl expireTime =>
              inl (mkSecretItem certChain keyPEM identity expireTime (default "" (last certChainPEM)))
          end
      end
  end.

(** ** State *)
Inductive operation : Type := ADD | DELETE | RETRY | Rotate.
#[export] Instance operation_eq_dec : EqDecision operation.
Proof. solve_decision. Defined.
Record certItem : Type := mkCertItem { cert : option SecretItem; refCnt : Z }.
Record SecretManager : Type := mkSecretManager {
  certs : gmap string certItem;
  certsRotateQueue : list string;
  certRequestChan : list (string * operation);
  fetching : list string;                         (* goroutines in fetchCert *)
  timers : list string                            (* time.AfterFunc *)
}.
Definition set_certs f (s : SecretManager) : SecretManager :=
  mkSecretManager (f (certs s)) (certsRotateQueue s) (certRequestChan s) (fetching s) (timers s).
Definition go_fetch (identity : string) (s : SecretManager) : SecretManager :=
  mkSecretManager (certs s) (certsRotateQueue s) (certRequestChan s) (fetching s ++ [identity]) (timers s).
Definition SendCertRequest (identity : string) (op : operation) (s : SecretManager) : SecretManager :=
  mkSecretManager (certs s) (certsRotateQueue s) (certRequestChan s ++ [(identity, op)]) (fetching s) (timers s).
(** Adding an identity that already waits leaves it waiting. *)
Definition queue_rotation (identity : string) (s : SecretManager) : SecretManager :=
  mkSecretManager (certs s)
    (if decide (identity ∈ certsRotateQueue s) then certsRotateQueue s else certsRotateQueue s ++ [identity])
    (certRequestChan s) (fetching s) (timers s).
Definition newCertCache : gmap string certItem := ∅.
Definition NewSecretManager : SecretManager := mkSecretManager newCertCache [] [] [] [].

(** ** Handlers *)
Definition i32 (x : Z) : Z := (x + 2 ^ 31) mod 2 ^ 32 - 2 ^ 31.

Definition StoreCert (identity : string) (newCert : SecretItem) (s : SecretManager) : SecretManager :=
  match certs s !! identity with
  | None => s
  | Some existing =>
      if from_option (fun c => bool_decide (ExpireTime newCert < ExpireTime c)) false (cert existing) then s
      else queue_rotation identity (set_certs (<[identity := mkCertItem (Some newCert) (refCnt existing)]>) s)
  end.

Definition addOrUpdate (identity : string) (s : SecretManager) : SecretManager * bool :=
  match certs s !! identity with
  | Some c => (set_certs (<[identity := mkCertItem (cert c) (i32 (refCnt c + 1))]>) s, true)
  | None => (set_certs (<[identity := mkCertItem None 1]>) s, false)
  end.

Definition deleteCert (identity : string) (s : SecretManager) : SecretManager :=
  match certs s !! identity with
  | None => s
  | Some c =>
      let n := i32 (refCnt c - 1) in
      if decide (n = 0) then set_certs (delete identity) s
      else set_certs (<[identity := mkCertItem (cert c) n]>) s
  end.

Definition rotateCert (identity : string) (s : SecretManager) : outcome SecretManager :=
  match certs s !! identity with
  | None => Done s
  | Some c =>
      match cert c with
      | None => Panic "nil pointer dereference"
      | Some _ => Done (go_fetch identity s)      (* logs when the certificate is still valid for an hour *)
      end
  end.

Definition retryFetchCert (identity : string) (s : SecretManager) : SecretManager :=
  match certs s !! identity with
  | None => s
  | Some _ => go_fetch identity s
  end.

(** One turn of [handleCertRequests]; [None] when the channel is empty. *)
Definition handleCertRequest (s : SecretManager) : option (outcome SecretManager) :=
  match certRequestChan s with
  | [] => None
  | (identity, op) :: rest =>
      let s := mkSecretManager (certs s) (certsRotateQueue s) rest (fetching s) (timers s) in
      Some match op with
      | ADD => let '(s, found) := addOrUpdate identity s in
               Done (if found then s else go_fetch identity s)
      | RETRY => Done (retryFetchCert identity s)
      | DELETE => Done (deleteCert identity s)
      | Rotate => rotateCert identity s
      end
  end.

(** The end of the goroutine number [i] of [fetchCert]. *)
Definition fetchCert (i : nat) (result : SecretItem + error) (s : SecretManager) : SecretManager :=
  match fetching s !! i with
  | None => s
  | Some identity =>
      let s := mkSecretManager (certs s) (certsRotateQueue s) (certRequestChan s) (delete i (fetching s)) (timers s) in
      match result with
      | inr _ => mkSecretManager (certs s) (certsRotateQueue s) (certRequestChan s) (fetching s) (timers s ++ [identity])
      | inl newCert => StoreCert identity newCert s
      end
  end.

Definition timer_fires (i : nat) (s : SecretManager) : SecretManager :=
  match timers s !! i with
  | None => s
  | Some identity =>
      SendCertRequest identity RETRY
        (mkSecretManager (certs s) (certsRotateQueue s) (certRequestChan s) (fetching s) (delete i (timers s)))
  end.

(** One turn of [rotateCerts] with the element number [i] of the queue. *)
Definition rotateCerts (i : nat) (s : SecretManager) : SecretManager :=
  match certsRotateQueue s !! i with
  | None => s
  | Some identity =>
      SendCertRequest identity Rotate
        (mkSecretManager (certs s) (delete i (certsRotateQueue s)) (certRequestChan s) (fetching s) (timers s))
  end.

(** ** Executions *)
Inductive event : Type :=
  | Send (identity : string) (op : operation)      (* a pod comes or goes: ADD or DELETE *)
  | Handle
  | Fetched (i : nat) (result : SecretItem + error)
  | TimerFires (i : nat)
  | QueueFires (i : nat).

(** The second component is the log of the handled requests. *)
Definition run_event (e : event) (st : SecretManager * list (string * operation))
    : outcome (SecretManager * list (string * operation)) :=
  let '(s, log) := st in
  match e with
  | Send who op => Done (SendCertRequest who op s, log)
  | Handle =>
      match handleCertRequest s, certRequestChan s with
      | Some o, r :: _ => s ← o; Done (s, log ++ [r])
      | _, _ => Done (s, log)
      end
  | Fetched i result => Done (fetchCert i result s, log)
  | TimerFires i => Done (timer_fires i s, log)
  | QueueFires i => Done (rotateCerts i s, log)
  end.
Fixpoint run (es : list event) (st : SecretManager * list (string * operation))
    : outcome (SecretManager * list (string * operation)) :=
  match es with
  | [] => Done st
  | e :: es => st ← run_event e st; run es st
  end.

(** How many users an identity has after the requests of a log. *)
Definition use (identity : string) (n : Z) (r : string * operation) : Z :=
  if decide (r.1 = identity) then
    match r.2 with ADD => n + 1 | DELETE => Z.max 0 (n - 1) | _ => n end
  else n.
Definition users (identity : string) (log : list (string * operation)) : Z := foldl (use identity) 0 log.
Definition count_of (identity : string) (s : SecretManager) : Z := from_option refCnt 0 (certs s !! identity).

Definition counted (s : SecretManager) (log : list (string * operation)) : Prop :=
  forall id, count_of id s = users id log /\ (is_Some (certs s !! id) <-> 0 < users id log).

Lemma users_bounds id log : 0 <= users id log <= Z.of_nat (length log).
Proof.
  induction log as [|r log IH] using rev_ind; [done|]. unfold users in *. rewrite foldl_app, length_app. cbn.
  set (n := foldl _ _ _) in *. unfold use. case_decide; [destruct r.2|]; lia.
Qed.
Lemma users_snoc id log r : users id (log ++ [r]) = use id (users id log) r.
Proof. unfold users. by rewrite foldl_app. Qed.

Lemma i32_small x : - 2 ^ 31 <= x < 2 ^ 31 -> i32 x = x.
Proof. intros Hx. unfold i32. rewrite Z.mod_small; lia. Qed.

(** The operations that leave the counts alone. *)
Lemma counted_same s s' log :
  (forall id, refCnt <$> certs s' !! id = refCnt <$> certs s !! id) -> counted s log -> counted s' log.
Proof.
  intros Hs Hc id. specialize (Hs id). destruct (Hc id) as [H1 H2]. unfold count_of in *.
  destruct (certs s !! id) as [c|], (certs s' !! id) as [c'|]; simplify_eq/=; [|done].
  split; [congruence|]. split; [|by eexists]. intros _. apply H2. by eexists.
Qed.
Lemma StoreCert_counts id c s i : refCnt <$> certs (StoreCert id c s) !! i = refCnt <$> certs s !! i.
Proof.
  unfold StoreCert. destruct (certs s !! id) as [e|] eqn:Ee; [|done]. case_match; [done|]. cbn.
  destruct (decide (i = id)) as [->|]; [by rewrite lookup_insert_eq, Ee|by rewrite lookup_insert_ne].
Qed.

Lemma counted_handle s log s' r rest :
  certRequestChan s = r :: rest -> handleCertRequest s = Some (Done s') ->
  Z.of_nat (length log) < 2 ^ 31 - 1 -> counted s log -> counted s' (log ++ [r]).
Proof.
  intros Hch Hh Hlen Hc id. unfold handleCertRequest in Hh. rewrite Hch in Hh. destruct r as [id' op].
  destruct (Hc id) as [H1 H2]. pose proof (users_bounds id log) as Hb. unfold count_of in *.
  rewrite users_snoc. unfold use. cbn [fst snd]. injection Hh as Hh.
  destruct op; [| |injection Hh as <-; unfold retryFetchCert; cbn; case_match; cbn; case_decide; done|].
  - unfold addOrUpdate in Hh. cbn in Hh. destruct (certs s !! id') as [c|] eqn:Ec; injection Hh as <-; cbn;
      (case_decide as Hd; [subst id'; rewrite lookup_insert_eq; cbn|by rewrite lookup_insert_ne]).
    + rewrite Ec in H1, H2. cbn in H1. rewrite i32_small by lia. split; [lia|]. split; [|by eexists]. lia.
    + rewrite Ec in H1. cbn in H1. split; [lia|]. split; [lia|by eexists].
  - unfold deleteCert in Hh. injection Hh as <-. cbn. destruct (certs s !! id') as [c|] eqn:Ec.
    + destruct (decide (id' = id)) as [->|Hd].
      * rewrite Ec in H1, H2. cbn in H1. assert (0 < users id log) by (apply H2; by eexists).
        rewrite i32_small by lia.
        destruct (decide (refCnt c - 1 = 0)) as [Hz|Hz]; cbn.
        -- rewrite lookup_delete_eq. cbn. split; [lia|]. split; [by intros [? ?]|intros; exfalso; lia].
        -- rewrite lookup_insert_eq. cbn. split; [lia|]. split; [lia|by eexists].
      * case_decide; cbn; rewrite ?lookup_delete_ne, ?lookup_insert_ne by done; done.
    + cbn. case_decide as Hd; [subst id'|done]. rewrite Ec in H1 |- *. cbn in H1 |- *. split; [lia|].
      split; [by intros [? ?]|intros; exfalso; lia].
  - unfold rotateCert in Hh. cbn in Hh. destruct (certs s !! id') as [c|]; [destruct (cert c)|];
      simplify_eq/=; by case_decide.
Qed.

Lemma counted_event e s log s' log' :
  run_event e (s, log) = Done (s', log') -> Z.of_nat (length log) < 2 ^ 31 - 1 ->
  counted s log -> counted s' log' /\ (length log' <= S (length log))%nat.
Proof.
  intros Hr Hlen Hc. destruct e as [who op| |i result|i|i]; cbn in Hr.
  - injection Hr as <- <-. by split; [|lia].
  - destruct (certRequestChan s) as [|r rest] eqn:Ech.
    { unfold handleCertRequest in Hr. rewrite Ech in Hr. injection Hr as <- <-. by split; [|lia]. }
    destruct (handleCertRequest s) as [[s1| |]|] eqn:Eh; cbn in Hr; try done.
    + injection Hr as <- <-. split; [by eapply counted_handle|]. rewrite length_app. cbn. lia.
    + injection Hr as <- <-. by split; [|lia].
  - injection Hr as <- <-. split; [|lia]. revert Hc. apply counted_same. intros id. unfold fetchCert.
    destruct (fetching s !! i); [|done]. destruct result; [|done]. by rewrite StoreCert_counts.
  - injection Hr as <- <-. split; [|lia]. revert Hc. apply counted_same. intros id. unfold timer_fires. by case_match.
  - injection Hr as <- <-. split; [|lia]. revert Hc. apply counted_same. intros id. unfold rotateCerts. by case_match.
Qed.

Lemma counted_new : counted NewSecretManager [].
Proof.
  intros id. unfold count_of, users. cbn. unfold newCertCache. rewrite lookup_empty.
  split; [done|]. split; [by intros [? ?]|lia].
Qed.

(** Requests of users only: none of them makes the manager panic. *)
Definition user_request (r : string * operation) : Prop := r.2 = ADD \/ r.2 = DELETE.
Lemma handle_user_request s log r rest :
  certRequestChan s = r :: rest -> user_request r -> Z.of_nat (length log) < 2 ^ 31 - 1 -> counted s log ->
  exists s', run_event Handle (s, log) = Done (s', log ++ [r]) /\ certRequestChan s' = rest /\ counted s' (log ++ [r]).
Proof.
  intros Hch Hr Hlen Hc.
  assert (exists s', handleCertRequest s = Some (Done s') /\ certRequestChan s' = rest) as (s' & Hs & Hrest).
  { unfold handleCertRequest. rewrite Hch. destruct r as [id []]; destruct Hr; try done.
    - unfold addOrUpdate. cbn. destruct (certs s !! id); eexists; split; done.
    - unfold deleteCert. cbn. destruct (certs s !! id); [case_decide|]; eexists; split; done. }
  exists s'. split_and!; [cbn; by rewrite Hs, Hch|done|by eapply counted_handle].
Qed.
Lemma run_user_requests reqs s log :
  certRequestChan s = reqs -> Forall user_request reqs -> Z.of_nat (length log + length reqs) < 2 ^ 31 - 1 -> counted s log ->
  exists s', run (replicate (length reqs) Handle) (s, log) = Done (s', log ++ reqs) /\ counted s' (log ++ reqs).
Proof.
  revert s log. induction reqs as [|r reqs IH]; intros s log Hch Hf Hl Hc.
  { exists s. by rewrite app_nil_r. }
  apply Forall_cons in Hf as [Hr Hf].
  destruct (handle_user_request s log r reqs Hch Hr ltac:(cbn in Hl; lia) Hc) as (s1 & Hs1 & Hch1 & Hc1).
  destruct (IH s1 (log ++ [r]) Hch1 Hf ltac:(rewrite length_app; cbn in *; lia) Hc1) as (s' & Hs' & Hc').
  rewrite <-app_assoc in Hs', Hc'. exists s'. split; [|done]. cbn [length replicate run]. by rewrite Hs1.
Qed.

(** C16: Whatever happens in between (fetches, failures, retries, rotations),
    the reference count of an identity is the number of its users: additions
    handled less deletions, never below zero; and the certificate of an
    identity is kept exactly as long as it has a user. *)
Theorem refCnt_exact es s log :
  Z.of_nat (length es) < 2 ^ 31 - 1 ->
  run es (NewSecretManager, []) = Done (s, log) ->
  forall id, count_of id s = users id log /\ (is_Some (certs s !! id) <-> 0 < users id log).
Proof.
  intros Hlen Hr. change (counted s log).
  pose proof counted_new as H0.
  assert (Z.of_nat (length es + length (A := string * operation) []) < 2 ^ 31 - 1) as Hl by (cbn; lia).
  revert Hr H0 Hl. generalize NewSecretManager as s0. generalize (@nil (string * operation)) as log0. clear Hlen.
  induction es as [|e es IH]; intros log0 s0 Hr H0 Hl; cbn [run] in Hr.
  - by injection Hr as <- <-.
  - destruct (run_event e (s0, log0)) as [[s1 log1]| |] eqn:Ee; cbn in Hr; [|done|done].
    destruct (counted_event _ _ _ _ _ Ee ltac:(cbn in Hl; lia) H0) as [Hc Hlog].
    apply (IH log1 s1 Hr Hc). cbn in Hl. lia.
Qed.

Definition demo_cert (t : Z) : SecretItem := mkSecretItem "chain" "key" "spiffe://a" t "root".
Lemma refCnt_exact_witness : exists s log,
  run [Send "a" ADD; Send "a" ADD; Handle; Handle; Fetched 0 (inr (Errorf "down")); TimerFires 0; Handle;
       Fetched 0 (inl (demo_cert 10)); Send "a" DELETE; Handle] (NewSecretManager, []) = Done (s, log) /\
  forall id, count_of id s = users id log /\ (is_Some (certs s !! id) <-> 0 < users id log).
Proof.
  eexists _, _. split; [vm_compute; reflexivity|].
  eapply (refCnt_exact [Send "a" ADD; Send "a" ADD; Handle; Handle; Fetched 0 (inr (Errorf "down")); TimerFires 0;
    Handle; Fetched 0 (inl (demo_cert 10)); Send "a" DELETE; Handle]); [cbn; lia|vm_compute; reflexivity].
Defined.

(** ** Nothing is forgotten *)
Definition in_progress (id : string) (s : SecretManager) : Prop :=
  id ∈ fetching s \/ id ∈ timers s \/ (id, RETRY) ∈ certRequestChan s.
Definition tracked (id : string) (s : SecretManager) : Prop :=
  in_progress id s \/ id ∈ certsRotateQueue s \/ (id, Rotate) ∈ certRequestChan s.

(** The steps of the manager with a CA whose new certificates do not expire
    before the old ones. *)
Inductive step : SecretManager -> SecretManager -> Prop :=
  | step_send who op s : op = ADD \/ op = DELETE -> step s (SendCertRequest who op s)
  | step_handle s s' : handleCertRequest s = Some (Done s') -> step s s'
  | step_failed i e s : step s (fetchCert i (inr e) s)
  | step_fetched i who new s :
      fetching s !! i = Some who ->
      (forall c old, certs s !! who = Some c -> cert c = Some old -> ExpireTime old <= ExpireTime new) ->
      step s (fetchCert i (inl new) s)
  | step_timer i s : step s (timer_fires i s)
  | step_queue i s : step s (rotateCerts i s).
Inductive reachable : SecretManager -> Prop :=
  | reachable_init : reachable NewSecretManager
  | reachable_step s s' : reachable s -> step s s' -> reachable s'.

Definition looked_after (s : SecretManager) : Prop :=
  forall id c, certs s !! id = Some c -> tracked id s /\ (cert c = None -> in_progress id s).

Lemma elem_of_delete_other {A} `{EqDecision A} (l : list A) i x y : l !! i = Some x -> y ∈ l -> y = x \/ y ∈ delete i l.
Proof. intros Hi Hy. apply delete_Permutation in Hi. rewrite Hi in Hy. by apply elem_of_cons in Hy. Qed.

(** An entry is looked after when it is being worked on, or when it was before
    and the step lost nothing about it. *)
Lemma looked_after_step s s' : looked_after s ->
  (forall id c', certs s' !! id = Some c' -> in_progress id s' \/
     exists c, certs s !! id = Some c /\ (cert c' = None -> cert c = None) /\
       (in_progress id s -> in_progress id s') /\ (tracked id s -> tracked id s')) ->
  looked_after s'.
Proof.
  intros Hl Hs id c' Hc'. destruct (Hs id c' Hc') as [Hp|(c & Hc & Hn & Hp & Ht)].
  - split; [by left|done].
  - destruct (Hl id c Hc) as [H1 H2]. split; [by apply Ht|]. intros Hn'. by apply Hp, H2, Hn.
Qed.

Lemma keeps_looking s s' :
  (forall x, x ∈ fetching s -> x ∈ fetching s') -> (forall x, x ∈ timers s -> x ∈ timers s') ->
  (forall x, x ∈ certsRotateQueue s -> x ∈ certsRotateQueue s') -> forall id,
  ((id, RETRY) ∈ certRequestChan s -> (id, RETRY) ∈ certRequestChan s') ->
  ((id, Rotate) ∈ certRequestChan s -> (id, Rotate) ∈ certRequestChan s') ->
  (in_progress id s -> in_progress id s') /\ (tracked id s -> tracked id s').
Proof. unfold tracked, in_progress. naive_solver. Qed.

(** The entry [c] is the one from before, and the handled request took nothing
    from its identity. *)
Ltac same_entry c Hrest :=
  right; exists c; split; [done|]; split; [done|]; apply keeps_looking; cbn; try set_solver;
  let Hx := fresh in intros Hx; apply Hrest in Hx; naive_solver.

Lemma looked_after_handle s s' :
  looked_after s -> handleCertRequest s = Some (Done s') -> looked_after s'.
Proof.
  intros Hl Hh. apply (looked_after_step _ _ Hl). intros id c' Hc'.
  unfold handleCertRequest in Hh. destruct (certRequestChan s) as [|[who op] rest] eqn:Ech; [done|].
  injection Hh as Hh.
  assert (forall o, (id, o) ∈ certRequestChan s -> (id, o) = (who, op) \/ (id, o) ∈ rest) as Hrest.
  { intros o. rewrite Ech. by rewrite elem_of_cons. }
  destruct op; cbn in Hh.
  - unfold addOrUpdate in Hh. cbn in Hh.
    destruct (certs s !! who) as [c|] eqn:Ec; injection Hh as <-; cbn in Hc'; (destruct (decide (id = who)) as [->|Hne];
      [rewrite lookup_insert_eq in Hc'; injection Hc' as <-|rewrite lookup_insert_ne in Hc' by done; same_entry c' Hrest]).
    + same_entry c Hrest.
    + left. left. cbn. set_solver.
  - unfold deleteCert in Hh. injection Hh as <-. cbn in Hc' |- *.
    destruct (certs s !! who) as [c|] eqn:Ec; [case_decide|]; cbn in *; [|destruct (decide (id = who)) as [->|Hne]|].
    + apply lookup_delete_Some in Hc' as [Hne Hc']. same_entry c' Hrest.
    + rewrite lookup_insert_eq in Hc'. injection Hc' as <-. same_entry c Hrest.
    + rewrite lookup_insert_ne in Hc' by done. same_entry c' Hrest.
    + same_entry c' Hrest.
  - unfold retryFetchCert in Hh. injection Hh as <-. cbn in Hc' |- *.
    destruct (certs s !! who) as [c|] eqn:Ec; cbn in *; [|same_entry c' Hrest].
    destruct (decide (id = who)) as [->|Hne]; [left; left; cbn; set_solver|same_entry c' Hrest].
  - unfold rotateCert in Hh. cbn in Hh. destruct (certs s !! who) as [c|] eqn:Ec; [destruct (cert c); [|done]|];
      injection Hh as <-; cbn in Hc'; [|same_entry c' Hrest].
    destruct (decide (id = who)) as [->|Hne]; [left; left; cbn; set_solver|same_entry c' Hrest].
Qed.

Lemma looked_after_fetched i who new s :
  fetching s !! i = Some who ->
  (forall c old, certs s !! who = Some c -> cert c = Some old -> ExpireTime old <= ExpireTime new) ->
  looked_after s -> looked_after (fetchCert i (inl new) s).
Proof.
  intros Hi Hexp Hl id c' Hc'. unfold fetchCert in *. rewrite Hi in *. unfold StoreCert in *. cbn in *.
  assert (forall x, x <> who -> x ∈ fetching s -> x ∈ delete i (fetching s)) as Hdel.
  { intros x Hx Hin. by destruct (elem_of_delete_other _ _ _ _ Hi Hin). }
  destruct (certs s !! who) as [c|] eqn:Ec.
  - assert (from_option (fun old => bool_decide (ExpireTime new < ExpireTime old)) false (cert c) = false) as Hkeep.
    { destruct (cert c) as [old|] eqn:Eo; [|done]. cbn. apply bool_decide_eq_false. specialize (Hexp c old eq_refl Eo). lia. }
    rewrite Hkeep in *. unfold queue_rotation in *. cbn in *. destruct (decide (id = who)) as [->|Hne].
    + rewrite lookup_insert_eq in Hc'. injection Hc' as <-. split; [|done]. right. left. cbn. case_decide; set_solver.
    + rewrite lookup_insert_ne in Hc' by done. destruct (Hl id c' Hc') as [H1 H2]. unfold tracked, in_progress in *. cbn.
      split; [destruct H1 as [[?|?]|[?|?]]; auto; right; left; case_decide; set_solver|].
      intros Hn. destruct (H2 Hn) as [?|?]; auto.
  - cbn in Hc'. assert (id <> who) as Hne by congruence. destruct (Hl id c' Hc') as [H1 H2].
    unfold tracked, in_progress in *. cbn. split; [destruct H1 as [[?|?]|?]; auto|]. intros Hn. destruct (H2 Hn); auto.
Qed.

Lemma looked_after_moves s s' :
  certs s' = certs s -> (forall id, in_progress id s -> in_progress id s') -> (forall id, tracked id s -> tracked id s') ->
  looked_after s -> looked_after s'.
Proof. intros Hc Hp Ht Hl id c Hid. rewrite Hc in Hid. destruct (Hl id c Hid). auto. Qed.

(** C23: As long as new certificates do not expire before the ones they
    replace, no identity is forgotten: one that has users and no certificate
    is being fetched, or its next attempt is scheduled; one with a
    certificate is moreover queued for rotation. *)
Theorem every_identity_looked_after s :
  reachable s -> forall id c, certs s !! id = Some c ->
  tracked id s /\ (cert c = None -> in_progress id s).
Proof.
  intros Hr. change (looked_after s). induction Hr as [|s s' Hr IH Hstep]; [by intros id c Hc|].
  destruct Hstep as [who op s Hop|s s' Hh|i e s|i who new s Hi Hexp|i s|i s].
  - revert IH. apply looked_after_moves; [done|..]; intros id; unfold tracked, in_progress; cbn; set_solver.
  - by eapply looked_after_handle.
  - revert IH. unfold fetchCert. destruct (fetching s !! i) as [who|] eqn:Ei; [|done].
    apply looked_after_moves; [done|..]; intros id; unfold tracked, in_progress; cbn;
      pose proof (fun y => elem_of_delete_other (fetching s) i who y Ei); set_solver.
  - by eapply looked_after_fetched.
  - revert IH. unfold timer_fires. destruct (timers s !! i) as [who|] eqn:Ei; [|done].
    apply looked_after_moves; [done|..]; intros id; unfold tracked, in_progress; cbn;
      pose proof (fun y => elem_of_delete_other (timers s) i who y Ei); set_solver.
  - revert IH. unfold rotateCerts. destruct (certsRotateQueue s !! i) as [who|] eqn:Ei; [|done].
    apply looked_after_moves; [done|..]; intros id; unfold tracked, in_progress; cbn;
      pose proof (fun y => elem_of_delete_other (certsRotateQueue s) i who y Ei); set_solver.
Qed.

Definition demo_manager : SecretManager :=
  mkSecretManager {["a" := mkCertItem None 1]} [] [] [] ["a"].
Lemma demo_manager_reachable : reachable demo_manager.
Proof.
  assert (reachable (SendCertRequest "a" ADD NewSecretManager)) as H1.
  { eapply reachable_step; [exact reachable_init|]. apply step_send. by left. }
  assert (reachable (mkSecretManager {["a" := mkCertItem None 1]} [] [] ["a"] [])) as H2.
  { eapply reachable_step; [exact H1|]. by apply step_handle. }
  eapply reachable_step; [exact H2|]. exact (step_failed 0 (Errorf "down") _).
Qed.
Lemma every_identity_looked_after_witness :
  tracked "a" demo_manager /\ (cert (mkCertItem None 1) = None -> in_progress "a" demo_manager).
Proof. exact (every_identity_looked_after demo_manager demo_manager_reachable "a" (mkCertItem None 1) eq_refl). Defined.

(** A pod that goes and comes back while its certificate waits for
    rotation crashes the daemon: the new entry has no certificate yet when
    the rotation of the old one is handled. *)
Theorem stale_rotation_crashes id new :
  exists why,
  run [Send id ADD; Handle; Fetched 0 (inl new); Send id DELETE; Handle; Send id ADD; Handle; QueueFires 0; Handle]
    (NewSecretManager, []) = Panic why.
Proof.
  eexists. unfold run, run_event, handleCertRequest, addOrUpdate, fetchCert, StoreCert, deleteCert, rotateCerts,
    rotateCert, SendCertRequest, NewSecretManager, newCertCache, go_fetch, queue_rotation, set_certs.
  repeat first
    [ progress (rewrite ?lookup_insert_eq, ?lookup_empty, ?lookup_delete_eq)
    | rewrite (decide_False (P := id ∈ [])) by apply not_elem_of_nil
    | rewrite (decide_True (P := i32 (1 - 1) = 0)) by done
    | progress change ([id] !! 0%nat) with (Some id)
    | progress change (delete 0%nat [id]) with (@nil string)
    | progress cbn -[lookup insert delete i32 decide] ].
  reflexivity.
Qed.

(** A certificate that expires before the one it replaces is dropped, and with it
    the rotation: the identity keeps its old certificate and is not tracked
    any more. *)
Example early_certificate_stops_rotation :
  match run [Send "a" ADD; Handle; Fetched 0 (inl (demo_cert 100)); QueueFires 0; Handle; Fetched 0 (inl (demo_cert 90))]
          (NewSecretManager, []) with
  | Done (s, _) => ExpireTime <$> (certs s !! "a" ≫= cert) = Some 100 /\ certsRotateQueue s = [] /\
      certRequestChan s = [] /\ fetching s = [] /\ timers s = []
  | _ => False
  end.
Proof. vm_compute. done. Qed.

(** ** The certificate chain *)
Fixpoint lines_of (certsPEM : list string) : list string :=
  match certsPEM with
  | [] => []
  | [c] => [c]
  | c :: rest => (if HasSuffix_newline c then c else c +:+ newline) :: lines_of rest
  end.
Lemma append_nil_r (s : string) : s +:+ "" = s.
Proof. induction s as [|c s IH]; [done|]. exact (f_equal (String c) IH). Qed.
Lemma append_assoc (a b c : string) : (a +:+ b) +:+ c = a +:+ (b +:+ c).
Proof. induction a as [|x a IH]; [done|]. exact (f_equal (String x) IH). Qed.
(** The chain is the certificates, each that is followed by another ended by
    one newline. *)
Lemma standardCerts_lines l : standardCerts l = foldr String.append "" (lines_of l).
Proof.
  induction l as [|c [|c' l] IH]; [done|symmetry; apply append_nil_r|].
  cbn [standardCerts lines_of foldr] in *. rewrite IH. destruct (HasSuffix_newline c); [done|].
  by rewrite append_assoc.
Qed.
