(* ===== verification/Ipsec.v ===== *)
(** * IPsec between nodes: [pkg/controller/encryption/ipsec]

    Every node publishes its addresses, boot identifier, pod blocks and the
    number (SPI) of its key; the controllers install tunnels between each pair
    of nodes in the kernel's xfrm tables and enter the pod blocks of the peers
    in a BPF map.  The hash ([crypto/sha512]) is an argument of the model, and
    so are the answers of the kernel ([XfrmNetlink]): every call may fail, and
    adding a state fails with EEXIST when there is one with the same identity.
    Policies are identified by selector, direction and mark. *)
From S2P Require Import Prelude GoNet Runtime AdsProcessor.
Open Scope go_scope.

(** ** Blocks as text *)
Definition ch_slash : Z := 47.
Definition ParseAddr_bytes (b : bytes) : option (Addr * bytes) := ParseAddr_from b b.
(** Before and after the first slash. *)
Fixpoint cut_slash (s : bytes) : option (bytes * bytes) :=
  match s with
  | [] => None
  | c :: s => if decide (c = ch_slash) then Some ([], s)
              else '(a, b) ← cut_slash s; Some (c :: a, b)
  end.
(** ... the last. *)
Definition cut_last_slash (s : bytes) : option (bytes * bytes) :=
  '(a, b) ← cut_slash (reverse s); Some (reverse b, reverse a).

(** The value of a decimal number, all digits; values from 2^24 - 1 on are too
    large for either caller. *)
Fixpoint dtoi (n : Z) (s : bytes) : option Z :=
  match s with
  | [] => Some n
  | c :: s => if is_digit c then dtoi (n * 10 + (c - 48)) s else None
  end.
Definition BitLen (a : Addr) : Z := match a with AddrZero => 0 | Addr4 _ => 32 | Addr16 _ => 128 end.

Fixpoint mask_bytes (n : Z) (b : bytes) : bytes :=
  match b with
  | [] => []
  | x :: b => Z.land x (mask_byte n) :: mask_bytes (n - 8) b
  end.

(** The block of [net.ParseCIDR]. *)
Definition ParseCIDR_text (s : string) : option IPNet :=
  '(addr, mask) ← cut_slash (bytes_of_string s);
  '(a, zone) ← ParseAddr_bytes addr;
  if decide (zone <> [] \/ mask = []) then None
  else
    n ← dtoi 0 mask;
    if decide (BitLen a < n) then None
    else Some {| net_IP := mask_bytes n (AsSlice a); net_bits := n |}.

(** [netip.ParsePrefix]: the address and the length. *)
Definition ParsePrefix (s : string) : option (Addr * Z) :=
  '(addr, bits) ← cut_last_slash (bytes_of_string s);
  '(a, zone) ← ParseAddr_bytes addr;
  if decide (zone <> [] \/ bits = []) then None
  else if decide ((1 < length bits)%nat /\ bits !! 0%nat = Some 48) then None
  else
    n ← dtoi 0 bits;
    if decide (BitLen a < n) then None else Some (a, n).

Example parse_blocks :
  ParseCIDR_text "10.244.1.7/24" = Some {| net_IP := [10;244;1;0]; net_bits := 24 |} /\
  ParseCIDR_text "0.0.0.0/0" = Some {| net_IP := [0;0;0;0]; net_bits := 0 |} /\
  ParsePrefix "10.244.1.7/24" = Some (Addr4 [10;244;1;7], 24) /\ ParsePrefix "10.244.1.7/024" = None /\
  ParseCIDR_text "10.244.1.7/33" = None /\ ParseCIDR_text "10.244.1.7" = None.
Proof. vm_compute. done. Qed.

(** ** Data *)
Record IpSecKey : Type := mkIpSecKey { Spi : Z; AeadKeyName : string; AeadKey : bytes; Length : Z }.
Definition IpSecKey_zero : IpSecKey := mkIpSecKey 0 "" [] 0.
Record KmeshNodeInfo : Type := mkNodeInfo {
  kni_Name : string;
  SPI : Z;
  Addresses : list string;
  BootID : string;
  PodCIDRs : list string
}.
Record IpSecHandler : Type := mkHandler { h_Spi : Z; historyIpSecKey : gmap Z IpSecKey }.
Definition NewIpSecHandler : IpSecHandler := mkHandler 0 ∅.

Definition XfrmDecryptedMark : Z := 0xd0.
Definition XfrmEncryptMark : Z := 0xe0.
Definition XfrmMarkMask : Z := 0xffffffff.
Definition ALL_CIDR : string := "0.0.0.0/0".

Record XfrmState : Type := mkState {
  st_Src : bytes; st_Dst : bytes; st_Spi : Z;
  st_AeadName : string; st_AeadKey : bytes; st_ICVLen : Z;
  st_OutputMark : option (Z * Z)
}.
Inductive Dir : Type := XFRM_DIR_IN | XFRM_DIR_OUT | XFRM_DIR_FWD.
#[export] Instance Dir_eq_dec : EqDecision Dir.
Proof. solve_decision. Defined.
#[export] Instance IPNet_eq_dec : EqDecision IPNet.
Proof. solve_decision. Defined.
Record XfrmPolicy : Type := mkPolicy {
  po_Src : IPNet; po_Dst : IPNet; po_Dir : Dir; po_Mark : Z * Z;
  tmpl_Src : bytes; tmpl_Dst : bytes; tmpl_Spi : Z          (* the one template *)
}.
Definition selector (p : XfrmPolicy) : IPNet * IPNet * Dir * (Z * Z) := (po_Src p, po_Dst p, po_Dir p, po_Mark p).
(** The kernel's tables. *)
Record Xfrm : Type := mkXfrm { x_states : list XfrmState; x_policies : list XfrmPolicy }.

(** ** Keys from the file; [decoded] is the JSON document *)
Definition HasPrefix_rfc (s : string) : bool :=
  bool_decide (String.substring 0 3 s = "rfc").
Definition loadIPSecKeyFromIO (decoded : IpSecKey + error) (is_ : IpSecHandler) : IpSecHandler * option error :=
  match decoded with
  | inr _ => (is_, Some (Errorf "ipsec config file decoder error"))
  | inl key =>
      if negb (HasPrefix_rfc (AeadKeyName key)) then (is_, Some (Errorf "invalid algo name"))
      else (mkHandler (Spi key) (<[Spi key := key]> (historyIpSecKey is_)), None)
  end.

(** ** The kernel

    [same_sa] is the identity of security associations; [netlink_err] is the
    failure of the [n]-th event if it is a call of [vishvananda/netlink], for
    any reason but an entry that exists. *)
Class XfrmNetlink : Type := {
  same_sa : XfrmState -> XfrmState -> bool;
  netlink_err : nat -> option error;
  netlink_err_other : forall n, netlink_err n <> Some (ErrSys EEXIST)
}.
(** No call fails for such a reason. *)
Definition netlink_works `{XfrmNetlink} : Prop := forall n, netlink_err n = None.
(** The identity of RFC 4301, by which the kernel looks a state up when it is
    added and when a packet comes in: destination and SPI, for states of one
    protocol and without mark. *)
Definition sa_id (st : XfrmState) : bytes * Z := (st_Dst st, st_Spi st).
Class KernelIdentity (N : XfrmNetlink) : Prop :=
  kernel_identity : forall a b, same_sa a b = bool_decide (sa_id a = sa_id b).

(** [os.IsExist] *)
Definition IsExist (err : error) : bool := bool_decide (err = ErrSys EEXIST).

Section netlink.
Context `{XfrmNetlink}.

Definition netlink_call {S} : Go S (option error) := fun w s => Done (netlink_err (clock w), tick w, s).

Definition XfrmStateAdd (st : XfrmState) : Go Xfrm (option error) :=
  err ← netlink_call;
  if decide (err <> None) then mret err
  else
    x ← gets id;
    if existsb (same_sa st) (x_states x) then mret (Some (ErrSys EEXIST))
    else modify (fun x => mkXfrm (x_states x ++ [st]) (x_policies x));; mret None.
Definition XfrmStateDel (st : XfrmState) : Go Xfrm (option error) :=
  err ← netlink_call;
  if decide (err <> None) then mret err
  else
    x ← gets id;
    if existsb (same_sa st) (x_states x) then
      modify (fun x => mkXfrm (filter (fun t => same_sa st t = false) (x_states x)) (x_policies x));; mret None
    else mret (Some (ErrSys 3)).

Definition has_policy (policy : XfrmPolicy) (x : Xfrm) : bool :=
  existsb (fun q => bool_decide (selector q = selector policy)) (x_policies x).
Definition XfrmPolicyAdd (policy : XfrmPolicy) : Go Xfrm (option error) :=
  err ← netlink_call;
  if decide (err <> None) then mret err
  else
    x ← gets id;
    if has_policy policy x then mret (Some (ErrSys EEXIST))
    else modify (fun x => mkXfrm (x_states x) (x_policies x ++ [policy]));; mret None.
(** The policy of the selector is replaced, or there is a new one. *)
Definition XfrmPolicyUpdate (policy : XfrmPolicy) : Go Xfrm (option error) :=
  err ← netlink_call;
  if decide (err <> None) then mret err
  else
    modify (fun x => mkXfrm (x_states x)
      (if has_policy policy x
       then (fun q => if decide (selector q = selector policy) then policy else q) <$> x_policies x
       else x_policies x ++ [policy]));;
    mret None.
Definition XfrmPolicyDel (policy : XfrmPolicy) : Go Xfrm (option error) :=
  err ← netlink_call;
  if decide (err <> None) then mret err
  else
    x ← gets id;
    if has_policy policy x then
      modify (fun x => mkXfrm (x_states x) (filter (fun q => selector q <> selector policy) (x_policies x)));; mret None
    else mret (Some (ErrSys 2)).
Definition XfrmPolicyList : Go Xfrm (list XfrmPolicy + error) :=
  err ← netlink_call;
  x ← gets id;
  mret match err with Some err => inr err | None => inl (x_policies x) end.
Definition XfrmStateList : Go Xfrm (list XfrmState + error) :=
  err ← netlink_call;
  x ← gets id;
  mret match err with Some err => inr err | None => inl (x_states x) end.
Definition XfrmPolicyFlush : Go Xfrm (option error) :=
  err ← netlink_call;
  (if decide (err = None) then modify (fun x => mkXfrm (x_states x) []) else mret tt);;
  mret err.
Definition XfrmStateFlush : Go Xfrm (option error) :=
  err ← netlink_call;
  (if decide (err = None) then modify (fun x => mkXfrm [] (x_policies x)) else mret tt);;
  mret err.
End netlink.

Section handler.
Context `{XfrmNetlink}.
Variable sha512 : bytes -> bytes.

(** [[]byte(s)[:36]], and [hash[:len(key)]]: out of range on shorter strings. *)
Definition prefix36 (s : string) : outcome bytes :=
  let b := bytes_of_string s in
  if decide (length b < 36)%nat then Panic "slice bounds out of range" else Done (take 36 b).
Definition generateIPSecKey (srcIP dstIP srcBootID dstBootID : string) (key : bytes) : outcome bytes :=
  s ← prefix36 srcBootID;
  d ← prefix36 dstBootID;
  if decide (64 < length key)%nat then Panic "slice bounds out of range"
  else Done (take (length key) (sha512 (key ++ bytes_of_string srcIP ++ bytes_of_string dstIP ++ s ++ d))).

Definition new_state (src dst key : bytes) (ipsecKey : IpSecKey) (ingress : bool) : XfrmState :=
  mkState src dst (Spi ipsecKey) (AeadKeyName ipsecKey) key (Length ipsecKey)
    (if ingress then Some (XfrmDecryptedMark, XfrmMarkMask) else None).
Definition createStateRule (src dst key : bytes) (ipsecKey : IpSecKey) (ingress : bool) : Go Xfrm (option error) :=
  err ← XfrmStateAdd (new_state src dst key ipsecKey ingress);
  match err with
  | Some err => mret (if IsExist err then None else Some (Errorf "failed to add xfrm state to host"))
  | None => mret None
  end.

Definition xfrmPolicyCreateOrUpdate (policy : XfrmPolicy) : Go Xfrm (option error) :=
  err ← XfrmPolicyAdd policy;
  err ← match err with
        | Some e => if IsExist e then XfrmPolicyUpdate policy else mret err
        | None => mret None
        end;
  mret (if decide (err <> None) then Some (Errorf "failed to add xfrm policy to host") else None).

Definition createPolicyRule (srcCIDR dstCIDR : IPNet) (src dst : bytes) (spi : Z) (out : bool)
    : Go Xfrm (option error) :=
  if out then
    let mark := (XfrmDecryptedMark, XfrmMarkMask) in
    err ← xfrmPolicyCreateOrUpdate (mkPolicy srcCIDR dstCIDR XFRM_DIR_IN mark src dst 0);
    if decide (err <> None) then mret err
    else xfrmPolicyCreateOrUpdate (mkPolicy srcCIDR dstCIDR XFRM_DIR_FWD mark src dst 0)
  else
    xfrmPolicyCreateOrUpdate
      (mkPolicy srcCIDR dstCIDR XFRM_DIR_OUT (XfrmEncryptMark, XfrmMarkMask) src dst spi).

(** The loop over the pod blocks: it ends with the first error. *)
Fixpoint policies_for (block : IPNet -> Go Xfrm (option error)) (podCIDRs : list string)
    : Go Xfrm (option error) :=
  match podCIDRs with
  | [] => mret None
  | podCIDR :: rest =>
      match ParseCIDR_text podCIDR with
      | None => mret (Some (Errorf "failed to parser podCIDR in inserting xfrm rule"))
      | Some c =>
          err ← block c;
          if decide (err <> None) then mret (Some (Errorf "failed to create policy rule"))
          else policies_for block rest
      end
  end.

Definition parser_error : error := Errorf "failed to parser ip in inserting xfrm rule".

Definition createXfrmRuleIngress (rawRemoteIP rawLocalNicIP remoteBootID localBootID : string) (spi : Z)
    (podCIDRs : list string) (is_ : IpSecHandler) : Go Xfrm (option error) :=
  match ParseIP rawRemoteIP, ParseIP rawLocalNicIP with
  | None, _ => mret (Some parser_error)
  | _, None => mret (Some parser_error)
  | Some src, Some dst =>
      let key := default IpSecKey_zero (historyIpSecKey is_ !! spi) in
      newKey ← from_outcome (generateIPSecKey rawRemoteIP rawLocalNicIP remoteBootID localBootID (AeadKey key));
      err ← createStateRule src dst newKey key true;
      if decide (err <> None) then mret err
      else
        match ParseCIDR_text ALL_CIDR with
        | None => mret (Some (Errorf "failed to parser podCIDR in inserting xfrm rule"))
        | Some remoteCIDR =>
            policies_for (fun localCIDR => createPolicyRule remoteCIDR localCIDR src dst 0 true) podCIDRs
        end
  end.

Definition createXfrmRuleEgress (rawLocalNicIP rawRemoteIP localBootID remoteBootID : string) (ipsecKey : IpSecKey)
    (podCIDRs : list string) : Go Xfrm (option error) :=
  match ParseIP rawLocalNicIP, ParseIP rawRemoteIP with
  | None, _ => mret (Some parser_error)
  | _, None => mret (Some parser_error)
  | Some src, Some dst =>
      newKey ← from_outcome (generateIPSecKey rawLocalNicIP rawRemoteIP localBootID remoteBootID (AeadKey ipsecKey));
      err ← createStateRule src dst newKey ipsecKey false;
      if decide (err <> None) then mret err
      else
        match ParseCIDR_text ALL_CIDR with
        | None => mret (Some (Errorf "failed to parser podCIDR in inserting xfrm rule"))
        | Some localCIDR =>
            policies_for (fun remoteCIDR => createPolicyRule localCIDR remoteCIDR src dst (Spi ipsecKey) false) podCIDRs
        end
  end.

(** One pair of addresses. *)
Definition create_pair (is_ : IpSecHandler) (localNode remoteNode : KmeshNodeInfo) (ipsecKey : IpSecKey)
    (remoteNicIP localNicIP : string) : Go Xfrm (option error) :=
  err ← createXfrmRuleIngress remoteNicIP localNicIP (BootID remoteNode) (BootID localNode)
          (SPI localNode) (PodCIDRs localNode) is_;
  if decide (err <> None) then mret err
  else if decide (SPI localNode < SPI remoteNode) then mret None
  else
    err ← createXfrmRuleEgress localNicIP remoteNicIP (BootID localNode) (BootID remoteNode)
            ipsecKey (PodCIDRs remoteNode);
    mret (if decide (err <> None) then Some (Errorf "create xfrm out rule failed") else None).

(** The two nested loops, with their early return. *)
Fixpoint create_pairs (f : string * string -> Go Xfrm (option error)) (l : list (string * string))
    : Go Xfrm (option error) :=
  match l with
  | [] => mret None
  | p :: l => err ← f p; if decide (err <> None) then mret err else create_pairs f l
  end.
Definition nic_pairs (localNode remoteNode : KmeshNodeInfo) : list (string * string) :=
  remoteNicIP ← Addresses remoteNode; localNicIP ← Addresses localNode; [(remoteNicIP, localNicIP)].

Definition CreateXfrmRule (localNode remoteNode : KmeshNodeInfo) (is_ : IpSecHandler) : Go Xfrm (option error) :=
  match historyIpSecKey is_ !! SPI remoteNode with
  | None => mret None
  | Some ipsecKey =>
      create_pairs (fun '(remoteNicIP, localNicIP) =>
        create_pair is_ localNode remoteNode ipsecKey remoteNicIP localNicIP) (nic_pairs localNode remoteNode)
  end.

(** [net.IP.Equal] *)
Definition IP_Equal (a b : bytes) : bool :=
  bool_decide (a = b) || (bool_decide (length a = 4 /\ length b = 16)%nat && bool_decide (To4 b = Some a)) ||
  (bool_decide (length a = 16 /\ length b = 4)%nat && bool_decide (To4 a = Some b)).

(** The loops of [Clean]: they end with the first deletion that fails. *)
Fixpoint delete_each {A} (hit : A -> bool) (del : A -> Go Xfrm (option error)) (l : list A) : Go Xfrm (option error) :=
  match l with
  | [] => mret None
  | a :: l =>
      if hit a then
        err ← del a;
        if decide (err <> None) then mret err else delete_each hit del l
      else delete_each hit del l
  end.
Definition Clean (ip : string) : Go Xfrm (option error) :=
  let targetIP := default [] (ParseIP ip) in
  l ← XfrmPolicyList;
  match l with
  | inr err => mret (Some err)
  | inl oldPolicyList =>
      err ← delete_each (fun p => IP_Equal (tmpl_Src p) targetIP || IP_Equal (tmpl_Dst p) targetIP)
              XfrmPolicyDel oldPolicyList;
      if decide (err <> None) then mret err
      else
        l ← XfrmStateList;
        match l with
        | inr err => mret (Some err)
        | inl oldStateList =>
            delete_each (fun st => IP_Equal (st_Src st) targetIP || IP_Equal (st_Dst st) targetIP)
              XfrmStateDel oldStateList
        end
  end.
Definition Flush : Go Xfrm (option error) := XfrmPolicyFlush;; XfrmStateFlush;; mret None.
End handler.

(** ** The states that a pair of nodes asks for *)
Definition ip_of (s : string) : bytes := default [] (ParseIP s).
Definition good_node (n : KmeshNodeInfo) : Prop :=
  Forall (fun a => is_Some (ParseIP a)) (Addresses n) /\
  (36 <= length (bytes_of_string (BootID n)))%nat /\
  Forall (fun c => is_Some (ParseCIDR_text c)) (PodCIDRs n).
Definition good_keys (h : IpSecHandler) : Prop :=
  forall spi k, historyIpSecKey h !! spi = Some k -> Spi k = spi /\ (length (AeadKey k) <= 64)%nat.

Section tunnels.
Context `{XfrmNetlink}.
Variable sha512 : bytes -> bytes.

Definition tunnel_key (srcIP dstIP srcBootID dstBootID : string) (key : bytes) : bytes :=
  take (length key) (sha512 (key ++ bytes_of_string srcIP ++ bytes_of_string dstIP ++
    take 36 (bytes_of_string srcBootID) ++ take 36 (bytes_of_string dstBootID))).
Lemma generateIPSecKey_ok a b sa sb key :
  (36 <= length (bytes_of_string sa))%nat -> (36 <= length (bytes_of_string sb))%nat -> (length key <= 64)%nat ->
  generateIPSecKey sha512 a b sa sb key = Done (tunnel_key a b sa sb key).
Proof.
  intros Ha Hb Hk. unfold generateIPSecKey, prefix36. cbn zeta. rewrite !decide_False by lia. cbn.
  by rewrite decide_False by lia.
Qed.

(** From the address [a] of [n] to the address [b] of [m], with the key [k]. *)
Definition tunnel (n m : KmeshNodeInfo) (a b : string) (k : IpSecKey) (ingress : bool) : XfrmState :=
  new_state (ip_of a) (ip_of b) (tunnel_key a b (BootID n) (BootID m) (AeadKey k)) k ingress.

Definition pair_states (h : IpSecHandler) (localNode remoteNode : KmeshNodeInfo) (k : IpSecKey)
    (p : string * string) : list XfrmState :=
  let '(r, l) := p in
  tunnel remoteNode localNode r l (default IpSecKey_zero (historyIpSecKey h !! SPI localNode)) true ::
  (if decide (SPI localNode < SPI remoteNode) then [] else [tunnel localNode remoteNode l r k false]).

(** Adding one, when the call does not fail. *)
Definition add_state (l : list XfrmState) (st : XfrmState) : list XfrmState :=
  if existsb (same_sa st) l then l else l ++ [st].

(** What a call that may fail is known for: when it reports no error it has done
    its work, and it reports one only when a call of the kernel failed. *)
Definition outcome_is (err : option error) (work : Prop) : Prop :=
  (err = None -> work) /\ (netlink_works -> err = None).
Lemma outcome_none (work : Prop) : work -> outcome_is None work.
Proof. by split. Qed.
Lemma outcome_failed e (work work' : Prop) : outcome_is (Some e) work -> forall e', outcome_is (Some e') work'.
Proof. intros [_ Hw] e'. split; [done|]. intros Hn. by specialize (Hw Hn). Qed.
Lemma outcome_seq err (work work' : Prop) : outcome_is err work' -> (work' -> work) -> outcome_is err work.
Proof. intros [Hw Hn] Hi. split; [auto|done]. Qed.

Lemma wp_netlink_call {S} p (Q : option error -> World -> S -> Prop) w s :
  (forall err w', (err = None \/ exists e, err = Some e /\ e <> ErrSys EEXIST) -> (netlink_works -> err = None) -> Q err w' s) ->
  wp p netlink_call Q w s.
Proof.
  intros HQ. unfold wp, netlink_call. apply HQ; [|auto].
  pose proof (netlink_err_other (clock w)). destruct (netlink_err (clock w)) as [e|]; [right; exists e; naive_solver|by left].
Qed.
Lemma IsExist_other e : e <> ErrSys EEXIST -> IsExist e = false.
Proof. intros He. by apply bool_decide_eq_false. Qed.
#[local] Opaque IsExist.

Lemma wp_createStateRule p src dst key k ingress w x :
  wp p (createStateRule src dst key k ingress) (fun err _ x' => outcome_is err
    (x_states x' = add_state (x_states x) (new_state src dst key k ingress))) w x.
Proof.
  unfold createStateRule, XfrmStateAdd, add_state. wp_steps. apply wp_netlink_call. intros err w' Herr Hn.
  destruct Herr as [->|(e & -> & He)].
  - rewrite decide_False by naive_solver. wp_steps. cbn [id]. destruct (existsb _ _); wp_steps; by apply outcome_none.
  - rewrite decide_True by done. wp_steps. rewrite IsExist_other by done. split; [done|]. intros Hw. by specialize (Hn Hw).
Qed.
Lemma wp_policy p policy w x :
  wp p (xfrmPolicyCreateOrUpdate policy) (fun err _ x' => outcome_is err (x_states x' = x_states x)) w x.
Proof.
  unfold xfrmPolicyCreateOrUpdate, XfrmPolicyAdd, XfrmPolicyUpdate. wp_steps. apply wp_netlink_call. intros err w' Herr Hn.
  destruct Herr as [->|(e & -> & He)].
  - rewrite decide_False by naive_solver. wp_steps. cbn [id]. destruct (has_policy policy x); wp_steps; [|by apply outcome_none].
    change (IsExist (ErrSys EEXIST)) with true. cbv iota. wp_steps. apply wp_netlink_call. intros err w'' Herr Hn'.
    destruct Herr as [->|(e & -> & He)].
    + rewrite decide_False by naive_solver. wp_steps. by apply outcome_none.
    + rewrite decide_True by done. wp_steps. rewrite decide_True by done. split; [done|]. intros Hw. by specialize (Hn' Hw).
  - rewrite decide_True by done. wp_steps. rewrite IsExist_other by done. wp_steps. rewrite decide_True by done.
    split; [done|]. intros Hw. by specialize (Hn Hw).
Qed.

(** A call after another that may fail, with the early return. *)
Lemma wp_then p (m m' : Go Xfrm (option error)) (work : Xfrm -> Prop) (work' : Xfrm -> Prop) f w x :
  wp p m (fun err _ x1 => outcome_is err (work x1)) w x ->
  (forall e, exists e', f (Some e) = Some e') ->
  (forall w1 x1, work x1 -> wp p m' (fun err _ x2 => outcome_is err (work' x2)) w1 x1) ->
  wp p (err ← m; if decide (err <> None) then mret (f err) else m') (fun err _ x2 => outcome_is err (work' x2)) w x.
Proof.
  intros Hm Hf Hm'. wp_steps. eapply wp_mono; [exact Hm|]. cbn. intros err w1 x1 Ho. destruct err as [e|].
  - rewrite decide_True by done. wp_steps. destruct (Hf e) as [e' ->]. by eapply outcome_failed.
  - rewrite decide_False by naive_solver. apply Hm'. by apply Ho.
Qed.

Lemma wp_policies_for p block podCIDRs : forall w x,
  Forall (fun c => is_Some (ParseCIDR_text c)) podCIDRs ->
  (forall c w x, wp p (block c) (fun err _ x' => outcome_is err (x_states x' = x_states x)) w x) ->
  wp p (policies_for block podCIDRs) (fun err _ x' => outcome_is err (x_states x' = x_states x)) w x.
Proof.
  induction podCIDRs as [|c rest IH]; intros w x Hc Hb; cbn [policies_for]; [wp_steps; by apply outcome_none|].
  apply Forall_cons in Hc as [[n ->] Hc]. eapply (wp_then _ _ _ _ _ (fun _ => Some _)); [apply Hb|by eexists|].
  cbn. intros w1 x1 Hx. eapply wp_mono; [by apply IH|]. cbn. intros err w2 x2 Ho. eapply outcome_seq; [exact Ho|congruence].
Qed.
Lemma wp_createPolicyRule p a b src dst spi out w x :
  wp p (createPolicyRule a b src dst spi out) (fun err _ x' => outcome_is err (x_states x' = x_states x)) w x.
Proof.
  unfold createPolicyRule. destruct out; [|apply wp_policy]. cbn zeta.
  eapply (wp_then _ _ _ _ _ id); [apply wp_policy|by eexists|]. cbn. intros w1 x1 Hx.
  eapply wp_mono; [apply wp_policy|]. cbn. intros err w2 x2 Ho. eapply outcome_seq; [exact Ho|congruence].
Qed.

#[local] Arguments ParseCIDR_text : simpl never.
#[local] Arguments createPolicyRule : simpl never.
#[local] Arguments createStateRule : simpl never.
Lemma wp_from_done {S A} p (o : outcome A) a (Q : A -> World -> S -> Prop) w s :
  o = Done a -> Q a w s -> wp p (from_outcome o) Q w s.
Proof. by intros ->. Qed.

(** A state and the policies that go with it. *)
Lemma wp_state_policies p src dst key k ingress (block : IPNet -> IPNet -> Go Xfrm (option error)) podCIDRs w x :
  Forall (fun c => is_Some (ParseCIDR_text c)) podCIDRs ->
  (forall a c w x, wp p (block a c) (fun err _ x' => outcome_is err (x_states x' = x_states x)) w x) ->
  wp p (err ← createStateRule src dst key k ingress;
        if decide (err <> None) then mret err
        else match ParseCIDR_text ALL_CIDR with
             | None => mret (Some (Errorf "failed to parser podCIDR in inserting xfrm rule"))
             | Some all => policies_for (block all) podCIDRs
             end)
    (fun err _ x' => outcome_is err (x_states x' = add_state (x_states x) (new_state src dst key k ingress))) w x.
Proof.
  intros Hc Hb. eapply (wp_then _ _ _ _ _ id); [apply wp_createStateRule|by eexists|]. cbn. intros w1 x1 Hx.
  destruct (ParseCIDR_text ALL_CIDR) as [all|] eqn:Eall; [|done].
  eapply wp_mono; [by apply wp_policies_for|]. cbn. intros err w2 x2 Ho. eapply outcome_seq; [exact Ho|congruence].
Qed.

Lemma wp_ingress p r l n m spi podCIDRs h w x :
  is_Some (ParseIP r) -> is_Some (ParseIP l) -> good_node n -> good_node m -> good_keys h ->
  Forall (fun c => is_Some (ParseCIDR_text c)) podCIDRs ->
  wp p (createXfrmRuleIngress sha512 r l (BootID n) (BootID m) spi podCIDRs h) (fun err _ x' =>
    outcome_is err (x_states x' = add_state (x_states x)
      (tunnel n m r l (default IpSecKey_zero (historyIpSecKey h !! spi)) true))) w x.
Proof.
  intros [br Hr] [bl Hl] (_ & Hn & _) (_ & Hm & _) Hk Hc. unfold createXfrmRuleIngress, tunnel, ip_of. rewrite Hr, Hl.
  set (k := default _ _). assert (length (AeadKey k) <= 64)%nat as Hlen.
  { subst k. destruct (historyIpSecKey h !! spi) as [k|] eqn:Ek; cbn; [by apply (Hk spi k)|lia]. }
  cbn zeta. apply wp_bind. eapply wp_from_done; [by apply generateIPSecKey_ok|].
  apply (wp_state_policies _ _ _ _ _ _ (fun all c => createPolicyRule all c br bl 0 true)); [done|].
  intros. apply wp_createPolicyRule.
Qed.

Lemma wp_egress p l r n m k podCIDRs w x :
  is_Some (ParseIP l) -> is_Some (ParseIP r) -> good_node n -> good_node m -> (length (AeadKey k) <= 64)%nat ->
  Forall (fun c => is_Some (ParseCIDR_text c)) podCIDRs ->
  wp p (createXfrmRuleEgress sha512 l r (BootID n) (BootID m) k podCIDRs) (fun err _ x' =>
    outcome_is err (x_states x' = add_state (x_states x) (tunnel n m l r k false))) w x.
Proof.
  intros [bl Hl] [br Hr] (_ & Hn & _) (_ & Hm & _) Hk Hc. unfold createXfrmRuleEgress, tunnel, ip_of. rewrite Hr, Hl.
  apply wp_bind. eapply wp_from_done; [by apply generateIPSecKey_ok|].
  apply (wp_state_policies _ _ _ _ _ _ (fun all c => createPolicyRule all c bl br (Spi k) false)); [done|].
  intros. apply wp_createPolicyRule.
Qed.

Lemma wp_create_pair p h localNode remoteNode k r l w x :
  good_node localNode -> good_node remoteNode -> good_keys h -> (length (AeadKey k) <= 64)%nat ->
  r ∈ Addresses remoteNode -> l ∈ Addresses localNode ->
  wp p (create_pair sha512 h localNode remoteNode k r l) (fun err _ x' =>
    outcome_is err (x_states x' = foldl add_state (x_states x) (pair_states h localNode remoteNode k (r, l)))) w x.
Proof.
  intros Hl Hr Hh Hk Hrin Hlin. unfold create_pair.
  assert (is_Some (ParseIP r)) by (destruct Hr as [Ha _]; rewrite Forall_forall in Ha; auto).
  assert (is_Some (ParseIP l)) by (destruct Hl as [Ha _]; rewrite Forall_forall in Ha; auto).
  eapply (wp_then _ _ _ _ _ id); [apply wp_ingress; try done; apply Hl|by eexists|]. cbn. intros w1 x1 Hx.
  case_decide; [wp_steps; apply outcome_none; by rewrite Hx|]. wp_steps.
  eapply wp_mono; [apply wp_egress; try done; apply Hr|]. cbn. intros err w2 x2 Ho. wp_steps.
  destruct err as [e|]; [rewrite decide_True by done; by eapply outcome_failed|].
  rewrite decide_False by naive_solver. apply outcome_none. destruct Ho as [Ho _]. by rewrite (Ho eq_refl), Hx.
Qed.

Lemma wp_create_pairs p f (g : string * string -> list XfrmState) l : forall w x,
  (forall q w x, q ∈ l -> wp p (f q) (fun err _ x' => outcome_is err (x_states x' = foldl add_state (x_states x) (g q))) w x) ->
  wp p (create_pairs f l) (fun err _ x' => outcome_is err (x_states x' = foldl add_state (x_states x) (l ≫= g))) w x.
Proof.
  induction l as [|q l IH]; intros w x Hf; cbn [create_pairs]; [wp_steps; by apply outcome_none|].
  eapply (wp_then _ _ _ _ _ id); [apply Hf; by left|by eexists|]. cbn. intros w1 x1 Hx.
  eapply wp_mono; [apply IH; intros; apply Hf; by right|]. cbn. intros err w2 x2 Ho. eapply outcome_seq; [exact Ho|].
  intros ->. by rewrite Hx, foldl_app.
Qed.

(** What [CreateXfrmRule] does to the states: those that the pair of nodes asks
    for are added one after the other. *)
Lemma wp_CreateXfrmRule p h localNode remoteNode k w x :
  good_node localNode -> good_node remoteNode -> good_keys h ->
  historyIpSecKey h !! SPI remoteNode = Some k ->
  wp p (CreateXfrmRule sha512 localNode remoteNode h) (fun err _ x' =>
    outcome_is err (x_states x' = foldl add_state (x_states x)
      (nic_pairs localNode remoteNode ≫= pair_states h localNode remoteNode k))) w x.
Proof.
  intros Hl Hr Hh Hk. unfold CreateXfrmRule. rewrite Hk. apply wp_create_pairs. intros [r l] w' x' Hin.
  apply wp_create_pair; try done; [by apply (Hh _ _ Hk)|..];
    unfold nic_pairs in Hin; apply list_elem_of_bind in Hin as (r' & Hin & Hr');
    apply list_elem_of_bind in Hin as (l' & Hin & Hl'); by apply list_elem_of_singleton in Hin as [= -> ->].
Qed.
End tunnels.

(** ** Both ends of a tunnel *)

(** The states that the kernel can choose for a packet to [b] with [spi]. *)
Definition states_for (b : string) (spi : Z) (l : list XfrmState) : list XfrmState :=
  filter (fun st => sa_id st = (ip_of b, spi)) l.

Lemma filter_bind_nil {A B} (P : B -> Prop) `{!forall b, Decision (P b)} (g : A -> list B) l :
  (forall x, x ∈ l -> filter P (g x) = []) -> filter P (l ≫= g) = [].
Proof.
  induction l as [|x l IH]; intros Hno; [done|]. cbn. rewrite filter_app, Hno by (by left). apply IH. intros y Hy. apply Hno. by right.
Qed.
Lemma take1_bind_head {A B} (P : B -> Prop) `{!forall b, Decision (P b)} (g : A -> list B) x l b :
  take 1 (filter P (g x)) = [b] -> take 1 (filter P ((x :: l) ≫= g)) = [b].
Proof. cbn. rewrite filter_app. by destruct (filter P (g x)). Qed.
(** The first hit in a concatenation is that of [x0], when no other element has
    hits. *)
Lemma take1_bind {A B} `{EqDecision A} (P : B -> Prop) `{!forall b, Decision (P b)} (g : A -> list B) l x0 b :
  x0 ∈ l -> (forall x, x ∈ l -> x <> x0 -> filter P (g x) = []) -> take 1 (filter P (g x0)) = [b] ->
  take 1 (filter P (l ≫= g)) = [b].
Proof.
  induction l as [|x l IH]; intros Hin Hno H0; [by apply not_elem_of_nil in Hin|]. cbn. rewrite filter_app.
  destruct (decide (x = x0)) as [->|Hne]; [by destruct (filter P (g x0))|].
  rewrite (Hno x), app_nil_l by (done || by left). apply elem_of_cons in Hin as [->|Hin]; [done|].
  apply IH; [done| |done]. intros y Hy. apply Hno. by right.
Qed.

Lemma nic_pairs_bind {A} n m (g : string * string -> list A) :
  nic_pairs n m ≫= g = Addresses m ≫= fun r => Addresses n ≫= fun l => g (r, l).
Proof.
  unfold nic_pairs. induction (Addresses m) as [|r rs IH]; [done|]. cbn. rewrite bind_app, IH. f_equal.
  clear IH. generalize (Addresses n). intros ls. induction ls as [|l ls IHl]; [done|]. cbn. by f_equal.
Qed.

(** Two nodes of the mesh: both have the key of [B], and [A] is not behind. *)
Record peers (A B : KmeshNodeInfo) (hA hB : IpSecHandler) (k : IpSecKey) : Prop := {
  pe_nodes : good_node A /\ good_node B;
  pe_handlers : good_keys hA /\ good_keys hB;
  pe_ips : forall a b, a ∈ Addresses A ++ Addresses B -> b ∈ Addresses A ++ Addresses B -> ip_of a = ip_of b -> a = b;
  pe_apart : forall a, a ∈ Addresses A -> a ∈ Addresses B -> False;
  pe_key : historyIpSecKey hA !! SPI B = Some k /\ historyIpSecKey hB !! SPI B = Some k;
  pe_known : is_Some (historyIpSecKey hB !! SPI A);
  pe_updated : SPI B <= SPI A
}.
(** No state yet for what [B] receives. *)
Definition no_states_for (B : KmeshNodeInfo) (x : Xfrm) : Prop :=
  forall b, b ∈ Addresses B -> states_for b (SPI B) (x_states x) = [].

Section agreement.
Context `{N : XfrmNetlink} `{!KernelIdentity N}.
Variable sha512 : bytes -> bytes.

(** The kernel keeps the first state of each identity. *)
Lemma add_state_for b spi l st :
  states_for b spi (add_state l st) =
    if decide (sa_id st = (ip_of b, spi) /\ states_for b spi l = []) then [st] else states_for b spi l.
Proof.
  unfold add_state. destruct (existsb (same_sa st) l) eqn:Ee.
  - apply existsb_exists in Ee as (t & Ht & Hs). rewrite kernel_identity in Hs. apply bool_decide_eq_true in Hs.
    rewrite decide_False; [done|]. intros [Hid Hnil]. apply (not_elem_of_nil t). rewrite <-Hnil. unfold states_for.
    apply list_elem_of_filter. split; [congruence|by apply list_elem_of_In].
  - unfold states_for at 1. rewrite filter_app. fold (states_for b spi l). destruct (decide (sa_id st = (ip_of b, spi))) as [Hid|Hid].
    + assert (states_for b spi l = []) as Hnil.
      { destruct (states_for b spi l) as [|t r] eqn:Ef; [done|]. exfalso. apply not_true_iff_false in Ee. apply Ee.
        assert (t ∈ states_for b spi l) as Ht by (rewrite Ef; by left). unfold states_for in Ht.
        apply list_elem_of_filter in Ht as [Hti Ht]. apply existsb_exists. exists t. split; [by apply list_elem_of_In|].
        rewrite kernel_identity. apply bool_decide_eq_true. congruence. }
      rewrite decide_True by done. rewrite Hnil, filter_cons_True by done. done.
    + rewrite decide_False by naive_solver. rewrite filter_cons_False by done. by rewrite app_nil_r.
Qed.
Lemma add_states_for b spi rs : forall l,
  states_for b spi (foldl add_state l rs) =
    if decide (states_for b spi l = []) then take 1 (states_for b spi rs) else states_for b spi l.
Proof.
  induction rs as [|r rs IH]; intros l; cbn [foldl].
  - case_decide as Hl; [by rewrite Hl|done].
  - rewrite IH, add_state_for. destruct (decide (sa_id r = (ip_of b, spi) /\ states_for b spi l = [])) as [[Hid Hl]|Hn].
    + rewrite decide_False, decide_True by done. unfold states_for. by rewrite filter_cons_True.
    + case_decide as Hl; [|done]. unfold states_for. rewrite filter_cons_False by naive_solver. done.
Qed.

Context (A B : KmeshNodeInfo) (hA hB : IpSecHandler) (k : IpSecKey) (Hpe : peers A B hA hB k).

Lemma peer_apart c d : c ∈ Addresses A -> d ∈ Addresses B -> ip_of c <> ip_of d.
Proof.
  intros Hc Hd Heq. apply (pe_ips _ _ _ _ _ Hpe) in Heq; [|set_solver..]. subst. by apply (pe_apart _ _ _ _ _ Hpe d).
Qed.
Lemma peer_same c d : c ∈ Addresses B -> d ∈ Addresses B -> ip_of c = ip_of d -> c = d.
Proof. intros Hc Hd. apply (pe_ips _ _ _ _ _ Hpe); set_solver. Qed.
Lemma key_spi : Spi k = SPI B.
Proof. destruct (pe_key _ _ _ _ _ Hpe) as [_ HB]. destruct (pe_handlers _ _ _ _ _ Hpe) as [_ Hh]. by destruct (Hh _ _ HB). Qed.

Context (a : string) (Ha : head (Addresses A) = Some a).
Lemma first_address : exists rest, Addresses A = a :: rest.
Proof. destruct (Addresses A) as [|a' rest]; [done|]. exists rest. by injection Ha as ->. Qed.

(** The first state that [A] asks for to send to [b], and [B] to receive. *)
Lemma first_egress b : b ∈ Addresses B ->
  take 1 (states_for b (SPI B) (nic_pairs A B ≫= pair_states sha512 hA A B k)) = [tunnel sha512 A B a b k false].
Proof.
  intros Hb. rewrite nic_pairs_bind. destruct first_address as [rest EA]. rewrite EA.
  assert (forall l r, l ∈ a :: rest -> r ∈ Addresses B -> states_for b (SPI B) (pair_states sha512 hA A B k (r, l)) =
    if decide (r = b) then [tunnel sha512 A B l b k false] else []) as Hpair.
  { intros l r Hl Hr. rewrite <-EA in Hl. unfold pair_states, states_for. rewrite decide_False by (pose proof (pe_updated _ _ _ _ _ Hpe); lia).
    rewrite filter_cons_False by (intros [= E _]; by apply (peer_apart l b)).
    case_decide as Hrb; [subst; rewrite filter_cons_True; [done|unfold sa_id; cbn; by rewrite key_spi]|].
    rewrite filter_cons_False; [done|]. intros [= E _]. apply Hrb, peer_same; done. }
  apply (take1_bind _ _ _ b); [done| |].
  - intros r Hr Hne. apply filter_bind_nil. intros l Hl. fold (states_for b (SPI B) (pair_states sha512 hA A B k (r, l))).
    by rewrite Hpair, decide_False.
  - apply take1_bind_head. fold (states_for b (SPI B) (pair_states sha512 hA A B k (b, a))).
    by rewrite Hpair, decide_True by (done || by left).
Qed.
Lemma first_ingress b kA : b ∈ Addresses B ->
  take 1 (states_for b (SPI B) (nic_pairs B A ≫= pair_states sha512 hB B A kA)) = [tunnel sha512 A B a b k true].
Proof.
  intros Hb. rewrite nic_pairs_bind. destruct first_address as [rest EA]. rewrite EA.
  assert (forall l, l ∈ Addresses B -> states_for b (SPI B) (pair_states sha512 hB B A kA (a, l)) =
    if decide (l = b) then [tunnel sha512 A B a b k true] else []) as Hpair.
  { intros l Hl. unfold pair_states, states_for. destruct (pe_key _ _ _ _ _ Hpe) as [_ ->]. cbn [default from_option id].
    assert (forall t, t ∈ (if decide (SPI B < SPI A) then [] else [tunnel sha512 B A l a kA false]) ->
      sa_id t <> (ip_of b, SPI B)) as Hno.
    { intros t Ht. case_decide; [by apply not_elem_of_nil in Ht|]. apply list_elem_of_singleton in Ht as ->.
      intros [= E _]. apply (peer_apart a b); [rewrite EA; by left|done|done]. }
    assert (filter (fun st => sa_id st = (ip_of b, SPI B)) (if decide (SPI B < SPI A) then [] else [tunnel sha512 B A l a kA false]) = []) as Hnil.
    { case_decide; [done|]. rewrite filter_cons_False; [done|]. apply Hno. by left. }
    destruct (decide (l = b)) as [Hlb|Hlb].
    - subst l. rewrite filter_cons_True by (unfold sa_id; cbn; by rewrite key_spi). by rewrite Hnil.
    - rewrite filter_cons_False; [by rewrite Hnil|]. intros [= E _]. by apply Hlb, peer_same. }
  apply take1_bind_head, (take1_bind _ _ _ b); [done| |].
  - intros l Hl Hne. fold (states_for b (SPI B) (pair_states sha512 hB B A kA (a, l))). by rewrite Hpair, decide_False.
  - fold (states_for b (SPI B) (pair_states sha512 hB B A kA (a, b))). by rewrite Hpair, decide_True.
Qed.

(** [B] sets up its rules for [A]. *)
Lemma wp_receives p w x :
  wp p (CreateXfrmRule sha512 B A hB) (fun err _ x' => outcome_is err (forall b, b ∈ Addresses B ->
    states_for b (SPI B) (x_states x') =
      if decide (states_for b (SPI B) (x_states x) = []) then [tunnel sha512 A B a b k true]
      else states_for b (SPI B) (x_states x))) w x.
Proof.
  pose proof Hpe as [[HA HB] [_ HhB] _ _ _ [kA HkA] _].
  eapply wp_mono; [by apply (wp_CreateXfrmRule sha512 p hB B A kA)|]. cbn. intros err w' x' Ho.
  eapply outcome_seq; [exact Ho|]. intros -> b Hb. by rewrite add_states_for, first_ingress.
Qed.
Lemma wp_sends p w x :
  wp p (CreateXfrmRule sha512 A B hA) (fun err _ x' => outcome_is err (forall b, b ∈ Addresses B ->
    states_for b (SPI B) (x_states x') =
      if decide (states_for b (SPI B) (x_states x) = []) then [tunnel sha512 A B a b k false]
      else states_for b (SPI B) (x_states x))) w x.
Proof.
  pose proof Hpe as [[HA HB] [HhA _] _ _ [Hk _] _ _].
  eapply wp_mono; [by apply (wp_CreateXfrmRule sha512 p hA A B k)|]. cbn. intros err w' x' Ho.
  eapply outcome_seq; [exact Ho|]. intros -> b Hb. by rewrite add_states_for, first_egress.
Qed.
End agreement.

Section ends.
Context `{N : XfrmNetlink} `{!KernelIdentity N}.
Variable sha512 : bytes -> bytes.

(** C14: the two ends of a tunnel fit each other.  [A] sets up its rules for
    [B], and [B] its rules for [A]; both know the key that [B] has announced,
    and neither table has a state for an address and the SPI of [B] yet.  The
    kernel identifies a state by destination and SPI.  When no call fails, both
    report success; and when both report success there is, for every address
    of [B], exactly one state on [A] to encrypt what goes there, and exactly
    one on [B] to decrypt it: both from the first address of [A], with the same
    key, SPI and algorithm, and a mark on what [B] has decrypted.  States for
    further addresses of [A] are refused by the kernel on both sides. *)
Theorem tunnels_agree A B hA hB k a w xA xB :
  peers A B hA hB k -> head (Addresses A) = Some a -> no_states_for B xA -> no_states_for B xB ->
  wp false (CreateXfrmRule sha512 A B hA) (fun errA _ xA' => (netlink_works -> errA = None) /\
    wp false (CreateXfrmRule sha512 B A hB) (fun errB _ xB' => (netlink_works -> errB = None) /\
      (errA = None -> errB = None -> forall b, b ∈ Addresses B ->
       exists key,
        states_for b (SPI B) (x_states xA') =
          [mkState (ip_of a) (ip_of b) (SPI B) (AeadKeyName k) key (Length k) None] /\
        states_for b (SPI B) (x_states xB') =
          [mkState (ip_of a) (ip_of b) (SPI B) (AeadKeyName k) key (Length k)
             (Some (XfrmDecryptedMark, XfrmMarkMask))])) w xB) w xA.
Proof.
  intros Hpe Ha HnA HnB. eapply wp_mono; [by eapply wp_sends|]. cbn. intros errA wA xA' [HA HwA]. split; [done|].
  eapply wp_mono; [by eapply wp_receives|]. cbn. intros errB wB xB' [HB HwB]. split; [done|]. intros EA EB b Hb.
  exists (tunnel_key sha512 a b (BootID A) (BootID B) (AeadKey k)). rewrite <-(key_spi A B hA hB k Hpe) at 2 4.
  rewrite (HA EA b Hb), (HB EB b Hb), (HnA b Hb), (HnB b Hb). done.
Qed.

(** a node can decrypt what its first peer sends, and no other: the states for
    incoming traffic of all peers have the destination and the SPI of the node,
    so the kernel has one already when a second peer [C] is set up.  Adding
    its state fails with EEXIST, which is taken for success: [CreateXfrmRule]
    reports none of it, and for every address of [B] there is still only the
    state with the key of the first peer. *)
Theorem second_peer_not_decrypted A B C hA hB hC k a c w x :
  peers A B hA hB k -> peers C B hC hB k -> head (Addresses A) = Some a -> head (Addresses C) = Some c ->
  no_states_for B x ->
  wp false (CreateXfrmRule sha512 B A hB) (fun err1 w1 x1 => (netlink_works -> err1 = None) /\ (err1 = None ->
    wp false (CreateXfrmRule sha512 B C hB) (fun err2 _ x2 => (netlink_works -> err2 = None) /\ (err2 = None ->
      forall b, b ∈ Addresses B -> states_for b (SPI B) (x_states x2) =
        [mkState (ip_of a) (ip_of b) (SPI B) (AeadKeyName k)
          (tunnel_key sha512 a b (BootID A) (BootID B) (AeadKey k)) (Length k)
          (Some (XfrmDecryptedMark, XfrmMarkMask))])) w1 x1)) w x.
Proof.
  intros HpA HpC Ha Hc Hno. eapply wp_mono; [by eapply wp_receives|]. cbn. intros err1 w1 x1 [H1 Hw1]. split; [done|].
  intros E1. specialize (H1 E1). eapply wp_mono; [by eapply (wp_receives sha512 C)|]. cbn. intros err2 w2 x2 [H2 Hw2].
  split; [done|]. intros E2 b Hb. rewrite (H2 E2 b Hb), (H1 b Hb), (Hno b Hb). cbn. by rewrite <-(key_spi A B hA hB k HpA).
Qed.

(** A peer that has rebooted, so that the keys of its tunnels are derived
    from another boot identifier, does not get them: a state that is already
    there is kept with its old key. *)
Theorem existing_sa_kept A B hA hB k a w x :
  peers A B hA hB k -> head (Addresses A) = Some a ->
  wp false (CreateXfrmRule sha512 B A hB) (fun err _ x' => (netlink_works -> err = None) /\ (err = None ->
    forall b, b ∈ Addresses B -> states_for b (SPI B) (x_states x) <> [] ->
      states_for b (SPI B) (x_states x') = states_for b (SPI B) (x_states x))) w x.
Proof.
  intros Hpe Ha. eapply wp_mono; [by eapply wp_receives|]. cbn. intros err w' x' [H1 Hw]. split; [done|].
  intros E1 b Hb Hne. by rewrite (H1 E1 b Hb), decide_False.
Qed.
End ends.

(** ** The controller

    [published] is what the lister sees; [fails] are the errors of the API
    server. *)
Record lpmKey : Type := mkLpmKey { prefix : Z; lpm_ip : list Z }.
#[export] Instance lpmKey_eq_dec : EqDecision lpmKey.
Proof. solve_decision. Defined.
#[export] Instance lpmKey_countable : Countable lpmKey.
Proof. apply (inj_countable' (fun k => (prefix k, lpm_ip k)) (fun '(p, i) => mkLpmKey p i)). by intros []. Defined.

Record Controller : Type := mkController {
  kmeshNodeInfo : KmeshNodeInfo;
  ipsecHandler : IpSecHandler;
  c_xfrm : Xfrm;
  kniMap : gmap lpmKey Z;
  c_queue : list string;
  requeues : gmap string nat
}.
Definition l_xfrm : lens Controller Xfrm :=
  mkLens c_xfrm (fun x c => mkController (kmeshNodeInfo c) (ipsecHandler c) x (kniMap c) (c_queue c) (requeues c)).
Definition l_kniMap : lens Controller (gmap lpmKey Z) :=
  mkLens kniMap (fun m c => mkController (kmeshNodeInfo c) (ipsecHandler c) (c_xfrm c) m (c_queue c) (requeues c)).
Definition set_queue f (c : Controller) : Controller :=
  mkController (kmeshNodeInfo c) (ipsecHandler c) (c_xfrm c) (kniMap c) (f (c_queue c)) (requeues c).
Definition set_requeues f (c : Controller) : Controller :=
  mkController (kmeshNodeInfo c) (ipsecHandler c) (c_xfrm c) (kniMap c) (c_queue c) (f (requeues c)).
Definition set_kmeshNodeInfo f (c : Controller) : Controller :=
  mkController (f (kmeshNodeInfo c)) (ipsecHandler c) (c_xfrm c) (kniMap c) (c_queue c) (requeues c).
Definition with_SPI (spi : Z) (n : KmeshNodeInfo) : KmeshNodeInfo :=
  mkNodeInfo (kni_Name n) spi (Addresses n) (BootID n) (PodCIDRs n).

(** Four 32-bit words, the bytes of the address in memory order. *)
Definition generalKNIMapKey (remoteCIDR : string) : option lpmKey :=
  '(a, n) ← ParsePrefix remoteCIDR;
  let b := mask_bytes n (AsSlice a) in
  let word i := le_uint (take 4 (drop (4 * i) b)) in
  Some (mkLpmKey n (if decide (length b = 4%nat) then [word 0%nat; 0; 0; 0]
                    else if decide (length b = 16%nat) then [word 0%nat; word 1%nat; word 2%nat; word 3%nat]
                    else [0; 0; 0; 0])).

Section controller.
Context `{E : Env}.
Context `{XfrmNetlink}.
Variable sha512 : bytes -> bytes.

Definition updateKNIMapCIDR (remoteCIDR : string) : Go Controller (option error) :=
  match generalKNIMapKey remoteCIDR with
  | None => mret (Some (Errorf "update kni map podCIDR failed"))
  | Some kniKey => zoom l_kniMap (map_Update kniKey 1)
  end.
Definition deleteKNIMapCIDR (remoteCIDR : string) : Go Controller unit :=
  match generalKNIMapKey remoteCIDR with
  | None => mret tt
  | Some kniKey => zoom l_kniMap (map_Delete kniKey);; mret tt
  end.

Definition handleKNIAdd (kni : KmeshNodeInfo) (c : Controller) : Controller :=
  if decide (kni_Name kni = kni_Name (kmeshNodeInfo c)) then c else set_queue (fun q => q ++ [kni_Name kni]) c.
Definition handleKNIUpdate (oldKni newKni : KmeshNodeInfo) (c : Controller) : Controller :=
  if decide (kni_Name newKni = kni_Name (kmeshNodeInfo c)) then c
  else if decide ((SPI oldKni, Addresses oldKni, BootID oldKni, PodCIDRs oldKni) =
                  (SPI newKni, Addresses newKni, BootID newKni, PodCIDRs newKni)) then c
  else set_queue (fun q => q ++ [kni_Name newKni]) c.

Definition handleKNIDelete (node : KmeshNodeInfo) : Go Controller unit :=
  err ← fold_each (Addresses node) None (fun err targetIP =>
          if decide (err <> None) then mret err else zoom l_xfrm (Clean targetIP));
  if decide (err <> None) then mret tt
  else fold_each (PodCIDRs node) tt (fun _ podCIDR => deleteKNIMapCIDR podCIDR).

Definition handleOneNodeInfo (node : KmeshNodeInfo) : Go Controller (option error) :=
  c ← gets id;
  err ← zoom l_xfrm (CreateXfrmRule sha512 (kmeshNodeInfo c) node (ipsecHandler c));
  if decide (err <> None) then mret err
  else
    fold_each (PodCIDRs node) None (fun err podCIDR =>
      if decide (err <> None) then mret err
      else
        err ← updateKNIMapCIDR podCIDR;
        mret (if decide (err <> None) then Some (Errorf "update kni map podCIDR failed") else None)).

Definition syncAllNodeInfo (nodeList : list KmeshNodeInfo) : Go Controller unit :=
  c ← gets id;
  fold_each nodeList tt (fun _ node =>
    if decide (kni_Name node = kni_Name (kmeshNodeInfo c)) then mret tt
    else handleOneNodeInfo node;; mret tt).

(** What is sent to the API server. *)
Inductive api_call : Type := CreateInfo (n : KmeshNodeInfo) | UpdateInfo (n : KmeshNodeInfo).
Definition updateLocalKmeshNodeInfo (published : gmap string KmeshNodeInfo) (c : Controller) : option api_call :=
  match published !! kni_Name (kmeshNodeInfo c) with
  | None => Some (CreateInfo (kmeshNodeInfo c))
  | Some node =>
      if decide ((SPI node, Addresses node, BootID node, PodCIDRs node) =
                 (SPI (kmeshNodeInfo c), Addresses (kmeshNodeInfo c), BootID (kmeshNodeInfo c), PodCIDRs (kmeshNodeInfo c)))
      then None else Some (UpdateInfo (kmeshNodeInfo c))
  end.

Definition CleanAllIPsec : Go Controller unit := zoom l_xfrm Flush;; mret tt.

Definition MaxRetries : nat := 5.
(** One turn with the first element of the queue. *)
Definition processNextItem (published : gmap string KmeshNodeInfo) : Go Controller bool :=
  c ← gets id;
  match c_queue c with
  | [] => mret false
  | name :: rest =>
      modify (set_queue (fun _ => rest));;
      match published !! name with
      | None => mret true
      | Some node =>
          err ← handleOneNodeInfo node;
          (if decide (err <> None) then
             c ← gets id;
             let n := default 0%nat (requeues c !! name) in
             if decide (n < MaxRetries)%nat then
               modify (fun c => set_requeues (<[name := S n]>) (set_queue (fun q => q ++ [name]) c))
             else modify (set_requeues (delete name))
           else modify (set_requeues (delete name)));;
          mret true
      end
  end.

Definition handleIpsecUpdate (published : gmap string KmeshNodeInfo) (order : list KmeshNodeInfo)
    : Go Controller (option api_call) :=
  modify (fun c => set_kmeshNodeInfo (with_SPI (h_Spi (ipsecHandler c))) c);;
  c ← gets id;
  fold_each order tt (fun _ node =>
    if decide (kni_Name node = kni_Name (kmeshNodeInfo c)) then mret tt
    else zoom l_xfrm (CreateXfrmRule sha512 (kmeshNodeInfo c) node (ipsecHandler c));; mret tt);;
  mret match published !! kni_Name (kmeshNodeInfo c) with
       | None => None
       | Some node =>
           if decide (SPI node = h_Spi (ipsecHandler c)) then None
           else Some (UpdateInfo (with_SPI (SPI (kmeshNodeInfo c)) node))
       end.
End controller.

(** ** Removing a node *)
Definition touches (node : KmeshNodeInfo) (src dst : bytes) : bool :=
  existsb (fun a => IP_Equal src (ip_of a) || IP_Equal dst (ip_of a)) (Addresses node).
Definition without (node : KmeshNodeInfo) (x : Xfrm) : Xfrm :=
  mkXfrm (filter (fun st => negb (touches node (st_Src st) (st_Dst st))) (x_states x))
         (filter (fun p => negb (touches node (tmpl_Src p) (tmpl_Dst p))) (x_policies x)).

Lemma filter_negb_or {A} (f g : A -> bool) (l : list A) :
  filter (fun x => negb (g x)) (filter (fun x => negb (f x)) l) = filter (fun x => negb (f x || g x)) l.
Proof.
  rewrite list_filter_filter. apply list_filter_iff. intros x. destruct (f x), (g x); cbn; naive_solver.
Qed.

Lemma filter_all {A} (f : A -> bool) (l : list A) : (forall x, f x = true) -> filter (fun x => f x) l = l.
Proof.
  intros Hf. induction l as [|x l IH]; [done|]. rewrite filter_cons_True by (by rewrite Hf). by rewrite IH.
Qed.

(** [Clean] as a function on the tables. *)
Definition clean (x : Xfrm) (a : string) : Xfrm :=
  mkXfrm (filter (fun st => negb (IP_Equal (st_Src st) (ip_of a) || IP_Equal (st_Dst st) (ip_of a))) (x_states x))
         (filter (fun p => negb (IP_Equal (tmpl_Src p) (ip_of a) || IP_Equal (tmpl_Dst p) (ip_of a))) (x_policies x)).
Lemma foldl_Clean l x :
  foldl clean x l =
  mkXfrm (filter (fun st => negb (existsb (fun a => IP_Equal (st_Src st) (ip_of a) || IP_Equal (st_Dst st) (ip_of a)) l)) (x_states x))
         (filter (fun p => negb (existsb (fun a => IP_Equal (tmpl_Src p) (ip_of a) || IP_Equal (tmpl_Dst p) (ip_of a)) l)) (x_policies x)).
Proof.
  revert x. induction l as [|a l IH]; intros [ss ps]; cbn.
  - by rewrite !(filter_all (fun _ => true)).
  - rewrite IH. cbn. by rewrite !filter_negb_or.
Qed.

(** The tables of the kernel: one state for an identity, one policy for a
    selector. *)
Definition xfrm_ok (x : Xfrm) : Prop := NoDup (sa_id <$> x_states x) /\ NoDup (selector <$> x_policies x).

Lemma NoDup_fmap_filter {A K} (key : A -> K) (P : A -> Prop) `{!forall a, Decision (P a)} (l : list A) :
  NoDup (key <$> l) -> NoDup (key <$> filter P l).
Proof.
  induction l as [|a l IH]; [done|]. rewrite fmap_cons, NoDup_cons. intros [Ha Hl]. rewrite filter_cons. case_decide; [|auto].
  rewrite fmap_cons, NoDup_cons. split; [|auto]. intros Hin. apply Ha. apply list_elem_of_fmap in Hin as (b & -> & Hb).
  apply list_elem_of_filter in Hb as [_ Hb]. by apply list_elem_of_fmap_2.
Qed.
Lemma clean_ok x a : xfrm_ok x -> xfrm_ok (clean x a).
Proof. intros [Hs Hp]. split; by apply NoDup_fmap_filter. Qed.

(** Deleting by key takes out one element. *)
Lemma delete_key {A K} `{EqDecision K} (key : A -> K) pre a (l : list A) :
  NoDup (key <$> (pre ++ a :: l)) -> filter (fun b => key b <> key a) (pre ++ a :: l) = pre ++ l.
Proof.
  rewrite fmap_app, fmap_cons. intros Hnd. apply NoDup_app in Hnd as (_ & Hpre & Hl). apply NoDup_cons in Hl as [Hl _].
  rewrite filter_app, filter_cons_False by (intros Hne; by apply Hne). f_equal; apply filter_keep, Forall_forall; intros b Hb Heq.
  - apply (Hpre (key b)); [by apply list_elem_of_fmap_2|]. rewrite Heq. by left.
  - apply Hl. rewrite <-Heq. by apply list_elem_of_fmap_2.
Qed.

Section clean.
Context `{N : XfrmNetlink} `{!KernelIdentity N} (Hworks : netlink_works).

Lemma wp_delete_each {A B} p (hit : A -> bool) del (get : Xfrm -> list A) (other : Xfrm -> B) (ok : list A -> Prop) l :
  (forall pre a l w x, get x = pre ++ a :: l -> ok (get x) ->
     wp p (del a) (fun err _ x' => err = None /\ get x' = pre ++ l /\ other x' = other x) w x) ->
  (forall pre a l, ok (pre ++ a :: l) -> ok (pre ++ l)) ->
  forall pre w x, get x = pre ++ l -> ok (get x) ->
  wp p (delete_each hit del l) (fun err _ x' => err = None /\
    get x' = pre ++ filter (fun a => negb (hit a)) l /\ other x' = other x) w x.
Proof.
  intros Hdel Hok. induction l as [|a l IH]; intros pre w x Hx Hk; cbn [delete_each]; [by wp_steps|].
  rewrite filter_cons. destruct (hit a); cbn [negb].
  - wp_steps. eapply wp_mono; [by apply (Hdel pre a l)|]. cbn. intros err w1 x1 (-> & Hx1 & Ho1).
    rewrite decide_False by naive_solver. eapply wp_mono; [apply (IH pre); [done|]|].
    + rewrite Hx1. rewrite Hx in Hk. by eapply Hok.
    + cbn. intros err w2 x2 (-> & Hx2 & Ho2). by rewrite Hx2, Ho2.
  - eapply wp_mono; [apply (IH (pre ++ [a])); [by rewrite <-app_assoc|done]|]. cbn.
    intros err w2 x2 (-> & Hx2 & Ho2). by rewrite Hx2, <-app_assoc.
Qed.

Lemma wp_call_works {S} p (Q : option error -> World -> S -> Prop) w s :
  (forall w', Q None w' s) -> wp p netlink_call Q w s.
Proof. intros HQ. apply wp_netlink_call. intros err w' _ Hn. by rewrite (Hn Hworks). Qed.

Lemma wp_StateDel p pre st l w x :
  x_states x = pre ++ st :: l -> NoDup (sa_id <$> x_states x) ->
  wp p (XfrmStateDel st) (fun err _ x' => err = None /\ x_states x' = pre ++ l /\ x_policies x' = x_policies x) w x.
Proof.
  intros Hx Hnd. unfold XfrmStateDel. wp_steps. apply wp_call_works. intros w'. rewrite decide_False by naive_solver. wp_steps. cbn [id].
  assert (existsb (same_sa st) (x_states x) = true) as ->.
  { apply existsb_exists. exists st. rewrite Hx. split; [apply list_elem_of_In; set_solver|].
    rewrite kernel_identity. by apply bool_decide_eq_true. }
  wp_steps. split; [done|]. split; [|done]. cbn [x_states]. rewrite Hx in Hnd |- *. rewrite <-(delete_key sa_id pre st l) by done.
  apply list_filter_iff. intros t. rewrite kernel_identity, bool_decide_eq_false. naive_solver.
Qed.
Lemma wp_PolicyDel p pre po l w x :
  x_policies x = pre ++ po :: l -> NoDup (selector <$> x_policies x) ->
  wp p (XfrmPolicyDel po) (fun err _ x' => err = None /\ x_policies x' = pre ++ l /\ x_states x' = x_states x) w x.
Proof.
  intros Hx Hnd. unfold XfrmPolicyDel. wp_steps. apply wp_call_works. intros w'. rewrite decide_False by naive_solver. wp_steps. cbn [id].
  assert (has_policy po x = true) as ->.
  { apply existsb_exists. exists po. rewrite Hx. split; [apply list_elem_of_In; set_solver|]. by apply bool_decide_eq_true. }
  wp_steps. split; [done|]. split; [|done]. cbn [x_policies]. rewrite Hx in Hnd |- *. by apply delete_key.
Qed.

Lemma NoDup_drop_one {A K} (key : A -> K) pre a (l : list A) : NoDup (key <$> (pre ++ a :: l)) -> NoDup (key <$> (pre ++ l)).
Proof. rewrite !fmap_app, fmap_cons, !NoDup_app, NoDup_cons. set_solver. Qed.

Lemma wp_Clean p a w x : xfrm_ok x -> wp p (Clean a) (fun err _ x' => err = None /\ x' = clean x a) w x.
Proof.
  intros [Hs Hp]. unfold Clean, XfrmPolicyList, XfrmStateList. cbn zeta. wp_steps. apply wp_call_works. intros w1. wp_steps.
  eapply wp_mono; [apply (wp_delete_each p _ _ x_policies x_states (fun l => NoDup (selector <$> l)))
    with (pre := []); [intros; by eapply wp_PolicyDel|apply NoDup_drop_one|done|done]|].
  cbn. intros err w2 x1 (-> & Hp1 & Hs1). rewrite decide_False by naive_solver. wp_steps. apply wp_call_works. intros w3. wp_steps.
  eapply wp_mono; [apply (wp_delete_each p _ _ x_states x_policies (fun l => NoDup (sa_id <$> l)))
    with (pre := []); [intros; by eapply wp_StateDel|apply NoDup_drop_one|done|by rewrite Hs1]|].
  cbn. intros err w4 x2 (-> & Hs2 & Hp2). split; [done|]. destruct x2 as [ss ps]. cbn in Hs2, Hp2. subst.
  unfold clean, ip_of. by rewrite Hp1, Hs1.
Qed.

(** When a node is removed, and the kernel fails none of the calls, every state
    and policy of its tunnels goes and every other one stays, and its pod
    blocks, and no others, leave the BPF map. *)
Theorem handleKNIDelete_cleans `{E : Env} `{!DeletesSucceed E} node w c :
  xfrm_ok (c_xfrm c) ->
  wp false (handleKNIDelete node) (fun _ _ c' =>
    c_xfrm c' = without node (c_xfrm c) /\
    forall key, kniMap c' !! key =
      if decide (Some key ∈ generalKNIMapKey <$> PodCIDRs node) then None else kniMap c !! key) w c.
Proof.
  intros Hok. unfold handleKNIDelete. wp_steps.
  eapply (wp_fold_each _ (fun rest err _ c' => err = None /\ kniMap c' = kniMap c /\ xfrm_ok (c_xfrm c') /\
    foldl clean (c_xfrm c') rest = foldl clean (c_xfrm c) (Addresses node))); [done| |].
  { intros a rest err w1 c1 (-> & Hm & Ho & Hx). rewrite decide_False by naive_solver. wp_steps.
    eapply wp_mono; [by apply wp_Clean|]. cbn. intros err w2 x' [-> ->]. rewrite <-Hx. auto using clean_ok. }
  intros err w1 c1 (-> & Hm & _ & Hx). cbn in Hx. rewrite decide_False by naive_solver.
  eapply (wp_fold_each _ (fun rest _ _ c' => c_xfrm c' = c_xfrm c1 /\
    forall key, (if decide (Some key ∈ generalKNIMapKey <$> rest) then None else kniMap c' !! key) =
      if decide (Some key ∈ generalKNIMapKey <$> PodCIDRs node) then None else kniMap c !! key)).
  - split; [done|]. by rewrite Hm.
  - intros cidr rest [] w2 c2 [Hx2 Hk]. unfold deleteKNIMapCIDR.
    destruct (generalKNIMapKey cidr) as [k|] eqn:Ek.
    + wp_steps. unfold map_Delete, wp. cbn. rewrite deletes_succeed.
      assert (forall m : gmap lpmKey Z, (forall key, m !! key = delete k (kniMap c2) !! key) ->
        forall key, (if decide (Some key ∈ generalKNIMapKey <$> rest) then None else m !! key) =
          if decide (Some key ∈ generalKNIMapKey <$> PodCIDRs node) then None else kniMap c !! key) as Hdel.
      { intros m Hdm key. rewrite <-Hk, Hdm. cbn. rewrite Ek. destruct (decide (key = k)) as [->|Hne].
        - rewrite lookup_delete_eq. rewrite (decide_True (P := Some k ∈ _ :: _)) by (by left). by case_decide.
        - rewrite lookup_delete_ne by done. apply decide_ext. rewrite elem_of_cons. naive_solver. }
      destruct (kniMap c2 !! k) eqn:Ekk; (split; [done|]); apply Hdel; intros key; [done|].
      destruct (decide (key = k)) as [->|Hne]; [by rewrite lookup_delete_eq|by rewrite lookup_delete_ne].
    + wp_steps. split; [done|]. intros key. rewrite <-Hk. cbn. rewrite Ek. apply decide_ext.
      rewrite elem_of_cons. naive_solver.
  - intros [] w2 c2 [Hx2 Hk]. split; [rewrite Hx2, Hx; apply foldl_Clean|].
    intros key. rewrite <-Hk. cbn. rewrite decide_False by apply not_elem_of_nil. done.
Qed.
End clean.

(** ** A mesh of three nodes *)
Definition toy_sha512 (b : bytes) : bytes := replicate 64 (foldr (fun x n => (x + 3 * n) mod 251) 7 b).
Definition demo_key : IpSecKey := mkIpSecKey 1 "rfc4106(gcm(aes))" (replicate 36 9) 128.
Definition demo_handler : IpSecHandler := mkHandler 1 {[1 := demo_key]}.
Definition boot (c : string) : string := c +:+ "0000000-0000-0000-0000-000000000000".
Definition node1 : KmeshNodeInfo := mkNodeInfo "n1" 1 ["10.0.0.1"] (boot "a") ["10.244.1.0/24"].
Definition node2 : KmeshNodeInfo := mkNodeInfo "n2" 1 ["10.0.0.2"] (boot "b") ["10.244.2.0/24"].
Definition node3 : KmeshNodeInfo := mkNodeInfo "n3" 1 ["10.0.0.3"] (boot "c") ["10.244.3.0/24"].

Lemma demo_good n : n ∈ [node1; node2; node3] -> good_node n.
Proof.
  rewrite !elem_of_cons. intros [->|[->|[->|H]]]; [| | |by apply not_elem_of_nil in H];
    (split_and!; [apply Forall_singleton; by eexists|vm_compute; lia|apply Forall_singleton; by eexists]).
Qed.
Lemma demo_keys : good_keys demo_handler.
Proof.
  intros spi k Hk. unfold demo_handler in Hk. cbn in Hk. apply lookup_singleton_Some in Hk as [<- <-].
  split; [done|vm_compute; lia].
Qed.
Lemma demo_peers : peers node1 node2 demo_handler demo_handler demo_key.
Proof.
  split.
  - split; apply demo_good; set_solver.
  - split; apply demo_keys.
  - intros a b Ha Hb. cbn in Ha, Hb. rewrite !elem_of_cons in Ha, Hb.
    destruct Ha as [->|[->|Ha]]; [| |by apply not_elem_of_nil in Ha];
      (destruct Hb as [->|[->|Hb]]; [| |by apply not_elem_of_nil in Hb]); try done; intros H; by vm_compute in H.
  - intros a Ha Hb. apply list_elem_of_singleton in Ha as ->. by apply list_elem_of_singleton in Hb.
  - done.
  - by eexists.
  - done.
Qed.
Definition empty_xfrm : Xfrm := mkXfrm [] [].
(** A kernel that fails no call. *)
Definition NetlinkOk : XfrmNetlink :=
  {| same_sa := fun a b => bool_decide (sa_id a = sa_id b); netlink_err := fun _ => None;
     netlink_err_other := fun _ H => eq_ind None (fun o => match o with None => True | Some _ => False end) I _ H |}.
#[export] Instance NetlinkOk_identity : KernelIdentity NetlinkOk.
Proof. done. Qed.

Lemma tunnels_agree_witness :
  peers node1 node2 demo_handler demo_handler demo_key /\
  wp false (@CreateXfrmRule NetlinkOk toy_sha512 node1 node2 demo_handler) (fun errA _ xA' => errA = None /\
    wp false (@CreateXfrmRule NetlinkOk toy_sha512 node2 node1 demo_handler) (fun errB _ xB' => errB = None /\
      exists key, states_for "10.0.0.2" 1 (x_states xA') =
          [mkState (ip_of "10.0.0.1") (ip_of "10.0.0.2") 1 "rfc4106(gcm(aes))" key 128 None] /\
        states_for "10.0.0.2" 1 (x_states xB') =
          [mkState (ip_of "10.0.0.1") (ip_of "10.0.0.2") 1 "rfc4106(gcm(aes))" key 128
            (Some (XfrmDecryptedMark, XfrmMarkMask))]) (mkWorld 0 ∅ ∅) empty_xfrm)
    (mkWorld 0 ∅ ∅) empty_xfrm.
Proof.
  split; [exact demo_peers|]. assert (@netlink_works NetlinkOk) as Hw by (intros n; reflexivity).
  eapply wp_mono; [apply (@tunnels_agree NetlinkOk _ toy_sha512 node1 node2 demo_handler demo_handler demo_key "10.0.0.1"
    (mkWorld 0 ∅ ∅) empty_xfrm empty_xfrm demo_peers eq_refl); intros b _; reflexivity|].
  cbn beta. intros errA wA xA' [HA HB]. specialize (HA Hw). split; [exact HA|].
  eapply wp_mono; [exact HB|]. cbn beta. intros errB wB xB' [HB1 Hb]. specialize (HB1 Hw). split; [exact HB1|].
  apply Hb; [exact HA|exact HB1|by left].
Defined.

Lemma demo_peers3 : peers node3 node2 demo_handler demo_handler demo_key.
Proof.
  split.
  - split; apply demo_good; set_solver.
  - split; apply demo_keys.
  - intros a b Ha Hb. cbn in Ha, Hb. rewrite !elem_of_cons in Ha, Hb.
    destruct Ha as [->|[->|Ha]]; [| |by apply not_elem_of_nil in Ha];
      (destruct Hb as [->|[->|Hb]]; [| |by apply not_elem_of_nil in Hb]); try done; intros H; by vm_compute in H.
  - intros a Ha Hb. apply list_elem_of_singleton in Ha as ->. by apply list_elem_of_singleton in Hb.
  - done.
  - by eexists.
  - done.
Qed.
Lemma second_peer_not_decrypted_witness :
  (* the key with which the second peer encrypts is another one *)
  tunnel_key toy_sha512 "10.0.0.3" "10.0.0.2" (boot "c") (boot "b") (AeadKey demo_key) <>
    tunnel_key toy_sha512 "10.0.0.1" "10.0.0.2" (boot "a") (boot "b") (AeadKey demo_key) /\
  wp false (@CreateXfrmRule NetlinkOk toy_sha512 node2 node1 demo_handler) (fun err1 w1 x1 => err1 = None /\
    wp false (@CreateXfrmRule NetlinkOk toy_sha512 node2 node3 demo_handler) (fun err2 _ x2 => err2 = None /\
      (st_AeadKey <$> states_for "10.0.0.2" 1 (x_states x2)) =
        [tunnel_key toy_sha512 "10.0.0.1" "10.0.0.2" (boot "a") (boot "b") (AeadKey demo_key)]) w1 x1)
    (mkWorld 0 ∅ ∅) empty_xfrm.
Proof.
  split; [by vm_compute|]. assert (@netlink_works NetlinkOk) as Hw by (intros n; reflexivity).
  eapply wp_mono; [apply (@second_peer_not_decrypted NetlinkOk _ toy_sha512 node1 node2 node3 demo_handler demo_handler demo_handler
    demo_key "10.0.0.1" "10.0.0.3" (mkWorld 0 ∅ ∅) empty_xfrm demo_peers demo_peers3 eq_refl eq_refl); intros b _; reflexivity|].
  cbn beta. intros err1 w1 x1 [H1 H2]. specialize (H1 Hw). split; [exact H1|].
  eapply wp_mono; [exact (H2 H1)|]. cbn beta. intros err2 w2 x2 [H3 H4]. specialize (H3 Hw). split; [exact H3|].
  change 1 with (SPI node2). rewrite (H4 H3 "10.0.0.2"); [done|by left].
Defined.

Definition old_tunnel : XfrmState := tunnel toy_sha512 node1 node2 "10.0.0.1" "10.0.0.2" demo_key true.
Definition rebooted1 : KmeshNodeInfo := mkNodeInfo "n1" 1 ["10.0.0.1"] (boot "z") ["10.244.1.0/24"].
Lemma rebooted_peers : peers rebooted1 node2 demo_handler demo_handler demo_key.
Proof.
  destruct demo_peers as [[_ H1] H2 H3 H4 H5 H6 H7]. split; try done. split; [|done].
  split_and!; [apply Forall_singleton; by eexists|vm_compute; lia|apply Forall_singleton; by eexists].
Qed.
Lemma existing_sa_kept_witness :
  (* the key that the rebooted peer derives is another one *)
  st_AeadKey (tunnel toy_sha512 rebooted1 node2 "10.0.0.1" "10.0.0.2" demo_key false) <> st_AeadKey old_tunnel /\
  wp false (@CreateXfrmRule NetlinkOk toy_sha512 node2 rebooted1 demo_handler) (fun err _ x' => err = None /\
    states_for "10.0.0.2" 1 (x_states x') = [old_tunnel]) (mkWorld 0 ∅ ∅) (mkXfrm [old_tunnel] []).
Proof.
  split; [by vm_compute|]. assert (@netlink_works NetlinkOk) as Hw by (intros n; reflexivity).
  eapply wp_mono; [apply (@existing_sa_kept NetlinkOk _ toy_sha512 rebooted1 node2 demo_handler demo_handler demo_key "10.0.0.1"
    (mkWorld 0 ∅ ∅) (mkXfrm [old_tunnel] []) rebooted_peers eq_refl)|].
  cbn beta. intros err w x' [H1 H2]. specialize (H1 Hw). split; [exact H1|].
  change 1 with (SPI node2). rewrite (H2 H1 "10.0.0.2"); [vm_compute; reflexivity|by left|by vm_compute].
Defined.

Definition demo_block : lpmKey := default (mkLpmKey 0 []) (generalKNIMapKey "10.244.2.0/24").
Lemma handleKNIDelete_cleans_witness :
  let c := mkController node1 demo_handler (mkXfrm [old_tunnel] []) {[ demo_block := 1 ]} [] ∅ in
  is_Some (kniMap c !! demo_block) /\
  wp false (@handleKNIDelete EnvOk NetlinkOk node2) (fun _ _ c' => x_states (c_xfrm c') = [] /\ kniMap c' !! demo_block = None) (mkWorld 0 ∅ ∅) c.
Proof.
  intros c. split; [vm_compute; by eexists|].
  assert (DeletesSucceed EnvOk) as Hdel by (intros n; reflexivity).
  assert (@netlink_works NetlinkOk) as Hw by (intros n; reflexivity).
  eapply wp_mono; [apply (@handleKNIDelete_cleans NetlinkOk _ Hw EnvOk Hdel node2 (mkWorld 0 ∅ ∅) c)|].
  - split; [apply NoDup_singleton|apply NoDup_nil_2].
  - intros _ _ c' [Hx Hm]. split; [rewrite Hx; vm_compute; reflexivity|]. rewrite Hm. vm_compute. reflexivity.
Defined.

(** Setting up [node1] for its two peers: the policy for what comes in names only
    the last peer; removing that peer removes the policy of the others. *)
Definition run_peers (l : list KmeshNodeInfo) : option Xfrm :=
  match fold_each l None (fun _ n => @CreateXfrmRule NetlinkOk toy_sha512 node1 n demo_handler) (mkWorld 0 ∅ ∅) empty_xfrm with
  | Done (_, _, x) => Some x
  | _ => None
  end.
Definition in_templates (x : Xfrm) : list bytes := tmpl_Src <$> filter (fun p => po_Dir p = XFRM_DIR_IN) (x_policies x).
Example ingress_policy_of_last_peer :
  in_templates <$> run_peers [node2; node3] = Some [ip_of "10.0.0.3"] /\
  (fun x => in_templates (without node3 x)) <$> run_peers [node2; node3] = Some [].
Proof. vm_compute. done. Qed.
