(* ===== verification/Control.v ===== *)
(** * Switching control on and off: [pkg/nets/nets.go] ([TriggerControlCommand]),
    [pkg/utils/enroll.go] ([HandleKmeshManage])

    User space enters the network namespace of a pod and connects to a reserved
    address; the port says whether control is switched on or off.  The connect
    hook and the sockops program see the attempt and change the map of managed
    namespaces and addresses.  [connect] is the part of [connect(2)] that runs
    these programs ([Balancer], [SockOps]). *)
From S2P Require Import Prelude GoNet Nets BpfCache BpfCommon Balancer SockOps Delivery.

Definition ControlCommandIp4 : string := "0.0.0.2".
Definition ControlCommandIp6 : string := "::2".
Definition OperEnableControl : Z := 929.
Definition OperDisableControl : Z := 930.
Definition EINPROGRESS : Z := 115.

(** A network namespace, as far as the command depends on it. *)
Record NetNS : Type := mkNetNS {
  ns_cookie : Z;
  InterfaceAddrs : option (list IfAddr);         (* net.InterfaceAddrs, None when it fails *)
  socket_errno : option Z;                       (* socket(2) *)
  nonblock_errno : option Z;                     (* fcntl(2) *)
  syn_from : option (Z * bytes);                 (* local address of the attempt, None without a route *)
  connect_errno : option Z                       (* connect(2) *)
}.

(** [syscall.SockaddrInet4] and [SockaddrInet6] *)
Inductive Sockaddr : Type :=
  | SockaddrInet4 (port : Z) (addr : bytes)
  | SockaddrInet6 (port : Z) (addr : bytes).

Section control.
Context `{Helpers}.
Variables (monitoring : bool) (reserved : bytes * bytes) (node_ip pod_gateway stale : bytes).

(** The context of the hooks for an attempt on a new TCP socket. *)
Definition sock_addr_of (cookie : Z) (sa : Sockaddr) : bpf_sock_addr :=
  match sa with
  | SockaddrInet4 port addr => mkSockAddr AF_INET (le_uint addr) zero_ip (bpf_htons port) AF_INET IPPROTO_TCP cookie
  | SockaddrInet6 port addr => mkSockAddr AF_INET6 0 addr (bpf_htons port) AF_INET6 IPPROTO_TCP cookie
  end.
Definition skops_of (ctx : bpf_sock_addr) (local : Z * bytes) : bpf_sock_ops :=
  mkSkops BPF_SOCK_OPS_TCP_CONNECT_CB 0 (family ctx) local.1 local.2 0
    (user_ip4 ctx) (user_ip6 ctx) (Z.shiftl (user_port ctx) 16) None.

Definition connect (ns : NetNS) (sa : Sockaddr) : K (option error) :=
  kmod (set_storage None);;
  let ctx := sock_addr_of (ns_cookie ns) sa in
  ctx ← (if family ctx =? AF_INET then hook_connect4 ctx else hook_connect6 ctx);
  (match syn_from ns with
   | None => mret tt
   | Some local => sockops_prog monitoring reserved node_ip pod_gateway stale (skops_of ctx local)
   end);;
  mret (ErrSys <$> connect_errno ns).

(** The end that both variants share: an attempt in progress is a success. *)
Definition connect_result (err : option error) : option error :=
  match err with
  | None => None
  | Some (ErrSys errno) => if decide (errno = EINPROGRESS) then None else err
  | Some _ => err
  end.

Definition triggerControlCommandWithPortInV4 (ns : NetNS) (port : Z) : K (option error) :=
  let ip := default [] (ParseIP ControlCommandIp4) in
  match socket_errno ns with
  | Some errno => mret (Some (ErrSys errno))
  | None =>
      match nonblock_errno ns with
      | Some errno => mret (Some (ErrSys errno))
      | None =>
          err ← connect ns (SockaddrInet4 port (default [] (To4 ip)));
          mret (connect_result err)
      end
  end.

Definition triggerControlCommandWithPortInV6 (ns : NetNS) (port : Z) : K (option error) :=
  let ip := default [] (ParseIP ControlCommandIp6) in
  match socket_errno ns with
  | Some errno => mret (Some (ErrSys errno))
  | None =>
      match nonblock_errno ns with
      | Some errno => mret (Some (ErrSys errno))
      | None =>
          err ← connect ns (SockaddrInet6 port ip);
          mret (connect_result err)
      end
  end.

Definition TriggerControlCommand (ns : NetNS) (oper : Z) : K (option error) :=
  let '(ipv4, ipv6) := checkIPVersion (InterfaceAddrs ns) in
  if ipv4 : bool then triggerControlCommandWithPortInV4 ns oper
  else if ipv6 : bool then triggerControlCommandWithPortInV6 ns oper
  else mret None.

(** [WithNetNSPath] fails when the path is not a namespace. *)
Definition HandleKmeshManage (ns : option NetNS) (enroll : bool) : K (option error) :=
  match ns with
  | None => mret (Some (Errorf "enter ns path"))
  | Some ns =>
      let port := if enroll then OperEnableControl else OperDisableControl in
      err ← TriggerControlCommand ns port;
      mret (match err with None => None | Some _ => Some (Errorf "run execFunc failed") end)
  end.
End control.

(** ** What a command does to the map of managed namespaces *)
Definition ns_key (ns : NetNS) : bytes := st 8 0 (ns_cookie ns) manager_key_zero.

(** The address entry that the sockops program keeps for the namespace. *)
Definition ns_address_key (ns : NetNS) (v6 : bool) : option bytes :=
  (fun l => address_key (if v6 then AF_INET6 else AF_INET) l.1 l.2) <$> syn_from ns.

Section facts.
Context `{H : Helpers}.
Variables (monitoring : bool) (reserved : bytes * bytes) (node_ip pod_gateway stale : bytes).
#[local] Abbreviation run_connect := (connect monitoring reserved node_ip pod_gateway stale).

Definition command_addr (v6 : bool) (port : Z) : Sockaddr :=
  if v6 then SockaddrInet6 port (default [] (ParseIP ControlCommandIp6))
  else SockaddrInet4 port (default [] (ParseIP ControlCommandIp4 ≫= To4)).

Definition map_accepts : Prop := forall n, update_fails n = false.

Definition command_port (enroll : bool) : Z := if enroll then OperEnableControl else OperDisableControl.
Definition record_key (key : bytes) (k : Kernel) : Kernel :=
  set_clock (S (k_clock k)) (set_manager (<[key := 0]> (map_of_manager k)) k).
Definition command_effect (enroll : bool) (key : bytes) (k : Kernel) : Kernel :=
  if enroll then record_key key k else set_manager (delete key (map_of_manager k)) k.

Lemma skips_command kc enroll k : map_accepts ->
  conn_from_cni_sim_add kc = enroll -> (enroll = false -> conn_from_cni_sim_delete kc = true) ->
  skips kc k = (true, command_effect enroll (cookie_key (kc_ctx kc)) k).
Proof.
  intros Hok Ha Hd. unfold skips, handle_kmesh_manage_process. rewrite krun_bind, Ha. destruct enroll.
  - unfold record_manager_netns_cookie. rewrite !krun_bind. unfold ask. cbn [fst snd]. by rewrite Hok.
  - by rewrite Hd.
Qed.

Lemma command_hook ns v6 enroll k : map_accepts ->
  let ctx := sock_addr_of (ns_cookie ns) (command_addr v6 (command_port enroll)) in
  (if family ctx =? AF_INET then hook_connect4 ctx else hook_connect6 ctx) k =
  (ctx, command_effect enroll (ns_key ns) k).
Proof.
  intros Hok. destruct v6; cbn [command_addr sock_addr_of family Z.eqb AF_INET AF_INET6 Pos.eqb].
  - apply run_hook_ends. unfold cgroup_connect6_prog. rewrite krun_bind, (skips_command _ enroll);
      [done|done|destruct enroll; vm_compute; reflexivity|intros ->; vm_compute; reflexivity].
  - apply run_hook_ends. unfold cgroup_connect4_prog. rewrite krun_bind, (skips_command _ enroll);
      [done|done|destruct enroll; vm_compute; reflexivity|intros ->; vm_compute; reflexivity].
Qed.

Lemma command_sockops ns v6 enroll local k : map_accepts ->
  let ctx := sock_addr_of (ns_cookie ns) (command_addr v6 (command_port enroll)) in
  (sockops_prog monitoring reserved node_ip pod_gateway stale (skops_of ctx local) k).2 =
  command_effect enroll (address_key (if v6 then AF_INET6 else AF_INET) local.1 local.2) k.
Proof.
  intros Hok ctx. unfold sockops_prog. replace (negb _ && negb _) with false by (by destruct v6).
  cbn [op skops_of Z.eqb BPF_SOCK_OPS_TCP_CONNECT_CB Pos.eqb].
  unfold skops_handle_kmesh_managed_process. rewrite krun_bind.
  replace (skops_conn_from_cni_sim_add _) with enroll by (destruct v6, enroll; vm_compute; reflexivity).
  replace (skops_conn_from_cni_sim_delete _) with (negb enroll) by (destruct v6, enroll; vm_compute; reflexivity).
  destruct enroll; cbn [negb]; [|by destruct v6].
  unfold record_kmesh_managed_ip. rewrite !krun_bind. unfold ask. cbn [fst snd]. rewrite Hok. by destruct v6.
Qed.

Lemma run_command ns v6 enroll k : map_accepts ->
  run_connect ns (command_addr v6 (command_port enroll)) k =
  (ErrSys <$> connect_errno ns,
   match ns_address_key ns v6 with
   | Some key => command_effect enroll key (command_effect enroll (ns_key ns) (set_storage None k))
   | None => command_effect enroll (ns_key ns) (set_storage None k)
   end).
Proof.
  intros Hok. unfold connect. rewrite !krun_bind. cbn [kmod fst snd]. rewrite command_hook by done. cbn [fst snd].
  unfold ns_address_key. destruct (syn_from ns) as [local|]; cbn [fmap option_fmap option_map].
  - by rewrite command_sockops.
  - done.
Qed.

Definition reachable_by (ns : NetNS) (v6 : bool) : Prop :=
  checkIPVersion (InterfaceAddrs ns) = (negb v6, true) \/ checkIPVersion (InterfaceAddrs ns) = (negb v6, v6).
Definition sockets_work (ns : NetNS) : Prop := socket_errno ns = None /\ nonblock_errno ns = None.
#[local] Abbreviation manage := (HandleKmeshManage monitoring reserved node_ip pod_gateway stale).

Lemma HandleKmeshManage_run ns v6 enroll k : map_accepts -> sockets_work ns -> reachable_by ns v6 ->
  manage (Some ns) enroll k =
  (match connect_result (ErrSys <$> connect_errno ns) with None => None | Some _ => Some (Errorf "run execFunc failed") end,
   match ns_address_key ns v6 with
   | Some key => command_effect enroll key (command_effect enroll (ns_key ns) (set_storage None k))
   | None => command_effect enroll (ns_key ns) (set_storage None k)
   end).
Proof.
  intros Hok [Hs Hn] Hv. unfold HandleKmeshManage. change (if enroll then _ else _) with (command_port enroll).
  assert (TriggerControlCommand monitoring reserved node_ip pod_gateway stale ns (command_port enroll) =
    (err ← run_connect ns (command_addr v6 (command_port enroll)); mret (connect_result err))) as ->.
  { unfold TriggerControlCommand, triggerControlCommandWithPortInV4, triggerControlCommandWithPortInV6.
    rewrite Hs, Hn. by destruct v6, Hv as [->| ->]. }
  rewrite !krun_bind, run_command by done. done.
Qed.
End facts.

Lemma command_effect_lookup enroll key k key' :
  map_of_manager (command_effect enroll key k) !! key' =
  if decide (key' = key) then (if enroll then Some 0 else None) else map_of_manager k !! key'.
Proof.
  destruct enroll; cbn; case_decide; subst; rewrite ?lookup_insert_eq, ?lookup_insert_ne, ?lookup_delete_eq, ?lookup_delete_ne by done; done.
Qed.

(** C15: A command sent in the network namespace of a pod that has an address is
    seen by the hooks whether the namespace has IPv4 or only IPv6 addresses:
    afterwards connections of the namespace are under control exactly when
    enrolment was asked for, and so are its IPv4 sockets at the address from
    which the command was sent; nothing but the entries of the namespace and of
    that address has changed.  An error is reported exactly when [connect] fails
    with another error than [EINPROGRESS]; the hooks have acted even then. *)
Theorem control_command_manages `{Helpers} monitoring reserved node_ip pod_gateway stale ns v6 enroll k :
  map_accepts -> sockets_work ns -> reachable_by ns v6 ->
  let r := HandleKmeshManage monitoring reserved node_ip pod_gateway stale (Some ns) enroll k in
  (forall ctx, netns_cookie ctx = ns_cookie ns -> (is_kmesh_enabled ctx r.2).1 = enroll) /\
  (forall skops local, syn_from ns = Some local -> v6 = false -> so_family skops = AF_INET -> local_ip4 skops = local.1 ->
    (is_managed_by_kmesh skops r.2).1 = enroll) /\
  (forall key, key <> ns_key ns -> Some key <> ns_address_key ns v6 ->
    map_of_manager r.2 !! key = map_of_manager k !! key) /\
  k_maps r.2 = k_maps k /\
  (r.1 = None <-> connect_errno ns = None \/ connect_errno ns = Some EINPROGRESS).
Proof.
  intros Hok Hs Hv. rewrite (HandleKmeshManage_run _ _ _ _ _ ns v6) by done. cbn [fst snd]. split_and!.
  - intros ctx Hc. unfold is_kmesh_enabled, kgets, cookie_key. rewrite Hc. fold (ns_key ns). cbn [fst].
    apply Bool.eq_iff_eq_true. rewrite bool_decide_eq_true.
    destruct (ns_address_key ns v6); rewrite !command_effect_lookup, ?(decide_True (P := ns_key ns = ns_key ns)) by done.
    + case_decide; destruct enroll; split; try done; by intros [? ?].
    + destruct enroll; split; try done; by intros [? ?].
  - intros skops local Hl -> Hf H4. unfold is_managed_by_kmesh. rewrite krun_bind. unfold kgets, ns_address_key. rewrite Hl, Hf, H4.
    cbn [fmap option_fmap option_map fst snd]. rewrite command_effect_lookup, decide_True; [by destruct enroll|done].
  - intros key H1 H2. destruct (ns_address_key ns v6); rewrite !command_effect_lookup, ?decide_False by congruence; done.
  - destruct (ns_address_key ns v6), enroll; done.
  - destruct (connect_errno ns) as [e|]; cbn; [|naive_solver]. case_decide; naive_solver.
Qed.

Definition demo_ns : NetNS := mkNetNS 77 (Some [IfIPNet [127; 0; 0; 1]; IfIPNet [10; 244; 0; 5]]) None None
  (Some (le_uint [10; 244; 0; 5], zero_ip)) (Some EINPROGRESS).
Definition demo_ctx : bpf_sock_addr := mkSockAddr AF_INET 1 zero_ip 80 AF_INET IPPROTO_TCP 77.
Definition demo_kernel0 : Kernel := mkKernel (mkCache ∅ ∅ ∅ ∅ ∅ ∅) ∅ None ∅ [] [] ∅ 0.
#[local] Existing Instance HelpersOk.

Lemma control_command_manages_witness :
  let r := HandleKmeshManage true (tuple_zero, replicate 18 0) zero_ip zero_ip tuple_zero (Some demo_ns) true demo_kernel0 in
  (is_kmesh_enabled demo_ctx demo_kernel0).1 = false /\ (is_kmesh_enabled demo_ctx r.2).1 = true /\ r.1 = None.
Proof.
  intros r.
  destruct (control_command_manages true (tuple_zero, replicate 18 0) zero_ip zero_ip tuple_zero demo_ns false true demo_kernel0)
    as (H1 & _ & _ & _ & H2); [done|done|right; vm_compute; reflexivity|].
  split_and!; [vm_compute; reflexivity|by apply H1|apply H2; by right].
Defined.

(** Without an address the command is not sent, and no error tells. *)
Lemma addressless_ignored `{Helpers} monitoring reserved node_ip pod_gateway stale ns enroll k :
  checkIPVersion (InterfaceAddrs ns) = (false, false) ->
  HandleKmeshManage monitoring reserved node_ip pod_gateway stale (Some ns) enroll k = (None, k).
Proof. intros Hc. unfold HandleKmeshManage, TriggerControlCommand. by rewrite Hc. Qed.
