(* ===== verification/Nic.v ===== *)
(** * Programs on the interfaces of a pod:
    [pkg/controller/manage/manage_controller.go] (XDP and TC), [pkg/utils/tc.go]

    The calls of the netlink and ethtool libraries are the fields of the class
    [Netlink], with what their documentation promises in [NetlinkLaws]; the state
    of the interfaces is a type that only these calls change. *)
From S2P Require Import Prelude.

Record Iface : Type := mkIface { if_name : string; FlagLoopback : bool; FlagUp : bool }.

Definition XDPGenericMode : Z := 2.
Definition XDPDriverMode : Z := 4.
Definition TC_ATTACH : Z := 0.
Definition TC_DETACH : Z := 1.

Class Netlink (Nics : Type) : Type := {
  (** namespaces by path: the interfaces, or the error of entering or of listing *)
  Interfaces : string -> list Iface + error;
  node_ns_err : option error;
  LinkByName : string -> string -> option error;
  LinkSetXdpFdWithFlags : string -> string -> Z -> Z -> Nics -> option error * Nics;
  NewEthtool : string -> option error;
  DriverName : string -> string -> string + error;
  Stats : string -> string -> gmap string Z + error;
  LinkByIndex : Z -> option error;
  QdiscReplace : Z -> Nics -> option error * Nics;
  FilterReplace : Z -> Z -> Nics -> option error * Nics;
  FilterDel : Z -> Nics -> option error * Nics;
  (** what is attached: XDP programs in generic and driver mode, TC filters *)
  xdp_generic : string -> string -> Nics -> option Z;
  xdp_driver : string -> string -> Nics -> option Z;
  tc_ingress : Z -> Nics -> option Z
}.
Definition xdp_runs `{Netlink Nics} (ns name : string) (fd : Z) (n : Nics) : Prop :=
  xdp_generic ns name n = Some fd \/ xdp_driver ns name n = Some fd.
Definition xdp_same `{Netlink Nics} (ns name : string) (n n' : Nics) : Prop :=
  xdp_generic ns name n' = xdp_generic ns name n /\ xdp_driver ns name n' = xdp_driver ns name n.

Class NetlinkLaws (Nics : Type) `{Netlink Nics} : Prop := {
  xdp_set_runs ns name fd n : 0 <= fd ->
    (LinkSetXdpFdWithFlags ns name fd 0 n).1 = None -> xdp_runs ns name fd (LinkSetXdpFdWithFlags ns name fd 0 n).2;
  xdp_set_local ns name fd flags n ns' name' : (ns', name') <> (ns, name) ->
    xdp_same ns' name' n (LinkSetXdpFdWithFlags ns name fd flags n).2;
  xdp_detach_generic ns name n : (LinkSetXdpFdWithFlags ns name (-1) XDPGenericMode n).1 = None ->
    xdp_generic ns name (LinkSetXdpFdWithFlags ns name (-1) XDPGenericMode n).2 = None;
  xdp_detach_driver ns name n : (LinkSetXdpFdWithFlags ns name (-1) XDPDriverMode n).1 = None ->
    let n' := (LinkSetXdpFdWithFlags ns name (-1) XDPDriverMode n).2 in
    xdp_driver ns name n' = None /\ xdp_generic ns name n' = xdp_generic ns name n;
  tc_replace i fd n : (FilterReplace i fd n).1 = None -> tc_ingress i (FilterReplace i fd n).2 = Some fd;
  tc_del i n : (FilterDel i n).1 = None -> tc_ingress i (FilterDel i n).2 = None
}.

Section nic.
Context {Nics : Type} `{Netlink Nics}.

(** ** XDP *)
(** Loopback interfaces and those that are not up are left out. *)
Definition skipped (iface : Iface) : bool := FlagLoopback iface || negb (FlagUp iface).

(** The body of the loop of [linkXdp]. *)
Definition attach (ns : string) (fd : Z) (iface : Iface) (n : Nics) : option error * Nics :=
  match LinkByName ns (if_name iface) with
  | Some err => (Some err, n)
  | None =>
      let '(err, n) := LinkSetXdpFdWithFlags ns (if_name iface) fd 0 n in
      match err with
      | None => (None, n)
      | Some err =>
          if decide (err = ErrSys EEXIST) then
            let n := foldl (fun n flags => (LinkSetXdpFdWithFlags ns (if_name iface) (-1) flags n).2) n
                       [0; XDPGenericMode; XDPDriverMode] in
            LinkSetXdpFdWithFlags ns (if_name iface) fd 0 n
          else (Some err, n)
      end
  end.
(** The body of the loop of [unlinkXdp]. *)
Definition detach (ns : string) (iface : Iface) (n : Nics) : option error * Nics :=
  match LinkByName ns (if_name iface) with
  | Some err => (Some err, n)
  | None =>
      let '(err, n) := LinkSetXdpFdWithFlags ns (if_name iface) (-1) XDPGenericMode n in
      match err with
      | Some _ => (Some (Errorf "detaching generic-mode XDP program using netlink"), n)
      | None =>
          let '(err, n) := LinkSetXdpFdWithFlags ns (if_name iface) (-1) XDPDriverMode n in
          match err with
          | Some _ => (Some (Errorf "detaching driver-mode XDP program using netlink"), n)
          | None => (None, n)
          end
      end
  end.

(** A loop over the interfaces that ends at the first error. *)
Fixpoint each_iface (f : Iface -> Nics -> option error * Nics) (ifaces : list Iface) (n : Nics) : option error * Nics :=
  match ifaces with
  | [] => (None, n)
  | iface :: rest =>
      if skipped iface then each_iface f rest n
      else match f iface n with
           | (Some err, n) => (Some err, n)
           | (None, n) => each_iface f rest n
           end
  end.

Definition linkXdp (netNsPath : string) (xdpProgFd : Z) (dual_engine : bool) (n : Nics) : option error * Nics :=
  if negb dual_engine then (None, n)
  else match Interfaces netNsPath with
       | inr err => (Some err, n)
       | inl ifaces => each_iface (attach netNsPath xdpProgFd) ifaces n
       end.
Definition unlinkXdp (netNsPath : string) (dual_engine : bool) (n : Nics) : option error * Nics :=
  if negb dual_engine then (None, n)
  else match Interfaces netNsPath with
       | inr err => (Some err, n)
       | inl ifaces => each_iface (detach netNsPath) ifaces n
       end.

(** ** TC *)
Definition GetVethPeerIndexFromName (ns ifaceName : string) : Z * option error :=
  match NewEthtool ns with
  | Some err => (0, Some err)
  | None =>
      match DriverName ns ifaceName with
      | inr _ => (0, Some (Errorf "failed to get driver name"))
      | inl driver =>
          if decide (driver <> "veth") then (0, Some (Errorf "not a veth"))
          else match Stats ns ifaceName with
               | inr _ => (0, Some (Errorf "failed to get stats"))
               | inl stats => (default 0 (stats !! "peer_ifindex"), None)
               end
      end
  end.
Definition GetVethPeerIndexFromInterface (ns : string) (iface : Iface) : Z * option error :=
  if FlagLoopback iface then (0, Some (Errorf "a local interface"))
  else if negb (FlagUp iface) then (0, Some (Errorf "not up"))
  else GetVethPeerIndexFromName ns (if_name iface).

Definition getVethPeerIndex (ns : string) : Z * option error :=
  match Interfaces ns with
  | inr err => (0, Some err)
  | inl ifaces =>
      let '(ifIndex, err) := foldl (fun _ iface => GetVethPeerIndexFromInterface ns iface) (0, None) ifaces in
      if decide (ifIndex = 0) then (ifIndex, Some (Errorf "failed to find a valid veth interface")) else (ifIndex, err)
  end.

Definition ManageTCProgramByFd (index tcFd mode : Z) (n : Nics) : option error * Nics :=
  let '(err, n) := if decide (mode = TC_ATTACH) then QdiscReplace index n else (None, n) in
  match err with
  | Some _ => (Some (Errorf "failed to replace qdisc"), n)
  | None =>
      if decide (mode = TC_ATTACH) then
        let '(err, n) := FilterReplace index tcFd n in
        (match err with Some _ => Some (Errorf "failed to replace filter") | None => None end, n)
      else if decide (mode = TC_DETACH) then
        let '(err, n) := FilterDel index n in
        (match err with Some _ => Some (Errorf "failed to delete filter") | None => None end, n)
      else (Some (Errorf "invalid mode in ManageTCProgramByFd"), n)
  end.
Definition managleVethTc (ifIndex tcProgFd mode : Z) (n : Nics) : option error * Nics :=
  match LinkByIndex ifIndex with
  | Some _ => (Some (Errorf "failed to link valid interface"), n)
  | None => ManageTCProgramByFd ifIndex tcProgFd mode n
  end.

(** [linkTc] and [unlinkTc] differ in the mode. *)
Definition manageTc (mode : Z) (netNsPath : string) (tcProgFd : Z) (n : Nics) : option error * Nics :=
  if decide (tcProgFd = -1) then (None, n)
  else match getVethPeerIndex netNsPath with
       | (_, Some _) => (Some (Errorf "Run get veth peer num failed"), n)
       | (ifIndex, None) =>
           match node_ns_err with
           | Some _ => (Some (Errorf "Run link tc failed"), n)
           | None =>
               let '(err, n) := managleVethTc ifIndex tcProgFd mode n in
               (match err with Some _ => Some (Errorf "Run link tc failed") | None => None end, n)
           end
       end.
Definition linkTc : string -> Z -> Nics -> option error * Nics := manageTc TC_ATTACH.
Definition unlinkTc : string -> Z -> Nics -> option error * Nics := manageTc TC_DETACH.
End nic.

(** ** What the loops leave attached *)
Section facts.
Context {Nics : Type} `{HL : NetlinkLaws Nics}.

Lemma xdp_same_refl ns name n : xdp_same ns name n n.
Proof. done. Qed.
Lemma xdp_same_trans ns name n1 n2 n3 : xdp_same ns name n1 n2 -> xdp_same ns name n2 n3 -> xdp_same ns name n1 n3.
Proof. intros [] []. split; congruence. Qed.
Lemma xdp_set_other ns name fd flags n ns' name' err n' : LinkSetXdpFdWithFlags ns name fd flags n = (err, n') ->
  (ns', name') <> (ns, name) -> xdp_same ns' name' n n'.
Proof. intros Hs Hne. pose proof (xdp_set_local ns name fd flags n ns' name' Hne) as H1. by rewrite Hs in H1. Qed.

(** A loop body that changes only its interface and leaves it in [P] when it
    reports no error. *)
Record body_ok (ns : string) (P : string -> Nics -> Prop) (f : Iface -> Nics -> option error * Nics) : Prop := {
  body_local i n ns' name' : (ns', name') <> (ns, if_name i) -> xdp_same ns' name' n (f i n).2;
  body_done i n : (f i n).1 = None -> P (if_name i) (f i n).2;
  body_stable name n n' : xdp_same ns name n n' -> P name n -> P name n'
}.

Lemma each_iface_other ns P f l n ns' name' : body_ok ns P f ->
  ns' <> ns \/ name' ∉ if_name <$> l -> xdp_same ns' name' n (each_iface f l n).2.
Proof.
  intros Hf. revert n. induction l as [|i l IH]; intros n Hne; [apply xdp_same_refl|]. cbn in *.
  assert (ns' <> ns \/ name' ∉ if_name <$> l) as Hl by set_solver.
  destruct (skipped i); [by apply IH|].
  assert ((ns', name') <> (ns, if_name i)) as Hi by set_solver.
  pose proof (body_local _ _ _ Hf i n _ _ Hi) as H1. destruct (f i n) as [[e|] n1]; [done|].
  eapply xdp_same_trans; [apply H1|by apply IH].
Qed.

Lemma each_iface_done ns P f l n : body_ok ns P f -> NoDup (if_name <$> l) ->
  (each_iface f l n).1 = None -> forall i, i ∈ l -> skipped i = false -> P (if_name i) (each_iface f l n).2.
Proof.
  intros Hf. revert n. induction l as [|j l IH]; intros n Hnd Hok i Hi Hs; [by apply not_elem_of_nil in Hi|].
  cbn in *. apply NoDup_cons in Hnd as [Hj Hnd]. apply elem_of_cons in Hi as [->|Hi].
  - rewrite Hs in *. pose proof (body_done _ _ _ Hf j n) as Hd. destruct (f j n) as [[e|] n1]; [done|].
    eapply (body_stable _ _ _ Hf); [|by apply Hd]. eapply each_iface_other; [done|by right].
  - destruct (skipped j); [by apply IH|]. destruct (f j n) as [[e|] n1]; [done|]. by apply IH.
Qed.

Lemma attach_ok ns fd : 0 <= fd -> body_ok ns (fun name n => xdp_runs ns name fd n) (attach ns fd).
Proof.
  intros Hfd. split.
  - intros i n ns' name' Hne. unfold attach. destruct (LinkByName _ _); [apply xdp_same_refl|].
    destruct (LinkSetXdpFdWithFlags _ _ fd 0 n) as [[e|] n1] eqn:E1; [|by eapply xdp_set_other].
    case_decide; [|by eapply xdp_set_other]. cbn.
    repeat (eapply xdp_same_trans; [|by apply xdp_set_local]). by eapply xdp_set_other.
  - intros i n. unfold attach. destruct (LinkByName _ _); [done|].
    destruct (LinkSetXdpFdWithFlags _ _ fd 0 n) as [[e|] n1] eqn:E1.
    + case_decide; [|done]. by apply xdp_set_runs.
    + intros _. pose proof (xdp_set_runs ns (if_name i) fd n Hfd) as Hr. rewrite E1 in Hr. by apply Hr.
  - intros name n n' [Hg Hd]. unfold xdp_runs. by rewrite Hg, Hd.
Qed.

Definition no_xdp (ns name : string) (n : Nics) : Prop := xdp_generic ns name n = None /\ xdp_driver ns name n = None.
Lemma detach_ok ns : body_ok ns (no_xdp ns) (detach ns).
Proof.
  split.
  - intros i n ns' name' Hne. unfold detach. destruct (LinkByName _ _); [apply xdp_same_refl|].
    destruct (LinkSetXdpFdWithFlags _ _ _ XDPGenericMode n) as [[e|] n1] eqn:E1; [by eapply xdp_set_other|].
    destruct (LinkSetXdpFdWithFlags _ _ _ XDPDriverMode n1) as [[e|] n2] eqn:E2;
      (eapply xdp_same_trans; eapply xdp_set_other; done).
  - intros i n. unfold detach. destruct (LinkByName _ _); [done|].
    pose proof (xdp_detach_generic ns (if_name i) n) as Hg.
    destruct (LinkSetXdpFdWithFlags _ _ _ XDPGenericMode n) as [[e|] n1]; [done|].
    pose proof (xdp_detach_driver ns (if_name i) n1) as Hd.
    destruct (LinkSetXdpFdWithFlags _ _ _ XDPDriverMode n1) as [[e|] n2]; [done|]. intros _.
    destruct Hd as [Hd1 Hd2]; [done|]. split; [|done]. etransitivity; [apply Hd2|by apply Hg].
  - intros name n n' [Hg Hd] [H1 H2]. split; congruence.
Qed.
End facts.

(** C31: When [linkXdp] reports no error the program runs on every interface of
    the pod that is up and no loopback, also where another program was attached
    before; when [unlinkXdp] reports none no program is left there.  Interfaces
    of other namespaces are never touched. *)
Theorem linkXdp_unlinkXdp {Nics} `{NetlinkLaws Nics} ns fd ifaces n :
  0 <= fd -> Interfaces ns = inl ifaces -> NoDup (if_name <$> ifaces) ->
  (forall i, i ∈ ifaces -> skipped i = false ->
    ((linkXdp ns fd true n).1 = None -> xdp_runs ns (if_name i) fd (linkXdp ns fd true n).2) /\
    ((unlinkXdp ns true n).1 = None -> no_xdp ns (if_name i) (unlinkXdp ns true n).2)) /\
  (forall ns' name, ns' <> ns -> xdp_same ns' name n (linkXdp ns fd true n).2 /\ xdp_same ns' name n (unlinkXdp ns true n).2).
Proof.
  intros Hfd Hi Hnd. unfold linkXdp, unlinkXdp. rewrite Hi. cbn [negb].
  pose proof (attach_ok ns fd Hfd) as Ha. pose proof (detach_ok ns) as Hd. split.
  - intros i Hin Hs. split; intros Hok.
    + by apply (each_iface_done ns (fun name n => xdp_runs ns name fd n) (attach ns fd)).
    + by apply (each_iface_done ns (no_xdp ns) (detach ns)).
  - intros ns' name Hne. split; eapply each_iface_other; eauto.
Qed.

(** Only the last interface counts in the search for the veth: a veth that
    is followed by an interface of another kind is not found, and the TC
    program is not attached. *)
Theorem veth_before_other_not_found {Nics} `{Netlink Nics} ns l i mode fd n :
  Interfaces ns = inl (l ++ [i]) -> (GetVethPeerIndexFromInterface ns i).1 = 0 -> fd <> -1 ->
  manageTc mode ns fd n = (Some (Errorf "Run get veth peer num failed"), n).
Proof.
  intros Hi Hl Hfd. unfold manageTc, getVethPeerIndex. rewrite decide_False by done. rewrite Hi, foldl_app. cbn.
  destruct (GetVethPeerIndexFromInterface ns i) as [idx err]. cbn in Hl. subst idx. done.
Qed.

(** A node with one pod for concrete runs: programs run in driver mode, and the
    kernel refuses a second program on an interface. *)
Record DemoNics : Type := mkDemoNics { d_xdp : gmap (string * string) Z; d_tc : gmap Z Z }.
Definition demo_set (ns name : string) (fd flags : Z) (n : DemoNics) : option error * DemoNics :=
  if decide (fd = -1) then
    (None, if decide (flags = XDPGenericMode) then n else mkDemoNics (delete (ns, name) (d_xdp n)) (d_tc n))
  else match d_xdp n !! (ns, name) with
       | Some _ => (Some (ErrSys EEXIST), n)
       | None => (None, mkDemoNics (<[(ns, name) := fd]> (d_xdp n)) (d_tc n))
       end.
Definition demo_netlink (ifaces : list Iface) : Netlink DemoNics := {|
  Interfaces := fun _ => inl ifaces;
  node_ns_err := None;
  LinkByName := fun _ _ => None;
  LinkSetXdpFdWithFlags := demo_set;
  NewEthtool := fun _ => None;
  DriverName := fun _ name => inl (if decide (name = "eth0") then "veth" else "dummy");
  Stats := fun _ _ => inl {[ "peer_ifindex" := 9 ]};
  LinkByIndex := fun _ => None;
  QdiscReplace := fun _ n => (None, n);
  FilterReplace := fun i fd n => (None, mkDemoNics (d_xdp n) (<[i := fd]> (d_tc n)));
  FilterDel := fun i n => (None, mkDemoNics (d_xdp n) (delete i (d_tc n)));
  xdp_generic := fun _ _ _ => None;
  xdp_driver := fun ns name n => d_xdp n !! (ns, name);
  tc_ingress := fun i n => d_tc n !! i
|}.
Lemma demo_netlink_laws ifaces : @NetlinkLaws DemoNics (demo_netlink ifaces).
Proof.
  split; cbn; unfold demo_set, xdp_runs, xdp_same; cbn.
  - intros ns name fd n Hfd. rewrite decide_False by lia. destruct (d_xdp n !! (ns, name)); [done|]. cbn. intros _. right. by rewrite lookup_insert_eq.
  - intros ns name fd flags n ns' name' Hne. split; [done|].
    repeat case_decide; cbn; [done|by rewrite lookup_delete_ne|].
    destruct (d_xdp n !! (ns, name)); [done|]. cbn. by rewrite lookup_insert_ne.
  - done.
  - intros ns name n _. rewrite (decide_False (P := XDPDriverMode = XDPGenericMode)) by done. cbn. split; [apply lookup_delete_eq|done].
  - intros i fd n _. by rewrite lookup_insert_eq.
  - intros i n _. by rewrite lookup_delete_eq.
Qed.

Definition demo_ifaces : list Iface := [mkIface "lo" true true; mkIface "eth0" false true; mkIface "tunl0" false true].
Definition demo_nics : DemoNics := mkDemoNics {[ ("pod", "eth0") := 3 ]} ∅.

Lemma linkXdp_unlinkXdp_witness :
  (@linkXdp DemoNics (demo_netlink demo_ifaces) "pod" 7 true demo_nics).1 = None /\
  @xdp_runs DemoNics (demo_netlink demo_ifaces) "pod" "eth0" 7
    (@linkXdp DemoNics (demo_netlink demo_ifaces) "pod" 7 true demo_nics).2.
Proof.
  pose proof (demo_netlink_laws demo_ifaces) as HL.
  assert ((@linkXdp DemoNics (demo_netlink demo_ifaces) "pod" 7 true demo_nics).1 = None) as Hok by (vm_compute; reflexivity).
  split; [exact Hok|].
  destruct (@linkXdp_unlinkXdp DemoNics (demo_netlink demo_ifaces) HL "pod" 7 demo_ifaces demo_nics) as [H1 _];
    [lia|reflexivity|refine (bool_decide_unpack _ _); vm_compute; exact I|].
  apply (H1 (mkIface "eth0" false true)); [right; left|reflexivity|exact Hok].
Defined.

Lemma veth_before_other_not_found_witness :
  (* the veth is there, with its peer *)
  @GetVethPeerIndexFromInterface DemoNics (demo_netlink demo_ifaces) "pod" (mkIface "eth0" false true) = (9, None) /\
  @linkTc DemoNics (demo_netlink demo_ifaces) "pod" 5 demo_nics = (Some (Errorf "Run get veth peer num failed"), demo_nics).
Proof.
  split; [vm_compute; reflexivity|].
  apply (@veth_before_other_not_found DemoNics (demo_netlink demo_ifaces) "pod" [mkIface "lo" true true; mkIface "eth0" false true]
    (mkIface "tunl0" false true)); [reflexivity|vm_compute; reflexivity|lia].
Defined.
