(* ===== verification/Enroll.v ===== *)
(** * Which pods Kmesh manages: [pkg/utils/enroll.go], [pkg/utils/istio/sidecar.go],
    [pkg/controller/netns/netns.go], [pkg/controller/manage/manage_controller.go]

    The informers' view of the API server (pods and namespaces), which may lag
    behind it, is an argument of the handlers.  Enrolling a pod asks the secret manager ([Security]) for a
    certificate, switches control on in its network namespace ([Control]),
    attaches programs to its interfaces ([Nic]) and queues the annotation of
    the pod. *)
From S2P Require Import Prelude GoNet Nets BpfCache BpfCommon Balancer SockOps Delivery Security Control Nic.

(** ** Pods and namespaces *)
Record Pod : Type := mkPod {
  pod_namespace : string;
  pod_name : string;
  pod_uid : string;
  pod_labels : gmap string string;
  pod_annotations : gmap string string;
  HostNetwork : bool;
  ServiceAccountName : string;
  Conditions : list (string * string);            (* type and status *)
  deleting : bool                                 (* DeletionTimestamp != nil *)
}.
#[export] Instance Pod_eq_dec : EqDecision Pod.
Proof. solve_decision. Defined.
Record Namespace : Type := mkNamespace { ns_name : string; ns_labels : gmap string string }.
Definition pod_key (pod : Pod) : string * string := (pod_namespace pod, pod_name pod).

Definition DataPlaneModeLabel : string := "istio.io/dataplane-mode".
Definition DataPlaneModeKmesh : string := "kmesh".
Definition KmeshRedirectionAnnotation : string := "kmesh.net/redirection".
Definition TrustDomain : string := "cluster.local".
Definition DualEngineMode : string := "dual-engine".
Definition MaxRetries : nat := 5.

(** [strings.EqualFold] with an ASCII text: letters are compared without case;
    besides the ASCII letters only the Kelvin sign (a form of k) and the long s
    fold to an ASCII letter. *)
Fixpoint fold_case (b : bytes) : bytes :=
  match b with
  | 0xe2 :: 0x84 :: 0xaa :: b => 107 :: fold_case b
  | 0xc5 :: 0xbf :: b => 115 :: fold_case b
  | c :: b => (if decide (65 <= c <= 90) then c + 32 else c) :: fold_case b
  | [] => []
  end.
Definition EqualFold (s t : string) : bool :=
  bool_decide (fold_case (bytes_of_string s) = fold_case (bytes_of_string t)).

(** The value of a key of a Go map of strings. *)
Definition get (m : gmap string string) (key : string) : string := default "" (m !! key).

Section enroll.
Variable SidecarStatus_Name : string.             (* annotation.SidecarStatus.Name *)

Definition PodHasSidecar (pod : Pod) : bool := bool_decide (is_Some (pod_annotations pod !! SidecarStatus_Name)).

Definition ns_kmesh (ns : option Namespace) : bool :=
  let nsMode := match ns with Some ns => get (ns_labels ns) DataPlaneModeLabel | None => "" end in
  EqualFold nsMode DataPlaneModeKmesh.
Definition managed_gateway (pod : Pod) : bool :=
  match pod_labels pod !! "gateway.istio.io/managed" with
  | Some gateway => EqualFold gateway "istio.io-mesh-controller"
  | None => false
  end.

Definition ShouldEnroll (pod : option Pod) (ns : option Namespace) : bool :=
  match pod with
  | None => ns_kmesh ns
  | Some pod =>
      let podMode := get (pod_labels pod) DataPlaneModeLabel in
      if PodHasSidecar pod then false
      else if HostNetwork pod then false
      else if managed_gateway pod then false
      else if EqualFold podMode DataPlaneModeKmesh then true
      else if decide (podMode = "none") then false
      else ns_kmesh ns
  end.

Definition AnnotationEnabled (annotation : string) : bool := bool_decide (annotation = "enabled").
Definition annotated (pod : Pod) : bool := AnnotationEnabled (get (pod_annotations pod) KmeshRedirectionAnnotation).

Definition isPodReady (pod : Pod) : bool :=
  existsb (fun '(type, status) => bool_decide (type = "Ready") && bool_decide (status = "True")) (Conditions pod).

(** ** The network namespace of a pod *)
Record ProcEntry : Type := mkProcEntry {
  entry_name : string;
  IsDir : bool;
  inode : Z + error;                              (* of <entry>/ns/net *)
  cgroup : option bytes                           (* the file <entry>/cgroup, None when it cannot be read *)
}.
Section netns.
Variable GetPodUIDAndContainerID : bytes -> string + error.

Definition isNotNumber (r : Z) : bool := (r <? 48) || (57 <? r).
Definition isProcess (entry : ProcEntry) : bool :=
  IsDir entry && negb (existsb isNotNumber (bytes_of_string (entry_name entry))).
(** [netnsObserved] is created empty and never added to. *)
Definition processEntry (netnsObserved : gset Z) (filter : string) (entry : ProcEntry) : string + error :=
  if negb (isProcess entry) then inl ""
  else
    let netnsName := entry_name entry +:+ "/ns/net" in
    match inode entry with
    | inr err => inr err
    | inl inode =>
        if decide (inode ∈ netnsObserved) then inl ""
        else match cgroup entry with
             | None => inl ""
             | Some data =>
                 match GetPodUIDAndContainerID data with
                 | inr err => inr err
                 | inl uid => if decide (filter <> uid) then inl "" else inl netnsName
                 end
             end
    end.
Fixpoint find_entry (netnsObserved : gset Z) (desiredUID : string) (entries : list ProcEntry) : string + error :=
  match entries with
  | [] => inr (Errorf "no matching network namespace found")
  | entry :: rest =>
      match processEntry netnsObserved desiredUID entry with
      | inr _ => find_entry netnsObserved desiredUID rest
      | inl res => if decide (res <> "") then inl res else find_entry netnsObserved desiredUID rest
      end
  end.
Definition FindNetnsForPod (entries : list ProcEntry + error) (pod : Pod) : string + error :=
  match entries with
  | inr err => inr err
  | inl entries => find_entry ∅ (pod_uid pod) entries
  end.
Definition GetPodNSpath (entries : list ProcEntry + error) (pod : Pod) : string * option error :=
  match FindNetnsForPod entries pod with
  | inr err => ("", Some err)
  | inl res => ("/host/proc/" +:+ res, None)
  end.
End netns.
End enroll.
Definition GetNodeNSpath : string := "/host/proc/1/ns/net".

(** ** The manage controller *)
Inductive action : Type := ActionAddAnnotation | ActionDeleteAnnotation.
#[export] Instance action_eq_dec : EqDecision action.
Proof. solve_decision. Defined.
#[export] Instance action_countable : Countable action.
Proof.
  refine (inj_countable' (fun a => match a with ActionAddAnnotation => true | _ => false end)
    (fun b : bool => if b then ActionAddAnnotation else ActionDeleteAnnotation) _). by intros [].
Defined.
Definition QueueItem : Type := (string * string * action)%type.      (* namespace, name, action *)

(** What does not change while the controller runs: its configuration and the
    node it runs on. *)
Record Node : Type := mkNode {
  SidecarStatus_Name : string;
  proc : list ProcEntry + error;
  pod_uid_of : bytes -> string + error;           (* GetPodUIDAndContainerID *)
  netns : string -> option NetNS;                 (* the namespace behind a path *)
  xdpProgFd : Z;
  tcProgFd : Z;
  m_mode : string;
  bpf_monitoring : bool; bpf_reserved : bytes * bytes; bpf_node_ip : bytes; bpf_gateway : bytes; bpf_stale : bytes
}.

Record KmeshManageController (Nics : Type) : Type := mkManage {
  sm : option SecretManager;
  m_queue : list QueueItem;
  requeues : gmap QueueItem nat;                  (* of the rate limiter *)
  kern : Kernel;
  nics : Nics
}.
Arguments mkManage {Nics}. Arguments sm {Nics}. Arguments m_queue {Nics}. Arguments requeues {Nics}.
Arguments kern {Nics}. Arguments nics {Nics}.

Section controller.
Context `{Helpers} {Nics : Type} `{Netlink Nics}.
Variable node : Node.
#[local] Abbreviation C := (KmeshManageController Nics).
#[local] Abbreviation should_enroll := (ShouldEnroll (SidecarStatus_Name node)).

Definition set_sm f (c : C) : C := mkManage (f (sm c)) (m_queue c) (requeues c) (kern c) (nics c).
Definition set_nics n (c : C) : C := mkManage (sm c) (m_queue c) (requeues c) (kern c) n.

(** An item that already waits is not added again. *)
Definition AddRateLimited (item : QueueItem) (c : C) : C :=
  mkManage (sm c) (if decide (item ∈ m_queue c) then m_queue c else m_queue c ++ [item])
    (<[item := S (default 0%nat (requeues c !! item))]> (requeues c)) (kern c) (nics c).
Definition Forget (item : QueueItem) (c : C) : C :=
  mkManage (sm c) (m_queue c) (delete item (requeues c)) (kern c) (nics c).

Definition spiffe_identity (pod : Pod) : string :=
  "spiffe://" +:+ TrustDomain +:+ "/ns/" +:+ pod_namespace pod +:+ "/sa/" +:+ ServiceAccountName pod.
Definition sendCertRequest (pod : Pod) (op : operation) : C -> C :=
  set_sm (fmap (SendCertRequest (spiffe_identity pod) op)).

Definition nspath_of (pod : Pod) : string := (GetPodNSpath (pod_uid_of node) (proc node) pod).1.
Definition control (nspath : string) (enroll : bool) (c : C) : option error * C :=
  let '(err, k) := HandleKmeshManage (bpf_monitoring node) (bpf_reserved node) (bpf_node_ip node) (bpf_gateway node)
                     (bpf_stale node) (netns node nspath) enroll (kern c) in
  (err, mkManage (sm c) (m_queue c) (requeues c) k (nics c)).
Definition dual_engine : bool := bool_decide (m_mode node = DualEngineMode).

Definition enableKmeshManage (pod : Pod) (c : C) : C :=
  let c := sendCertRequest pod ADD c in
  if negb (isPodReady pod) then c
  else
    let nspath := nspath_of pod in
    let '(err, c) := control nspath true c in
    match err with
    | Some _ => c
    | None =>
        let c := AddRateLimited (pod_key pod, ActionAddAnnotation) c in
        let c := set_nics (linkXdp nspath (xdpProgFd node) dual_engine (nics c)).2 c in
        set_nics (linkTc nspath (tcProgFd node) (nics c)).2 c
    end.

Definition disableKmeshManage (pod : Pod) (c : C) : C :=
  let c := sendCertRequest pod DELETE c in
  let nspath := nspath_of pod in
  let '(err, c) := control nspath false c in
  match err with
  | Some _ => c
  | None =>
      let c := AddRateLimited (pod_key pod, ActionDeleteAnnotation) c in
      let c := set_nics (unlinkXdp nspath dual_engine (nics c)).2 c in
      set_nics (unlinkTc nspath (tcProgFd node) (nics c)).2 c
  end.

Definition handlePodAdd (namespaces : gmap string Namespace) (newPod : Pod) (c : C) : C :=
  match namespaces !! pod_namespace newPod with
  | None => c
  | Some namespace =>
      if negb (should_enroll (Some newPod) (Some namespace)) then
        if annotated newPod then disableKmeshManage newPod c else c
      else enableKmeshManage newPod c
  end.

Definition handlePodUpdate (namespaces : gmap string Namespace) (oldPod pod : Pod) (c : C) : C :=
  if deleting pod then c
  else if decide (get (pod_annotations oldPod) KmeshRedirectionAnnotation <>
                  get (pod_annotations pod) KmeshRedirectionAnnotation) then c
  else handlePodAdd namespaces pod c.

Definition handlePodDelete (pod : Pod) (c : C) : C :=
  if annotated pod then sendCertRequest pod DELETE c else c.

(** [pods] are the pods of the namespace in the lister. *)
Definition enableKmeshForPodsInNamespace (pods : list Pod) (namespace : Namespace) (c : C) : C :=
  foldl (fun c pod => if should_enroll (Some pod) (Some namespace) then enableKmeshManage pod c else c) c pods.
Definition disableKmeshForPodsInNamespace (pods : list Pod) (namespace : Namespace) (c : C) : C :=
  foldl (fun c pod => if negb (should_enroll (Some pod) (Some namespace)) && annotated pod
                      then disableKmeshManage pod c else c) c pods.

Definition handleNamespaceAdd (pods : list Pod) (ns : Namespace) (c : C) : C :=
  if should_enroll None (Some ns) then enableKmeshForPodsInNamespace pods ns c
  else disableKmeshForPodsInNamespace pods ns c.
Definition handleNamespaceUpdate (pods : list Pod) (oldNS newNS : Namespace) (c : C) : C :=
  if negb (should_enroll None (Some oldNS)) && should_enroll None (Some newNS) then
    enableKmeshForPodsInNamespace pods newNS c
  else if should_enroll None (Some oldNS) && negb (should_enroll None (Some newNS)) then
    disableKmeshForPodsInNamespace pods newNS c
  else c.

(** *** The annotation queue.  The API server holds the pods; a merge patch sets
    an annotation, or removes it with [null], and fails when there is no such
    pod.  What is patched is decided by the pod that the lister has. *)
Abbreviation Pods := (gmap (string * string) Pod) (only parsing).
Variable patch_err : string * string -> option error.

Definition set_annotation (value : option string) (pod : Pod) : Pod :=
  mkPod (pod_namespace pod) (pod_name pod) (pod_uid pod) (pod_labels pod)
    (match value with
     | Some v => <[KmeshRedirectionAnnotation := v]> (pod_annotations pod)
     | None => delete KmeshRedirectionAnnotation (pod_annotations pod)
     end) (HostNetwork pod) (ServiceAccountName pod) (Conditions pod) (deleting pod).
Definition Patch (key : string * string) (value : option string) (pods : Pods) : option error * Pods :=
  match patch_err key with
  | Some err => (Some err, pods)
  | None =>
      match pods !! key with
      | Some pod => (None, <[key := set_annotation value pod]> pods)
      | None => (Some (Errorf "not found"), pods)
      end
  end.
Definition PatchKmeshRedirectAnnotation (pod : Pod) (pods : Pods) : option error * Pods :=
  if annotated pod then (None, pods) else Patch (pod_key pod) (Some "enabled") pods.
Definition DelKmeshRedirectAnnotation (pod : Pod) (pods : Pods) : option error * Pods :=
  match pod_annotations pod !! KmeshRedirectionAnnotation with
  | None => (None, pods)
  | Some _ => Patch (pod_key pod) None pods
  end.

Definition syncPod (namespaces : gmap string Namespace) (lister : Pods) (key : QueueItem) (pods : Pods)
    : option error * Pods :=
  let '(k, a) := key in
  match lister !! k with
  | None => (None, pods)
  | Some pod =>
      match namespaces !! pod_namespace pod with
      | None => (None, pods)
      | Some namespace =>
          match a, should_enroll (Some pod) (Some namespace) with
          | ActionAddAnnotation, true => PatchKmeshRedirectAnnotation pod pods
          | ActionDeleteAnnotation, false => DelKmeshRedirectAnnotation pod pods
          | _, _ => (None, pods)
          end
      end
  end.

(** One turn of the worker with the item number [i], whose delay is over. *)
Definition processItems (namespaces : gmap string Namespace) (lister : Pods) (i : nat) (st : C * Pods) : C * Pods :=
  let '(c, pods) := st in
  match m_queue c !! i with
  | None => (c, pods)
  | Some key =>
      let c := mkManage (sm c) (delete i (m_queue c)) (requeues c) (kern c) (nics c) in
      let '(err, pods) := syncPod namespaces lister key pods in
      (match err with
       | Some _ =>
           if decide (default 0%nat (requeues c !! key) < MaxRetries)%nat then AddRateLimited key c else Forget key c
       | None => Forget key c
       end, pods)
  end.
End controller.
