(* ===== verification/EnrollFacts.v ===== *)
(** * Enrolment follows the labels

    Facts about [Enroll]: who is enrolled, that a change of a namespace's label
    ends with exactly the enrolled pods under control and annotated, and what
    the certificate requests of the controller add up to in [Security]. *)
From S2P Require Import Prelude GoNet Nets BpfCache BpfCommon Balancer SockOps Delivery Security Control Nic Enroll.

(** A pod is enrolled exactly when it has no sidecar, is not on the host
    network and no gateway managed by Istio, and either asks for Kmesh itself
    or lives in a namespace that does and does not opt out with [none]. *)
Theorem ShouldEnroll_spec sidecar pod ns :
  let asks labels := EqualFold (get labels DataPlaneModeLabel) DataPlaneModeKmesh = true in
  ShouldEnroll sidecar (Some pod) (Some ns) = true <->
  pod_annotations pod !! sidecar = None /\ HostNetwork pod = false /\
  (forall g, pod_labels pod !! "gateway.istio.io/managed" = Some g -> EqualFold g "istio.io-mesh-controller" = false) /\
  (asks (pod_labels pod) \/ get (pod_labels pod) DataPlaneModeLabel <> "none" /\ asks (ns_labels ns)).
Proof.
  intros asks. unfold ShouldEnroll, PodHasSidecar, managed_gateway, ns_kmesh, asks.
  case_bool_decide as Hs; [split; [done|]; intros (Hn & _); rewrite Hn in Hs; by destruct Hs|].
  apply eq_None_not_Some in Hs. destruct (HostNetwork pod); [naive_solver|].
  destruct (pod_labels pod !! "gateway.istio.io/managed") as [g|]; [destruct (EqualFold g _) eqn:Eg|];
    try (split; [done|]; intros (_ & _ & Hg & _); specialize (Hg g eq_refl); congruence);
    (destruct (EqualFold (get (pod_labels pod) _) _) eqn:Ep; [naive_solver|]; case_decide; naive_solver).
Qed.

#[local] Arguments ShouldEnroll : simpl never.
Section facts.
Context `{HH : Helpers} {Nics : Type} `{HN : Netlink Nics}.
Variable node : Node.
#[local] Abbreviation C := (KmeshManageController Nics).
#[local] Abbreviation enrolled pod ns := (ShouldEnroll (SidecarStatus_Name node) (Some pod) (Some ns)).

(** Control is on in the network namespace of the pod. *)
Definition managed (pod : Pod) (c : C) : Prop :=
  exists n, netns node (nspath_of node pod) = Some n /\ is_Some (map_of_manager (kern c) !! ns_key n).

(** The command reaches the hooks from the namespace of the pod. *)
Definition controllable (pod : Pod) : Prop :=
  exists n v6, netns node (nspath_of node pod) = Some n /\ sockets_work n /\ reachable_by n v6 /\
    (connect_errno n = None \/ connect_errno n = Some EINPROGRESS).

(** The entries of one pod are not those of the other. *)
Definition apart (p q : Pod) : Prop := forall n m, netns node (nspath_of node p) = Some n -> netns node (nspath_of node q) = Some m ->
  ns_key n <> ns_key m /\ forall v6, Some (ns_key n) <> ns_address_key m v6.

Definition enqueue (item : QueueItem) (q : list QueueItem) : list QueueItem := if decide (item ∈ q) then q else q ++ [item].
Lemma elem_enqueue item q x : x ∈ enqueue item q <-> x = item \/ x ∈ q.
Proof. unfold enqueue. case_decide; rewrite ?elem_of_app, ?list_elem_of_singleton; naive_solver. Qed.
Definition act (on : bool) : action := if on then ActionAddAnnotation else ActionDeleteAnnotation.

Lemma control_spec pod on (c : C) : map_accepts -> controllable pod ->
  let r := control node (nspath_of node pod) on c in
  r.1 = None /\ (managed pod r.2 <-> on = true) /\
  (forall q, apart q pod -> managed q r.2 <-> managed q c) /\ m_queue r.2 = m_queue c /\ sm r.2 = sm c.
Proof.
  intros Hok (n & v6 & Hn & Hs & Hr & He). unfold control. rewrite Hn.
  rewrite (HandleKmeshManage_run _ _ _ _ _ n v6) by done. cbn -[command_effect].
  assert (forall key, map_of_manager (match ns_address_key n v6 with
    | Some key => command_effect on key (command_effect on (ns_key n) (set_storage None (kern c)))
    | None => command_effect on (ns_key n) (set_storage None (kern c)) end) !! key =
    if decide (key = ns_key n \/ Some key = ns_address_key n v6) then (if on then Some 0 else None)
    else map_of_manager (kern c) !! key) as Hm.
  { intros key. destruct (ns_address_key n v6) as [a|]; rewrite !command_effect_lookup; repeat case_decide; naive_solver. }
  split_and!; try done.
  - destruct (connect_errno n); cbn; [|done]. destruct He as [|[= ->]]; [done|]. by rewrite decide_True.
  - unfold managed. setoid_rewrite Hn. cbn [kern]. setoid_rewrite Hm. split.
    + intros (m & [= <-] & Hi). rewrite decide_True in Hi by (by left). destruct on; [done|by destruct Hi].
    + intros ->. exists n. split; [done|]. rewrite decide_True by (by left). done.
  - intros q Hq. unfold managed. cbn [kern]. split; intros (m & Hm' & Hi); exists m; (split; [done|]).
    + rewrite Hm, decide_False in Hi; [done|]. destruct (Hq m n Hm' Hn) as [H1 H2]. intros [?|?]; [done|by apply (H2 v6)].
    + rewrite Hm, decide_False; [done|]. destruct (Hq m n Hm' Hn) as [H1 H2]. intros [?|?]; [done|by apply (H2 v6)].
Qed.

Definition switch (on : bool) (pod : Pod) : C -> C := if on then enableKmeshManage node pod else disableKmeshManage node pod.

(** What [managed] and the queue depend on. *)
Lemma managed_kern pod (c c' : C) : kern c = kern c' -> managed pod c <-> managed pod c'.
Proof. unfold managed. by intros ->. Qed.

Lemma switch_spec on pod (c : C) : map_accepts -> controllable pod -> (on = true -> isPodReady pod = true) ->
  (managed pod (switch on pod c) <-> on = true) /\
  (forall q, apart q pod -> managed q (switch on pod c) <-> managed q c) /\
  m_queue (switch on pod c) = enqueue (pod_key pod, act on) (m_queue c).
Proof.
  intros Hok Hc Hr. unfold switch. destruct on.
  - unfold enableKmeshManage. rewrite Hr by done. cbn [negb].
    destruct (control_spec pod true (sendCertRequest pod ADD c) Hok Hc) as (H1 & H2 & H3 & H4 & _).
    destruct (control _ _ _ _) as [err c1]. cbn in H1 |- *. subst err. cbn in *. split_and!; [done|done|by rewrite H4].
  - unfold disableKmeshManage.
    destruct (control_spec pod false (sendCertRequest pod DELETE c) Hok Hc) as (H1 & H2 & H3 & H4 & _).
    destruct (control _ _ _ _) as [err c1]. cbn in H1 |- *. subst err. cbn in *. split_and!; [done|done|by rewrite H4].
Qed.

Lemma switch_loop_other on b pods p (c : C) : map_accepts ->
  (forall x, x ∈ pods -> b x = true -> apart p x /\ controllable x /\ (on = true -> isPodReady x = true)) ->
  managed p (foldl (fun c p => if b p : bool then switch on p c else c) c pods) <-> managed p c.
Proof.
  intros Hok. revert c. induction pods as [|x l IH]; intros c Hl; [done|]. cbn. rewrite IH by set_solver.
  destruct (b x) eqn:Ex; [|done]. destruct (Hl x) as (? & ? & ?); [by left|done|]. by apply switch_spec.
Qed.

(** A loop over pods that switches those that [b] selects. *)
Lemma switch_loop on b pods (c : C) : map_accepts -> NoDup pods ->
  (forall p q, p ∈ pods -> q ∈ pods -> p <> q -> apart p q) ->
  (forall p, p ∈ pods -> b p = true -> controllable p /\ (on = true -> isPodReady p = true)) ->
  let c' := foldl (fun c p => if b p : bool then switch on p c else c) c pods in
  (forall p, p ∈ pods -> managed p c' <-> if b p then on = true else managed p c) /\
  (forall item, item ∈ m_queue c' <-> item ∈ m_queue c \/ exists p, p ∈ pods /\ b p = true /\ item = (pod_key p, act on)).
Proof.
  intros Hok. induction pods as [|p pods IH] using rev_ind; intros Hnd Hap Hco.
  { split; [intros p Hp; by apply not_elem_of_nil in Hp|]. intros item. cbn. split; [by left|].
    intros [?|(p & Hp & _)]; [done|by apply not_elem_of_nil in Hp]. }
  apply NoDup_app in Hnd as (Hnd & Hp & _).
  destruct IH as [IH1 IH2]; [done| | |]; try (intros; apply Hap || apply Hco; set_solver).
  rewrite foldl_app. cbn [foldl]. set (c1 := foldl _ c pods) in *. split.
  - intros q Hq. destruct (decide (q = p)) as [->|Hne].
    + destruct (b p) eqn:Eb; [apply switch_spec; [done| |]; apply Hco; set_solver|].
      apply switch_loop_other; [done|]. intros x Hx Ex. split; [|apply Hco; set_solver].
      apply Hap; [set_solver|set_solver|]. intros ->. by apply (Hp x Hx), list_elem_of_singleton.
    + assert (q ∈ pods) as Hq' by set_solver. rewrite <-(IH1 q Hq').
      destruct (b p) eqn:Eb; [|done]. apply switch_spec; [done|apply Hco; set_solver|apply Hco; set_solver|].
      apply Hap; set_solver.
  - intros item. destruct (b p) eqn:Eb.
    + destruct (switch_spec on p c1) as (_ & _ & ->); [done|apply Hco; set_solver|apply Hco; set_solver|].
      rewrite elem_enqueue, IH2. setoid_rewrite elem_of_app. setoid_rewrite list_elem_of_singleton. naive_solver.
    + rewrite IH2. setoid_rewrite elem_of_app. setoid_rewrite list_elem_of_singleton.
      split; [naive_solver|]. intros [?|(x & [?| ->] & ? & ?)]; [by left|right; eauto|congruence].
Qed.

(** ** The annotation queue *)
Definition keyed (pods : gmap (string * string) Pod) : Prop := forall k p, pods !! k = Some p -> k = pod_key p.
(** [podLister.Pods(name).List] *)
Definition pods_of (name : string) (pods : gmap (string * string) Pod) : list Pod :=
  filter (fun p => pod_namespace p = name) (map_to_list pods).*2.

Lemma elem_pods_of name pods p : keyed pods ->
  p ∈ pods_of name pods <-> pods !! pod_key p = Some p /\ pod_namespace p = name.
Proof.
  intros Hk. unfold pods_of. rewrite list_elem_of_filter, list_elem_of_fmap. split.
  - intros (Hn & [k q] & -> & Hq). cbn in *. apply elem_of_map_to_list in Hq. by rewrite <-(Hk _ _ Hq).
  - intros (Hp & Hn). split; [done|]. exists (pod_key p, p). split; [done|]. by apply elem_of_map_to_list.
Qed.
Lemma NoDup_pods_of name pods : keyed pods -> NoDup (pods_of name pods).
Proof.
  intros Hk. apply NoDup_filter. apply (NoDup_fmap_1 pod_key). rewrite <-list_fmap_compose.
  replace ((pod_key ∘ snd) <$> map_to_list pods) with (map_to_list pods).*1; [apply NoDup_fst_map_to_list|].
  apply list_fmap_ext. intros i [k p] Hi. apply Hk, elem_of_map_to_list. by eapply list_elem_of_lookup_2.
Qed.

(** What is left of a pod when the annotation is taken away. *)
Definition core (pod : Pod) : Pod := set_annotation None pod.
Lemma core_set v pod : core (set_annotation v pod) = core pod.
Proof.
  unfold core, set_annotation. cbn. f_equal. destruct v; [by rewrite delete_insert_eq|by rewrite delete_delete_eq].
Qed.
Lemma enrolled_core pod ns : SidecarStatus_Name node <> KmeshRedirectionAnnotation -> enrolled (core pod) ns = enrolled pod ns.
Proof. intros Hne. unfold ShouldEnroll, PodHasSidecar. cbn. by rewrite lookup_delete_ne. Qed.
Lemma enrolled_same p q ns : SidecarStatus_Name node <> KmeshRedirectionAnnotation -> core p = core q -> enrolled p ns = enrolled q ns.
Proof. intros Hne Hc. by rewrite <-(enrolled_core p), <-(enrolled_core q), Hc. Qed.
Lemma core_fields p q : core p = core q ->
  pod_key p = pod_key q /\ pod_namespace p = pod_namespace q /\ nspath_of node p = nspath_of node q.
Proof.
  intros Hc. assert (pod_uid p = pod_uid q) as Hu by (by apply (f_equal pod_uid) in Hc).
  assert (pod_namespace p = pod_namespace q) as Hn by (by apply (f_equal pod_namespace) in Hc).
  assert (pod_name p = pod_name q) as Hm by (by apply (f_equal pod_name) in Hc).
  split_and!; [by unfold pod_key; rewrite Hn, Hm|done|]. unfold nspath_of, GetPodNSpath, FindNetnsForPod. by rewrite Hu.
Qed.
Lemma annotated_set v pod : annotated (set_annotation v pod) = match v with Some v => AnnotationEnabled v | None => false end.
Proof. unfold annotated, get. destruct v; cbn; [by rewrite lookup_insert_eq|by rewrite lookup_delete_eq]. Qed.

Variable patch_err : string * string -> option error.
Hypothesis patches_work : forall k, patch_err k = None.
Hypothesis no_clash : SidecarStatus_Name node <> KmeshRedirectionAnnotation.

(** The effect of one item, when the lister has the version [q] of the pod [p]:
    only the annotation changes, and, unless [q] is outdated and [p] not yet
    annotated as it should be, the pod is annotated as its enrolment asks for
    when the item is the right one, and is left alone otherwise. *)
Lemma syncPod_spec nss ns lister k a pods p q :
  k = pod_key p -> pods !! k = Some p -> lister !! k = Some q -> core q = core p -> nss !! pod_namespace p = Some ns ->
  exists p', syncPod node patch_err nss lister (k, a) pods = (None, <[k := p']> pods) /\ core p' = core p /\
    (q = p \/ annotated p = enrolled p ns ->
     if decide (a = act (enrolled p ns)) then annotated p' = enrolled p ns else p' = p).
Proof.
  intros -> Hp Hq Hc Hns. destruct (core_fields _ _ Hc) as (Hkey & Hnsq & _).
  assert (forall v, Patch patch_err (pod_key q) v pods = (None, <[pod_key p := set_annotation v p]> pods)) as Hpatch.
  { intros v. unfold Patch. by rewrite patches_work, Hkey, Hp. }
  unfold syncPod. rewrite Hq, Hnsq, Hns, (enrolled_same q p) by done.
  destruct a, (enrolled p ns) eqn:Ee; cbn [act]; rewrite ?decide_True, ?decide_False by done.
  - unfold PatchKmeshRedirectAnnotation. destruct (annotated q) eqn:Ea.
    + exists p. rewrite insert_id by done. split_and!; [done|done|]. intros [->|?]; done.
    + eexists. rewrite Hpatch. split; [done|]. by rewrite core_set, annotated_set.
  - exists p. by rewrite insert_id.
  - exists p. by rewrite insert_id.
  - unfold DelKmeshRedirectAnnotation. destruct (pod_annotations q !! KmeshRedirectionAnnotation) eqn:Ea.
    + eexists. rewrite Hpatch. split; [done|]. by rewrite core_set, annotated_set.
    + exists p. rewrite insert_id by done. split_and!; [done|done|]. intros [->|?]; [|done]. unfold annotated, get. by rewrite Ea.
Qed.
Lemma syncPod_absent nss lister k a pods : lister !! k = None \/ (exists p, lister !! k = Some p /\ nss !! pod_namespace p = None) ->
  syncPod node patch_err nss lister (k, a) pods = (None, pods).
Proof. unfold syncPod. intros [->|(p & -> & ->)]; done. Qed.

Section drain.
Variables (nss : gmap string Namespace) (new : Namespace) (api : gmap (string * string) Pod) (k1 : Kernel).
Hypothesis Hnew : nss !! ns_name new = Some new.
Hypothesis Hkeyed : keyed api.

(** A pod of the namespace has the right annotation, or the item that gives it
    the right one waits; and a pod that was changed has the right one. *)
Record pending_inv (st : C * gmap (string * string) Pod) : Prop := {
  pi_core : forall k, core <$> st.2 !! k = core <$> api !! k;
  pi_kern : kern st.1 = k1;
  pi_item : forall k p, st.2 !! k = Some p -> pod_namespace p = ns_name new ->
    annotated p = enrolled p new \/ (k, act (enrolled p new)) ∈ m_queue st.1;
  pi_changed : forall k p, st.2 !! k = Some p -> pod_namespace p = ns_name new ->
    api !! k = Some p \/ annotated p = enrolled p new
}.
(** The lister has seen of each pod the version at the start or the present one. *)
Definition lags (current lister : gmap (string * string) Pod) : Prop :=
  forall k, lister !! k = api !! k \/ lister !! k = current !! k.

Lemma keyed_core pods : (forall k, core <$> pods !! k = core <$> api !! k) -> keyed pods.
Proof.
  intros Hc k p Hp. specialize (Hc k). rewrite Hp in Hc. destruct (api !! k) as [q|] eqn:Eq; [|done].
  apply (inj Some) in Hc. destruct (core_fields _ _ Hc) as (-> & _). by apply Hkeyed.
Qed.

Lemma pending_keep (c c' : C) pods pods' i key :
  pending_inv (c, pods) -> m_queue c !! i = Some key -> m_queue c' = delete i (m_queue c) -> kern c' = kern c ->
  (forall k, core <$> pods' !! k = core <$> pods !! k) ->
  (forall k, k <> key.1 -> pods' !! k = pods !! k) ->
  (forall p', pods' !! key.1 = Some p' -> pod_namespace p' = ns_name new ->
    annotated p' = enrolled p' new \/ pods !! key.1 = Some p' /\ key.2 <> act (enrolled p' new)) ->
  pending_inv (c', pods').
Proof.
  intros [H1 H2 H3 H4] Hi Hq Hk Hc Ho Hp. split; cbn in *.
  - intros k. by rewrite Hc.
  - congruence.
  - intros k p Hkp Hn. rewrite Hq. destruct (decide (k = key.1)) as [->|Hne].
    + destruct (Hp _ Hkp Hn) as [?|[Hold Hne]]; [by left|]. destruct (H3 _ _ Hold Hn) as [?|Hin]; [by left|right].
      destruct (elem_of_delete_other _ _ _ _ Hi Hin) as [Heq|?]; [|done]. by destruct Hne; rewrite <-Heq.
    + rewrite Ho in Hkp by done. destruct (H3 _ _ Hkp Hn) as [?|Hin]; [by left|right].
      destruct (elem_of_delete_other _ _ _ _ Hi Hin) as [Heq|?]; [|done]. by destruct Hne; rewrite <-Heq.
  - intros k p Hkp Hn. destruct (decide (k = key.1)) as [->|Hne]; [|rewrite Ho in Hkp by done; eauto].
    destruct (Hp _ Hkp Hn) as [?|[Hold _]]; [by right|eauto].
Qed.

Lemma processItems_inv lister i st : lags st.2 lister -> pending_inv st -> pending_inv (processItems node patch_err nss lister i st).
Proof.
  destruct st as [c pods]. intros Hlag Hinv. pose proof Hinv as [H1 H2 H3 H4]. cbn in *. unfold processItems.
  destruct (m_queue c !! i) as [[k a]|] eqn:Ei; [|done].
  pose proof (keyed_core pods H1) as Hk. assert (core <$> lister !! k = core <$> pods !! k) as Hl.
  { destruct (Hlag k) as [-> | ->]; [by rewrite H1|done]. }
  destruct (pods !! k) as [p|] eqn:Ep, (lister !! k) as [q|] eqn:Eq; try done.
  - apply (inj Some) in Hl. destruct (core_fields _ _ Hl) as (_ & Hnq & _).
    destruct (nss !! pod_namespace p) as [ns|] eqn:Ens.
    + destruct (syncPod_spec nss ns lister k a pods p q (Hk _ _ Ep) Ep Eq Hl Ens) as (p' & -> & Hc & Ha).
      eapply (pending_keep c _ _ _ i (k, a)); [done|done|done|done| | |]; cbn.
      * intros k'. destruct (decide (k' = k)) as [->|]; [by rewrite lookup_insert_eq, Ep; cbn; rewrite Hc|by rewrite lookup_insert_ne].
      * intros k' Hne. by rewrite lookup_insert_ne.
      * rewrite lookup_insert_eq. intros x [= <-] Hn. destruct (core_fields _ _ Hc) as (_ & Hns & _).
        rewrite Hns in Hn. rewrite Hn, Hnew in Ens. injection Ens as <-. rewrite (enrolled_same p' p) by done.
        assert (q = p \/ annotated p = enrolled p new) as Hseen.
        { destruct (Hlag k) as [E|E]; rewrite Eq in E; [|left; congruence].
          destruct (H4 k p Ep Hn) as [E'|?]; [left; congruence|by right]. }
        specialize (Ha Hseen). case_decide as Hd; [by left|subst p'; by right].
    + rewrite syncPod_absent by (right; exists q; by rewrite Hnq). eapply (pending_keep c _ pods pods i (k, a)); try done.
      cbn. intros p' Hp' Hn. rewrite Ep in Hp'. injection Hp' as <-. congruence.
  - rewrite syncPod_absent by eauto. eapply (pending_keep c _ pods pods i (k, a)); try done.
    cbn. intros p' Hp'. congruence.
Qed.

(** Turns of the worker: the item that is taken, and what the lister has then. *)
Definition turn (st : C * gmap (string * string) Pod) (t : nat * gmap (string * string) Pod) : C * gmap (string * string) Pod :=
  processItems node patch_err nss t.2 t.1 st.
Fixpoint timely (st : C * gmap (string * string) Pod) (turns : list (nat * gmap (string * string) Pod)) : Prop :=
  match turns with
  | [] => True
  | t :: turns => lags st.2 t.2 /\ timely (turn st t) turns
  end.
Lemma turns_inv turns st : timely st turns -> pending_inv st -> pending_inv (foldl turn st turns).
Proof. revert st. induction turns as [|t turns IH]; intros st Ht Hi; [done|]. cbn. destruct Ht. by apply IH, processItems_inv. Qed.

(** Without refused patches every turn takes one item away. *)
Lemma processItems_length (c : C) pods : keyed pods -> m_queue (processItems node patch_err nss pods 0 (c, pods)).1 = tail (m_queue c) /\
  keyed (processItems node patch_err nss pods 0 (c, pods)).2.
Proof.
  intros Hk. unfold processItems. destruct (m_queue c) as [|[k a] q] eqn:Eq; [done|]. cbn [lookup list_lookup].
  assert (exists pods', syncPod node patch_err nss pods (k, a) pods = (None, pods') /\ keyed pods') as (pods' & -> & Hk'); [|done].
  destruct (pods !! k) as [p|] eqn:Ep; [destruct (nss !! pod_namespace p) as [ns|] eqn:Ens|].
  - destruct (syncPod_spec nss ns pods k a pods p p) as (p' & -> & Hc & _); [by apply Hk|done..|]. eexists. split; [done|].
    intros k' x. destruct (decide (k' = k)) as [->|]; [|rewrite lookup_insert_ne by done; apply Hk].
    rewrite lookup_insert_eq. intros [= <-]. destruct (core_fields _ _ Hc) as (-> & _). by apply Hk.
  - rewrite syncPod_absent by eauto. eauto.
  - rewrite syncPod_absent by eauto. eauto.
Qed.
Lemma processItems_empties (c : C) pods : keyed pods ->
  m_queue (Nat.iter (length (m_queue c)) (fun st => processItems node patch_err nss st.2 0 st) (c, pods)).1 = [].
Proof.
  remember (length (m_queue c)) as n eqn:En. revert c pods En. induction n as [|n IH]; intros c pods En Hk.
  { cbn. by apply nil_length_inv. }
  rewrite Nat.iter_succ_r. cbn [snd]. destruct (processItems_length c pods Hk) as [Hl Hk'].
  destruct (processItems node patch_err nss pods 0 (c, pods)) as [c' pods'] eqn:Ep.
  apply IH; [|done]. cbn in Hl. rewrite Hl. destruct (m_queue c); cbn in *; congruence.
Qed.
End drain.

(** Every pod of the namespace is annotated and under control as the labels ask. *)
Definition settled (pods : gmap (string * string) Pod) (ns : Namespace) (c : C) : Prop :=
  forall p, p ∈ pods_of (ns_name ns) pods -> annotated p = enrolled p ns /\ (managed p c <-> enrolled p ns = true).

Lemma enrolled_mono p (old new : Namespace) : ns_kmesh (Some old) = true \/ ns_kmesh (Some new) = false ->
  enrolled p new = true -> enrolled p old = true.
Proof. unfold ShouldEnroll. intros Hk. repeat (case_match || case_decide); try done. destruct Hk; congruence. Qed.
Lemma enrolled_ns p (old new : Namespace) : ns_kmesh (Some old) = ns_kmesh (Some new) -> enrolled p old = enrolled p new.
Proof. intros Hk. unfold ShouldEnroll. by rewrite Hk. Qed.

Record well_placed (pods : gmap (string * string) Pod) (name : string) : Prop := {
  wp_apart : forall p q, p ∈ pods_of name pods -> q ∈ pods_of name pods -> p <> q -> apart p q;
  wp_control : forall p, p ∈ pods_of name pods -> controllable p /\ isPodReady p = true
}.

(** The handler of a changed namespace puts exactly the enrolled pods under
    control and queues what the annotations lack. *)
Lemma handleNamespaceUpdate_spec api old new (c : C) :
  map_accepts -> keyed api -> well_placed api (ns_name new) -> ns_name old = ns_name new -> settled api old c ->
  let c1 := handleNamespaceUpdate node (pods_of (ns_name new) api) old new c in
  forall p, p ∈ pods_of (ns_name new) api ->
    (managed p c1 <-> enrolled p new = true) /\
    (annotated p = enrolled p new \/ (pod_key p, act (enrolled p new)) ∈ m_queue c1).
Proof.
  intros Hok Hk [Hap Hco] Hname Hset c1 p Hp. unfold settled in Hset. rewrite Hname in Hset.
  destruct (Hset p Hp) as [Ha Hm]. subst c1. unfold handleNamespaceUpdate. change (ShouldEnroll _ None ?x) with (ns_kmesh x).
  pose proof (NoDup_pods_of (ns_name new) api Hk) as Hnd.
  destruct (ns_kmesh (Some old)) eqn:Eo, (ns_kmesh (Some new)) eqn:En; cbn [negb andb].
  - rewrite <-(enrolled_ns p old new) by congruence. split; [done|by left].
  - destruct (switch_loop false (fun p => negb (enrolled p new) && annotated p) _ c Hok Hnd Hap) as [H1 H2].
    { intros q Hq _. split; [by apply Hco|done]. }
    unfold disableKmeshForPodsInNamespace. split.
    + etransitivity; [apply (H1 p Hp)|]. destruct (enrolled p new) eqn:Ee; cbn [negb andb].
      * rewrite Hm, (enrolled_mono p old new); [done|by left|done].
      * rewrite Ha. destruct (enrolled p old); [done|by rewrite Hm].
    + destruct (enrolled p new) eqn:Ee; [left; rewrite Ha; apply (enrolled_mono p old new); [by left|done]|].
      destruct (annotated p) eqn:Ean; [right|by left]. apply H2. right. exists p. by rewrite Ee, Ean.
  - destruct (switch_loop true (fun p => enrolled p new) _ c Hok Hnd Hap) as [H1 H2].
    { intros q Hq _. destruct (Hco q Hq). done. }
    unfold enableKmeshForPodsInNamespace. split.
    + etransitivity; [apply (H1 p Hp)|]. destruct (enrolled p new) eqn:Ee; [done|].
      destruct (enrolled p old) eqn:Eold; [|by rewrite Hm].
      rewrite (enrolled_mono p new old) in Ee; [done|by left|done].
    + destruct (enrolled p new) eqn:Ee; [right; apply H2; right; by exists p|].
      left. rewrite Ha. destruct (enrolled p old) eqn:Eold; [|done].
      rewrite (enrolled_mono p new old) in Ee; [done|by left|done].
  - rewrite <-(enrolled_ns p old new) by congruence. split; [done|by left].
Qed.
End facts.

(** C6: When the label of a namespace changes, the handler puts exactly the
    enrolled pods of the namespace under control, and once the queue is empty,
    in whatever order its items were taken, exactly these pods are annotated;
    and as many turns as there are items empty it.  So a settled namespace is
    settled again, which is where the next change starts from.  The pods are
    ready, the commands reach their network namespaces, which are apart, and the
    API server refuses no patch; the informer may lag behind the annotations
    that are written meanwhile. *)
Theorem namespace_update_settles `{Helpers} {Nics} `{Netlink Nics} node patch_err nss api old new
    (c : KmeshManageController Nics) :
  SidecarStatus_Name node <> KmeshRedirectionAnnotation ->
  (forall k, patch_err k = None) -> map_accepts -> keyed api -> well_placed node api (ns_name new) ->
  nss !! ns_name new = Some new -> ns_name old = ns_name new -> settled node api old c ->
  let c1 := handleNamespaceUpdate node (pods_of (ns_name new) api) old new c in
  (forall p, p ∈ pods_of (ns_name new) api ->
    managed node p c1 <-> ShouldEnroll (SidecarStatus_Name node) (Some p) (Some new) = true) /\
  (forall turns, timely node patch_err nss api (c1, api) turns ->
    let st := foldl (turn node patch_err nss) (c1, api) turns in
    m_queue st.1 = [] -> settled node st.2 new st.1) /\
  m_queue (Nat.iter (length (m_queue c1)) (fun st => processItems node patch_err nss st.2 0 st) (c1, api)).1 = [].
Proof.
  intros Hne Hpe Hok Hk Hwp Hnew Hname Hset c1.
  pose proof (handleNamespaceUpdate_spec node api old new c Hok Hk Hwp Hname Hset) as Hsp. fold c1 in Hsp.
  split_and!; [intros p Hp; by apply Hsp| |by apply processItems_empties].
  intros turns Hturns st Hempty.
  assert (pending_inv node new api (kern c1) st) as [Hc Hkern Hitem _].
  { apply turns_inv; try done. split; [done|done| |by left]. cbn. intros k p Hkp Hn.
    pose proof (Hk _ _ Hkp) as ->. apply Hsp. by apply elem_pods_of. }
  pose proof (keyed_core node api Hk _ Hc) as Hk'.
  intros p Hp. apply elem_pods_of in Hp as [Hp Hn]; [|done]. split.
  - destruct (Hitem _ _ Hp Hn) as [?|Hin]; [done|]. rewrite Hempty in Hin. by apply not_elem_of_nil in Hin.
  - specialize (Hc (pod_key p)). rewrite Hp in Hc. destruct (api !! pod_key p) as [q|] eqn:Eq; [|done].
    apply (inj Some) in Hc. destruct (core_fields node _ _ Hc) as (Hkq & Hnq & Hpq).
    rewrite (enrolled_same node p q) by done. destruct (Hsp q) as [Hm _].
    { apply elem_pods_of; [done|]. rewrite <-Hkq. split; [done|congruence]. }
    rewrite <-Hm. unfold managed. by rewrite Hkern, Hpq.
Qed.

(** ** Concrete runs *)
Definition demo_node : Node := mkNode "sidecar.istio.io/status"
  (inl [mkProcEntry "1" true (inl 1) (Some []); mkProcEntry "20" true (inl 2) (Some [20]); mkProcEntry "30" true (inl 3) (Some [30])])
  (fun data => if decide (data = [20]) then inl "u1" else if decide (data = [30]) then inl "u2" else inr (Errorf "no pod"))
  (fun path => if decide (path = "/host/proc/20/ns/net") then Some demo_ns
     else if decide (path = "/host/proc/30/ns/net") then
       Some (mkNetNS 78 (Some [IfIPNet [10; 244; 0; 6]]) None None (Some (le_uint [10; 244; 0; 6], zero_ip)) (Some EINPROGRESS))
     else None)
  7 (-1) "dual-engine" true (tuple_zero, replicate 18 0) zero_ip zero_ip tuple_zero.
Definition demo_pod (name uid : string) (labels annotations : gmap string string) : Pod :=
  mkPod "app" name uid labels annotations false "default" [("Ready", "True")] false.
Definition pod_a : Pod := demo_pod "a" "u1" ∅ ∅.
Definition pod_b : Pod := demo_pod "b" "u2" {[ DataPlaneModeLabel := "none" ]} ∅.
Definition demo_api : gmap (string * string) Pod := {[ ("app", "a") := pod_a; ("app", "b") := pod_b ]}.
Definition plain_ns : Namespace := mkNamespace "app" ∅.
Definition kmesh_ns : Namespace := mkNamespace "app" {[ DataPlaneModeLabel := "Kmesh" ]}.
Definition demo_controller : KmeshManageController DemoNics :=
  mkManage (Some NewSecretManager) [] ∅ demo_kernel0 (mkDemoNics ∅ ∅).
#[local] Existing Instance HelpersOk.
Definition demo_pod_nics : Netlink DemoNics := demo_netlink [mkIface "lo" true true; mkIface "eth0" false true].
#[local] Existing Instance demo_pod_nics.

Lemma demo_pods_of p : p ∈ pods_of "app" demo_api <-> p = pod_a \/ p = pod_b.
Proof.
  replace (pods_of "app" demo_api) with [pod_a; pod_b] by (vm_compute; reflexivity).
  rewrite !elem_of_cons, elem_of_nil. naive_solver.
Qed.
Lemma demo_well_placed : well_placed demo_node demo_api "app".
Proof.
  assert (netns demo_node (nspath_of demo_node pod_a) = Some demo_ns) as Ha by (vm_compute; reflexivity).
  assert (exists n, netns demo_node (nspath_of demo_node pod_b) = Some n /\ ns_cookie n = 78 /\
    syn_from n = Some (le_uint [10; 244; 0; 6], zero_ip) /\ sockets_work n /\ reachable_by n false /\ connect_errno n = Some EINPROGRESS) as (nb & Hb & Hcb & Hsb & Hwb & Hrb & Heb).
  { eexists. split; [vm_compute; reflexivity|]. split_and!; try done. right. vm_compute. reflexivity. }
  assert (forall v6, Some (ns_key demo_ns) <> ns_address_key nb v6 /\ Some (ns_key nb) <> ns_address_key demo_ns v6) as Hk.
  { intros v6. unfold ns_key, ns_address_key. rewrite Hcb, Hsb. destruct v6; vm_compute; done. }
  assert (ns_key demo_ns <> ns_key nb) as Hne by (unfold ns_key; rewrite Hcb; vm_compute; done).
  split.
  - intros p q Hp Hq Hpq. apply demo_pods_of in Hp, Hq.
    intros n m Hn Hm. destruct Hp as [->| ->], Hq as [->| ->]; try done.
    + rewrite Ha in Hn. rewrite Hb in Hm. injection Hn as <-. injection Hm as <-. split; [done|]. intros v6. apply Hk.
    + rewrite Hb in Hn. rewrite Ha in Hm. injection Hn as <-. injection Hm as <-. split; [congruence|]. intros v6. apply Hk.
  - intros p Hp. apply demo_pods_of in Hp as [->| ->]; (split; [|vm_compute; reflexivity]).
    + exists demo_ns, false. split_and!; try done; [right; vm_compute; reflexivity|by right].
    + exists nb, false. split; [done|]. split; [done|]. split; [done|by right].
Qed.

Lemma namespace_update_settles_witness :
  let c1 := handleNamespaceUpdate demo_node (pods_of "app" demo_api) plain_ns kmesh_ns demo_controller in
  managed demo_node pod_a c1 /\ m_queue c1 = [("app", "a", ActionAddAnnotation)] /\
  let st := processItems demo_node (fun _ => None) {[ "app" := kmesh_ns ]} demo_api 0 (c1, demo_api) in
  settled demo_node st.2 kmesh_ns st.1 /\ (annotated <$> st.2 !! ("app", "a")) = Some true.
Proof.
  intros c1. destruct (namespace_update_settles demo_node (fun _ => None) {[ "app" := kmesh_ns ]} demo_api plain_ns kmesh_ns demo_controller)
    as (H1 & H2 & _).
  - done.
  - done.
  - done.
  - intros k p Hp. unfold demo_api in Hp. apply lookup_insert_Some in Hp as [[<- <-]|[_ Hp]]; [done|].
    by apply lookup_singleton_Some in Hp as [<- <-].
  - exact demo_well_placed.
  - reflexivity.
  - reflexivity.
  - intros p Hp. apply demo_pods_of in Hp as [->| ->]; (split; [vm_compute; reflexivity|]);
      (split; [intros (n & _ & Hm); vm_compute in Hm; by destruct Hm|vm_compute; done]).
  - split; [apply H1; [apply demo_pods_of; by left|vm_compute; reflexivity]|].
    split; [vm_compute; reflexivity|]. intros st. split; [apply (H2 [(0%nat, demo_api)]); [split; [intros k; by left|exact I]|vm_compute; reflexivity]|vm_compute; reflexivity].
Defined.

(** ** A pod that is not annotated yet *)
Section left_behind.
Context `{HH : Helpers} {Nics : Type} `{HN : Netlink Nics}.
Variable node : Node.
#[local] Abbreviation C := (KmeshManageController Nics).
#[local] Abbreviation enrolled pod ns := (ShouldEnroll (SidecarStatus_Name node) (Some pod) (Some ns)).
Variables (patch_err : string * string -> option error) (nss : gmap string Namespace) (api : gmap (string * string) Pod)
  (ns : Namespace).
#[local] Abbreviation pods := (pods_of (ns_name ns) api).

(** What can happen while the namespace is without the label and none of its pods
    is deleted: the informers report pods and the namespace, again or with other
    changes, and the worker takes an item. *)
Inductive later : Type :=
  | PodAdded (pod : Pod)
  | PodUpdated (oldPod pod : Pod)
  | NamespaceAdded
  | NamespaceUpdated (oldNS : Namespace)
  | Worked (i : nat).
Definition later_ok (e : later) : Prop :=
  match e with
  | PodAdded pod | PodUpdated _ pod => pod ∈ pods
  | NamespaceUpdated oldNS => ns_kmesh (Some oldNS) = false
  | NamespaceAdded | Worked _ => True
  end.
Definition later_step (st : C * gmap (string * string) Pod) (e : later) : C * gmap (string * string) Pod :=
  let '(c, current) := st in
  match e with
  | PodAdded pod => (handlePodAdd node nss pod c, current)
  | PodUpdated oldPod pod => (handlePodUpdate node nss oldPod pod c, current)
  | NamespaceAdded => (handleNamespaceAdd node (pods_of (ns_name ns) current) ns c, current)
  | NamespaceUpdated oldNS => (handleNamespaceUpdate node (pods_of (ns_name ns) current) oldNS ns c, current)
  | Worked i => processItems node patch_err nss current i (c, current)
  end.

Context (Hok : map_accepts) (Hkeyed : keyed api) (Hwp : well_placed node api (ns_name ns)).
Context (Hns : nss !! ns_name ns = Some ns) (Hoff : ns_kmesh (Some ns) = false).
Context (Hann : forall p, p ∈ pods -> annotated p = enrolled p ns).

(** Only annotations of pods of the namespace wait. *)
Definition only_adds (c : C) : Prop :=
  forall item, item ∈ m_queue c -> exists p, p ∈ pods /\ item = (pod_key p, ActionAddAnnotation).

Lemma disable_none (c : C) : disableKmeshForPodsInNamespace node pods ns c = c.
Proof.
  unfold disableKmeshForPodsInNamespace. revert Hann. generalize pods. intros l. induction l as [|p l IH]; intros Hl; [done|].
  cbn [foldl]. rewrite (Hl p), andb_negb_l by (by left). apply IH. intros q Hq. apply Hl. by right.
Qed.
Lemma namespace_off (c : C) oldNS : handleNamespaceUpdate node pods oldNS ns c = c.
Proof.
  unfold handleNamespaceUpdate. change (ShouldEnroll _ None ?x) with (ns_kmesh x). rewrite Hoff, andb_false_r.
  destruct (_ && _); [apply disable_none|done].
Qed.

Variable p : Pod.
Context (Hp : p ∈ pods) (Hout : enrolled p ns = false).
Definition left_behind (st : C * gmap (string * string) Pod) : Prop :=
  managed node p st.1 /\ only_adds st.1 /\ st.2 = api.

Lemma podAdd_left q (c : C) : q ∈ pods -> left_behind (c, api) -> left_behind (handlePodAdd node nss q c, api).
Proof.
  intros Hq (Hm & Hadds & _). pose proof Hq as Hq'. apply elem_pods_of in Hq' as [_ Hnq]; [|done].
  unfold handlePodAdd. rewrite Hnq, Hns, Hann by done. destruct (enrolled q ns) eqn:Eq; cbn [negb]; [|done].
  destruct Hwp as [Hap Hco]. destruct (Hco q Hq) as [Hc Hr].
  destruct (switch_spec node true q c Hok Hc) as (_ & Hother & Hqueue); [done|].
  cbn [switch] in *. split_and!; [|intros item; cbn; rewrite Hqueue, elem_enqueue|done].
  - cbn. apply Hother; [|done]. apply Hap; [done|done|]. intros ->. congruence.
  - intros [->|Hi]; [by exists q|by apply Hadds].
Qed.
Lemma worked_left i (c : C) : left_behind (c, api) -> left_behind (processItems node patch_err nss api i (c, api)).
Proof.
  intros (Hm & Hadds & _). unfold processItems. destruct (m_queue c !! i) as [item|] eqn:Ei; [|done].
  destruct (Hadds item) as (q & Hq & ->); [by eapply list_elem_of_lookup_2|].
  pose proof Hq as Hq'. apply elem_pods_of in Hq' as [Hqa Hnq]; [|done].
  assert (syncPod node patch_err nss api (pod_key q, ActionAddAnnotation) api = (None, api)) as ->.
  { unfold syncPod, PatchKmeshRedirectAnnotation. rewrite Hqa, Hnq, Hns, Hann by done. by destruct (enrolled q ns). }
  split_and!; [done| |done]. intros item Hi. apply Hadds. cbn in Hi.
  eapply elem_of_submseteq; [exact Hi|apply submseteq_delete].
Qed.
Lemma later_left events st : Forall later_ok events -> left_behind st -> left_behind (foldl later_step st events).
Proof.
  intros Hev. revert st. induction Hev as [|e events He _ IH]; intros [c cur] Hst; [done|]. cbn [foldl]. apply IH.
  pose proof Hst as (_ & _ & Hcur). cbn in Hcur. subst cur. destruct e as [q|old q| |old|i]; cbn [later_step] in *.
  - by apply podAdd_left.
  - unfold handlePodUpdate. destruct (deleting q); [done|]. case_decide; [done|]. by apply podAdd_left.
  - unfold handleNamespaceAdd. change (ShouldEnroll _ None ?x) with (ns_kmesh x). rewrite Hoff. by rewrite disable_none.
  - by rewrite namespace_off.
  - by apply worked_left.
Qed.
End left_behind.

(** C35: Only the annotation tells the controller that it manages a pod, and it is
    written later than control is switched on.  When a settled namespace gets
    the label and loses it again before an item of the queue is served, a pod
    that is enrolled by that label comes under control, and it stays there,
    although it is not enrolled and not annotated, whatever happens afterwards
    without the label: events of the pods and of the namespace, and turns of
    the worker, which drop the queued annotation. *)
Theorem unannotated_pod_stays_managed `{Helpers} {Nics} `{Netlink Nics} node patch_err nss api ns labelled p events
    (c : KmeshManageController Nics) :
  map_accepts -> keyed api -> well_placed node api (ns_name ns) -> nss !! ns_name ns = Some ns ->
  ns_name labelled = ns_name ns -> ns_kmesh (Some ns) = false ->
  settled node api ns c -> m_queue c = [] -> p ∈ pods_of (ns_name ns) api ->
  ShouldEnroll (SidecarStatus_Name node) (Some p) (Some ns) = false ->
  ShouldEnroll (SidecarStatus_Name node) (Some p) (Some labelled) = true ->
  Forall (later_ok api ns) events ->
  let pods := pods_of (ns_name ns) api in
  let c1 := handleNamespaceUpdate node pods ns labelled c in
  let c2 := handleNamespaceUpdate node pods labelled ns c1 in
  let st := foldl (later_step node patch_err nss ns) (c2, api) events in
  ~ managed node p c /\ managed node p c1 /\ managed node p st.1 /\ annotated <$> st.2 !! pod_key p = Some false.
Proof.
  intros Hok Hk Hwp Hns Hname Hoff Hset Hq Hp Hout Hin Hev pods c1 c2 st.
  assert (forall x, x ∈ pods -> annotated x = ShouldEnroll (SidecarStatus_Name node) (Some x) (Some ns)) as Hann
    by (intros x Hx; by apply Hset).
  assert (ns_kmesh (Some labelled) = true) as Hon.
  { destruct (ns_kmesh (Some labelled)) eqn:En; [done|]. rewrite (enrolled_ns node p labelled ns) in Hin by congruence. congruence. }
  assert (c1 = foldl (fun c p => if ShouldEnroll (SidecarStatus_Name node) (Some p) (Some labelled) then switch node true p c else c) c pods) as Hc1.
  { unfold c1, handleNamespaceUpdate. change (ShouldEnroll _ None ?x) with (ns_kmesh x). by rewrite Hoff, Hon. }
  destruct (switch_loop node true (fun p => ShouldEnroll (SidecarStatus_Name node) (Some p) (Some labelled)) pods c Hok) as [H1 H2].
  { by apply NoDup_pods_of. } { apply Hwp. } { intros x Hx _. destruct Hwp as [_ Hco]. by destruct (Hco x Hx). }
  rewrite <-Hc1 in H1, H2. assert (managed node p c1) as Hm1 by (apply H1; [done|by rewrite Hin]).
  assert (c2 = c1) as Hc2 by (apply namespace_off; done).
  assert (left_behind node api ns p st) as (Hm & _ & Hapi).
  { apply later_left; try done. rewrite Hc2. split_and!; [done| |done]. intros item Hi. apply H2 in Hi.
    rewrite Hq in Hi. destruct Hi as [Hi|(x & Hx & _ & ->)]; [by apply not_elem_of_nil in Hi|by exists x]. }
  split_and!; [|done|done|].
  - destruct (Hset p Hp) as [_ ->]. by rewrite Hout.
  - rewrite Hapi. pose proof Hp as Hp'. apply elem_pods_of in Hp' as [-> _]; [|done]. cbn. f_equal. rewrite Hann by done. done.
Qed.

Lemma demo_keyed : keyed demo_api.
Proof.
  intros k p Hp. unfold demo_api in Hp. apply lookup_insert_Some in Hp as [[<- <-]|[_ Hp]]; [done|].
  by apply lookup_singleton_Some in Hp as [<- <-].
Qed.
Lemma demo_settled : settled demo_node demo_api plain_ns demo_controller.
Proof.
  intros p Hp. apply demo_pods_of in Hp as [->| ->]; (split; [vm_compute; reflexivity|]);
    (split; [intros (n & _ & Hm); vm_compute in Hm; by destruct Hm|vm_compute; done]).
Qed.
Lemma unannotated_pod_stays_managed_witness :
  let c1 := handleNamespaceUpdate demo_node (pods_of "app" demo_api) plain_ns kmesh_ns demo_controller in
  let c2 := handleNamespaceUpdate demo_node (pods_of "app" demo_api) kmesh_ns plain_ns c1 in
  let st := foldl (later_step demo_node (fun _ => None) {[ "app" := plain_ns ]} plain_ns) (c2, demo_api)
    [Worked 0; PodUpdated pod_a pod_a; NamespaceAdded] in
  m_queue c2 = [("app", "a", ActionAddAnnotation)] /\ m_queue st.1 = [] /\ managed demo_node pod_a st.1.
Proof.
  intros c1 c2 st. split; [vm_compute; reflexivity|]. split; [vm_compute; reflexivity|].
  destruct (unannotated_pod_stays_managed demo_node (fun _ => None) {[ "app" := plain_ns ]} demo_api plain_ns kmesh_ns pod_a
    [Worked 0; PodUpdated pod_a pod_a; NamespaceAdded] demo_controller) as (_ & _ & Hm & _).
  - intros n. reflexivity.
  - exact demo_keyed.
  - exact demo_well_placed.
  - reflexivity.
  - reflexivity.
  - vm_compute. reflexivity.
  - exact demo_settled.
  - reflexivity.
  - apply demo_pods_of. by left.
  - vm_compute. reflexivity.
  - vm_compute. reflexivity.
  - constructor; [exact I|]. constructor; [apply demo_pods_of; by left|]. constructor; [exact I|constructor].
  - exact Hm.
Defined.

(** ** Certificates *)
Section certificates.
Context `{HH : Helpers} {Nics : Type} `{HN : Netlink Nics}.
Variable node : Node.
#[local] Abbreviation C := (KmeshManageController Nics).

Lemma control_sm path on (c : C) : sm (control node path on c).2 = sm c.
Proof. unfold control. by destruct (HandleKmeshManage _ _ _ _ _ _ _ _). Qed.
Lemma enable_sm pod (c : C) : sm (enableKmeshManage node pod c) = SendCertRequest (spiffe_identity pod) ADD <$> sm c.
Proof.
  unfold enableKmeshManage. destruct (negb _); [done|]. pose proof (control_sm (nspath_of node pod) true (sendCertRequest pod ADD c)) as Hc.
  by destruct (control _ _ _ _) as [[e|] c1].
Qed.
Lemma disable_sm pod (c : C) : sm (disableKmeshManage node pod c) = SendCertRequest (spiffe_identity pod) DELETE <$> sm c.
Proof.
  unfold disableKmeshManage. pose proof (control_sm (nspath_of node pod) false (sendCertRequest pod DELETE c)) as Hc.
  by destruct (control _ _ _ _) as [[e|] c1].
Qed.
End certificates.


Lemma users_adds id n : users id (replicate n (id, ADD)) = Z.of_nat n.
Proof.
  induction n as [|n IH]; [done|]. rewrite replicate_S_end, users_snoc, IH. unfold use. cbn [fst snd].
  rewrite decide_True by done. lia.
Qed.

(** C34: Every update of an enrolled pod asks for its certificate again, and its
    deletion gives back only one of these references: a pod that was updated
    [n] times leaves [n] references behind, and the certificate of a service
    account that no pod uses any more is kept and rotated. *)
Theorem pod_updates_leak_certificate `{Helpers} {Nics} `{Netlink Nics} node nss ns pod n (c : KmeshManageController Nics) :
  nss !! pod_namespace pod = Some ns -> ShouldEnroll (SidecarStatus_Name node) (Some pod) (Some ns) = true ->
  annotated pod = true -> deleting pod = false -> Z.of_nat n < 2 ^ 30 -> sm c = Some NewSecretManager ->
  let c' := handlePodDelete pod (Nat.iter n (handlePodUpdate node nss pod pod) (handlePodAdd node nss pod c)) in
  exists s s' log, sm c' = Some s /\ run (replicate (S (S n)) Handle) (s, []) = Done (s', log) /\
    count_of (spiffe_identity pod) s' = Z.of_nat n /\ (is_Some (certs s' !! spiffe_identity pod) <-> (0 < n)%nat).
Proof.
  intros Hns He Ha Hdel Hn Hsm c'. set (id := spiffe_identity pod).
  assert (forall c : KmeshManageController Nics, sm (handlePodAdd node nss pod c) = SendCertRequest id ADD <$> sm c) as Hadd.
  { intros c0. unfold handlePodAdd. rewrite Hns, He. apply enable_sm. }
  assert (forall m, sm (Nat.iter m (handlePodUpdate node nss pod pod) (handlePodAdd node nss pod c)) =
    Some (mkSecretManager ∅ [] (replicate (S m) (id, ADD)) [] [])) as Hit.
  { induction m as [|m IH]; [cbn [Nat.iter nat_rect]; by rewrite Hadd, Hsm|].
    rewrite Nat.iter_succ. unfold handlePodUpdate at 1. rewrite Hdel, decide_False by (intros Hd; by apply Hd).
    rewrite Hadd, IH. cbn. unfold SendCertRequest. cbn. do 2 f_equal. by rewrite <-replicate_S_end. }
  set (reqs := replicate (S n) (id, ADD) ++ [(id, DELETE)]).
  assert (sm c' = Some (mkSecretManager ∅ [] reqs [] [])) as Hc'.
  { unfold c', handlePodDelete. rewrite Ha. unfold sendCertRequest, set_sm. cbn [sm]. by rewrite Hit. }
  destruct (run_user_requests reqs (mkSecretManager ∅ [] reqs [] []) []) as (s' & Hrun & Hcnt).
  - done.
  - apply Forall_app. split; [apply Forall_replicate; by left|apply Forall_singleton; by right].
  - unfold reqs. rewrite length_app, length_replicate. cbn. lia.
  - exact counted_new.
  - assert (users id reqs = Z.of_nat n) as Hu.
    { unfold reqs. rewrite users_snoc, users_adds. unfold use. cbn [fst snd]. rewrite decide_True by done. lia. }
    assert (length reqs = S (S n)) as Hl by (unfold reqs; rewrite length_app, length_replicate; cbn; lia).
    rewrite Hl in Hrun. eexists _, s', _. split; [done|]. split; [exact Hrun|].
    destruct (Hcnt id) as [H1 H2]. cbn [app] in H1, H2. rewrite Hu in H1, H2. split; [done|]. rewrite H2. lia.
Qed.

Definition pod_c : Pod := demo_pod "a" "u1" ∅ {[ KmeshRedirectionAnnotation := "enabled" ]}.
Lemma pod_updates_leak_certificate_witness :
  let nss := {[ "app" := kmesh_ns ]} in
  let c' := handlePodDelete pod_c (handlePodUpdate demo_node nss pod_c pod_c (handlePodAdd demo_node nss pod_c demo_controller)) in
  exists s s' log, sm c' = Some s /\ run [Handle; Handle; Handle] (s, []) = Done (s', log) /\
    count_of "spiffe://cluster.local/ns/app/sa/default" s' = 1.
Proof.
  intros nss c'.
  destruct (pod_updates_leak_certificate demo_node nss kmesh_ns pod_c 1 demo_controller) as (s & s' & log & H1 & H2 & H3 & _);
    [reflexivity|vm_compute; reflexivity|vm_compute; reflexivity|reflexivity|lia|reflexivity|].
  exists s, s', log. split; [exact H1|]. split; [exact H2|exact H3].
Defined.
