(* ===== verification/Bypass.v ===== *)
(** * Bypassing the sidecar: [pkg/controller/bypass/bypass_controller.go]

    A pod with a sidecar and the label [kmesh.net/bypass=enabled] gets a rule in
    front of the two nat chains that sends its traffic past the sidecar.  The
    command [iptables] is an argument; [IptablesLaws] states what its manual
    says about the two forms that are used. *)
From S2P Require Import Prelude Enroll.

Definition ByPassLabel : string := "kmesh.net/bypass".
Definition ByPassValue : string := "enabled".

(** The rules of the chains of the nat table, first rule first. *)
Abbreviation Chains := (gmap string (list string)) (only parsing).

Definition insert_args (chain : string) : list string := ["-t"; "nat"; "-I"; chain; "1"; "-j"; "RETURN"].
Definition delete_args (chain : string) : list string := ["-t"; "nat"; "-D"; chain; "-j"; "RETURN"].

Section bypass.
Variable iptables : list string -> Chains -> option error * Chains.      (* utils.Execute("iptables", args) *)
Variable enter_err : option error.                                       (* of WithNetNSPath *)
Variable sidecar : string.                                               (* annotation.SidecarStatus.Name *)

Definition shouldBypass (pod : Pod) : bool := bool_decide (get (pod_labels pod) ByPassLabel = ByPassValue).
Definition isPodBeingDeleted (pod : Pod) : bool := deleting pod.

(** Commands up to the first that fails. *)
Fixpoint execute_all (cmds : list (list string)) (t : Chains) : option error * Chains :=
  match cmds with
  | [] => (None, t)
  | args :: rest =>
      let '(err, t) := iptables args t in
      match err with
      | Some _ => (Some (Errorf "failed to exec command: iptables"), t)
      | None => execute_all rest t
      end
  end.
Definition within (f : Chains -> option error * Chains) (t : Chains) : option error * Chains :=
  match enter_err with
  | Some _ => (Some (Errorf "enter namespace path"), t)
  | None =>
      let '(err, t) := f t in
      (match err with Some _ => Some (Errorf "run command failed") | None => None end, t)
  end.

Definition addIptables : Chains -> option error * Chains :=
  within (fun t =>
    let t := foldl (fun t args => (iptables args t).2) t [delete_args "PREROUTING"; delete_args "OUTPUT"] in
    execute_all [insert_args "PREROUTING"; insert_args "OUTPUT"] t).
Definition deleteIptables : Chains -> option error * Chains :=
  within (execute_all [delete_args "PREROUTING"; delete_args "OUTPUT"]).

(** The event handlers; errors are logged. *)
Definition AddFunc (pod : Pod) (t : Chains) : Chains :=
  if negb (PodHasSidecar sidecar pod) then t
  else if negb (shouldBypass pod) then t
  else (addIptables t).2.
Definition UpdateFunc (oldPod newPod : Pod) (t : Chains) : Chains :=
  if isPodBeingDeleted newPod then t
  else if negb (PodHasSidecar sidecar newPod) then t
  else if shouldBypass oldPod && negb (shouldBypass newPod) then
    match deleteIptables t with
    | (Some _, t) => t
    | (None, t) => if negb (shouldBypass oldPod) && shouldBypass newPod then (addIptables t).2 else t
    end
  else if negb (shouldBypass oldPod) && shouldBypass newPod then (addIptables t).2
  else t.

(** The versions of a pod that the informer reports: an addition, then updates. *)
Fixpoint versions (pod : Pod) (updates : list Pod) (t : Chains) : Chains :=
  match updates with
  | [] => t
  | next :: rest => versions next rest (UpdateFunc pod next t)
  end.
End bypass.

(** [-I chain 1] puts the rule in front; [-D] takes the first equal rule away
    and fails when there is none. *)
Record IptablesLaws (iptables : list string -> Chains -> option error * Chains) : Prop := {
  ipt_insert chain l t : t !! chain = Some l ->
    iptables (insert_args chain) t = (None, <[chain := "RETURN" :: l]> t);
  ipt_delete chain l t : t !! chain = Some ("RETURN" :: l) ->
    iptables (delete_args chain) t = (None, <[chain := l]> t);
  ipt_missing chain l t : t !! chain = Some l -> "RETURN" ∉ l ->
    exists err, iptables (delete_args chain) t = (Some err, t)
}.

Definition front (b : bool) : list string := if b then ["RETURN"] else [].
(** The rule is in front of both chains exactly when [b]; the rest is as it was. *)
Definition bypassed (pre out : list string) (others : Chains) (b : bool) : Chains :=
  <["PREROUTING" := front b ++ pre]> (<["OUTPUT" := front b ++ out]> others).

Section facts.
Variables (iptables : list string -> Chains -> option error * Chains) (sidecar : string).
Hypothesis laws : IptablesLaws iptables.
Variables (pre out : list string) (others : Chains).
Hypothesis no_return : (("RETURN" ∉ pre) /\ "RETURN" ∉ out).
#[local] Abbreviation state := (bypassed pre out others).

Lemma state_pre b : state b !! "PREROUTING" = Some (front b ++ pre).
Proof. unfold bypassed. by rewrite lookup_insert_eq. Qed.
Lemma state_out b : state b !! "OUTPUT" = Some (front b ++ out).
Proof. unfold bypassed. by rewrite lookup_insert_ne, lookup_insert_eq. Qed.
Lemma state_set_pre b b' : <["PREROUTING" := front b' ++ pre]> (state b) =
  <["PREROUTING" := front b' ++ pre]> (<["OUTPUT" := front b ++ out]> others).
Proof. unfold bypassed. by rewrite insert_insert_eq. Qed.
Lemma state_set_out b b' :
  <["OUTPUT" := front b' ++ out]>
    (<["PREROUTING" := front b' ++ pre]> (<["OUTPUT" := front b ++ out]> others))
  = state b'.
Proof. unfold bypassed. by rewrite (insert_insert_ne _ "OUTPUT" "PREROUTING"), insert_insert_eq by done. Qed.
Lemma mixed_out b b' : (<["PREROUTING" := front b' ++ pre]>
    (<["OUTPUT" := front b ++ out]> others)) !! "OUTPUT" = Some (front b ++ out).
Proof. by rewrite lookup_insert_ne, lookup_insert_eq. Qed.

(** One command on both chains moves between the two states. *)
Lemma both_inserted : execute_all iptables [insert_args "PREROUTING"; insert_args "OUTPUT"] (state false) = (None, state true).
Proof.
  cbn [execute_all]. rewrite (ipt_insert _ laws _ _ _ (state_pre false)).
  change ("RETURN" :: front false ++ pre) with (front true ++ pre). rewrite state_set_pre.
  rewrite (ipt_insert _ laws _ _ _ (mixed_out false true)).
  change ("RETURN" :: (front false ++ out)) with (front true ++ out). by rewrite state_set_out.
Qed.
Lemma pre_deleted : iptables (delete_args "PREROUTING") (state true) =
  (None, <["PREROUTING" := front false ++ pre]> (<["OUTPUT" := front true ++ out]> others)).
Proof. rewrite (ipt_delete _ laws _ _ _ (state_pre true)). by rewrite <-state_set_pre. Qed.
Lemma out_deleted : iptables (delete_args "OUTPUT")
  (<["PREROUTING" := front false ++ pre]> (<["OUTPUT" := front true ++ out]> others)) = (None, state false).
Proof. rewrite (ipt_delete _ laws _ _ _ (mixed_out true false)). by rewrite <-(state_set_out true). Qed.
Lemma both_deleted : execute_all iptables [delete_args "PREROUTING"; delete_args "OUTPUT"] (state true) = (None, state false).
Proof. cbn [execute_all]. by rewrite pre_deleted, out_deleted. Qed.
Lemma clear_first b : foldl (fun t args => (iptables args t).2) (state b) [delete_args "PREROUTING"; delete_args "OUTPUT"] = state false.
Proof.
  cbn [foldl]. destruct b.
  - by rewrite pre_deleted; cbn [snd]; rewrite out_deleted.
  - destruct (ipt_missing _ laws _ _ _ (state_pre false)) as [e1 ->]; [apply no_return|]. cbn [snd].
    destruct (ipt_missing _ laws _ _ _ (state_out false)) as [e2 ->]; [apply no_return|]. done.
Qed.

Lemma addIptables_state b : addIptables iptables None (state b) = (None, state true).
Proof. unfold addIptables, within. by rewrite clear_first, both_inserted. Qed.
Lemma deleteIptables_state : deleteIptables iptables None (state true) = (None, state false).
Proof. unfold deleteIptables, within. by rewrite both_deleted. Qed.

Definition live (pod : Pod) : Prop := PodHasSidecar sidecar pod = true /\ isPodBeingDeleted pod = false.
Lemma UpdateFunc_state old new : live new ->
  UpdateFunc iptables None sidecar old new (state (shouldBypass old)) = state (shouldBypass new).
Proof.
  intros [Hs Hd]. unfold UpdateFunc. rewrite Hd, Hs. cbn [negb].
  destruct (shouldBypass old), (shouldBypass new); cbn [negb andb].
  - done.
  - by rewrite deleteIptables_state.
  - by rewrite addIptables_state.
  - done.
Qed.
Lemma versions_state updates pod : Forall live updates ->
  versions iptables None sidecar pod updates (state (shouldBypass pod)) = state (shouldBypass (default pod (last updates))).
Proof.
  revert pod. induction updates as [|u updates IH]; intros pod Hl; [done|]. apply Forall_cons in Hl as [Hu Hl].
  cbn [versions]. rewrite UpdateFunc_state by done. rewrite IH by done. f_equal. f_equal. rewrite last_cons. by destruct (last updates).
Qed.
(** As long as no version has the label the chains stay as they were found. *)
Lemma versions_found updates pod found : Forall live updates -> shouldBypass pod = false ->
  versions iptables None sidecar pod updates (state found) =
  state (if existsb shouldBypass updates then shouldBypass (default pod (last updates)) else found).
Proof.
  revert pod. induction updates as [|u updates IH]; intros pod Hl Hp; [done|]. apply Forall_cons in Hl as [[Hs Hd] Hl].
  cbn [versions existsb]. assert (default pod (last (u :: updates)) = default u (last updates)) as -> by (rewrite last_cons; by destruct (last updates)).
  unfold UpdateFunc. rewrite Hd, Hs, Hp. cbn [negb andb]. destruct (shouldBypass u) eqn:Hu; cbn [orb].
  - rewrite addIptables_state. cbn [snd]. rewrite <-Hu. by apply versions_state.
  - by apply IH.
Qed.
End facts.

(** C32: Whatever versions of a pod are reported, all of them with a sidecar and
    not being deleted, once one of them has had the label its two chains have
    the bypass rule in front, once, exactly when the last version has the
    label; their other rules are as they were.  As long as no version has had
    the label the chains stay as the daemon found them, so a rule that an
    earlier run left behind stays as well, although the pod is no longer
    labelled (the open point that the handler of additions notes).  The
    namespace of the pod can be entered, and [iptables] does what its manual
    says. *)
Theorem bypass_follows_label iptables sidecar pre out others pod updates earlier :
  IptablesLaws iptables -> ("RETURN" ∉ pre) /\ "RETURN" ∉ out -> Forall (live sidecar) (pod :: updates) ->
  versions iptables None sidecar pod updates (AddFunc iptables None sidecar pod (bypassed pre out others earlier)) =
  bypassed pre out others
    (if existsb shouldBypass (pod :: updates) then shouldBypass (default pod (last updates)) else earlier).
Proof.
  intros Hl Hr Hf. apply Forall_cons in Hf as [[Hs Hd] Hf]. unfold AddFunc. rewrite Hs. cbn [negb existsb].
  destruct (shouldBypass pod) eqn:Hp; cbn [negb orb].
  - rewrite addIptables_state by done. cbn [snd]. rewrite <-Hp. by apply versions_state.
  - by apply versions_found.
Qed.

(** An [iptables] that knows the two forms. *)
Definition remove_first (l : list string) : option (list string) :=
  match list_find (eq "RETURN") l with Some (i, _) => Some (delete i l) | None => None end.
Definition demo_iptables (args : list string) (t : Chains) : option error * Chains :=
  match args with
  | ["-t"; "nat"; "-I"; chain; "1"; "-j"; target] => (None, alter (cons target) chain t)
  | ["-t"; "nat"; "-D"; chain; "-j"; target] =>
      match t !! chain ≫= remove_first with
      | Some l => (None, <[chain := l]> t)
      | None => (Some (Errorf "Bad rule"), t)
      end
  | _ => (Some (Errorf "usage"), t)
  end.
Lemma demo_iptables_laws : IptablesLaws demo_iptables.
Proof.
  split.
  - intros chain l t Ht. cbn. f_equal. apply map_eq. intros k. destruct (decide (k = chain)) as [->|].
    + by rewrite lookup_alter_eq, lookup_insert_eq, Ht.
    + by rewrite lookup_alter_ne, lookup_insert_ne.
  - intros chain l t Ht. cbn. rewrite Ht. cbn. unfold remove_first. cbn. by rewrite decide_True.
  - intros chain l t Ht Hn. cbn. rewrite Ht. cbn. unfold remove_first.
    destruct (list_find (eq "RETURN") l) as [[i x]|] eqn:Ef; [|by eexists].
    apply list_find_Some in Ef as (Hi & <- & _). destruct Hn. by eapply list_elem_of_lookup_2.
Qed.

Definition sidecar_pod (labels : gmap string string) : Pod :=
  mkPod "app" "a" "u1" labels {[ "sidecar.istio.io/status" := "{}" ]} false "default" [] false.
Lemma bypass_follows_label_witness :
  let on := sidecar_pod {[ ByPassLabel := ByPassValue ]} in
  let off := sidecar_pod ∅ in
  let run pod updates := versions demo_iptables None "sidecar.istio.io/status" pod updates
    (AddFunc demo_iptables None "sidecar.istio.io/status" pod (bypassed ["ISTIO_INBOUND"] ["ISTIO_OUTPUT"] ∅ true)) in
  run on [off; on] = {[ "PREROUTING" := ["RETURN"; "ISTIO_INBOUND"]; "OUTPUT" := ["RETURN"; "ISTIO_OUTPUT"] ]} /\
  run on [off] = {[ "PREROUTING" := ["ISTIO_INBOUND"]; "OUTPUT" := ["ISTIO_OUTPUT"] ]} /\
  (* left behind by an earlier run *)
  run off [] = {[ "PREROUTING" := ["RETURN"; "ISTIO_INBOUND"]; "OUTPUT" := ["RETURN"; "ISTIO_OUTPUT"] ]}.
Proof.
  intros on off run.
  assert (forall pod updates, Forall (live "sidecar.istio.io/status") (pod :: updates) ->
    run pod updates = bypassed ["ISTIO_INBOUND"] ["ISTIO_OUTPUT"] ∅
      (if existsb shouldBypass (pod :: updates) then shouldBypass (default pod (last updates)) else true)) as Hrun.
  { intros pod updates Hl.
    apply (bypass_follows_label demo_iptables "sidecar.istio.io/status" ["ISTIO_INBOUND"] ["ISTIO_OUTPUT"] ∅ pod updates true).
    - exact demo_iptables_laws.
    - split; by rewrite list_elem_of_singleton.
    - exact Hl. }
  split; [|split]; (rewrite Hrun; [vm_compute; reflexivity|repeat constructor; vm_compute; reflexivity]).
Defined.
