(* ===== verification/Cni.v ===== *)
(** * Installing the CNI plugin: [pkg/cni/chained.go], [pkg/cni/install.go],
    [pkg/cni/kubeconfig.go], [pkg/utils/fileop.go]

    The file system is a map from paths to files; every call into the system
    may fail.  [encoding/json] is used through its decoded values: [Unmarshal]
    and [MarshalIndent] are arguments, with the law that decoding what was
    encoded gives the value back.  So are [libcni], with what its documentation
    promises in [libcni_laws], and the YAML of the kubeconfig. *)
From stdpp Require Import infinite.
From Stdlib Require Import String.
From S2P Require Import Prelude.

(** ** Files *)
Record File : Type := mkFile { content : string; perm : Z }.
Abbreviation FS := (gmap string File) (only parsing).

Inductive syscall : Type := SOpen | SChmod | SWrite | SClose | SRename | SRead | SStat | SRemove.
(** What the system answers: the error of a call, and the name of a temporary
    file for a path. *)
Class OS : Type := {
  sys_err : syscall -> string -> option error;
  CreateTemp : string -> FS -> string;
  CreateTemp_new path fs : fs !! CreateTemp path fs = None;
  CreateTemp_other path fs : CreateTemp path fs <> path
}.

Section files.
Context `{OS}.

Definition ReadFile (path : string) (fs : FS) : string + error :=
  match sys_err SRead path, fs !! path with
  | None, Some f => inl (content f)
  | Some e, _ => inr e
  | None, None => inr (Errorf "no such file")
  end.
Definition Stat (path : string) (fs : FS) : Z + error :=
  match sys_err SStat path, fs !! path with
  | None, Some f => inl (perm f)
  | Some e, _ => inr e
  | None, None => inr (Errorf "no such file")
  end.
Definition Remove (path : string) (fs : FS) : option error * FS :=
  match sys_err SRemove path, fs !! path with
  | None, Some _ => (None, delete path fs)
  | Some e, _ => (Some e, fs)
  | None, None => (Some (Errorf "no such file"), fs)
  end.

(** [fileExists]: only "no such file" counts as absent. *)
Definition fileExists (path : string) (fs : FS) : bool :=
  match sys_err SStat path with
  | Some _ => true
  | None => bool_decide (is_Some (fs !! path))
  end.

(** The deferred removal of the temporary file runs on every path; after the
    rename there is nothing left to remove. *)
Definition AtomicWrite (path data : string) (mode : Z) (fs : FS) : option error * FS :=
  match sys_err SOpen path with
  | Some _ => (Some (Errorf "failed to create tempfile"), fs)
  | None =>
      let tmp := CreateTemp path fs in
      let fs := <[tmp := mkFile "" 384]> fs in
      let cleanup (r : option error * FS) := (r.1, delete tmp r.2) in
      cleanup
        match sys_err SChmod tmp with
        | Some _ => (Some (Errorf "failed to chmod tempfile"), fs)
        | None =>
            let fs := <[tmp := mkFile "" mode]> fs in
            match sys_err SWrite tmp with
            | Some _ => (Some (Errorf "failed to write tempfile"), fs)
            | None =>
                let fs := <[tmp := mkFile data mode]> fs in
                match sys_err SClose tmp with
                | Some _ => (Some (Errorf "failed to close tempfile"), fs)
                | None =>
                    match sys_err SRename tmp with
                    | Some _ => (Some (Errorf "failed to rename tempfile"), fs)
                    | None => (None, <[path := mkFile data mode]> (delete tmp fs))
                    end
                end
            end
        end
  end.
Definition AtomicCopy (src target : string) (fs : FS) : option error * FS :=
  match sys_err SOpen src, fs !! src with
  | Some e, _ => (Some e, fs)
  | None, None => (Some (Errorf "no such file"), fs)
  | None, Some f =>
      match Stat src fs with
      | inr e => (Some e, fs)
      | inl mode =>
          match ReadFile src fs with
          | inr e => (Some e, fs)
          | inl input => AtomicWrite target input mode fs
          end
      end
  end.

(** The write is all or nothing, and leaves no temporary file. *)
Lemma AtomicWrite_atomic path data mode fs :
  let r := AtomicWrite path data mode fs in
  (r.1 = None /\ r.2 = <[path := mkFile data mode]> fs) \/ (is_Some r.1 /\ r.2 = fs).
Proof.
  cbn. unfold AtomicWrite. set (tmp := CreateTemp path fs).
  assert (fs !! tmp = None) as Hn by apply CreateTemp_new. assert (tmp <> path) as Hp by apply CreateTemp_other.
  destruct (sys_err SOpen path); [right; split; [by eexists|done]|].
  destruct (sys_err SChmod tmp), (sys_err SWrite tmp), (sys_err SClose tmp), (sys_err SRename tmp); cbn [fst snd];
    try (right; split; [by eexists|]; rewrite ?insert_insert_eq, delete_insert_id by done; done).
  left. split; [done|]. rewrite delete_insert_ne by done. f_equal. rewrite delete_delete_eq, !insert_insert_eq. by apply delete_insert_id.
Qed.
End files.

(** ** The configuration *)
(** Values of [interface{}] that [json.Unmarshal] makes. *)
#[warnings="-register-all"]
Inductive JSON : Type :=
  | JNull
  | JBool (b : bool)
  | JNumber (text : string)
  | JString (s : string)
  | JArray (l : list JSON)
  | JObject (m : gmap string JSON).

Definition kmeshCniPluginName : string := "kmesh-cni".
Definition kmeshCniKubeConfig : string := "kmesh-cni-kubeconfig".
Definition MountedCNIBinDir : string := "/opt/cni/bin".

Record Installer : Type := mkInstaller {
  Mode : string;
  EnableIpSec : bool;
  CniMountNetEtcDIR : string;
  CniConfigName : string;
  CniConfigChained : bool;
  ServiceAccountPath : string
}.
Definition Join (dir name : string) : string := dir +:+ "/" +:+ name.

(** [plugin["type"] == kmeshCniPluginName] for a value of the array. *)
Definition is_kmesh (plugin : gmap string JSON) : bool :=
  match plugin !! "type" with Some (JString t) => bool_decide (t = kmeshCniPluginName) | _ => false end.

Section config.
Variable Unmarshal : string -> gmap string JSON + error.
Variable MarshalIndent : gmap string JSON -> string + error.
Variable inst : Installer.

Definition kmeshConfig (mode : string) : gmap string JSON :=
  <["enableIpSec" := JBool (EnableIpSec inst)]>
  (<["mode" := JString mode]>
  (<["kubeConfig" := JString (Join (CniMountNetEtcDIR inst) kmeshCniKubeConfig)]>
  {[ "type" := JString kmeshCniPluginName ]})).

(** The loop of [insertCNIConfig]: the index of the last plugin of Kmesh, an
    error when an element is no object. *)
Fixpoint kmesh_index (i : nat) (plugins : list JSON) (found : option nat) : option nat + error :=
  match plugins with
  | [] => inl found
  | JObject plugin :: rest => kmesh_index (S i) rest (if is_kmesh plugin then Some i else found)
  | _ :: _ => inr (Errorf "failed to parser plugin")
  end.

Definition marshal (m : gmap string JSON) : string + error :=
  match MarshalIndent m with inl s => inl s | inr _ => inr (Errorf "failed to marshal json") end.

Definition insertCNIConfig (oldconfig mode : string) : string + error :=
  match Unmarshal oldconfig with
  | inr _ => inr (Errorf "failed to unmarshal json")
  | inl cniConfigMap =>
      match cniConfigMap !! "plugins" with
      | Some (JArray plugins) =>
          match kmesh_index 0 plugins None with
          | inr err => inr err
          | inl (Some kmeshIndex) =>
              marshal (<["plugins" := JArray (<[kmeshIndex := JObject (kmeshConfig mode)]> plugins)]> cniConfigMap)
          | inl None =>
              marshal (<["plugins" := JArray (plugins ++ [JObject (kmeshConfig mode)])]> cniConfigMap)
          end
      | _ => inr (Errorf "can not found valid plugin list in insert cni config")
      end
  end.

(** The loop of [deleteCNIConfig]: the first plugin of Kmesh, other elements
    are passed over. *)
Fixpoint first_kmesh (i : nat) (plugins : list JSON) : option nat :=
  match plugins with
  | [] => None
  | JObject plugin :: rest => if is_kmesh plugin then Some i else first_kmesh (S i) rest
  | _ :: rest => first_kmesh (S i) rest
  end.

Definition deleteCNIConfig (oldconfig : string) : string + error :=
  match Unmarshal oldconfig with
  | inr _ => inr (Errorf "failed to unmarshal json")
  | inl cniConfigMap =>
      match cniConfigMap !! "plugins" with
      | Some (JArray plugins) =>
          match first_kmesh 0 plugins with
          | Some index => marshal (<["plugins" := JArray (take index plugins ++ drop (S index) plugins)]> cniConfigMap)
          | None => marshal cniConfigMap
          end
      | _ => inr (Errorf "can not valid plugin list in delete cni config")
      end
  end.

(** ** The installer *)
Context `{OS}.
Variable ConfListFromFile : string -> FS -> nat + error.      (* the number of plugins *)
Variable ConfFiles : string -> FS -> list string + error.     (* sorted *)
Variable createKubeConfig : FS -> string + error.

Fixpoint first_conf (files : list string) (fs : FS) : option string :=
  match files with
  | [] => None
  | file :: rest =>
      match ConfListFromFile file fs with
      | inr _ => first_conf rest fs
      | inl n => if decide (n = 0%nat) then first_conf rest fs else Some file
      end
  end.
Definition getCniConfigPath (fs : FS) : string + error :=
  if decide (CniConfigName inst <> "") then
    let confFile := Join (CniMountNetEtcDIR inst) (CniConfigName inst) in
    match ConfListFromFile confFile fs with
    | inr _ => inr (Errorf "failed to read conflist")
    | inl n => if decide (n = 0%nat) then inr (Errorf "plugins is empty") else inl confFile
    end
  else
    match ConfFiles (CniMountNetEtcDIR inst) fs with
    | inr _ => inr (Errorf "failed to load conflist")
    | inl files =>
        match first_conf files fs with
        | Some file => inl file
        | None => inr (Errorf "can not found the valid cni config")
        end
    end.

Definition copyBinary (name targetDir : string) : FS -> option error * FS := AtomicCopy (Join "/usr/bin" name) (Join targetDir name).

Definition shouldCreateKubeConfigFile (kubeconfig path : string) (fs : FS) : bool :=
  match ReadFile path fs with
  | inr _ => true
  | inl existing => negb (bool_decide (kubeconfig = existing))
  end.
Definition maybeWriteKubeConfigFile (path : string) (fs : FS) : option error * FS :=
  match createKubeConfig fs with
  | inr err => (Some err, fs)
  | inl kc => if shouldCreateKubeConfigFile kc path fs then AtomicWrite path kc 384 fs else (None, fs)
  end.

(** Reading a file, changing it and writing it back with its permissions. *)
Definition rewrite_file (path : string) (f : string -> string + error) (fs : FS) : option error * FS :=
  match ReadFile path fs with
  | inr _ => (Some (Errorf "failed to read cni config file"), fs)
  | inl old =>
      match f old with
      | inr err => (Some err, fs)
      | inl new =>
          match Stat path fs with
          | inr err => (Some err, fs)
          | inl mode => AtomicWrite path new mode fs
          end
      end
  end.
Definition non_empty (config : string + error) : string + error :=
  match config with
  | inl new => if decide (new = "") then inr (Errorf "kmesh cni config is not generated") else inl new
  | inr err => inr err
  end.

Definition chainedKmeshCniPlugin (mode dir : string) (fs : FS) : option error * FS :=
  match copyBinary kmeshCniPluginName MountedCNIBinDir fs with
  | (Some _, fs) => (Some (Errorf "copy binaries"), fs)
  | (None, fs) =>
      match maybeWriteKubeConfigFile (Join dir kmeshCniKubeConfig) fs with
      | (Some _, fs) => (Some (Errorf "write kubeconfig"), fs)
      | (None, fs) =>
          match getCniConfigPath fs with
          | inr err => (Some err, fs)
          | inl path => rewrite_file path (fun old => non_empty (insertCNIConfig old mode)) fs
          end
      end
  end.

Definition remove_if_exists (path : string) (fs : FS) : option error * FS :=
  if fileExists path fs then Remove path fs else (None, fs).
Definition removeChainedKmeshCniPlugin (fs : FS) : option error * FS :=
  match getCniConfigPath fs with
  | inr err => (Some err, fs)
  | inl path =>
      match rewrite_file path deleteCNIConfig fs with
      | (Some err, fs) => (Some err, fs)
      | (None, fs) =>
          match remove_if_exists (Join (CniMountNetEtcDIR inst) kmeshCniKubeConfig) fs with
          | (Some err, fs) => (Some err, fs)
          | (None, fs) => remove_if_exists (Join MountedCNIBinDir kmeshCniPluginName) fs
          end
      end
  end.

Definition addCniConfig (fs : FS) : option error * FS :=
  if CniConfigChained inst then chainedKmeshCniPlugin (Mode inst) (CniMountNetEtcDIR inst) fs else (None, fs).
Definition removeCniConfig (fs : FS) : option error * FS :=
  if CniConfigChained inst then removeChainedKmeshCniPlugin fs else (None, fs).

(** [Start] and [Stop], without the watching of the token. *)
Definition cni_mode : bool := bool_decide (Mode inst = "kernel-native") || bool_decide (Mode inst = "dual-engine").
Definition Stop (fs : FS) : FS := if cni_mode then (removeCniConfig fs).2 else fs.
Definition Start (fs : FS) : option error * FS :=
  if cni_mode then
    match addCniConfig fs with
    | (Some err, fs) => (Some err, Stop fs)
    | (None, fs) => (None, fs)
    end
  else (None, fs).
End config.

(** ** Inserting and removing the plugin *)
Definition object_of (v : JSON) : option (gmap string JSON) := match v with JObject m => Some m | _ => None end.
Definition foreign (v : JSON) : Prop := exists m, v = JObject m /\ is_kmesh m = false.

Lemma kmesh_index_foreign l i found : Forall foreign l -> kmesh_index i l found = inl found.
Proof.
  intros Hl. revert i found. induction Hl as [|v l (m & -> & Hm) _ IH]; intros i found; [done|]. cbn. rewrite Hm. apply IH.
Qed.
Lemma kmesh_index_last l i found m : Forall foreign l -> is_kmesh m = true ->
  kmesh_index i (l ++ [JObject m]) found = inl (Some (i + length l)%nat).
Proof.
  intros Hl Hm. revert i found. induction Hl as [|v l (m' & -> & Hm') _ IH]; intros i found; cbn.
  - rewrite Hm. by rewrite Nat.add_0_r.
  - rewrite Hm', IH. by rewrite Nat.add_succ_r.
Qed.
Lemma first_kmesh_last l i m : Forall foreign l -> is_kmesh m = true -> first_kmesh i (l ++ [JObject m]) = Some (i + length l)%nat.
Proof.
  intros Hl Hm. revert i. induction Hl as [|v l (m' & -> & Hm') _ IH]; intros i; cbn.
  - rewrite Hm. by rewrite Nat.add_0_r.
  - rewrite Hm', IH. by rewrite Nat.add_succ_r.
Qed.
Lemma kmeshConfig_is_kmesh inst mode : is_kmesh (kmeshConfig inst mode) = true.
Proof. vm_compute. reflexivity. Qed.

(** [encoding/json]: decoding what was encoded gives the value back. *)
Definition json_codec (Unmarshal : string -> gmap string JSON + error) (MarshalIndent : gmap string JSON -> string + error) : Prop :=
  forall m s, MarshalIndent m = inl s -> s <> "" /\ Unmarshal s = inl m.

Section codec.
Variable (Unmarshal : string -> gmap string JSON + error) (MarshalIndent : gmap string JSON -> string + error).
Hypothesis codec : json_codec Unmarshal MarshalIndent.
Variable inst : Installer.
#[local] Abbreviation insert_config := (insertCNIConfig Unmarshal MarshalIndent inst).
#[local] Abbreviation delete_config := (deleteCNIConfig Unmarshal MarshalIndent).

(** A configuration with the plugins [l]. *)
Definition config_with (config : string) (m : gmap string JSON) (l : list JSON) : Prop :=
  Unmarshal config = inl (<["plugins" := JArray l]> m).

Lemma marshal_inl m new : marshal MarshalIndent m = inl new -> new <> "" /\ Unmarshal new = inl m.
Proof. unfold marshal. destruct (MarshalIndent m) eqn:Em; [|done]. intros [= <-]. by apply codec. Qed.
Lemma insert_absent config m l mode new : config_with config m l -> Forall foreign l -> insert_config config mode = inl new ->
  new <> "" /\ config_with new m (l ++ [JObject (kmeshConfig inst mode)]).
Proof.
  intros Hc Hl. unfold insertCNIConfig. rewrite Hc, lookup_insert_eq, kmesh_index_foreign by done.
  rewrite insert_insert_eq. apply marshal_inl.
Qed.
Lemma insert_present config m l old mode new : config_with config m (l ++ [JObject old]) -> Forall foreign l -> is_kmesh old = true ->
  insert_config config mode = inl new -> new <> "" /\ config_with new m (l ++ [JObject (kmeshConfig inst mode)]).
Proof.
  intros Hc Hl Ho. unfold insertCNIConfig. rewrite Hc, lookup_insert_eq, kmesh_index_last by done. cbn [Nat.add].
  replace (length l) with (length l + 0)%nat by lia. rewrite insert_app_r. cbn [insert list_insert].
  rewrite insert_insert_eq. apply marshal_inl.
Qed.
Lemma delete_present config m l old new : config_with config m (l ++ [JObject old]) -> Forall foreign l -> is_kmesh old = true ->
  delete_config config = inl new -> config_with new m l.
Proof.
  intros Hc Hl Ho. unfold deleteCNIConfig. rewrite Hc, lookup_insert_eq, first_kmesh_last by done. cbn [Nat.add].
  rewrite take_app_length, drop_ge by (rewrite length_app; cbn; lia). rewrite app_nil_r, insert_insert_eq.
  intros Hm. by apply marshal_inl in Hm as [_ ?].
Qed.
End codec.

(** [libcni]: [ConfFiles] lists the files of the extension; reading one depends
    on that file only; a configuration that is accepted is accepted with one
    more plugin that has a type. *)
Definition is_conflist (path : string) : bool :=
  bool_decide (take 9 (reverse (String.list_ascii_of_string path)) = reverse (String.list_ascii_of_string ".conflist")).
Record libcni_laws (Unmarshal : string -> gmap string JSON + error) (ConfListFromFile : string -> FS -> nat + error)
    (ConfFiles : string -> FS -> list string + error) : Prop := {
  cl_files dir fs fs' :
    (forall p, is_conflist p = true -> is_Some (fs !! p) <-> is_Some (fs' !! p)) -> ConfFiles dir fs = ConfFiles dir fs';
  cl_conflist dir fs files p : ConfFiles dir fs = inl files -> p ∈ files -> is_conflist p = true;
  cl_read p fs fs' : fs !! p = fs' !! p -> ConfListFromFile p fs = ConfListFromFile p fs';
  cl_more p fs fs' f f' m l o t n :
    fs !! p = Some f -> fs' !! p = Some f' -> perm f' = perm f -> config_with Unmarshal (content f) m l ->
    config_with Unmarshal (content f') m (l ++ [JObject o]) -> o !! "type" = Some (JString t) -> t <> "" ->
    ConfListFromFile p fs = inl n -> ConfListFromFile p fs' = inl (S n)
}.

Lemma list_ascii_app a b : String.list_ascii_of_string (a +:+ b) = String.list_ascii_of_string a ++ String.list_ascii_of_string b.
Proof. induction a as [|c a IH]; [done|]. change (c :: String.list_ascii_of_string (a +:+ b) = c :: (String.list_ascii_of_string a ++ String.list_ascii_of_string b)). by rewrite IH. Qed.
Lemma is_conflist_Join dir name : (9 <= length (String.list_ascii_of_string name))%nat -> is_conflist (Join dir name) = is_conflist name.
Proof.
  intros Hl. unfold is_conflist, Join. rewrite !list_ascii_app, !reverse_app, <-!app_assoc.
  rewrite take_app_le by (by rewrite length_reverse). done.
Qed.
Lemma kube_no_conflist dir : is_conflist (Join dir kmeshCniKubeConfig) = false.
Proof. rewrite is_conflist_Join by (vm_compute; lia). vm_compute. reflexivity. Qed.
Lemma bin_no_conflist : is_conflist (Join MountedCNIBinDir kmeshCniPluginName) = false.
Proof. vm_compute. reflexivity. Qed.

Lemma first_conf_same ConfListFromFile files fs fs' conf n :
  first_conf ConfListFromFile files fs = Some conf ->
  (forall p, p ∈ files -> p <> conf -> ConfListFromFile p fs' = ConfListFromFile p fs) ->
  ConfListFromFile conf fs' = inl n -> n <> 0%nat -> first_conf ConfListFromFile files fs' = Some conf.
Proof.
  intros Hf Hsame Hn Hne. induction files as [|file rest IH]; [done|]. cbn in Hf |- *.
  assert (forall p, p ∈ rest -> p <> conf -> ConfListFromFile p fs' = ConfListFromFile p fs) as Hrest by (intros p Hp; apply Hsame; by right).
  destruct (decide (file = conf)) as [->|Hc]; [rewrite Hn; by rewrite decide_False|].
  rewrite Hsame by (done || by left). destruct (ConfListFromFile file fs) as [k|]; [|auto].
  case_decide; [auto|congruence].
Qed.

Section lifecycle.
Context `{HO : OS}.
Variable (Unmarshal : string -> gmap string JSON + error) (MarshalIndent : gmap string JSON -> string + error).
Variable (ConfListFromFile : string -> FS -> nat + error) (ConfFiles : string -> FS -> list string + error).
Variable (createKubeConfig : FS -> string + error) (inst : Installer).
Variable conf : string.
#[local] Abbreviation kube := (Join (CniMountNetEtcDIR inst) kmeshCniKubeConfig).
#[local] Abbreviation bin := (Join MountedCNIBinDir kmeshCniPluginName).
#[local] Abbreviation start := (Start Unmarshal MarshalIndent inst ConfListFromFile ConfFiles createKubeConfig).
#[local] Abbreviation add := (addCniConfig Unmarshal MarshalIndent inst ConfListFromFile ConfFiles createKubeConfig).
#[local] Abbreviation remove := (removeCniConfig Unmarshal MarshalIndent inst ConfListFromFile ConfFiles).

(** The two states agree outside the given paths. *)
Definition same_files_but (ps : list string) (fs fs' : FS) : Prop := forall p, (p ∉ ps) -> fs' !! p = fs !! p.

Lemma AtomicWrite_ok path data mode fs fs' : AtomicWrite path data mode fs = (None, fs') -> fs' = <[path := mkFile data mode]> fs.
Proof. intros Hw. destruct (AtomicWrite_atomic path data mode fs) as [[_ H1]|[[? H1] _]]; rewrite Hw in H1; done. Qed.
Lemma AtomicWrite_err path data mode fs fs' err : AtomicWrite path data mode fs = (Some err, fs') -> fs' = fs.
Proof. intros Hw. destruct (AtomicWrite_atomic path data mode fs) as [[H1 _]|[_ H1]]; rewrite Hw in H1; done. Qed.

Lemma AtomicCopy_ok src target fs fs' : AtomicCopy src target fs = (None, fs') -> exists f, fs' = <[target := f]> fs.
Proof.
  unfold AtomicCopy. destruct (sys_err SOpen src), (fs !! src); try done.
  destruct (Stat src fs), (ReadFile src fs); try done. intros Hw. apply AtomicWrite_ok in Hw as ->. by eexists.
Qed.
Lemma rewrite_file_ok path f fs fs' : rewrite_file path f fs = (None, fs') ->
  exists file new, fs !! path = Some file /\ f (content file) = inl new /\ fs' = <[path := mkFile new (perm file)]> fs.
Proof.
  unfold rewrite_file, ReadFile, Stat. destruct (sys_err SRead path), (fs !! path) as [file|]; try done.
  destruct (f (content file)) as [new|] eqn:Ef; [|done]. destruct (sys_err SStat path); [done|].
  intros Hw. apply AtomicWrite_ok in Hw as ->. by exists file, new.
Qed.
Lemma remove_if_exists_ok path fs fs' : remove_if_exists path fs = (None, fs') -> fs' = delete path fs.
Proof.
  unfold remove_if_exists, fileExists, Remove. destruct (sys_err SStat path) as [e|].
  - destruct (sys_err SRemove path), (fs !! path); congruence.
  - case_bool_decide as Hb.
    + destruct (sys_err SRemove path), (fs !! path); congruence.
    + intros [= ->]. symmetry. apply delete_id. by apply eq_None_not_Some.
Qed.

Lemma prepare_ok fs fs1 fs2 : copyBinary kmeshCniPluginName MountedCNIBinDir fs = (None, fs1) ->
  maybeWriteKubeConfigFile createKubeConfig kube fs1 = (None, fs2) -> same_files_but [bin; kube] fs fs2.
Proof.
  intros H1 H2 p Hp.
  assert (fs1 !! p = fs !! p) as <-.
  { apply AtomicCopy_ok in H1 as [f ->]. apply lookup_insert_ne. set_solver. }
  revert H2. unfold maybeWriteKubeConfigFile. destruct (createKubeConfig fs1); [|done].
  destruct (shouldCreateKubeConfigFile _ _ _); [|by intros [= ->]]. intros H2. apply AtomicWrite_ok in H2 as ->.
  apply lookup_insert_ne. set_solver.
Qed.

#[local] Abbreviation path_in := (getCniConfigPath inst ConfListFromFile ConfFiles).
Lemma path_accepted fs : path_in fs = inl conf -> exists n, ConfListFromFile conf fs = inl n /\ n <> 0%nat.
Proof.
  unfold getCniConfigPath. case_decide.
  - destruct (ConfListFromFile (Join _ _) fs) as [k|] eqn:E; [|done]. case_decide; [done|]. intros [= <-]. eauto.
  - destruct (ConfFiles _ fs) as [files|]; [|done]. destruct (first_conf _ files fs) as [c|] eqn:Hf; [|done]. intros [= ->].
    induction files as [|file rest IH]; [done|]. cbn in Hf. destruct (ConfListFromFile file fs) as [k|] eqn:E; [|auto].
    case_decide; [auto|]. injection Hf as ->. eauto.
Qed.
Hypothesis libcni : libcni_laws Unmarshal ConfListFromFile ConfFiles.

(** The configuration that was found is found again, as long as it is accepted
    and no other file than those of Kmesh has changed: by its name, or as the
    first of the directory. *)
Lemma path_again fs fs' n : path_in fs = inl conf -> same_files_but [conf; bin; kube] fs fs' ->
  (is_Some (fs !! conf) <-> is_Some (fs' !! conf)) -> ConfListFromFile conf fs' = inl n -> n <> 0%nat -> path_in fs' = inl conf.
Proof.
  intros Hp Hs Hsome Hn Hne. unfold getCniConfigPath in *. case_decide as Hname.
  - destruct (ConfListFromFile (Join _ _) fs) as [k|]; [|done]. case_decide; [done|]. injection Hp as Hc.
    rewrite Hc, Hn. by rewrite decide_False.
  - rewrite <-(cl_files _ _ _ libcni _ fs fs').
    + destruct (ConfFiles _ fs) as [files|] eqn:Hfiles; [|done]. destruct (first_conf _ files fs) as [c|] eqn:Hf; [|done].
      injection Hp as ->. rewrite (first_conf_same _ files fs fs' conf n); try done. intros p Hp Hpc.
      apply (cl_conflist _ _ _ libcni _ _ _ p) in Hfiles; [|done]. apply (cl_read _ _ _ libcni), Hs.
      pose proof bin_no_conflist. pose proof (kube_no_conflist (CniMountNetEtcDIR inst)).
      intros Hin. rewrite !elem_of_cons in Hin. destruct Hin as [->|[->|[->|Hin]]]; [done|congruence|congruence|by apply not_elem_of_nil in Hin].
    + intros p Hc. destruct (decide (p = conf)) as [->|Hpc]; [done|]. rewrite Hs; [done|].
      pose proof bin_no_conflist. pose proof (kube_no_conflist (CniMountNetEtcDIR inst)).
      intros Hin. rewrite !elem_of_cons in Hin. destruct Hin as [->|[->|[->|Hin]]]; [done|congruence|congruence|by apply not_elem_of_nil in Hin].
Qed.
Hypothesis codec : json_codec Unmarshal MarshalIndent.
Hypothesis chained : CniConfigChained inst = true.
Hypothesis conf_other : (conf <> kube /\ conf <> bin).

(** A successful installation adds the plugin at the end of the chain. *)
Lemma add_ok fs fs' file m l : path_in fs = inl conf -> fs !! conf = Some file ->
  config_with Unmarshal (content file) m l -> Forall foreign l -> add fs = (None, fs') -> exists new, fs' !! conf = Some (mkFile new (perm file)) /\
    config_with Unmarshal new m (l ++ [JObject (kmeshConfig inst (Mode inst))]) /\ same_files_but [conf; bin; kube] fs fs'.
Proof.
  intros Hp Hf Hc Hl. unfold addCniConfig. rewrite chained. unfold chainedKmeshCniPlugin.
  destruct (copyBinary _ _ fs) as [[e|] fs1] eqn:E1; [done|].
  destruct (maybeWriteKubeConfigFile _ _ fs1) as [[e|] fs2] eqn:E2; [done|].
  pose proof (prepare_ok _ _ _ E1 E2) as Hs. destruct conf_other as [Hk Hb].
  assert (fs2 !! conf = fs !! conf) as Hsame by (apply Hs; set_solver).
  destruct (path_accepted _ Hp) as (n & Hn0 & Hne0).
  rewrite (path_again fs fs2 n) by (done || (by rewrite Hsame) || (by rewrite <-Hn0; apply (cl_read _ _ _ libcni)) || (intros p ?; apply Hs; set_solver)).
  intros Hw. apply rewrite_file_ok in Hw as (file' & new & Hf' & Hn & ->).
  rewrite Hsame, Hf in Hf'. injection Hf' as <-.
  destruct (insertCNIConfig _ _ _ _ _) as [new'|] eqn:Hi; [|done].
  destruct (insert_absent _ _ codec inst _ m l (Mode inst) _ Hc Hl Hi) as (Hne & Hcw).
  cbn in Hn. rewrite decide_False in Hn by done. injection Hn as <-. exists new'. split_and!; [by rewrite lookup_insert_eq|done|]. intros q Hq. rewrite lookup_insert_ne by set_solver. apply Hs. set_solver.
Qed.
Lemma remove_ok fs fs' file m l old : path_in fs = inl conf -> fs !! conf = Some file -> config_with Unmarshal (content file) m (l ++ [JObject old]) ->
  Forall foreign l -> is_kmesh old = true -> remove fs = (None, fs') ->
  exists new, fs' !! conf = Some (mkFile new (perm file)) /\ config_with Unmarshal new m l /\
    fs' !! kube = None /\ fs' !! bin = None /\ same_files_but [conf; bin; kube] fs fs'.
Proof.
  intros Hp Hf Hc Hl Ho. unfold removeCniConfig. rewrite chained. unfold removeChainedKmeshCniPlugin. rewrite Hp.
  destruct (rewrite_file _ _ fs) as [[e|] fs1] eqn:E1; [done|].
  apply rewrite_file_ok in E1 as (file' & new & Hf' & Hn & ->). rewrite Hf in Hf'. injection Hf' as <-.
  destruct (remove_if_exists kube _) as [[e|] fs2] eqn:E2; [done|]. apply remove_if_exists_ok in E2 as ->.
  intros E3. apply remove_if_exists_ok in E3 as ->. destruct conf_other as [Hk Hb]. clear Hp.
  pose proof (delete_present _ _ codec _ m l old _ Hc Hl Ho Hn) as Hcw. exists new. split_and!.
  - by rewrite !lookup_delete_ne, lookup_insert_eq.
  - done.
  - destruct (decide (kube = bin)) as [->|]; [apply lookup_delete_eq|by rewrite lookup_delete_ne, lookup_delete_eq].
  - apply lookup_delete_eq.
  - intros p Hp. rewrite !lookup_delete_ne, lookup_insert_ne by set_solver. done.
Qed.
End lifecycle.

(** C17: Installing the plugin appends it to the chain of the CNI configuration
    that the installer finds, by its name or, by default, as the first usable one
    of the directory; removing it afterwards finds the same configuration, gives
    it back with its permissions, takes the kubeconfig and the binary away, and
    leaves every other file as it was.  It is stated for an installation and a
    removal that report success, in a mode that chains the plugin, and for a
    configuration whose plugins are objects, none of them Kmesh's. *)
Theorem install_then_remove `{OS} Unmarshal MarshalIndent ConfListFromFile ConfFiles createKubeConfig inst conf fs fs1 fs2 file m l :
  let kube := Join (CniMountNetEtcDIR inst) kmeshCniKubeConfig in
  let bin := Join MountedCNIBinDir kmeshCniPluginName in
  json_codec Unmarshal MarshalIndent -> libcni_laws Unmarshal ConfListFromFile ConfFiles ->
  CniConfigChained inst = true -> cni_mode inst = true ->
  getCniConfigPath inst ConfListFromFile ConfFiles fs = inl conf -> conf <> kube /\ conf <> bin ->
  fs !! conf = Some file -> config_with Unmarshal (content file) m l -> Forall foreign l ->
  Start Unmarshal MarshalIndent inst ConfListFromFile ConfFiles createKubeConfig fs = (None, fs1) ->
  removeCniConfig Unmarshal MarshalIndent inst ConfListFromFile ConfFiles fs1 = (None, fs2) ->
  (exists new, fs1 !! conf = Some (mkFile new (perm file)) /\
    config_with Unmarshal new m (l ++ [JObject (kmeshConfig inst (Mode inst))])) /\
  getCniConfigPath inst ConfListFromFile ConfFiles fs1 = inl conf /\
  Stop Unmarshal MarshalIndent inst ConfListFromFile ConfFiles fs1 = fs2 /\
  (exists new, fs2 !! conf = Some (mkFile new (perm file)) /\ config_with Unmarshal new m l) /\
  fs2 !! kube = None /\ fs2 !! bin = None /\ same_files_but [conf; bin; kube] fs fs2.
Proof.
  intros kube bin Hcodec Hlib Hch Hmode Hpath Hother Hf Hc Hl. unfold Start. rewrite Hmode.
  destruct (addCniConfig _ _ _ _ _ _ fs) as [[e|] fs'] eqn:Ea; [done|]. intros [= <-] Hr.
  destruct (add_ok _ _ _ _ _ _ _ Hlib Hcodec Hch Hother fs fs' file m l Hpath Hf Hc Hl Ea) as (new & Hn & Hcw & Hs).
  assert (exists n, ConfListFromFile conf fs = inl n /\ n <> 0%nat) as (n & Hacc & _) by (eapply path_accepted; exact Hpath).
  assert (getCniConfigPath inst ConfListFromFile ConfFiles fs' = inl conf) as Hpath'.
  { eapply path_again; [exact Hlib|exact Hpath|exact Hs|by rewrite Hf, Hn| |exact (Nat.neq_succ_0 n)].
    by eapply (cl_more _ _ _ Hlib conf fs fs' file (mkFile new (perm file)) m l (kmeshConfig inst (Mode inst)) kmeshCniPluginName). }
  destruct (remove_ok _ _ _ _ createKubeConfig inst conf Hlib Hcodec Hch Hother fs' fs2 (mkFile new (perm file)) m l _ Hpath' Hn Hcw Hl
    (kmeshConfig_is_kmesh _ _) Hr) as (new2 & Hn2 & Hcw2 & Hk & Hb & Hs2).
  split_and!; [by exists new|done| |by exists new2|done|done|].
  - unfold Stop. by rewrite Hmode, Hr.
  - intros p Hp. by rewrite Hs2, Hs.
Qed.

(** ** Equality of values, for concrete runs *)
Fixpoint json_tree (v : JSON) : gen_tree string :=
  match v with
  | JNull => GenNode 0 []
  | JBool b => GenNode (if b then 1 else 2) []
  | JNumber t => GenNode 3 [GenLeaf t]
  | JString t => GenNode 4 [GenLeaf t]
  | JArray l => GenNode 5 (json_tree <$> l)
  | JObject m => GenNode 6 ((fun kt => GenNode 0 [GenLeaf kt.1; kt.2]) <$> map_to_list (json_tree <$> m))
  end.
Fixpoint tree_size (t : gen_tree string) : nat :=
  match t with GenLeaf _ => 1 | GenNode _ l => S (sum_list (tree_size <$> l)) end.
Lemma tree_size_child l t : t ∈ l -> (tree_size t <= sum_list (tree_size <$> l))%nat.
Proof. induction 1; cbn; lia. Qed.

Lemma json_tree_inj_below n v w : (tree_size (json_tree v) < n)%nat -> json_tree v = json_tree w -> v = w.
Proof.
  revert v w. induction n as [|n IH]; intros v w Hn He; [lia|].
  destruct v as [|[]|t|t|l|m], w as [|[]|t'|t'|l'|m']; cbn in He; try done; try congruence.
  - f_equal. assert (json_tree <$> l = json_tree <$> l') as Hl by congruence. clear He.
    assert (forall x, x ∈ l -> (tree_size (json_tree x) < n)%nat) as Hs.
    { intros x Hx. apply (list_elem_of_fmap_2 json_tree) in Hx. apply tree_size_child in Hx. cbn in Hn. lia. }
    clear Hn. revert l' Hl. induction l as [|x l IHl]; intros [|y l'] Hl; try done. cbn in Hl. injection Hl as Hx Hl.
    f_equal; [apply IH; [apply Hs; by left|done]|]. apply IHl; [|done]. intros z Hz. apply Hs. by right.
  - f_equal. assert (json_tree <$> m = json_tree <$> m') as Hm.
    { apply map_to_list_inj. injection He as He. apply list_fmap_eq_inj in He; [by rewrite He|].
      intros [k1 t1] [k2 t2]. cbn. congruence. }
    apply map_eq. intros k. pose proof (f_equal (fun x => x !! k) Hm) as Hk. cbn in Hk. rewrite !lookup_fmap in Hk.
    destruct (m !! k) as [x|] eqn:Ex, (m' !! k) as [y|]; try done. cbn in Hk. f_equal. apply IH; [|congruence].
    assert ((k, json_tree x) ∈ map_to_list (json_tree <$> m)) as Hin.
    { apply elem_of_map_to_list. by rewrite lookup_fmap, Ex. }
    apply (list_elem_of_fmap_2 (fun kt => GenNode 0 [GenLeaf kt.1; kt.2])) in Hin. apply tree_size_child in Hin. cbn in Hin, Hn. lia.
Qed.
#[export] Instance json_tree_inj : Inj (=) (=) json_tree.
Proof. intros v w. apply (json_tree_inj_below (S (tree_size (json_tree v)))). lia. Qed.
#[export] Instance JSON_eq_dec : EqDecision JSON.
Proof. intros v w. destruct (decide (json_tree v = json_tree w)) as [He|He]; [left; by apply (inj json_tree)|right; congruence]. Defined.

(** A codec that knows a few configurations by their names. *)
Definition demo_inst : Installer := mkInstaller "dual-engine" false "/etc/cni/net.d" "" true "/sa".
Definition calico : JSON := JObject {[ "type" := JString "calico" ]}.
Definition demo_rest : gmap string JSON := {[ "name" := JString "k8s" ]}.
Definition demo_configs : list (string * gmap string JSON) :=
  [("plain", <["plugins" := JArray [calico]]> demo_rest);
   ("with kmesh", <["plugins" := JArray [calico; JObject (kmeshConfig demo_inst "dual-engine")]]> demo_rest)].
Definition demo_Unmarshal (text : string) : gmap string JSON + error :=
  match list_find (fun c => c.1 = text) demo_configs with Some (_, c) => inl c.2 | None => inr (Errorf "unknown") end.
Definition demo_MarshalIndent (m : gmap string JSON) : string + error :=
  match list_find (fun c => c.2 = m) demo_configs with Some (_, c) => inl c.1 | None => inr (Errorf "unknown") end.
Lemma demo_codec : json_codec demo_Unmarshal demo_MarshalIndent.
Proof.
  intros m s. unfold demo_MarshalIndent. destruct (list_find _ _) as [[i c]|] eqn:Ef; [|done].
  apply list_find_Some in Ef as (Hi & <- & _). intros [= <-].
  destruct i as [|[|i]]; cbn in Hi; simplify_eq; (split; [done|]); vm_compute; reflexivity.
Qed.

Definition demo_temp (path : string) (fs : FS) : string := fresh ({[path]} ∪ dom fs : gset string).
Lemma demo_temp_fresh path fs : demo_temp path fs ∉ ({[path]} ∪ dom fs : gset string).
Proof. apply is_fresh. Qed.
Lemma demo_temp_new path fs : fs !! demo_temp path fs = None.
Proof. apply not_elem_of_dom. pose proof (demo_temp_fresh path fs). set_solver. Qed.
Lemma demo_temp_other path fs : demo_temp path fs <> path.
Proof. pose proof (demo_temp_fresh path fs). set_solver. Qed.
Definition DemoOS : OS := {|
  sys_err := fun _ _ => None;
  CreateTemp := demo_temp;
  CreateTemp_new := demo_temp_new;
  CreateTemp_other := demo_temp_other
|}.

Definition demo_conf_count (path : string) (fs : FS) : nat + error :=
  match fs !! path with
  | Some f => match demo_Unmarshal (content f) with
              | inl m => match m !! "plugins" with Some (JArray l) => inl (length l) | _ => inr (Errorf "no plugins") end
              | inr e => inr e
              end
  | None => inr (Errorf "no such file")
  end.
Definition demo_fs : FS := {[ "/etc/cni/net.d/10-a.conflist" := mkFile "plain" 420; "/usr/bin/kmesh-cni" := mkFile "ELF" 493 ]}.
Definition demo_conf : string := "/etc/cni/net.d/10-a.conflist".
Definition demo_ConfFiles (dir : string) (fs : FS) : list string + error :=
  inl (filter (fun p => is_Some (fs !! p)) [demo_conf]).
Lemma demo_libcni : libcni_laws demo_Unmarshal demo_conf_count demo_ConfFiles.
Proof.
  split.
  - intros dir fs fs' Hs. unfold demo_ConfFiles. f_equal. apply list_filter_ext_in. intros p Hp.
    apply list_elem_of_singleton in Hp as ->. apply Hs. vm_compute. reflexivity.
  - intros dir fs files p [= <-] Hp. apply list_elem_of_filter in Hp as [_ Hp]. apply list_elem_of_singleton in Hp as ->.
    vm_compute. reflexivity.
  - intros p fs fs' Hs. unfold demo_conf_count. by rewrite Hs.
  - intros p fs fs' f f' m l o t n Hf Hf' _ Hc Hc' _ _. unfold demo_conf_count. unfold config_with in Hc, Hc'.
    rewrite Hf, Hf', Hc, Hc', !lookup_insert_eq, length_app. cbn. intros [= <-]. f_equal. lia.
Qed.
#[local] Existing Instance DemoOS.
#[local] Abbreviation demo_start := (Start demo_Unmarshal demo_MarshalIndent demo_inst demo_conf_count demo_ConfFiles (fun _ => inl "kubeconfig")).

Lemma install_then_remove_witness : exists fs1 fs2,
  demo_start demo_fs = (None, fs1) /\
  content <$> fs1 !! demo_conf = Some "with kmesh" /\
  fs1 !! "/opt/cni/bin/kmesh-cni" = Some (mkFile "ELF" 493) /\
  Stop demo_Unmarshal demo_MarshalIndent demo_inst demo_conf_count demo_ConfFiles fs1 = fs2 /\
  fs2 !! "/opt/cni/bin/kmesh-cni" = None /\ fs2 !! "/usr/bin/kmesh-cni" = Some (mkFile "ELF" 493).
Proof.
  destruct (demo_start demo_fs) as [err fs1] eqn:E1. assert (err = None) as -> by (revert E1; vm_compute; congruence).
  destruct (removeCniConfig demo_Unmarshal demo_MarshalIndent demo_inst demo_conf_count demo_ConfFiles fs1) as [err fs2] eqn:E2.
  assert (err = None) as ->.
  { pose proof (f_equal snd E1) as Hfs. cbn [snd] in Hfs. subst fs1. revert E2. clear E1. vm_compute. congruence. }
  destruct (install_then_remove demo_Unmarshal demo_MarshalIndent demo_conf_count demo_ConfFiles (fun _ => inl "kubeconfig")
    demo_inst demo_conf demo_fs fs1 fs2 (mkFile "plain" 420) demo_rest [calico]) as (_ & _ & Hstop & _ & _ & Hbin & Hsame).
  - exact demo_codec.
  - exact demo_libcni.
  - reflexivity.
  - vm_compute. reflexivity.
  - vm_compute. reflexivity.
  - split; vm_compute; done.
  - reflexivity.
  - vm_compute. reflexivity.
  - constructor; [|constructor]. eexists. split; [reflexivity|vm_compute; reflexivity].
  - exact E1.
  - exact E2.
  - exists fs1, fs2. split; [reflexivity|].
    pose proof (f_equal snd E1) as Hfs. cbn [snd] in Hfs.
    split; [rewrite <-Hfs; vm_compute; reflexivity|]. split; [rewrite <-Hfs; vm_compute; reflexivity|].
    split; [exact Hstop|]. split; [exact Hbin|].
    rewrite Hsame; [vm_compute; reflexivity|]. refine (bool_decide_unpack _ _). vm_compute. exact I.
Defined.
