(* ===== verification/CniPlugin.v ===== *)
(** * The CNI plugin: [pkg/cni/plugin/plugin.go], [pkg/utils/ebpf.go]

    The container runtime calls the plugin when the network of a pod is set up
    ([CmdAdd]) and torn down ([CmdDelete]).  What the libraries make of the
    input (the configuration, the previous result, the arguments), the
    Kubernetes client and the list of loaded programs are arguments. *)
From S2P Require Import Prelude GoNet Nets BpfCache BpfCommon Balancer SockOps Delivery Security Control Nic Enroll EnrollFacts.

Record cniConf : Type := mkCniConf {
  CNIVersion : string;
  RawPrevResult : option string;
  KubeConfig : string;
  conf_Mode : string;
  conf_EnableIpSec : bool
}.
Record k8sArgs : Type := mkK8sArgs { K8S_POD_NAME : string; K8S_POD_NAMESPACE : string }.
Record CmdArgs : Type := mkCmdArgs { StdinData : string; Args : string; Netns : string; IfName : string }.

Definition XDP_PROG_NAME : string := "xdp_authz".
Definition TC_MARK_ENCRYPT : string := "tc_mark_encrypt".

(** [GetProgramByName]: the programs of the system in the order of their ids,
    an element [inr] where a program or its information cannot be read. *)
Fixpoint GetProgramByName (progs : list ((string * Z) + error)) (name : string) : Z + error :=
  match progs with
  | [] => inr (Errorf "failed to get system next program id")
  | inr err :: _ => inr err
  | inl (n, fd) :: rest => if decide (n = name) then inl fd else GetProgramByName rest name
  end.

(** What a call of the plugin changes; [printed] is what [types.PrintResult]
    wrote: the result, in the format of a version. *)
Record World (Nics : Type) : Type := mkWorld {
  w_kern : Kernel;
  w_nics : Nics;
  w_pods : gmap (string * string) Pod;
  printed : option (string * string)
}.
Arguments mkWorld {Nics}. Arguments w_kern {Nics}. Arguments w_nics {Nics}. Arguments w_pods {Nics}. Arguments printed {Nics}.

Section plugin.
Context `{Helpers} {Nics : Type} `{Netlink Nics}.
Variable node : Node.
Variable parse_conf : string -> cniConf + error.              (* json.Unmarshal *)
Variable convert_result : string -> string -> string + error. (* NewResult, NewResultFromResult: by version *)
Variable LoadArgs : string -> k8sArgs + error.
Variable kube_client_err : string -> option error.            (* CreateKubeClient *)
Variable namespaces : gmap string Namespace.                  (* of the API server *)
Variable patch_err : string * string -> option error.
Variable progs : list ((string * Z) + error).
Variable print_err : string -> string -> option error.        (* types.PrintResult: conversion or writing *)

Definition getPrevCniResult (conf : cniConf) : string + error :=
  match RawPrevResult conf with
  | None => inr (Errorf "kmesh-cni can not use standalone")
  | Some prev => convert_result (CNIVersion conf) prev
  end.

(** The configuration, the arguments and the previous result, as far as they
    could be read. *)
Definition parseSkelArgs (args : CmdArgs) : option cniConf * option k8sArgs * option string * option error :=
  match parse_conf (StdinData args) with
  | inr err => (None, None, None, Some err)
  | inl conf =>
      match getPrevCniResult conf with
      | inr err => (None, None, None, Some err)
      | inl result =>
          match LoadArgs (Args args) with
          | inr err => (None, None, Some result, Some err)
          | inl k8s => (Some conf, Some k8s, Some result, None)
          end
      end
  end.

#[local] Abbreviation W := (World Nics).
Definition PrintResult (result : string) (conf : cniConf) (w : W) : outcome (option error * W) :=
  match print_err result (CNIVersion conf) with
  | Some err => Done (Some err, w)
  | None => Done (None, mkWorld (w_kern w) (w_nics w) (w_pods w) (Some (result, CNIVersion conf)))
  end.

Definition enableXdpAuth (ns ifname : string) (n : Nics) : option error * Nics :=
  match GetProgramByName progs XDP_PROG_NAME with
  | inr err => (Some err, n)
  | inl fd =>
      match LinkByName ns ifname with
      | Some err => (Some err, n)
      | None => LinkSetXdpFdWithFlags ns ifname fd 0 n
      end
  end.

Definition enableTcMarkEncrypt (args : CmdArgs) (n : Nics) : option error * Nics :=
  match GetProgramByName progs TC_MARK_ENCRYPT with
  | inr _ => (Some (Errorf "failed to get tc program"), n)
  | inl tc =>
      match GetVethPeerIndexFromName (Netns args) (IfName args) with
      | (_, Some err) => (Some err, n)
      | (ifIndex, None) =>
          if decide (ifIndex = 0) then (Some (Errorf "failed to find valid peer interface index"), n)
          else match LinkByIndex ifIndex with
               | Some _ => (Some (Errorf "failed to link valid interface"), n)
               | None =>
                   let '(err, n) := ManageTCProgramByFd ifIndex tc TC_ATTACH n in
                   (match err with Some _ => Some (Errorf "failed to attach tc program") | None => None end, n)
               end
      end
  end.

(** The programs on the interface of a pod that was enrolled. *)
Definition set_w_nics n (w : W) : W := mkWorld (w_kern w) n (w_pods w) (printed w).
Definition attach_programs (args : CmdArgs) (conf : cniConf) (w : W) : option error * W :=
  let '(err, n) := if decide (conf_Mode conf = DualEngineMode) then enableXdpAuth (Netns args) (IfName args) (w_nics w)
                   else (None, w_nics w) in
  let w := set_w_nics n w in
  match err with
  | Some _ => (Some (Errorf "failed to set xdp to dev"), w)
  | None =>
      if conf_EnableIpSec conf then
        let '(err, n) := enableTcMarkEncrypt args (w_nics w) in
        (match err with Some _ => Some (Errorf "failed to link tc program") | None => None end, set_w_nics n w)
      else (None, w)
  end.

Definition control_ns (path : string) (enroll : bool) (k : Kernel) : option error * Kernel :=
  HandleKmeshManage (bpf_monitoring node) (bpf_reserved node) (bpf_node_ip node) (bpf_gateway node) (bpf_stale node)
    (netns node path) enroll k.

Definition CmdAdd (args : CmdArgs) (w : W) : outcome (option error * W) :=
  match parseSkelArgs args with
  | (conf, _, preResult, Some err) =>
      match preResult with
      | None => Done (Some err, w)
      | Some preResult =>
          match conf with
          | None => Panic "nil pointer dereference"
          | Some conf => PrintResult preResult conf w
          end
      end
  | (Some conf, Some k8s, Some preResult, None) =>
      let podName := K8S_POD_NAME k8s in
      let podNamespace := K8S_POD_NAMESPACE k8s in
      if decide (podName = "" \/ podNamespace = "") then PrintResult preResult conf w
      else
        match kube_client_err (KubeConfig conf) with
        | Some _ => Done (Some (Errorf "failed to get k8s client"), w)
        | None =>
            match w_pods w !! (podNamespace, podName) with
            | None => Done (Some (Errorf "failed to get pod"), w)
            | Some pod =>
                match namespaces !! pod_namespace pod with
                | None => Done (Some (Errorf "failed to get namespace"), w)
                | Some namespace =>
                    if negb (ShouldEnroll (SidecarStatus_Name node) (Some pod) (Some namespace)) then PrintResult preResult conf w
                    else
                      let '(err, k) := control_ns (Netns args) true (w_kern w) in
                      let w := mkWorld k (w_nics w) (w_pods w) (printed w) in
                      match err with
                      | Some err => Done (Some err, w)
                      | None =>
                          let pods := (PatchKmeshRedirectAnnotation patch_err pod (w_pods w)).2 in
                          let w := mkWorld (w_kern w) (w_nics w) pods (printed w) in
                          match attach_programs args conf w with
                          | (Some err, w) => Done (Some err, w)
                          | (None, w) => PrintResult preResult conf w
                          end
                      end
                end
            end
        end
  | _ => Panic "unreachable"
  end.

Definition CmdCheck (args : CmdArgs) : option error := None.
Definition CmdDelete (args : CmdArgs) (w : W) : option error * W :=
  (None, mkWorld (control_ns (Netns args) false (w_kern w)).2 (w_nics w) (w_pods w) (printed w)).
End plugin.

Section facts.
Context `{HH : Helpers} {Nics : Type} `{HL : NetlinkLaws Nics}.
Variable node : Node.
Variables (parse_conf : string -> cniConf + error) (convert_result : string -> string -> string + error)
  (LoadArgs : string -> k8sArgs + error) (kube_client_err : string -> option error) (namespaces : gmap string Namespace)
  (patch_err : string * string -> option error) (progs : list ((string * Z) + error)).

Lemma GetProgramByName_found name fd : GetProgramByName progs name = inl fd -> inl (name, fd) ∈ progs.
Proof.
  induction progs as [|[[n f]|e] l IH]; cbn; [done| |done]. case_decide as Hd.
  - intros [= ->]. subst. by left.
  - intros Hf. right. by apply IH.
Qed.

Lemma enableXdpAuth_runs ns ifname fd n n' : GetProgramByName progs XDP_PROG_NAME = inl fd -> 0 <= fd ->
  enableXdpAuth progs ns ifname n = (None, n') -> xdp_runs ns ifname fd n'.
Proof.
  intros Hg Hfd. unfold enableXdpAuth. rewrite Hg. destruct (LinkByName ns ifname); [done|]. intros Hs.
  pose proof (xdp_set_runs ns ifname fd n Hfd) as Hr. rewrite Hs in Hr. by apply Hr.
Qed.
End facts.

(** C18: When the runtime adds a pod that is to be enrolled and the call
    succeeds, control is on in the pod's network namespace, the pod is
    annotated, in dual-engine mode the XDP program runs on its interface, and the
    previous result is handed on; taking the pod down switches control off
    again and never fails.  For a pod that is not to be enrolled the previous
    result is handed on, unless it cannot be written, which the call reports,
    and nothing else changes.  The interface is followed in the configuration
    without IPsec; the API server refuses no patch, and the pod's network
    namespace can be reached by a control command. *)
Theorem plugin_enrolls `{Helpers} {Nics} `{NetlinkLaws Nics} node parse_conf convert_result LoadArgs kube_client_err
    namespaces progs print_err args conf k8s result pod ns net v6 (w : World Nics) :
  map_accepts -> parse_conf (StdinData args) = inl conf -> getPrevCniResult convert_result conf = inl result ->
  LoadArgs (Args args) = inl k8s -> K8S_POD_NAME k8s <> "" -> K8S_POD_NAMESPACE k8s <> "" ->
  kube_client_err (KubeConfig conf) = None ->
  w_pods w !! pod_key pod = Some pod -> pod_key pod = (K8S_POD_NAMESPACE k8s, K8S_POD_NAME k8s) ->
  namespaces !! pod_namespace pod = Some ns ->
  netns node (Netns args) = Some net -> sockets_work net -> reachable_by net v6 ->
  match CmdAdd node parse_conf convert_result LoadArgs kube_client_err namespaces (fun _ => None) progs print_err args w with
  | Done (err, w') =>
      if ShouldEnroll (SidecarStatus_Name node) (Some pod) (Some ns) then
        err = None ->
        is_Some (map_of_manager (w_kern w') !! ns_key net) /\
        map_of_manager (w_kern (CmdDelete node args w').2) !! ns_key net = None /\ (CmdDelete node args w').1 = None /\
        annotated <$> w_pods w' !! pod_key pod = Some true /\ printed w' = Some (result, CNIVersion conf) /\
        (conf_Mode conf = DualEngineMode -> conf_EnableIpSec conf = false -> forall fd,
           GetProgramByName progs XDP_PROG_NAME = inl fd -> 0 <= fd -> xdp_runs (Netns args) (IfName args) fd (w_nics w'))
      else err = print_err result (CNIVersion conf) /\
        w' = (if decide (err = None) then mkWorld (w_kern w) (w_nics w) (w_pods w) (Some (result, CNIVersion conf)) else w)
  | _ => False
  end.
Proof.
  intros Hok Hc Hr Ha Hn1 Hn2 Hk Hp Hkey Hns Hnet Hs Hv.
  assert (forall k on, map_of_manager (control_ns node (Netns args) on k).2 !! ns_key net = if on then Some 0 else None) as Hctl.
  { intros k on. unfold control_ns. rewrite Hnet, (HandleKmeshManage_run _ _ _ _ _ net v6) by done. cbn [snd].
    destruct (ns_address_key net v6); rewrite !command_effect_lookup; repeat case_decide; naive_solver. }
  unfold CmdAdd, parseSkelArgs. rewrite Hc, Hr, Ha, decide_False by naive_solver. rewrite Hk, <-Hkey, Hp, Hns.
  destruct (ShouldEnroll _ _ _); cbn [negb]; [|unfold PrintResult; by destruct (print_err _ _)].
  specialize (Hctl (w_kern w) true) as Hon. destruct (control_ns node (Netns args) true (w_kern w)) as [[err|] k1]; [done|].
  cbn [snd] in Hon. destruct (attach_programs _ _ _ _) as [[err|] w1] eqn:Eat; [done|].
  unfold PrintResult. destruct (print_err result (CNIVersion conf)) as [err|]; [done|]. intros _.
  assert (w_kern w1 = k1 /\ w_pods w1 = (PatchKmeshRedirectAnnotation (fun _ => None) pod (w_pods w)).2) as [Hk1 Hp1].
  { revert Eat. unfold attach_programs. destruct (if decide _ then _ else _) as [[?|] n1]; [done|].
    destruct (conf_EnableIpSec conf); [destruct (enableTcMarkEncrypt _ _ _) as [[?|] n2]; [done|]|]; intros [= <-]; done. }
  cbn [w_kern w_pods w_nics printed PrintResult]. split_and!; try done.
  - rewrite Hk1, Hon. by eexists.
  - unfold CmdDelete. cbn [snd w_kern]. apply Hctl.
  - rewrite Hp1. unfold PatchKmeshRedirectAnnotation. destruct (annotated pod) eqn:Ea; cbn [snd]; [by rewrite Hp; cbn; rewrite Ea|].
    unfold Patch. rewrite Hp. cbn [snd]. rewrite lookup_insert_eq. cbn. by rewrite annotated_set.
  - intros Hd Hi fd Hfd Hpos. revert Eat. unfold attach_programs. rewrite decide_True by done.
    destruct (enableXdpAuth _ _ _ _) as [[?|] n1] eqn:Ex; [done|]. rewrite Hi. intros [= <-]. cbn.
    eapply enableXdpAuth_runs; done.
Qed.

(** When the previous result can be read but the arguments of the runtime
    cannot, the error path reads the version from the configuration that
    [parseSkelArgs] did not return: the plugin crashes instead of handing the
    previous result on. *)
Theorem unreadable_args_crash `{Helpers} {Nics} `{Netlink Nics} node parse_conf convert_result LoadArgs kube_client_err
    namespaces patch_err progs print_err args conf result err (w : World Nics) :
  parse_conf (StdinData args) = inl conf -> getPrevCniResult convert_result conf = inl result -> LoadArgs (Args args) = inr err ->
  CmdAdd node parse_conf convert_result LoadArgs kube_client_err namespaces patch_err progs print_err args w = Panic "nil pointer dereference".
Proof. intros Hc Hr Ha. unfold CmdAdd, parseSkelArgs. by rewrite Hc, Hr, Ha. Qed.

#[local] Existing Instance HelpersOk.
#[local] Existing Instance demo_pod_nics.
Definition demo_conf : cniConf := mkCniConf "1.0.0" (Some "prev") "/etc/kube" "dual-engine" false.
Definition demo_args : CmdArgs := mkCmdArgs "conf" "args" "/host/proc/20/ns/net" "eth0".
Definition demo_progs : list ((string * Z) + error) := [inl ("other", 4); inl (XDP_PROG_NAME, 7)].
Definition demo_w : World DemoNics := mkWorld demo_kernel0 (mkDemoNics ∅ ∅) demo_api None.
Definition demo_add : CmdArgs -> World DemoNics -> outcome (option error * World DemoNics) :=
  CmdAdd demo_node (fun _ => inl demo_conf) (fun _ prev => inl prev)
    (fun text => if decide (text = "args") then inl (mkK8sArgs "a" "app") else inr (Errorf "invalid CNI_ARGS pair"))
    (fun _ => None) {[ "app" := kmesh_ns ]} (fun _ => None) demo_progs (fun _ _ => None).

Lemma plugin_enrolls_witness : exists w', demo_add demo_args demo_w = Done (None, w') /\
  is_Some (map_of_manager (w_kern w') !! ns_key demo_ns) /\ printed w' = Some ("prev", "1.0.0").
Proof.
  assert (exists w', demo_add demo_args demo_w = Done (None, w')) as [w' Hw].
  { destruct (demo_add demo_args demo_w) as [[[e|] w']| |] eqn:E; [exfalso; revert E; vm_compute; discriminate|by exists w'| |];
      exfalso; revert E; vm_compute; discriminate. }
  exists w'. split; [exact Hw|].
  pose proof (demo_netlink_laws [mkIface "lo" true true; mkIface "eth0" false true] : NetlinkLaws DemoNics) as HL.
  pose proof (plugin_enrolls demo_node (fun _ => inl demo_conf) (fun _ prev => inl prev)
    (fun text => if decide (text = "args") then inl (mkK8sArgs "a" "app") else inr (Errorf "invalid CNI_ARGS pair"))
    (fun _ => None) {[ "app" := kmesh_ns ]} demo_progs (fun _ _ => None) demo_args demo_conf (mkK8sArgs "a" "app") "prev" pod_a kmesh_ns demo_ns false demo_w) as Hp.
  unfold demo_add in Hw. rewrite Hw in Hp. specialize (Hp ltac:(done) eq_refl eq_refl eq_refl).
  destruct Hp as (H1 & _ & _ & _ & H2 & _);
    [done|done|reflexivity|vm_compute; reflexivity|reflexivity|reflexivity|vm_compute; reflexivity|done|right; vm_compute; reflexivity|reflexivity|].
  split; [exact H1|exact H2].
Defined.

Lemma unreadable_args_crash_witness : demo_add (mkCmdArgs "conf" "garbage" "/host/proc/20/ns/net" "eth0") demo_w = Panic "nil pointer dereference".
Proof.
  apply (unreadable_args_crash demo_node (fun _ => inl demo_conf) (fun _ prev => inl prev)
    (fun text => if decide (text = "args") then inl (mkK8sArgs "a" "app") else inr (Errorf "invalid CNI_ARGS pair"))
    (fun _ => None) {[ "app" := kmesh_ns ]} (fun _ => None) demo_progs (fun _ _ => None)
    (mkCmdArgs "conf" "garbage" "/host/proc/20/ns/net" "eth0") demo_conf "prev" (Errorf "invalid CNI_ARGS pair"));
    [reflexivity|reflexivity|vm_compute; reflexivity].
Defined.
