(* ===== verification/Telemetry.v ===== *)
(** * Connection metrics: [pkg/controller/telemetry/metric.go], [accesslog.go],
    [utils.go]

    The metric controller reads the reports of the BPF probe from a ring
    buffer, turns the running totals of a connection into differences, labels
    them with what the caches know about the two ends, adds them up, and hands
    the sums to Prometheus every five seconds.  The client library of
    Prometheus is the class [Prometheus].  [time_string] is the text of a time in
    the time zone of the node; an entry of the access log is kept as the
    values it is printed from. *)
From S2P Require Import Prelude GoNet Api Runtime WorkloadCache ServiceCache BpfCommon.

(** ** [float64]

    The counters are sums of non-negative integers: a [float64] of this kind is
    the integer, rounded to 53 significant bits, ties to even. *)
Definition f64_round (z : Z) : Z :=
  let e := Z.log2 z - 52 in
  if e <=? 0 then z
  else
    let q := Z.shiftr z e in
    let rest := z - Z.shiftl q e in
    let half := Z.shiftl 1 (e - 1) in
    let up := (half <? rest) || ((half =? rest) && Z.odd q) in
    Z.shiftl (if up then q + 1 else q) e.
Definition f64_add (a b : Z) : Z := f64_round (a + b).

(** ** Constants *)
Definition TCP_ESTABLISHED : Z := 1.
Definition TCP_CLOSED : Z := 7.
Definition connection_success : Z := 1.
Definition DEFAULT_UNKNOWN : string := "-".
Definition LONG_CONN_METRIC_THRESHOLD : Z := 5 * 1000000000.
Definition MSG_TYPE_IPV4 : Z := 0.
Definition MSG_TYPE_IPV6 : Z := 1.

Definition TCP_STATES : gmap Z string := list_to_map [
  (1, "BPF_TCP_ESTABLISHED"); (2, "BPF_TCP_SYN_SENT"); (3, "BPF_TCP_SYN_RECV");
  (4, "BPF_TCP_FIN_WAIT1"); (5, "BPF_TCP_FIN_WAIT2"); (6, "BPF_TCP_TIME_WAIT");
  (7, "BPF_TCP_CLOSE"); (8, "BPF_TCP_CLOSE_WAIT"); (9, "BPF_TCP_LAST_ACK");
  (10, "BPF_TCP_LISTEN"); (11, "BPF_TCP_CLOSING"); (12, "BPF_TCP_NEW_SYN_RECV");
  (13, "BPF_TCP_MAX_STATES")].

(** ** What the probe reports *)
Record statistics : Type := mkStatistics {
  SentBytes : Z; ReceivedBytes : Z; ConnectSuccess : Z; Direction : Z; State : Z;
  Duration : Z; StartTime : Z; LastReportTime : Z;
  Protocol : Z; SRttTime : Z; RttMin : Z; Retransmits : Z; LostPackets : Z
}.
Record connectionDataV4 : Type := mkDataV4 {
  SrcAddr4 : Z; DstAddr4 : Z; SrcPort4 : Z; DstPort4 : Z; OriginalAddr4 : Z; OriginalPort4 : Z;
  stats4 : statistics
}.
Record connectionDataV6 : Type := mkDataV6 {
  SrcAddr6 : list Z; DstAddr6 : list Z; SrcPort6 : Z; DstPort6 : Z;
  OriginalAddr6 : list Z; OriginalPort6 : Z;
  stats6 : statistics
}.

(** [binary.Read] with [LittleEndian]: the fields one after the other, the blank
    ones skipped, without the padding that a compiler would add. *)
Definition read_statistics (b : bytes) : statistics :=
  {| SentBytes := ld 4 0 b; ReceivedBytes := ld 4 4 b; ConnectSuccess := ld 4 8 b;
     Direction := ld 4 12 b; State := ld 4 16 b;
     Duration := ld 8 20 b; StartTime := ld 8 28 b; LastReportTime := ld 8 36 b;
     Protocol := ld 4 44 b; SRttTime := ld 4 48 b; RttMin := ld 4 52 b;
     Retransmits := ld 4 56 b; LostPackets := ld 4 60 b |}.
Definition words4 (off : nat) (b : bytes) : list Z := (fun i => ld 4 (off + 4 * i) b) <$> [0; 1; 2; 3]%nat.
Definition Read_V4 (b : bytes) : option connectionDataV4 :=
  if decide (length b < 124)%nat then None
  else Some {| SrcAddr4 := ld 4 0 b; DstAddr4 := ld 4 4 b; SrcPort4 := ld 2 8 b; DstPort4 := ld 2 10 b;
               OriginalAddr4 := ld 4 36 b; OriginalPort4 := ld 2 40 b;
               stats4 := read_statistics (drop 56 b) |}.
Definition Read_V6 (b : bytes) : option connectionDataV6 :=
  if decide (length b < 124)%nat then None
  else Some {| SrcAddr6 := words4 0 b; DstAddr6 := words4 16 b; SrcPort6 := ld 2 32 b; DstPort6 := ld 2 34 b;
               OriginalAddr6 := words4 36 b; OriginalPort6 := ld 2 52 b;
               stats6 := read_statistics (drop 56 b) |}.

(** ** Connections *)
Record connMetric : Type := mkConnMetric {
  cm_receivedBytes : Z; cm_sentBytes : Z; cm_totalRetrans : Z; cm_packetLost : Z; totalReports : Z
}.
Definition connMetric_zero : connMetric := mkConnMetric 0 0 0 0 0.

Record connectionSrcDst : Type := mkConn {
  src : list Z; dst : list Z;                    (* [4]uint32 *)
  srcPort : Z; dstPort : Z; c_direction : Z
}.
#[export] Instance connectionSrcDst_eq_dec : EqDecision connectionSrcDst.
Proof. solve_decision. Defined.
#[export] Instance connectionSrcDst_countable : Countable connectionSrcDst.
Proof.
  apply (inj_countable' (fun c => (src c, dst c, srcPort c, dstPort c, c_direction c))
    (fun '(a, b, c, d, e) => mkConn a b c d e)).
  by intros [].
Defined.

Record requestMetric : Type := mkRequestMetric {
  conSrcDstInfo : connectionSrcDst;
  origDstAddr : list Z; origDstPort : Z;
  receivedBytes : Z; sentBytes : Z;
  rm_state : Z; rm_success : Z;
  rm_duration : Z; rm_startTime : Z; lastReportTime : Z;
  srtt : Z; minRtt : Z;
  totalRetrans : Z; packetLost : Z
}.

Abbreviation tcpConns_t := (gmap connectionSrcDst connMetric) (only parsing).

(** The part that the two functions below share: the differences to the last
    report, and the new totals.  A connection that is not in the map reads as
    zeros. *)
Definition difference (conn : connectionSrcDst) (orig : list Z * Z) (st : statistics)
    (tcpConns : tcpConns_t) : requestMetric :=
  let cm := default connMetric_zero (tcpConns !! conn) in
  {| conSrcDstInfo := conn; origDstAddr := orig.1; origDstPort := orig.2;
     receivedBytes := (ReceivedBytes st -32 cm_receivedBytes cm)%go;
     sentBytes := (SentBytes st -32 cm_sentBytes cm)%go;
     rm_state := State st; rm_success := ConnectSuccess st;
     rm_duration := Duration st; rm_startTime := StartTime st; lastReportTime := LastReportTime st;
     srtt := SRttTime st; minRtt := RttMin st;
     totalRetrans := (Retransmits st -32 cm_totalRetrans cm)%go;
     packetLost := (LostPackets st -32 cm_packetLost cm)%go |}.
Definition note_totals (conn : connectionSrcDst) (st : statistics) (tcpConns : tcpConns_t) : tcpConns_t :=
  match tcpConns !! conn with
  | Some cm => <[conn := mkConnMetric (ReceivedBytes st) (SentBytes st) (Retransmits st) (LostPackets st)
                           (totalReports cm +32 1)%go]> tcpConns
  | None => <[conn := mkConnMetric (ReceivedBytes st) (SentBytes st) (Retransmits st) (LostPackets st) 1]> tcpConns
  end.

(** An IPv4 address is the first of the four words. *)
Definition buildV4Metric (buf : bytes) (tcpConns : tcpConns_t) : option (requestMetric * tcpConns_t) :=
  rawStats ← Read_V4 buf;
  let conn := mkConn [SrcAddr4 rawStats; 0; 0; 0] [DstAddr4 rawStats; 0; 0; 0]
                (SrcPort4 rawStats) (DstPort4 rawStats) (Direction (stats4 rawStats)) in
  let orig :=
    if OriginalAddr4 rawStats =? 0 then ([DstAddr4 rawStats; 0; 0; 0], DstPort4 rawStats)
    else ([OriginalAddr4 rawStats; 0; 0; 0], OriginalPort4 rawStats) in
  Some (difference conn orig (stats4 rawStats) tcpConns, note_totals conn (stats4 rawStats) tcpConns).

Fixpoint isOrigDstSet (addr : list Z) : bool :=
  match addr with
  | [] => false
  | v :: addr => if v =? 0 then isOrigDstSet addr else true
  end.
Definition buildV6Metric (buf : bytes) (tcpConns : tcpConns_t) : option (requestMetric * tcpConns_t) :=
  rawStats ← Read_V6 buf;
  let conn := mkConn (SrcAddr6 rawStats) (DstAddr6 rawStats)
                (SrcPort6 rawStats) (DstPort6 rawStats) (Direction (stats6 rawStats)) in
  let orig :=
    if negb (isOrigDstSet (OriginalAddr6 rawStats)) then (DstAddr6 rawStats, DstPort6 rawStats)
    else (OriginalAddr6 rawStats, OriginalPort6 rawStats) in
  Some (difference conn orig (stats6 rawStats) tcpConns, note_totals conn (stats6 rawStats) tcpConns).

(** ** Labels

    The three label types have groups of fields in common; each group is a
    record here, and [workload_fields], [service_fields] and [connection_fields]
    list the fields of the structs in their order. *)
Record sourceLabels : Type := mkSource {
  sourceWorkload : string; sourceCanonicalService : string; sourceCanonicalRevision : string;
  sourceWorkloadNamespace : string; sourcePrincipal : string; sourceApp : string;
  sourceVersion : string; sourceCluster : string
}.
Record podLabels : Type := mkPodLabels {
  destinationPodAddress : string; destinationPodNamespace : string; destinationPodName : string
}.
Record svcLabels : Type := mkSvcLabels {
  destinationService : string; destinationServiceNamespace : string; destinationServiceName : string
}.
Record destinationLabels : Type := mkDestination {
  destinationWorkload : string; destinationCanonicalService : string; destinationCanonicalRevision : string;
  destinationWorkloadNamespace : string; destinationPrincipal : string; destinationApp : string;
  destinationVersion : string; destinationCluster : string
}.
Record requestLabels : Type := mkRequestLabels {
  requestProtocol : string; responseFlags : string; connectionSecurityPolicy : string
}.
Definition source_zero : sourceLabels := mkSource "" "" "" "" "" "" "" "".
Definition destination_zero : destinationLabels := mkDestination "" "" "" "" "" "" "" "".

Record workloadMetricLabels : Type := mkWorkloadLabels {
  wm_reporter : string; wm_source : sourceLabels; wm_pod : podLabels;
  wm_destination : destinationLabels; wm_request : requestLabels
}.
Record serviceMetricLabels : Type := mkServiceLabels {
  sm_reporter : string; sm_source : sourceLabels; sm_service : svcLabels;
  sm_destination : destinationLabels; sm_request : requestLabels
}.
Record connectionMetricLabels : Type := mkConnectionLabels {
  cn_reporter : string; cn_startTime : string; cn_source : sourceLabels; cn_sourceAddress : string;
  cn_destinationAddress : string; cn_pod : podLabels; cn_service : svcLabels;
  cn_destination : destinationLabels; cn_request : requestLabels
}.
Definition NewWorkloadMetricLabel : workloadMetricLabels :=
  mkWorkloadLabels "" source_zero (mkPodLabels "" "" "") destination_zero (mkRequestLabels "" "" "").
Definition NewServiceMetricLabel : serviceMetricLabels :=
  mkServiceLabels "" source_zero (mkSvcLabels "" "" "") destination_zero (mkRequestLabels "" "" "").
Definition NewConnectionMetricLabel : connectionMetricLabels :=
  mkConnectionLabels "" "" source_zero "" "" (mkPodLabels "" "" "") (mkSvcLabels "" "" "")
    destination_zero (mkRequestLabels "" "" "").

Definition source_fields (x : sourceLabels) : list (string * string) := [
  ("sourceWorkload", sourceWorkload x); ("sourceCanonicalService", sourceCanonicalService x);
  ("sourceCanonicalRevision", sourceCanonicalRevision x);
  ("sourceWorkloadNamespace", sourceWorkloadNamespace x); ("sourcePrincipal", sourcePrincipal x);
  ("sourceApp", sourceApp x); ("sourceVersion", sourceVersion x); ("sourceCluster", sourceCluster x)].
Definition pod_fields (x : podLabels) : list (string * string) := [
  ("destinationPodAddress", destinationPodAddress x); ("destinationPodNamespace", destinationPodNamespace x);
  ("destinationPodName", destinationPodName x)].
Definition svc_fields (x : svcLabels) : list (string * string) := [
  ("destinationService", destinationService x);
  ("destinationServiceNamespace", destinationServiceNamespace x);
  ("destinationServiceName", destinationServiceName x)].
Definition destination_fields (x : destinationLabels) : list (string * string) := [
  ("destinationWorkload", destinationWorkload x);
  ("destinationCanonicalService", destinationCanonicalService x);
  ("destinationCanonicalRevision", destinationCanonicalRevision x);
  ("destinationWorkloadNamespace", destinationWorkloadNamespace x);
  ("destinationPrincipal", destinationPrincipal x); ("destinationApp", destinationApp x);
  ("destinationVersion", destinationVersion x); ("destinationCluster", destinationCluster x)].
Definition request_fields (x : requestLabels) : list (string * string) := [
  ("requestProtocol", requestProtocol x); ("responseFlags", responseFlags x);
  ("connectionSecurityPolicy", connectionSecurityPolicy x)].
Definition workload_fields (l : workloadMetricLabels) : list (string * string) :=
  ("reporter", wm_reporter l) :: source_fields (wm_source l) ++ pod_fields (wm_pod l) ++
  destination_fields (wm_destination l) ++ request_fields (wm_request l).
Definition service_fields (l : serviceMetricLabels) : list (string * string) :=
  ("reporter", sm_reporter l) :: source_fields (sm_source l) ++ svc_fields (sm_service l) ++
  destination_fields (sm_destination l) ++ request_fields (sm_request l).
Definition connection_fields (l : connectionMetricLabels) : list (string * string) :=
  ("reporter", cn_reporter l) :: ("startTime", cn_startTime l) :: source_fields (cn_source l) ++
  ("sourceAddress", cn_sourceAddress l) :: ("destinationAddress", cn_destinationAddress l) ::
  pod_fields (cn_pod l) ++ svc_fields (cn_service l) ++
  destination_fields (cn_destination l) ++ request_fields (cn_request l).

(** Labels are keys of maps. *)
#[export] Instance sourceLabels_eq_dec : EqDecision sourceLabels.
Proof. solve_decision. Defined.
#[export] Instance podLabels_eq_dec : EqDecision podLabels.
Proof. solve_decision. Defined.
#[export] Instance svcLabels_eq_dec : EqDecision svcLabels.
Proof. solve_decision. Defined.
#[export] Instance destinationLabels_eq_dec : EqDecision destinationLabels.
Proof. solve_decision. Defined.
#[export] Instance requestLabels_eq_dec : EqDecision requestLabels.
Proof. solve_decision. Defined.
#[export] Instance workloadMetricLabels_eq_dec : EqDecision workloadMetricLabels.
Proof. solve_decision. Defined.
#[export] Instance serviceMetricLabels_eq_dec : EqDecision serviceMetricLabels.
Proof. solve_decision. Defined.
#[export] Instance connectionMetricLabels_eq_dec : EqDecision connectionMetricLabels.
Proof. solve_decision. Defined.

#[export] Instance sourceLabels_countable : Countable sourceLabels.
Proof.
  apply (inj_countable (fun x => (source_fields x).*2) (fun l => match l with
    | [a; b; c; d; e; f; g; h] => Some (mkSource a b c d e f g h) | _ => None end)).
  by intros [].
Defined.
#[export] Instance podLabels_countable : Countable podLabels.
Proof.
  apply (inj_countable' (fun x => (destinationPodAddress x, destinationPodNamespace x, destinationPodName x))
    (fun '(a, b, c) => mkPodLabels a b c)).
  by intros [].
Defined.
#[export] Instance svcLabels_countable : Countable svcLabels.
Proof.
  apply (inj_countable' (fun x => (destinationService x, destinationServiceNamespace x, destinationServiceName x))
    (fun '(a, b, c) => mkSvcLabels a b c)).
  by intros [].
Defined.
#[export] Instance destinationLabels_countable : Countable destinationLabels.
Proof.
  apply (inj_countable (fun x => (destination_fields x).*2) (fun l => match l with
    | [a; b; c; d; e; f; g; h] => Some (mkDestination a b c d e f g h) | _ => None end)).
  by intros [].
Defined.
#[export] Instance requestLabels_countable : Countable requestLabels.
Proof.
  apply (inj_countable' (fun x => (requestProtocol x, responseFlags x, connectionSecurityPolicy x))
    (fun '(a, b, c) => mkRequestLabels a b c)).
  by intros [].
Defined.
#[export] Instance workloadMetricLabels_countable : Countable workloadMetricLabels.
Proof.
  apply (inj_countable' (fun l => (wm_reporter l, wm_source l, wm_pod l, wm_destination l, wm_request l))
    (fun '(a, b, c, d, e) => mkWorkloadLabels a b c d e)).
  by intros [].
Defined.
#[export] Instance serviceMetricLabels_countable : Countable serviceMetricLabels.
Proof.
  apply (inj_countable' (fun l => (sm_reporter l, sm_source l, sm_service l, sm_destination l, sm_request l))
    (fun '(a, b, c, d, e) => mkServiceLabels a b c d e)).
  by intros [].
Defined.
#[export] Instance connectionMetricLabels_countable : Countable connectionMetricLabels.
Proof.
  apply (inj_countable' (fun l => (cn_reporter l, cn_startTime l, cn_source l, cn_sourceAddress l,
      cn_destinationAddress l, cn_pod l, cn_service l, cn_destination l, cn_request l))
    (fun '(a, b, c, d, e, f, g, h, i) => mkConnectionLabels a b c d e f g h i)).
  by intros [].
Defined.

Definition buildPrincipal (workload : Workload) : string :=
  if decide (wl_trust_domain workload <> "" /\ wl_service_account workload <> "" /\ wl_namespace workload <> "")
  then "spiffe://" +:+ wl_trust_domain workload +:+ "/ns/" +:+ wl_namespace workload +:+ "/sa/" +:+
       wl_service_account workload
  else DEFAULT_UNKNOWN.

(** The bodies of the methods [withSource], [withDestination] and
    [withDestinationService] of the three types, on the groups they set. *)
Definition withSource (workload : option Workload) (x : sourceLabels) : sourceLabels :=
  match workload with
  | None => x
  | Some workload =>
      {| sourceWorkload := wl_workload_name workload;
         sourceCanonicalService := wl_canonical_name workload;
         sourceCanonicalRevision := wl_canonical_revision workload;
         sourceWorkloadNamespace := wl_namespace workload;
         sourceApp := wl_canonical_name workload;
         sourceVersion := wl_canonical_revision workload;
         sourceCluster := wl_cluster_id workload;
         sourcePrincipal := buildPrincipal workload |}
  end.
Definition withDestination (workload : option Workload) (x : destinationLabels) : destinationLabels :=
  match workload with
  | None => x
  | Some workload =>
      {| destinationWorkload := wl_workload_name workload;
         destinationCanonicalService := wl_canonical_name workload;
         destinationCanonicalRevision := wl_canonical_revision workload;
         destinationWorkloadNamespace := wl_namespace workload;
         destinationApp := wl_canonical_name workload;
         destinationVersion := wl_canonical_revision workload;
         destinationCluster := wl_cluster_id workload;
         destinationPrincipal := buildPrincipal workload |}
  end.
Definition withDestinationPod (workload : option Workload) (x : podLabels) : podLabels :=
  match workload with
  | None => x
  | Some workload => mkPodLabels (destinationPodAddress x) (wl_namespace workload) (wl_name workload)
  end.
Definition withDestinationService (service : Service) : svcLabels :=
  {| destinationService := svc_hostname service; destinationServiceName := svc_name service;
     destinationServiceNamespace := svc_namespace service |}.

Definition reporter_of (direction : Z) : string :=
  if direction =? INBOUND then "destination" else if direction =? OUTBOUND then "source" else "".

(** ** The access log ([accesslog.go]) *)
Record logInfo : Type := mkLogInfo {
  li_direction : string; li_state : string;
  li_sourceAddress : string; li_sourceWorkload : string; li_sourceNamespace : string;
  li_destinationAddress : string; li_destinationService : string; li_destinationWorkload : string;
  li_destinationNamespace : string
}.

(** A text that is not empty replaces the unknown. *)
Definition or_unknown (s : string) : string := if decide (s <> "") then s else DEFAULT_UNKNOWN.

(** [NewLogInfo] and its three [with] methods; the getters of a nil message
    give empty texts. *)
Definition log_of (direction state : string) (srcAddress dstAddress : string)
    (srcWorkload dstWorkload : option Workload) (service : Service) : logInfo :=
  {| li_direction := direction; li_state := state;
     li_sourceAddress := srcAddress; li_destinationAddress := dstAddress;
     li_sourceNamespace := or_unknown (from_option wl_namespace "" srcWorkload);
     li_sourceWorkload := or_unknown (from_option wl_name "" srcWorkload);
     li_destinationWorkload := or_unknown (from_option wl_name "" dstWorkload);
     li_destinationNamespace := or_unknown (svc_namespace service);
     li_destinationService := or_unknown (svc_hostname service) |}.

(** ** Prometheus ([utils.go]) *)
Record GaugeVec : Type := mkVec { vec_name : string; vec_labels : list string }.
#[export] Instance GaugeVec_eq_dec : EqDecision GaugeVec.
Proof. solve_decision. Defined.

Definition source_labels : list string := [
  "source_workload"; "source_canonical_service"; "source_canonical_revision"; "source_workload_namespace";
  "source_principal"; "source_app"; "source_version"; "source_cluster"].
Definition pod_labels : list string := [
  "destination_pod_address"; "destination_pod_namespace"; "destination_pod_name"].
Definition svc_labels : list string := [
  "destination_service"; "destination_service_namespace"; "destination_service_name"].
Definition destination_labels : list string := [
  "destination_workload"; "destination_canonical_service"; "destination_canonical_revision";
  "destination_workload_namespace"; "destination_principal"; "destination_app"; "destination_version";
  "destination_cluster"].
Definition request_labels : list string := ["request_protocol"; "response_flags"; "connection_security_policy"].

Definition workloadLabels : list string :=
  "reporter" :: source_labels ++ pod_labels ++ destination_labels ++ request_labels.
Definition serviceLabels : list string :=
  "reporter" :: source_labels ++ svc_labels ++ destination_labels ++ request_labels.
Definition connectionLabels : list string :=
  "reporter" :: "start_time" :: source_labels ++ "source_address" :: "destination_address" ::
  pod_labels ++ svc_labels ++ destination_labels ++ request_labels.

Definition labelsMap : gmap string string := list_to_map [
  ("reporter", "reporter"); ("startTime", "start_time"); ("sourceWorkload", "source_workload");
  ("sourceCanonicalService", "source_canonical_service");
  ("sourceCanonicalRevision", "source_canonical_revision");
  ("sourceWorkloadNamespace", "source_workload_namespace"); ("sourcePrincipal", "source_principal");
  ("sourceApp", "source_app"); ("sourceVersion", "source_version"); ("sourceCluster", "source_cluster");
  ("sourceAddress", "source_address"); ("destinationAddress", "destination_address");
  ("destinationService", "destination_service");
  ("destinationServiceNamespace", "destination_service_namespace");
  ("destinationServiceName", "destination_service_name");
  ("destinationPodAddress", "destination_pod_address");
  ("destinationPodNamespace", "destination_pod_namespace"); ("destinationPodName", "destination_pod_name");
  ("destinationWorkload", "destination_workload");
  ("destinationCanonicalService", "destination_canonical_service");
  ("destinationCanonicalRevision", "destination_canonical_revision");
  ("destinationWorkloadNamespace", "destination_workload_namespace");
  ("destinationPrincipal", "destination_principal"); ("destinationApp", "destination_app");
  ("destinationVersion", "destination_version"); ("destinationCluster", "destination_cluster");
  ("requestProtocol", "request_protocol"); ("responseFlags", "response_flags");
  ("connectionSecurityPolicy", "connection_security_policy"); ("nodeName", "node_name");
  ("mapId", "map_id"); ("mapName", "map_name"); ("mapType", "map_type");
  ("operationType", "operation_type"); ("pidTgid", "pid_tgid")].

Definition tcpConnectionOpenedInWorkload := mkVec "kmesh_tcp_workload_connections_opened_total" workloadLabels.
Definition tcpConnectionClosedInWorkload := mkVec "kmesh_tcp_workload_connections_closed_total" workloadLabels.
Definition tcpReceivedBytesInWorkload := mkVec "kmesh_tcp_workload_received_bytes_total" workloadLabels.
Definition tcpSentBytesInWorkload := mkVec "kmesh_tcp_workload_sent_bytes_total" workloadLabels.
Definition tcpConnectionFailedInWorkload := mkVec "kmesh_tcp_workload_conntections_failed_total" workloadLabels.
Definition tcpConnectionTotalRetransInWorkload := mkVec "kmesh_tcp_retrans_total" workloadLabels.
Definition tcpConnectionPacketLostInWorkload := mkVec "kmesh_tcp_packet_loss_total" workloadLabels.
Definition tcpConnectionOpenedInService := mkVec "kmesh_tcp_connections_opened_total" serviceLabels.
Definition tcpConnectionClosedInService := mkVec "kmesh_tcp_connections_closed_total" serviceLabels.
Definition tcpReceivedBytesInService := mkVec "kmesh_tcp_received_bytes_total" serviceLabels.
Definition tcpSentBytesInService := mkVec "kmesh_tcp_sent_bytes_total" serviceLabels.
Definition tcpConnectionFailedInService := mkVec "kmesh_tcp_conntections_failed_total" serviceLabels.
Definition tcpConnectionTotalSendBytes := mkVec "kmesh_tcp_connection_sent_bytes_total" connectionLabels.
Definition tcpConnectionTotalReceivedBytes := mkVec "kmesh_tcp_connection_received_bytes_total" connectionLabels.
Definition tcpConnectionTotalPacketLost := mkVec "kmesh_tcp_connection_packet_lost_total" connectionLabels.
Definition tcpConnectionTotalRetrans := mkVec "kmesh_tcp_connection_retrans_total" connectionLabels.

(** A field without a value is labelled as unknown.  [labelsMap] reads as the
    empty text where it has no entry. *)
Definition struct2map (labels : list (string * string)) : gmap string string :=
  foldl (fun m f => <[default "" (labelsMap !! f.1) := if decide (f.2 = "") then DEFAULT_UNKNOWN else f.2]> m)
    ∅ labels.

(** What is used of the client library: [vec.With(labels).Add(v)], which panics
    when the names of the labels are not those of the vector,
    [vec.DeletePartialMatch(labels)], and the value that a vector holds. *)
Class Prometheus : Type := {
  Gauges : Type;
  With_Add : GaugeVec -> gmap string string -> Z -> Gauges -> option Gauges;
  DeletePartialMatch : GaugeVec -> gmap string string -> Gauges -> Gauges;
  gauge_value : GaugeVec -> gmap string string -> Gauges -> option Z
}.

(** The vectors of connections that [runPrometheusClient] registers; a vector
    that is not registered is not served. *)
Definition registered : list GaugeVec := [
  tcpConnectionOpenedInWorkload; tcpConnectionClosedInWorkload; tcpReceivedBytesInWorkload; tcpSentBytesInWorkload;
  tcpConnectionTotalRetransInWorkload; tcpConnectionPacketLostInWorkload;
  tcpConnectionOpenedInService; tcpConnectionClosedInService; tcpReceivedBytesInService; tcpSentBytesInService;
  tcpConnectionTotalSendBytes; tcpConnectionTotalReceivedBytes; tcpConnectionTotalPacketLost; tcpConnectionTotalRetrans].
Definition scrape `{Prometheus} (vec : GaugeVec) (labels : gmap string string) (g : Gauges) : option Z :=
  if decide (vec ∈ registered) then gauge_value vec labels g else None.

(** ** State *)
Record workloadMetricInfo : Type := mkWorkloadInfo {
  WorkloadConnOpened : Z; WorkloadConnClosed : Z; WorkloadConnSentBytes : Z; WorkloadConnReceivedBytes : Z;
  WorkloadConnFailed : Z; WorkloadConnTotalRetrans : Z; WorkloadConnPacketLost : Z
}.
Record serviceMetricInfo : Type := mkServiceInfo {
  ServiceConnOpened : Z; ServiceConnClosed : Z; ServiceConnSentBytes : Z; ServiceConnReceivedBytes : Z;
  ServiceConnFailed : Z
}.
Record connectionMetricInfo : Type := mkConnectionInfo {
  ConnSentBytes : Z; ConnReceivedBytes : Z; ConnTotalRetrans : Z; ConnPacketLost : Z
}.

(** The fields of [MetricController] that [Run] only reads. *)
Record metricConfig : Type := mkMetricConfig {
  EnableAccesslog : bool; EnableMonitoring : bool;
  EnableWorkloadMetric : bool; EnableConnectionMetric : bool;
  mc_workloadCache : cache;
  mc_serviceCache : serviceCache
}.
(** The sums since the last flush. *)
Record metricCaches : Type := mkMetricCaches {
  workloadMetricCache : gmap workloadMetricLabels workloadMetricInfo;
  serviceMetricCache : gmap serviceMetricLabels serviceMetricInfo;
  connectionMetricCache : gmap connectionMetricLabels connectionMetricInfo
}.
Definition caches_empty : metricCaches := mkMetricCaches ∅ ∅ ∅.
(** The package's lists of what is to be deleted at the next flush. *)
Record deletions : Type := mkDeletions {
  deleteWorkload : list ptr; deleteService : list string; deleteConnection : list connectionMetricLabels
}.

Section controller.
Context `{Env} `{Prometheus} (osStartTime : Z) (time_string : Z -> string).

Record MetricController : Type := mkMetric {
  mc_config : metricConfig;
  mc_caches : metricCaches;
  mc_deletions : deletions;
  tcpConns : tcpConns_t;                                    (* local to Run *)
  mc_gauges : Gauges;                                       (* the library's state *)
  accesslogs : list (requestMetric * connMetric * logInfo)  (* what was printed *)
}.
Definition set_caches x m :=
  mkMetric (mc_config m) x (mc_deletions m) (tcpConns m) (mc_gauges m) (accesslogs m).
Definition set_deletions x m :=
  mkMetric (mc_config m) (mc_caches m) x (tcpConns m) (mc_gauges m) (accesslogs m).
Definition set_conns x m :=
  mkMetric (mc_config m) (mc_caches m) (mc_deletions m) x (mc_gauges m) (accesslogs m).
Definition set_gauges x m :=
  mkMetric (mc_config m) (mc_caches m) (mc_deletions m) (tcpConns m) x (accesslogs m).
Definition set_accesslogs x m :=
  mkMetric (mc_config m) (mc_caches m) (mc_deletions m) (tcpConns m) (mc_gauges m) x.

Definition NewMetric (workloads : cache) (services : serviceCache) (enableMonitoring : bool) (g : Gauges) :
    MetricController :=
  mkMetric (mkMetricConfig false enableMonitoring false false workloads services) caches_empty
    (mkDeletions [] [] []) ∅ g [].

(** ** Who is at an address *)
Definition restoreIPv4 (b : bytes) : bytes :=
  if forallb (Z.eqb 0) (take 12 (drop 4 b)) then take 4 b else b.
(** The [AppendUint32] loop. *)
Definition addr_bytes (words : list Z) : bytes := words ≫= le_bytes 4.

Definition getWorkloadByAddress (address : bytes) : Go MetricController (option Workload * string) :=
  let addr := (AddrFromSlice address).1 in
  r ← gets (fun m => GetWorkloadByAddr (mkNetAddr "" addr) (mc_workloadCache (mc_config m)));
  match r with
  | None => mret (None, Addr_String addr)
  | Some p => workload ← load_wl p; mret (Some workload, Addr_String addr)
  end.

Definition getServiceByAddress (address : bytes) : Go MetricController (option Service * string) :=
  let addr := (AddrFromSlice address).1 in
  r ← gets (fun m => GetServiceByAddr (mkNetAddr "" addr) (mc_serviceCache (mc_config m)));
  match r with
  | Some p => svc ← load_svc p; mret (Some svc, Addr_String addr)
  | None => mret (None, "")
  end.

(** The first host with the port, in the order in which the map is visited; a
    host with an empty name does not stop the search. *)
Fixpoint host_with_port (targetPort : Z) (services : list (string * list Port)) : string :=
  match services with
  | [] => ""
  | (k, ports) :: services =>
      let host := if existsb (fun port => target_port port =? targetPort) ports then k else "" in
      if decide (host <> "") then host else host_with_port targetPort services
  end.
Definition first_host (services : list (string * list Port)) : string :=
  default "" (head (filter (fun host => host <> "") services.*1)).
Definition guessWorkloadService (workload : option Workload) (targetPort : Z) :
    Go MetricController (option Service) :=
  match workload with
  | None => mret None
  | Some workload =>
      services ← range (map_to_list (wl_services workload));
      let namespacedhost := host_with_port targetPort services in
      namespacedhost ←
        (if decide (namespacedhost = "") then
           services ← range (map_to_list (wl_services workload));
           mret (first_host services)
         else mret namespacedhost);
      r ← gets (fun m => GetService namespacedhost (mc_serviceCache (mc_config m)));
      match r with
      | None => mret None
      | Some p => svc ← load_svc p; mret (Some svc)
      end
  end.

Definition named_service (hostname namespace : string) : Service :=
  mkService "" namespace hostname [] [] None None.
Definition fetchOriginalService (address : bytes) (port : Z) : Go MetricController (option Service) :=
  r ← getServiceByAddress address;
  match r.1 with
  | Some svc => mret (Some svc)
  | None =>
      '(wld, wldAddr) ← getWorkloadByAddress address;
      dstSvc ← guessWorkloadService wld port;
      match dstSvc, wld with
      | None, Some wld => mret (Some (named_service wldAddr (wl_namespace wld)))
      | _, _ => mret dstSvc
      end
  end.

(** ** The labels of a report *)
Definition tcp_labels : requestLabels := mkRequestLabels "tcp" "" "mutual_tls".

Definition buildWorkloadMetric (reqMetric : requestMetric) : Go MetricController workloadMetricLabels :=
  let conn := conSrcDstInfo reqMetric in
  '(dstWorkload, dstIP) ← getWorkloadByAddress (restoreIPv4 (addr_bytes (dst conn)));
  '(srcWorkload, _) ← getWorkloadByAddress (restoreIPv4 (addr_bytes (src conn)));
  match srcWorkload with
  | None => mret NewWorkloadMetricLabel
  | Some _ =>
      let pod := withDestinationPod dstWorkload (wm_pod NewWorkloadMetricLabel) in
      mret {| wm_source := withSource srcWorkload source_zero;
              wm_pod := mkPodLabels dstIP (destinationPodNamespace pod) (destinationPodName pod);
              wm_destination := withDestination dstWorkload destination_zero;
              wm_request := tcp_labels;
              wm_reporter := reporter_of (c_direction conn) |}
  end.

Definition log_direction (direction : Z) : string :=
  if direction =? INBOUND then "INBOUND" else if direction =? OUTBOUND then "OUTBOUND" else DEFAULT_UNKNOWN.
Definition with_port (ip : string) (port : Z) : string := ip +:+ ":" +:+ pretty port.

Definition buildServiceMetric (reqMetric : requestMetric) :
    Go MetricController (serviceMetricLabels * logInfo) :=
  let conn := conSrcDstInfo reqMetric in
  '(dstWorkload, dstIp) ← getWorkloadByAddress (restoreIPv4 (addr_bytes (dst conn)));
  '(srcWorkload, srcIp) ← getWorkloadByAddress (restoreIPv4 (addr_bytes (src conn)));
  dstService ← fetchOriginalService (restoreIPv4 (addr_bytes (origDstAddr reqMetric))) (origDstPort reqMetric);
  let dstService := default (named_service dstIp "") dstService in
  mret ({| sm_source := withSource srcWorkload source_zero;
           sm_service := withDestinationService dstService;
           sm_destination := withDestination dstWorkload destination_zero;
           sm_request := tcp_labels;
           sm_reporter := reporter_of (c_direction conn) |},
        log_of (log_direction (c_direction conn)) (default "" (TCP_STATES !! rm_state reqMetric))
          (with_port srcIp (srcPort conn)) (with_port dstIp (dstPort conn))
          srcWorkload dstWorkload dstService).

(** [time.Duration] of an [uint64] is signed. *)
Definition calculateUptime (startTime elapsedTimeNs : Z) : Z :=
  startTime + (if elapsedTimeNs <? 2 ^ 63 then elapsedTimeNs else elapsedTimeNs - 2 ^ 64).

Definition buildConnectionMetric (reqMetric : requestMetric) : Go MetricController connectionMetricLabels :=
  let conn := conSrcDstInfo reqMetric in
  '(dstWorkload, dstIP) ← getWorkloadByAddress (restoreIPv4 (addr_bytes (dst conn)));
  '(srcWorkload, srcIP) ← getWorkloadByAddress (restoreIPv4 (addr_bytes (src conn)));
  match srcWorkload with
  | None => mret NewConnectionMetricLabel
  | Some _ =>
      dstService ← fetchOriginalService (restoreIPv4 (addr_bytes (origDstAddr reqMetric)))
                     (origDstPort reqMetric);
      let dstService := default (named_service dstIP "") dstService in
      let pod := withDestinationPod dstWorkload (cn_pod NewConnectionMetricLabel) in
      mret {| cn_source := withSource srcWorkload source_zero;
              cn_destination := withDestination dstWorkload destination_zero;
              cn_service := withDestinationService dstService;
              cn_destinationAddress := with_port dstIP (dstPort conn);
              cn_sourceAddress := with_port srcIP (srcPort conn);
              cn_pod := mkPodLabels dstIP (destinationPodNamespace pod) (destinationPodName pod);
              cn_request := tcp_labels;
              cn_reporter := reporter_of (c_direction conn);
              cn_startTime := time_string (calculateUptime osStartTime (rm_startTime reqMetric)) |}
  end.

Definition outputAccesslog (data : requestMetric) (connMetrics : connMetric) (accesslog : logInfo) :
    Go MetricController unit :=
  if decide (rm_state data = TCP_ESTABLISHED /\ totalReports connMetrics = 1) then mret tt
  else modify (fun m => set_accesslogs (accesslogs m ++ [(data, connMetrics, accesslog)]) m).

(** ** Adding up *)
Definition opened (reqMetric : requestMetric) (metric : connMetric) : Z :=
  if decide (rm_state reqMetric = TCP_ESTABLISHED /\ totalReports metric = 1) then 1 else 0.
Definition closed (reqMetric : requestMetric) : Z := if decide (rm_state reqMetric = TCP_CLOSED) then 1 else 0.
Definition failed (reqMetric : requestMetric) : Z :=
  if decide (rm_success reqMetric <> connection_success) then 1 else 0.

(** [v.X = v.X + 1] under a condition. *)
Definition inc_if (v by_ : Z) : Z := if decide (by_ = 0) then v else f64_add v by_.

Definition updateWorkloadMetricCache (reqMetric : requestMetric) (labels : workloadMetricLabels)
    (metric : connMetric) (c : metricCaches) : metricCaches :=
  let info :=
    match workloadMetricCache c !! labels with
    | Some v =>
        {| WorkloadConnOpened := inc_if (WorkloadConnOpened v) (opened reqMetric metric);
           WorkloadConnClosed := inc_if (WorkloadConnClosed v) (closed reqMetric);
           WorkloadConnFailed := inc_if (WorkloadConnFailed v) (failed reqMetric);
           WorkloadConnReceivedBytes := f64_add (WorkloadConnReceivedBytes v) (receivedBytes reqMetric);
           WorkloadConnSentBytes := f64_add (WorkloadConnSentBytes v) (sentBytes reqMetric);
           WorkloadConnTotalRetrans := f64_add (WorkloadConnTotalRetrans v) (totalRetrans reqMetric);
           WorkloadConnPacketLost := f64_add (WorkloadConnPacketLost v) (packetLost reqMetric) |}
    | None =>
        {| WorkloadConnOpened := opened reqMetric metric; WorkloadConnClosed := closed reqMetric;
           WorkloadConnFailed := failed reqMetric;
           WorkloadConnReceivedBytes := receivedBytes reqMetric; WorkloadConnSentBytes := sentBytes reqMetric;
           WorkloadConnTotalRetrans := totalRetrans reqMetric; WorkloadConnPacketLost := packetLost reqMetric |}
    end in
  mkMetricCaches (<[labels := info]> (workloadMetricCache c)) (serviceMetricCache c) (connectionMetricCache c).

Definition updateServiceMetricCache (reqMetric : requestMetric) (labels : serviceMetricLabels)
    (metric : connMetric) (c : metricCaches) : metricCaches :=
  let info :=
    match serviceMetricCache c !! labels with
    | Some v =>
        {| ServiceConnOpened := inc_if (ServiceConnOpened v) (opened reqMetric metric);
           ServiceConnClosed := inc_if (ServiceConnClosed v) (closed reqMetric);
           ServiceConnFailed := inc_if (ServiceConnFailed v) (failed reqMetric);
           ServiceConnReceivedBytes := f64_add (ServiceConnReceivedBytes v) (receivedBytes reqMetric);
           ServiceConnSentBytes := f64_add (ServiceConnSentBytes v) (sentBytes reqMetric) |}
    | None =>
        {| ServiceConnOpened := opened reqMetric metric; ServiceConnClosed := closed reqMetric;
           ServiceConnFailed := failed reqMetric;
           ServiceConnReceivedBytes := receivedBytes reqMetric; ServiceConnSentBytes := sentBytes reqMetric |}
    end in
  mkMetricCaches (workloadMetricCache c) (<[labels := info]> (serviceMetricCache c)) (connectionMetricCache c).

Definition updateConnectionMetricCache (reqMetric : requestMetric) (labels : connectionMetricLabels)
    : Go MetricController unit :=
  modify (fun m =>
    let c := mc_caches m in
    let info :=
      match connectionMetricCache c !! labels with
      | Some v =>
          {| ConnSentBytes := f64_add (ConnSentBytes v) (sentBytes reqMetric);
             ConnReceivedBytes := f64_add (ConnReceivedBytes v) (receivedBytes reqMetric);
             ConnPacketLost := f64_add (ConnPacketLost v) (packetLost reqMetric);
             ConnTotalRetrans := f64_add (ConnTotalRetrans v) (totalRetrans reqMetric) |}
      | None =>
          {| ConnSentBytes := sentBytes reqMetric; ConnReceivedBytes := receivedBytes reqMetric;
             ConnPacketLost := packetLost reqMetric; ConnTotalRetrans := totalRetrans reqMetric |}
      end in
    set_caches (mkMetricCaches (workloadMetricCache c) (serviceMetricCache c)
      (<[labels := info]> (connectionMetricCache c))) m);;
  if decide (rm_state reqMetric = TCP_CLOSED) then
    modify (fun m => let d := mc_deletions m in
      set_deletions (mkDeletions (deleteWorkload d) (deleteService d) (deleteConnection d ++ [labels])) m)
  else mret tt.

(** ** One turn of the loop of [Run]

    The body for a record that the reader returned.  It hands back what it has
    counted for a service. *)
Definition record_size : nat := 128.
Definition build_metric (raw : bytes) (conns : tcpConns_t) : option (requestMetric * tcpConns_t) :=
  let connectType := ld 4 0 raw in
  let originInfo := drop 4 raw in
  if connectType =? MSG_TYPE_IPV4 then buildV4Metric originInfo conns
  else if connectType =? MSG_TYPE_IPV6 then buildV6Metric originInfo conns
  else None.
Definition Run_record (raw : bytes) :
    Go MetricController (option (requestMetric * connMetric * serviceMetricLabels)) :=
  if decide (length raw <> record_size) then mret None
  else
    conns ← gets tcpConns;
    match build_metric raw conns with
    | None => mret None
    | Some (reqMetric, conns) =>
        modify (set_conns conns);;
        '(serviceLabels, accesslog) ← buildServiceMetric reqMetric;
        config ← gets mc_config;
        workloadLabels ← (if EnableWorkloadMetric config then buildWorkloadMetric reqMetric
                          else mret NewWorkloadMetricLabel);
        let long := EnableConnectionMetric config && (LONG_CONN_METRIC_THRESHOLD <? rm_duration reqMetric) in
        connectionLabels ← (if long then buildConnectionMetric reqMetric else mret NewConnectionMetricLabel);
        let metric := default connMetric_zero (conns !! conSrcDstInfo reqMetric) in
        (if EnableAccesslog config then outputAccesslog reqMetric metric accesslog else mret tt);;
        (if EnableWorkloadMetric config then
           modify (fun m => set_caches (updateWorkloadMetricCache reqMetric workloadLabels metric (mc_caches m)) m)
         else mret tt);;
        modify (fun m => set_caches (updateServiceMetricCache reqMetric serviceLabels metric (mc_caches m)) m);;
        (if long then updateConnectionMetricCache reqMetric connectionLabels else mret tt);;
        (if decide (rm_state reqMetric = TCP_CLOSED) then
           modify (fun m => set_conns (delete (conSrcDstInfo reqMetric) (tcpConns m)) m)
         else mret tt);;
        mret (Some (reqMetric, metric, serviceLabels))
    end.

(** ** The flush *)
Definition Add (vec : GaugeVec) (labels : gmap string string) (v : Z) : Go MetricController unit := fun w m =>
  match With_Add vec labels v (mc_gauges m) with
  | Some g => Done (tt, w, set_gauges g m)
  | None => Panic "inconsistent label cardinality"
  end.
Definition Delete (vec : GaugeVec) (labels : gmap string string) : Go MetricController unit :=
  modify (fun m => set_gauges (DeletePartialMatch vec labels (mc_gauges m)) m).
Definition delete_all (vecs : list GaugeVec) (labels : gmap string string) : Go MetricController unit :=
  fold_each vecs tt (fun _ vec => Delete vec labels).

Definition deleteWorkloadMetricInPrometheus (p : ptr) : Go MetricController unit :=
  workload ← load_wl p;
  let vecs := [tcpConnectionClosedInWorkload; tcpConnectionFailedInWorkload; tcpConnectionOpenedInWorkload;
               tcpReceivedBytesInWorkload; tcpSentBytesInWorkload; tcpConnectionTotalRetransInWorkload;
               tcpConnectionPacketLostInWorkload] in
  delete_all vecs {["destination_pod_name" := wl_name workload;
                    "destination_pod_namespace" := wl_namespace workload]};;
  delete_all vecs {["source_workload" := wl_name workload;
                    "source_workload_namespace" := wl_namespace workload]}.

(** [strings.Split(serviceName, "/")]. *)
Fixpoint Split_slash (s : string) : list string :=
  match s with
  | EmptyString => [""]
  | String c s =>
      if decide (c = Ascii.ascii_of_nat 47) then "" :: Split_slash s
      else match Split_slash s with
           | [] => [String c EmptyString]
           | p :: ps => String c p :: ps
           end
  end.
Definition service_vecs : list GaugeVec := [
  tcpConnectionClosedInService; tcpConnectionFailedInService; tcpConnectionOpenedInService;
  tcpReceivedBytesInService; tcpSentBytesInService].
Definition deleteServiceMetricInPrometheus (serviceName : string) : Go MetricController unit :=
  match Split_slash serviceName with
  | [svcNamespace; svcHost] =>
      delete_all service_vecs {["destination_service_name" := svcHost;
                                "destination_service_namespace" := svcNamespace]}
  | _ => mret tt
  end.

Definition deleteConnectionMetricInPrometheus (connLabels : connectionMetricLabels) : Go MetricController unit :=
  delete_all [tcpConnectionTotalSendBytes; tcpConnectionTotalReceivedBytes; tcpConnectionTotalPacketLost;
              tcpConnectionTotalRetrans]
    {["source_address" := cn_sourceAddress connLabels;
      "destination_address" := cn_destinationAddress connLabels]}.

Definition DeleteWorkloadMetric (workload : option ptr) : Go MetricController unit :=
  match workload with
  | None => mret tt
  | Some p => modify (fun m => let d := mc_deletions m in
      set_deletions (mkDeletions (deleteWorkload d ++ [p]) (deleteService d) (deleteConnection d)) m)
  end.
Definition DeleteServiceMetric (serviceName : string) : Go MetricController unit :=
  if decide (serviceName = "") then mret tt
  else modify (fun m => let d := mc_deletions m in
      set_deletions (mkDeletions (deleteWorkload d) (deleteService d ++ [serviceName]) (deleteConnection d)) m).

Definition flush_workload (kv : workloadMetricLabels * workloadMetricInfo) : Go MetricController unit :=
  let '(k, v) := kv in
  let labels := struct2map (workload_fields k) in
  Add tcpConnectionOpenedInWorkload labels (WorkloadConnOpened v);;
  Add tcpConnectionClosedInWorkload labels (WorkloadConnClosed v);;
  Add tcpSentBytesInWorkload labels (WorkloadConnSentBytes v);;
  Add tcpReceivedBytesInWorkload labels (WorkloadConnReceivedBytes v);;
  Add tcpConnectionFailedInWorkload labels (WorkloadConnFailed v);;
  Add tcpConnectionTotalRetransInWorkload labels (WorkloadConnTotalRetrans v);;
  Add tcpConnectionPacketLostInWorkload labels (WorkloadConnPacketLost v).
Definition flush_service (kv : serviceMetricLabels * serviceMetricInfo) : Go MetricController unit :=
  let '(k, v) := kv in
  let labels := struct2map (service_fields k) in
  Add tcpConnectionOpenedInService labels (ServiceConnOpened v);;
  Add tcpConnectionClosedInService labels (ServiceConnClosed v);;
  Add tcpConnectionFailedInService labels (ServiceConnFailed v);;
  Add tcpReceivedBytesInService labels (ServiceConnReceivedBytes v);;
  Add tcpSentBytesInService labels (ServiceConnSentBytes v).
Definition flush_connection (kv : connectionMetricLabels * connectionMetricInfo) : Go MetricController unit :=
  let '(k, v) := kv in
  let labels := struct2map (connection_fields k) in
  Add tcpConnectionTotalSendBytes labels (ConnSentBytes v);;
  Add tcpConnectionTotalReceivedBytes labels (ConnReceivedBytes v);;
  Add tcpConnectionTotalPacketLost labels (ConnPacketLost v);;
  Add tcpConnectionTotalRetrans labels (ConnTotalRetrans v).

Definition updatePrometheusMetric : Go MetricController unit :=
  caches ← gets mc_caches;
  modify (set_caches caches_empty);;
  ws ← range (map_to_list (workloadMetricCache caches));
  fold_each ws tt (fun _ => flush_workload);;
  ss ← range (map_to_list (serviceMetricCache caches));
  fold_each ss tt (fun _ => flush_service);;
  cs ← range (map_to_list (connectionMetricCache caches));
  fold_each cs tt (fun _ => flush_connection);;
  dels ← gets mc_deletions;
  modify (set_deletions (mkDeletions [] [] []));;
  fold_each (deleteWorkload dels) tt (fun _ => deleteWorkloadMetricInPrometheus);;
  fold_each (deleteService dels) tt (fun _ => deleteServiceMetricInPrometheus);;
  fold_each (deleteConnection dels) tt (fun _ => deleteConnectionMetricInPrometheus).
End controller.
