(* ===== verification/TelemetryFacts.v ===== *)
(** * What the metrics add up to

    Facts about [Telemetry]: the labels always fit the vectors, so a flush never
    panics; nothing is lost or counted twice between the reports and the
    recorded values, of which all but the failed connections are served; and
    the differences that are counted for a connection add up to its totals in
    the kernel, although a report carries only their lower 32 bits. *)
From S2P Require Import Prelude GoNet Api Runtime BpfCache WorkloadCache ServiceCache BpfCommon Delivery Telemetry.

(** What the documentation of the client library promises. *)
Class PrometheusLaws (P : Prometheus) : Prop := {
  with_add_ok vec labels v g : dom labels = list_to_set (vec_labels vec) ->
    exists g', With_Add vec labels v g = Some g' /\
      forall vec' labels', gauge_value vec' labels' g' =
        if decide (vec' = vec /\ labels' = labels) then Some (f64_add (default 0 (gauge_value vec labels g)) v)
        else gauge_value vec' labels' g;
  with_add_panics vec labels v g : dom labels <> list_to_set (vec_labels vec) -> With_Add vec labels v g = None;
  delete_partial vec labels g vec' labels' :
    gauge_value vec' labels' (DeletePartialMatch vec labels g) =
      if decide (vec' = vec /\ labels ⊆ labels') then None else gauge_value vec' labels' g
}.

(** ** Sums in [float64] *)
Lemma f64_round_exact z : 0 <= z < 2 ^ 53 -> f64_round z = z.
Proof.
  intros [H0 H1]. unfold f64_round.
  assert (Z.log2 z <= 52).
  { destruct (decide (z = 0)) as [->|]; [done|]. assert (Z.log2 z < 53); [|lia]. apply Z.log2_lt_pow2; lia. }
  rewrite (proj2 (Z.leb_le _ _)) by lia. done.
Qed.
Lemma f64_add_exact a b : 0 <= a + b < 2 ^ 53 -> f64_add a b = a + b.
Proof. apply f64_round_exact. Qed.

(** ** Labels *)
Definition label_name (field : string) : string := default "" (labelsMap !! field).
Definition label_value (v : string) : string := if decide (v = "") then DEFAULT_UNKNOWN else v.

Lemma struct2map_snoc fs f : struct2map (fs ++ [f]) = <[label_name f.1 := label_value f.2]> (struct2map fs).
Proof. unfold struct2map. by rewrite foldl_app. Qed.
Lemma struct2map_dom fs : dom (struct2map fs) = list_to_set (label_name <$> fs.*1).
Proof.
  induction fs as [|f fs IH] using rev_ind; [done|].
  rewrite struct2map_snoc, !fmap_app, list_to_set_app_L, dom_insert_L, IH, union_comm_L.
  by rewrite !list_fmap_singleton, list_to_set_singleton_L.
Qed.
Lemma struct2map_lookup fs i f v : NoDup (label_name <$> fs.*1) -> fs !! i = Some (f, v) ->
  struct2map fs !! label_name f = Some (label_value v).
Proof.
  induction fs as [|f' fs IH] using rev_ind; [done|].
  rewrite struct2map_snoc, !fmap_app, NoDup_app. intros (Hn & Hout & _) Hi.
  apply lookup_app_Some in Hi as [Hi|[Hlen Hi]].
  - rewrite lookup_insert_ne; [by apply IH|]. intros Heq. apply (Hout (label_name f)).
    + apply list_elem_of_fmap. exists f. split; [done|]. apply list_elem_of_fmap. exists (f, v).
      split; [done|]. by apply list_elem_of_lookup_2 with i.
    + cbn. rewrite <-Heq. apply list_elem_of_singleton. by destruct f'.
  - destruct (i - length fs)%nat; [|done]. cbn in Hi. injection Hi as ->. cbn. by rewrite lookup_insert_eq.
Qed.

Lemma workload_labels_fit l : dom (struct2map (workload_fields l)) = list_to_set workloadLabels.
Proof. rewrite struct2map_dom. apply (f_equal list_to_set). vm_compute. done. Qed.
Lemma service_labels_fit l : dom (struct2map (service_fields l)) = list_to_set serviceLabels.
Proof. rewrite struct2map_dom. apply (f_equal list_to_set). vm_compute. done. Qed.
Lemma connection_labels_fit l : dom (struct2map (connection_fields l)) = list_to_set connectionLabels.
Proof. rewrite struct2map_dom. apply (f_equal list_to_set). vm_compute. done. Qed.

Section facts.
Context `{E : Env} `{P : Prometheus} {L : PrometheusLaws P} (osStartTime : Z) (time_string : Z -> string).

(** ** Looking things up changes nothing *)
Definition reads {S A} (m : Go S A) : Prop := forall w s Q, (forall a w', Q a w' s) -> wp false m Q w s.
Lemma reads_bind {S A B} (m : Go S A) (f : A -> Go S B) : reads m -> (forall a, reads (f a)) -> reads (m ≫= f).
Proof. intros Hm Hf w s Q HQ. apply wp_bind, Hm. intros a w'. by apply Hf. Qed.
Lemma reads_ret {S A} (a : A) : reads (S := S) (mret a).
Proof. intros w s Q HQ. apply wp_ret, HQ. Qed.
Lemma reads_gets {S A} (f : S -> A) : reads (gets f).
Proof. intros w s Q HQ. apply wp_gets, HQ. Qed.
Lemma reads_load_wl {S} p : reads (S := S) (load_wl p).
Proof. intros w s Q HQ. apply wp_load_wl, HQ. Qed.
Lemma reads_load_svc {S} p : reads (S := S) (load_svc p).
Proof. intros w s Q HQ. apply wp_load_svc, HQ. Qed.
Lemma reads_range {S A} (l : list A) : reads (S := S) (range l).
Proof. intros w s Q HQ. apply wp_range. intros. apply HQ. Qed.
Lemma reads_if {S A} (b : bool) (m : Go S A) a : reads m -> reads (if b then m else mret a).
Proof. destruct b; [done|]. intros _. apply reads_ret. Qed.
#[local] Ltac reads_tac := repeat first
  [ done | lazymatch goal with |- forall _, reads _ => intros ? end | apply reads_bind | apply reads_ret | apply reads_gets | apply reads_load_wl
  | apply reads_load_svc | apply reads_range | progress case_match | progress case_decide ].

Lemma reads_getWorkloadByAddress a : reads (getWorkloadByAddress a).
Proof. unfold getWorkloadByAddress. reads_tac. Qed.
Lemma reads_fetchOriginalService a port : reads (fetchOriginalService a port).
Proof.
  unfold fetchOriginalService, getServiceByAddress, guessWorkloadService.
  reads_tac; apply reads_getWorkloadByAddress.
Qed.
Lemma reads_buildServiceMetric r : reads (buildServiceMetric r).
Proof.
  unfold buildServiceMetric. apply reads_bind; [apply reads_getWorkloadByAddress|intros [dst dstIp]].
  apply reads_bind; [apply reads_getWorkloadByAddress|intros [srcw srcIp]].
  apply reads_bind; [apply reads_fetchOriginalService|intros svc; apply reads_ret].
Qed.
Lemma reads_buildWorkloadMetric r : reads (buildWorkloadMetric r).
Proof.
  unfold buildWorkloadMetric. apply reads_bind; [apply reads_getWorkloadByAddress|intros [dst dstIp]].
  apply reads_bind; [apply reads_getWorkloadByAddress|reads_tac].
Qed.
Lemma reads_buildConnectionMetric r : reads (buildConnectionMetric osStartTime time_string r).
Proof.
  unfold buildConnectionMetric. apply reads_bind; [apply reads_getWorkloadByAddress|intros [dst dstIp]].
  apply reads_bind; [apply reads_getWorkloadByAddress|intros [[] srcIp]; [|reads_tac]].
  apply reads_bind; [apply reads_fetchOriginalService|reads_tac].
Qed.

(** ** One record

    What the loop body does with a report that it can read. *)
Definition labels_apart (m m' : MetricController) : Prop :=
  mc_config m' = mc_config m /\ mc_gauges m' = mc_gauges m /\
  deleteWorkload (mc_deletions m') = deleteWorkload (mc_deletions m) /\
  deleteService (mc_deletions m') = deleteService (mc_deletions m).

Definition kept_conns (r : requestMetric) (conns : gmap connectionSrcDst connMetric) :=
  if decide (rm_state r = TCP_CLOSED) then delete (conSrcDstInfo r) conns else conns.

Lemma wp_Run_record raw (Q : _ -> World -> MetricController -> Prop) w s :
  (length raw <> record_size \/ build_metric raw (tcpConns s) = None -> Q None w s) ->
  (forall r conns labels w' s', length raw = record_size -> build_metric raw (tcpConns s) = Some (r, conns) ->
     let cm := default connMetric_zero (conns !! conSrcDstInfo r) in
     labels_apart s s' -> tcpConns s' = kept_conns r conns ->
     serviceMetricCache (mc_caches s') =
       serviceMetricCache (updateServiceMetricCache r labels cm (mc_caches s)) ->
     Q (Some (r, cm, labels)) w' s') ->
  wp false (Run_record osStartTime time_string raw) Q w s.
Proof.
  intros HN HS. unfold Run_record. case_decide as Hlen; [wp_steps; auto|].
  wp_steps. destruct (build_metric raw (tcpConns s)) as [[r conns]|] eqn:Hb; [|wp_steps; auto].
  assert (length raw = record_size) as Hsize by (destruct (decide (length raw = record_size)); tauto).
  wp_steps. apply reads_buildServiceMetric. intros [labels accesslog] w1. wp_steps.
  apply reads_if; [apply reads_buildWorkloadMetric|]. intros wl w2. wp_steps.
  apply reads_if; [apply reads_buildConnectionMetric|]. intros cl w3. wp_steps.
  assert (forall s', labels_apart s s' -> tcpConns s' = kept_conns r conns ->
    serviceMetricCache (mc_caches s') = serviceMetricCache (updateServiceMetricCache r labels
      (default connMetric_zero (conns !! conSrcDstInfo r)) (mc_caches s)) ->
    Q (Some (r, default connMetric_zero (conns !! conSrcDstInfo r), labels)) w3 s') as HQ.
  { intros s'. by apply HS. }
  clear HS HN. unfold kept_conns in HQ.
  unfold outputAccesslog, updateConnectionMetricCache.
  repeat (first [case_decide|case_match]; wp_steps); by apply HQ.
Qed.

(** ** Counters of services

    The five values that are kept per service: where they are recorded, where
    they are summed up, and what a report adds. *)
Record counter : Type := mkCounter {
  ct_vec : GaugeVec; ct_info : serviceMetricInfo -> Z; ct_report : requestMetric -> connMetric -> Z
}.
Definition service_counters : list counter := [
  mkCounter tcpConnectionOpenedInService ServiceConnOpened opened;
  mkCounter tcpConnectionClosedInService ServiceConnClosed (fun r _ => closed r);
  mkCounter tcpConnectionFailedInService ServiceConnFailed (fun r _ => failed r);
  mkCounter tcpReceivedBytesInService ServiceConnReceivedBytes (fun r _ => receivedBytes r);
  mkCounter tcpSentBytesInService ServiceConnSentBytes (fun r _ => sentBytes r)].

Lemma each_counter (Q : counter -> Prop) c : c ∈ service_counters ->
  Q (mkCounter tcpConnectionOpenedInService ServiceConnOpened opened) ->
  Q (mkCounter tcpConnectionClosedInService ServiceConnClosed (fun r _ => closed r)) ->
  Q (mkCounter tcpConnectionFailedInService ServiceConnFailed (fun r _ => failed r)) ->
  Q (mkCounter tcpReceivedBytesInService ServiceConnReceivedBytes (fun r _ => receivedBytes r)) ->
  Q (mkCounter tcpSentBytesInService ServiceConnSentBytes (fun r _ => sentBytes r)) -> Q c.
Proof. intros Hc. repeat (apply elem_of_cons in Hc as [->|Hc]; [done|]). by apply not_elem_of_nil in Hc. Qed.

(** What one entry of a list of sums holds for the labels [m]. *)
Definition share (c : counter) (m : gmap string string) (kv : serviceMetricLabels * serviceMetricInfo) : Z :=
  if decide (struct2map (service_fields kv.1) = m) then ct_info c kv.2 else 0.
Fixpoint shares (c : counter) (m : gmap string string) (l : list (serviceMetricLabels * serviceMetricInfo)) : Z :=
  match l with
  | [] => 0
  | kv :: l => share c m kv + shares c m l
  end.
Definition pending (c : counter) (m : gmap string string)
    (sums : gmap serviceMetricLabels serviceMetricInfo) : Z := shares c m (map_to_list sums).
Definition recorded (c : counter) (m : gmap string string) (s : MetricController) : Z :=
  default 0 (gauge_value (ct_vec c) m (mc_gauges s)).
(** What is served under [/status/metric]. *)
Definition exported (c : counter) (m : gmap string string) (s : MetricController) : Z :=
  default 0 (scrape (ct_vec c) m (mc_gauges s)).
(** What has been counted: recorded in a vector, or still to be. *)
Definition counted (c : counter) (m : gmap string string) (s : MetricController) : Z :=
  recorded c m s + pending c m (serviceMetricCache (mc_caches s)).

Lemma shares_perm c m l l' : l ≡ₚ l' -> shares c m l = shares c m l'.
Proof. induction 1; cbn; lia. Qed.
Lemma shares_nonneg c m l : (forall k v, (k, v) ∈ l -> 0 <= ct_info c v) -> 0 <= shares c m l.
Proof.
  induction l as [|[k v] l IH]; cbn; [lia|]. intros H.
  assert (0 <= share c m (k, v)). { unfold share. case_decide; [|lia]. eapply H. left. }
  assert (0 <= shares c m l); [|lia]. apply IH. intros k' v' Hin. apply (H k'). by right.
Qed.
Lemma pending_insert c m sums k v : pending c m (<[k := v]> sums) = share c m (k, v) + pending c m (delete k sums).
Proof.
  unfold pending. rewrite <-insert_delete_eq.
  rewrite (shares_perm _ _ _ _ (map_to_list_insert _ _ _ (lookup_delete_eq _ _))). done.
Qed.
Lemma pending_lookup c m sums k v : sums !! k = Some v -> pending c m sums = share c m (k, v) + pending c m (delete k sums).
Proof. intros Hk. rewrite <-pending_insert. by rewrite insert_id. Qed.
Lemma pending_absent c m sums k : sums !! k = None -> pending c m (delete k sums) = pending c m sums.
Proof. intros Hk. by rewrite delete_id. Qed.

(** Sums are never negative. *)
Definition sums_ok (sums : gmap serviceMetricLabels serviceMetricInfo) : Prop :=
  forall c k v, c ∈ service_counters -> sums !! k = Some v -> 0 <= ct_info c v.
Lemma pending_nonneg c m sums : c ∈ service_counters -> sums_ok sums -> 0 <= pending c m sums.
Proof. intros Hc H. apply shares_nonneg. intros k v Hin. apply elem_of_map_to_list in Hin. by eapply H. Qed.
Lemma sums_ok_delete sums k : sums_ok sums -> sums_ok (delete k sums).
Proof. intros H c k' v Hc Hk. apply lookup_delete_Some in Hk as [_ Hk]. by eapply H. Qed.

Lemma f64_round_nonneg z : 0 <= z -> 0 <= f64_round z.
Proof.
  intros Hz. unfold f64_round. case_match; [done|].
  apply Z.shiftl_nonneg. assert (0 <= Z.shiftr z (Z.log2 z - 52)) by by apply Z.shiftr_nonneg.
  case_match; lia.
Qed.
Lemma inc_if_spec v by_ : 0 <= v -> 0 <= by_ -> 0 <= inc_if v by_ /\ (v + by_ < 2 ^ 53 -> inc_if v by_ = v + by_).
Proof.
  intros Hv Hb. unfold inc_if. case_decide as H; [lia|]. split; [apply f64_round_nonneg; lia|].
  intros. apply f64_add_exact. lia.
Qed.
Lemma f64_add_spec v d : 0 <= v -> 0 <= d -> 0 <= f64_add v d /\ (v + d < 2 ^ 53 -> f64_add v d = v + d).
Proof. intros Hv Hd. split; [apply f64_round_nonneg; lia|]. intros. apply f64_add_exact. lia. Qed.

Definition report_ok (r : requestMetric) : Prop := 0 <= receivedBytes r /\ 0 <= sentBytes r.
Lemma ct_report_nonneg c r cm : c ∈ service_counters -> report_ok r -> 0 <= ct_report c r cm.
Proof.
  intros Hc [Hr Hs]. pattern c. apply (each_counter _ c Hc); cbn; [| | |done..];
    unfold opened, closed, failed; by case_decide.
Qed.

(** A report is added to the entry of its labels. *)
Lemma update_service r labels cm caches (sums := serviceMetricCache caches) : sums_ok sums -> report_ok r ->
  exists v', serviceMetricCache (updateServiceMetricCache r labels cm caches) = <[labels := v']> sums /\
    forall c, c ∈ service_counters -> let old := from_option (ct_info c) 0 (sums !! labels) in
      0 <= ct_info c v' /\ (old + ct_report c r cm < 2 ^ 53 -> ct_info c v' = old + ct_report c r cm).
Proof.
  intros Hsums Hr. unfold updateServiceMetricCache. cbn [serviceMetricCache]. fold sums.
  eexists; split; [done|]. intros c Hc.
  pose proof (ct_report_nonneg c r cm Hc Hr) as Hd.
  destruct (sums !! labels) as [v|] eqn:Hk; cbn [from_option].
  - pose proof (Hsums c labels v Hc Hk) as Hv. revert Hd Hv. pattern c.
    apply (each_counter _ c Hc); cbn; intros Hd Hv; first [by apply inc_if_spec|by apply f64_add_spec].
  - revert Hd. pattern c. apply (each_counter _ c Hc); cbn; lia.
Qed.

(** ** The invariant *)
Definition state_ok (s : MetricController) : Prop :=
  deleteService (mc_deletions s) = [] /\ sums_ok (serviceMetricCache (mc_caches s)) /\
  forall c m, c ∈ service_counters -> 0 <= recorded c m s.

(** What a report adds to the counter [c] under the labels [m]. *)
Definition adds (c : counter) (m : gmap string string) (x : requestMetric * connMetric * serviceMetricLabels) : Z :=
  let '(r, cm, labels) := x in
  if decide (struct2map (service_fields labels) = m) then ct_report c r cm else 0.

Lemma update_counted s s' r cm labels : state_ok s -> report_ok r -> labels_apart s s' ->
  serviceMetricCache (mc_caches s') = serviceMetricCache (updateServiceMetricCache r labels cm (mc_caches s)) ->
  state_ok s' /\ forall c m, c ∈ service_counters -> let d := adds c m (r, cm, labels) in
    0 <= d /\ (counted c m s + d < 2 ^ 53 -> counted c m s' = counted c m s + d).
Proof.
  intros (Hdel & Hsums & Hexp) Hr (_ & Hg & _ & Hds) Hcache.
  destruct (update_service r labels cm (mc_caches s) Hsums Hr) as (v' & Hv' & Hinfo). rewrite Hv' in Hcache.
  assert (forall c m, recorded c m s' = recorded c m s) as Hsame by (intros; unfold recorded; by rewrite Hg).
  split.
  - split_and!; [by rewrite Hds| |intros; rewrite Hsame; by apply Hexp].
    rewrite Hcache. intros c k v Hc [[_ <-]|[_ Hk]]%lookup_insert_Some; [by apply Hinfo|by eapply Hsums].
  - intros c m Hc d. pose proof (Hinfo c Hc) as [Hpos Hexact].
    pose proof (ct_report_nonneg c r cm Hc Hr) as Hd. pose proof (Hexp c m Hc) as He.
    split; [unfold d, adds; case_decide; lia|]. unfold counted. rewrite Hsame, Hcache, pending_insert.
    pose proof (pending_nonneg c m _ Hc (sums_ok_delete _ labels Hsums)) as Hrest.
    assert (pending c m (serviceMetricCache (mc_caches s)) =
      (if decide (struct2map (service_fields labels) = m)
       then from_option (ct_info c) 0 (serviceMetricCache (mc_caches s) !! labels) else 0) +
      pending c m (delete labels (serviceMetricCache (mc_caches s)))) as ->.
    { destruct (_ !! labels) as [v|] eqn:Hk.
      - rewrite (pending_lookup _ _ _ _ _ Hk). done.
      - rewrite (pending_absent _ _ _ _ Hk). cbn [from_option]. by case_decide. }
    unfold d, adds, share. cbn [fst snd]. case_decide; [|lia]. intros Hb. rewrite Hexact; lia.
Qed.

(** ** The flush *)
Definition bumped (vec : GaugeVec) (labels : gmap string string) (v : Z) (g g' : Gauges) : Prop :=
  forall vec' labels', gauge_value vec' labels' g' =
    if decide (vec' = vec /\ labels' = labels) then Some (f64_add (default 0 (gauge_value vec labels g)) v)
    else gauge_value vec' labels' g.
Lemma bumped_ne vec labels v g g' vec' m : bumped vec labels v g g' -> vec' <> vec ->
  gauge_value vec' m g' = gauge_value vec' m g.
Proof. intros H Hne. rewrite H, decide_False; [done|]. by intros [? _]. Qed.
Lemma bumped_eq vec labels v g g' m : bumped vec labels v g g' ->
  default 0 (gauge_value vec m g') =
    if decide (labels = m) then f64_add (default 0 (gauge_value vec m g)) v else default 0 (gauge_value vec m g).
Proof.
  intros H. rewrite H. destruct (decide (labels = m)) as [<-|Hne].
  - by rewrite decide_True.
  - rewrite decide_False; [done|]. by intros [_ ?].
Qed.
Lemma wp_Add vec labels v (Q : unit -> World -> MetricController -> Prop) w s :
  dom labels = list_to_set (vec_labels vec) ->
  (forall g, bumped vec labels v (mc_gauges s) g -> Q tt w (set_gauges g s)) ->
  wp false (Add vec labels v) Q w s.
Proof.
  intros Hdom HQ. destruct (with_add_ok vec labels v (mc_gauges s) Hdom) as (g & Hg & Hv).
  unfold wp, Add. rewrite Hg. by apply HQ.
Qed.

(** Steps that change gauges, and none of a service. *)
Definition elsewhere (s s' : MetricController) : Prop :=
  s' = set_gauges (mc_gauges s') s /\ forall c m, c ∈ service_counters -> recorded c m s' = recorded c m s.
Lemma elsewhere_refl s : elsewhere s s.
Proof. split; [by destruct s|done]. Qed.
Lemma elsewhere_trans s1 s2 s3 : elsewhere s1 s2 -> elsewhere s2 s3 -> elsewhere s1 s3.
Proof. intros [H1 E1] [H2 E2]. split; [rewrite H2 at 1; by rewrite H1|]. intros c m Hc. by rewrite E2, E1. Qed.
Definition keeps_services {A} (m : Go MetricController A) : Prop :=
  forall w s, wp false m (fun _ _ s' => elsewhere s s') w s.
Lemma keeps_bind {A B} (m : Go MetricController A) (f : A -> Go MetricController B) :
  keeps_services m -> (forall a, keeps_services (f a)) -> keeps_services (m ≫= f).
Proof.
  intros Hm Hf w s. apply wp_bind. eapply wp_mono; [apply Hm|]. intros a w' s' H1.
  eapply wp_mono; [apply Hf|]. intros b w'' s'' H2. exact (elsewhere_trans _ _ _ H1 H2).
Qed.
Lemma keeps_fold {A} (l : list A) (f : A -> Go MetricController unit) :
  (forall a, a ∈ l -> keeps_services (f a)) -> keeps_services (fold_each l tt (fun _ => f)).
Proof.
  induction l as [|a l IH]; intros Hf; cbn.
  - intros w s. apply wp_ret, elsewhere_refl.
  - apply keeps_bind; [apply Hf; left|]. intros []. apply IH. intros b Hb. apply Hf. by right.
Qed.

Lemma service_vec_ne c vec : c ∈ service_counters -> vec_labels vec <> serviceLabels -> ct_vec c <> vec.
Proof.
  intros Hc Hl Heq. apply Hl. rewrite <-Heq. clear Heq. pattern c. by apply (each_counter _ c Hc).
Qed.
Lemma keeps_Add vec labels v : dom labels = list_to_set (vec_labels vec) -> vec_labels vec <> serviceLabels ->
  keeps_services (Add vec labels v).
Proof.
  intros Hdom Hvec w s. apply wp_Add; [done|]. intros g Hg. split; [done|]. intros c m Hc.
  unfold recorded. cbn [mc_gauges set_gauges]. by rewrite (bumped_ne _ _ _ _ _ _ _ Hg (service_vec_ne _ _ Hc Hvec)).
Qed.
Lemma keeps_delete_all vecs labels : Forall (fun vec => vec_labels vec <> serviceLabels) vecs ->
  keeps_services (delete_all vecs labels).
Proof.
  intros Hvecs. apply keeps_fold. intros vec Hin w s. wp_steps. split; [done|]. intros c m Hc.
  unfold recorded. cbn. rewrite delete_partial, decide_False; [done|]. intros [Heq _].
  rewrite Forall_forall in Hvecs. by eapply service_vec_ne, Heq; [done|apply Hvecs].
Qed.

Lemma keeps_flush_workload kv : keeps_services (flush_workload kv).
Proof.
  destruct kv as [k v]. cbv beta iota zeta delta [flush_workload].
  repeat (apply keeps_bind; [|intros _]); apply keeps_Add; first [apply workload_labels_fit|discriminate].
Qed.
Lemma keeps_flush_connection kv : keeps_services (flush_connection kv).
Proof.
  destruct kv as [k v]. cbv beta iota zeta delta [flush_connection].
  repeat (apply keeps_bind; [|intros _]); apply keeps_Add; first [apply connection_labels_fit|discriminate].
Qed.
Lemma keeps_delete_workload p : keeps_services (deleteWorkloadMetricInPrometheus p).
Proof.
  unfold deleteWorkloadMetricInPrometheus. apply keeps_bind; [intros w s; wp_steps; apply elsewhere_refl|]. intros x.
  apply keeps_bind; [|intros _]; apply keeps_delete_all; by repeat constructor.
Qed.
Lemma keeps_delete_connection l : keeps_services (deleteConnectionMetricInPrometheus l).
Proof. apply keeps_delete_all. by repeat constructor. Qed.

(** The sums of a service go to their gauges. *)
Lemma wp_flush_service kv w s :
  wp false (flush_service kv) (fun _ _ s' => s' = set_gauges (mc_gauges s') s /\
    forall c m, c ∈ service_counters -> recorded c m s' =
      if decide (struct2map (service_fields kv.1) = m) then f64_add (recorded c m s) (ct_info c kv.2)
      else recorded c m s) w s.
Proof.
  destruct kv as [k v]. cbv beta iota zeta delta [flush_service fst snd].
  pose proof (service_labels_fit k) as Hfit. generalize dependent (struct2map (service_fields k)). intros lb Hfit.
  repeat first [apply wp_bind | apply wp_Add; [exact Hfit|]; intros ? ?; cbn [mc_gauges set_gauges] in * ].
  split; [done|]. intros c m Hc. unfold recorded. cbn [mc_gauges set_gauges]. pattern c.
  apply (each_counter _ c Hc); cbn [ct_vec ct_info];
    repeat match goal with
    | H : bumped ?vec _ _ _ ?g |- context [gauge_value ?vec' _ ?g] =>
        first [ rewrite (bumped_ne _ _ _ _ _ vec' m H) by (intros Hv; by apply (f_equal vec_name) in Hv)
              | rewrite (bumped_eq _ _ _ _ _ m H) ]; clear H
    end; done.
Qed.

Lemma wp_flush_services l w s :
  (forall c k v, c ∈ service_counters -> (k, v) ∈ l -> 0 <= ct_info c v) ->
  wp false (fold_each l tt (fun _ => flush_service)) (fun _ _ s' => s' = set_gauges (mc_gauges s') s /\
    forall c m, c ∈ service_counters -> 0 <= recorded c m s ->
      0 <= recorded c m s' /\
      (recorded c m s + shares c m l < 2 ^ 53 -> recorded c m s' = recorded c m s + shares c m l)) w s.
Proof.
  revert w s. induction l as [|[k v] l IH]; intros w s Hpos; cbn [fold_each].
  - apply wp_ret. split; [by destruct s|]. intros c m Hc He. cbn. lia.
  - apply wp_bind. eapply wp_mono; [apply wp_flush_service|]. intros [] w1 s1 [Hs1 He1].
    eapply wp_mono; [apply IH|]; [intros c k' v' Hc Hin; apply (Hpos c k' v' Hc); by right|].
    intros [] w2 s2 [Hs2 He2]. split; [rewrite Hs2 at 1; by rewrite Hs1|]. intros c m Hc He.
    assert (0 <= ct_info c v) as Hv by (apply (Hpos c k v Hc); left).
    assert (0 <= shares c m l) as Hl.
    { apply shares_nonneg. intros k' v' Hin. apply (Hpos c k' v' Hc). by right. }
    specialize (He1 c m Hc). specialize (He2 c m Hc). cbn [fst snd] in He1.
    pose proof (f64_add_spec _ _ He Hv) as [Hn Hx]. cbn [shares]. unfold share. cbn [fst snd].
    case_decide; rewrite He1 in He2; [|lia]. destruct (He2 Hn) as [Hn2 Hx2]. split; [done|]. intros Hb.
    rewrite Hx2, Hx; lia.
Qed.

(** A flush moves the sums to the gauges; it never panics. *)
Lemma flush_counted w s : state_ok s ->
  wp false updatePrometheusMetric (fun _ _ s' => state_ok s' /\ tcpConns s' = tcpConns s /\
    forall c m, c ∈ service_counters -> counted c m s < 2 ^ 53 -> counted c m s' = counted c m s) w s.
Proof.
  intros (Hdel & Hsums & Hexp). unfold updatePrometheusMetric. wp_steps.
  eapply wp_mono; [apply keeps_fold; intros a _; apply keeps_flush_workload|]. intros [] w1 s1 [Hs1 He1].
  wp_steps. rename l'0 into ss, H0 into Hss.
  assert (forall c k v, c ∈ service_counters -> (k, v) ∈ ss -> 0 <= ct_info c v) as Hpos.
  { intros c k v Hc Hin. rewrite Hss in Hin. apply elem_of_map_to_list in Hin. by eapply Hsums. }
  eapply wp_mono; [by apply wp_flush_services|]. intros [] w2 s2 [Hs2 He2]. wp_steps.
  eapply wp_mono; [apply keeps_fold; intros a _; apply keeps_flush_connection|]. intros [] w3 s3 [Hs3 He3].
  wp_steps.
  assert (s3 = set_gauges (mc_gauges s3) (set_caches caches_empty s)) as Hs.
  { rewrite Hs3 at 1. rewrite Hs2. by rewrite Hs1. }
  eapply wp_mono; [apply keeps_fold; intros a _; apply keeps_delete_workload|]. intros [] w4 s4 [Hs4 He4].
  wp_steps. rewrite Hs at 1. cbn [mc_deletions set_gauges set_caches]. rewrite Hdel. cbn [fold_each]. wp_steps.
  eapply wp_mono; [apply keeps_fold; intros a _; apply keeps_delete_connection|]. intros [] w5 s5 [Hs5 He5].
  assert (s5 = set_gauges (mc_gauges s5) (set_deletions (mkDeletions [] [] []) (set_caches caches_empty s))) as Hfin.
  { rewrite Hs5 at 1. rewrite Hs4, Hs. done. }
  assert (forall c m, c ∈ service_counters -> recorded c m s5 = recorded c m s2) as Hx.
  { intros c m Hc. rewrite He5, He4 by done. change (recorded c m s3 = recorded c m s2). by apply He3. }
  assert (forall c m, c ∈ service_counters -> recorded c m s1 = recorded c m s) as Hx1.
  { intros c m Hc. by rewrite He1. }
  rewrite Hfin. split; [split_and!|split; [done|]].
  - done.
  - intros c k v _ Hk. destruct (lookup_empty_Some (M := gmap serviceMetricLabels) k v Hk).
  - intros c m Hc. change (0 <= recorded c m s5). rewrite Hx by done. apply He2; [done|].
    rewrite Hx1 by done. by apply Hexp.
  - intros c m Hc.
    assert (counted c m s = recorded c m s + shares c m ss) as ->.
    { unfold counted, pending. by rewrite (shares_perm c m _ _ Hss). }
    intros Hb. transitivity (recorded c m s5 + 0); [done|]. rewrite Hx by done.
    destruct (He2 c m Hc) as [_ Heq]; rewrite Hx1 in * by done; [by apply Hexp|]. lia.
Qed.

(** ** Reading a report *)
Definition parse_report (raw : bytes) : option (connectionSrcDst * statistics) :=
  if decide (length raw <> record_size) then None
  else
    let b := drop 4 raw in
    if ld 4 0 raw =? MSG_TYPE_IPV4 then
      d ← Read_V4 b;
      Some (mkConn [SrcAddr4 d; 0; 0; 0] [DstAddr4 d; 0; 0; 0] (SrcPort4 d) (DstPort4 d) (Direction (stats4 d)), stats4 d)
    else if ld 4 0 raw =? MSG_TYPE_IPV6 then
      d ← Read_V6 b;
      Some (mkConn (SrcAddr6 d) (DstAddr6 d) (SrcPort6 d) (DstPort6 d) (Direction (stats6 d)), stats6 d)
    else None.
Lemma build_metric_parse raw conns r conns' : length raw = record_size -> build_metric raw conns = Some (r, conns') ->
  exists conn st orig, parse_report raw = Some (conn, st) /\ r = difference conn orig st conns /\
    conns' = note_totals conn st conns.
Proof.
  intros Hlen. unfold build_metric, parse_report, buildV4Metric, buildV6Metric. rewrite decide_False by tauto.
  case_match; [|case_match; [|done]].
  - destruct (Read_V4 _) as [d|]; [|done]. cbn. intros [= <- <-]. by eexists _, _, _.
  - destruct (Read_V6 _) as [d|]; [|done]. cbn. intros [= <- <-]. by eexists _, _, _.
Qed.
Lemma build_metric_none raw conns : build_metric raw conns = None -> parse_report raw = None.
Proof.
  unfold build_metric, parse_report, buildV4Metric, buildV6Metric. case_decide; [done|].
  case_match; [|case_match; [|done]].
  - by destruct (Read_V4 _).
  - by destruct (Read_V6 _).
Qed.
Lemma difference_ok conn orig st conns : report_ok (difference conn orig st conns).
Proof. split; apply u32_is. Qed.

(** ** Runs

    What happens to a metric controller: records arrive, sums are flushed, a
    workload is removed, and other parts of the daemon change messages, caches
    and switches. *)
Inductive event : Type :=
  | Received (raw : bytes)
  | Flushed
  | Removed (p : ptr)
  | Changed (f : World -> World) (config : metricConfig).
Definition report : Type := requestMetric * connMetric * serviceMetricLabels.
Definition step (e : event) : Go MetricController (list report) :=
  match e with
  | Received raw => o ← Run_record osStartTime time_string raw; mret (option_list o)
  | Flushed => updatePrometheusMetric;; mret []
  | Removed p => DeleteWorkloadMetric (Some p);; mret []
  | Changed f config =>
      modify_world f;;
      modify (fun m => mkMetric config (mc_caches m) (mc_deletions m) (tcpConns m) (mc_gauges m) (accesslogs m));;
      mret []
  end.
Fixpoint run (evs : list event) : Go MetricController (list report) :=
  match evs with
  | [] => mret []
  | e :: evs => a ← step e; b ← run evs; mret (a ++ b)
  end.

Definition total {A} (f : A -> Z) (l : list A) : Z := foldr (fun x => Z.add (f x)) 0 l.
Lemma total_app {A} (f : A -> Z) l l' : total f (l ++ l') = total f l + total f l'.
Proof. induction l as [|a l IH]; cbn; [done|]. fold (total f (l ++ l')) (total f l). lia. Qed.
Lemma total_nonneg {A} (f : A -> Z) l : (forall x, x ∈ l -> 0 <= f x) -> 0 <= total f l.
Proof.
  induction l as [|a l IH]; intros Hf; cbn; [done|]. fold (total f l).
  assert (0 <= f a) by (apply Hf; left). assert (0 <= total f l) by (apply IH; intros; apply Hf; by right). lia.
Qed.

Lemma wp_run_events (I : list event -> list report -> MetricController -> Prop) evs w s :
  I evs [] s ->
  (forall e evs trace w s, I (e :: evs) trace s -> wp false (step e) (fun a _ s' => I evs (trace ++ a) s') w s) ->
  wp false (run evs) (fun trace _ s' => I [] trace s') w s.
Proof.
  intros HI Hstep.
  cut (forall trace, I evs trace s -> wp false (run evs) (fun a _ s' => I [] (trace ++ a) s') w s).
  { intros Hrun. by apply (Hrun []). }
  clear HI. revert w s. induction evs as [|e evs IH]; intros w s trace HI; cbn [run]; wp_steps.
  - by rewrite app_nil_r.
  - eapply wp_mono; [exact (Hstep e evs trace w s HI)|]. intros a w1 s1 H1. wp_steps.
    eapply wp_mono; [exact (IH w1 s1 _ H1)|]. intros b w2 s2 H2. wp_steps. by rewrite app_assoc.
Qed.

(** One event: what is counted grows by what the reports add. *)
Lemma step_counted e w s : state_ok s ->
  wp false (step e) (fun a _ s' => state_ok s' /\ forall c m, c ∈ service_counters ->
    0 <= total (adds c m) a /\
    (counted c m s + total (adds c m) a < 2 ^ 53 -> counted c m s' = counted c m s + total (adds c m) a)) w s.
Proof.
  intros Hok. destruct e as [raw| |p|f config]; cbn [step].
  - wp_steps. apply wp_Run_record.
    + intros _. wp_steps. split; [done|]. cbn. lia.
    + intros r conns labels w' s' Hlen Hb cm Hapart _ Hcache. wp_steps.
      destruct (build_metric_parse _ _ _ _ Hlen Hb) as (conn & st & orig & _ & Hr & _).
      assert (report_ok r) as Hrok by (rewrite Hr; apply difference_ok).
      destruct (update_counted s s' r cm labels Hok Hrok Hapart Hcache) as [Hok' Hadds]. split; [done|].
      intros c m Hc. destruct (Hadds c m Hc) as [Hd Hx]. change (total (adds c m) _) with (adds c m (r, cm, labels) + 0).
      lia.
  - wp_steps. eapply wp_mono; [by apply flush_counted|]. intros [] w' s' (Hok' & _ & Hc). wp_steps. split; [done|].
    intros c m Hin. specialize (Hc c m Hin). cbn. lia.
  - unfold DeleteWorkloadMetric. wp_steps. split; [exact Hok|]. intros c m Hc.
    change (counted c m (set_deletions _ s)) with (counted c m s). cbn. lia.
  - wp_steps. split; [exact Hok|]. intros c m Hc.
    change (counted c m (mkMetric _ _ _ _ _ _)) with (counted c m s). cbn. lia.
Qed.

(** A controller that has just been made, with a registry without values. *)
Definition fresh_controller (s : MetricController) : Prop :=
  mc_caches s = caches_empty /\ deleteService (mc_deletions s) = [] /\ tcpConns s = ∅ /\
  forall vec m, gauge_value vec m (mc_gauges s) = None.
Lemma fresh_ok s : fresh_controller s -> state_ok s /\ forall c m, counted c m s = 0.
Proof.
  intros (Hc & Hd & _ & Hg).
  assert (forall c m, recorded c m s = 0) as He by (intros; unfold recorded; by rewrite Hg).
  split; [split_and!|].
  - done.
  - rewrite Hc. intros c k v _ Hk. destruct (lookup_empty_Some (M := gmap serviceMetricLabels) k v Hk).
  - intros c m _. by rewrite He.
  - intros c m. unfold counted. by rewrite He, Hc.
Qed.

(** The counter of failed connections is the only one that is not registered. *)
Lemma exported_recorded c m s : c ∈ service_counters -> ct_vec c <> tcpConnectionFailedInService ->
  exported c m s = recorded c m s.
Proof.
  intros Hc Hf. unfold exported, scrape, recorded. rewrite decide_True; [done|]. revert Hf. pattern c.
  apply (each_counter _ c Hc); intros Hf; [..|refine (bool_decide_unpack _ _); vm_compute; exact I];
    try (refine (bool_decide_unpack _ _); vm_compute; exact I). by destruct Hf.
Qed.
Lemma failed_not_served labels (g : Gauges) : scrape tcpConnectionFailedInService labels g = None.
Proof. unfold scrape. rewrite decide_False; [done|]. refine (bool_decide_unpack _ _). vm_compute. exact I. Qed.

(** C19: Nothing is lost and nothing counted twice on the way from the reports to
    the vectors of the Prometheus client: after any run of records, flushes,
    removals of workloads and changes in the rest of the daemon, for each of
    the five counters of services (connections opened, closed and failed,
    bytes received and sent) and all labels, the recorded value together with
    what waits for the next flush is the sum of what the reports under these
    labels added.  For the four counters that are registered this is the value
    that is served; the counter of failed connections is not registered, and
    nothing of it is ever served.  The run never panics, so the labels always
    fit the vectors.  The sum has to stay below 2^53, where [float64] is exact,
    and no service may have been removed, which deletes values. *)
Theorem service_metrics_conserved evs w s : fresh_controller s ->
  wp false (run evs) (fun trace _ s' => forall c m, c ∈ service_counters ->
    total (adds c m) trace < 2 ^ 53 ->
    recorded c m s' + pending c m (serviceMetricCache (mc_caches s')) = total (adds c m) trace /\
    (ct_vec c <> tcpConnectionFailedInService ->
       exported c m s' + pending c m (serviceMetricCache (mc_caches s')) = total (adds c m) trace) /\
    (ct_vec c = tcpConnectionFailedInService -> scrape (ct_vec c) m (mc_gauges s') = None)) w s.
Proof.
  intros [Hok H0]%fresh_ok.
  eapply wp_mono; [apply (wp_run_events (fun _ trace s => state_ok s /\ forall c m, c ∈ service_counters ->
    (total (adds c m) trace < 2 ^ 53 -> counted c m s = total (adds c m) trace)))|].
  - split; [done|]. intros c m _ _. by rewrite H0.
  - intros e evs' trace w' s' [Hs Hinv]. eapply wp_mono; [by apply step_counted|].
    intros a w'' s'' [Hs' Hstep]. split; [done|]. intros c m Hc. rewrite total_app. intros Hb.
    destruct (Hstep c m Hc) as [Hpos Hx]. rewrite Hx; rewrite Hinv by (done || lia); lia.
  - intros trace w' s' [_ Hinv] c m Hc Hb. split; [by apply Hinv|]. split.
    + intros Hf. rewrite exported_recorded by done. by apply Hinv.
    + intros ->. apply failed_not_served.
Qed.

(** ** The differences of a connection *)
Lemma u32_difference t b : 0 <= t - b < 2 ^ 32 -> (u32 t -32 u32 b)%go = t - b.
Proof. intros H. unfold u32. rewrite <-Zminus_mod. by apply Z.mod_small. Qed.

(** The reports of a connection among the events. *)
Definition report_of (conn : connectionSrcDst) (e : event) : option statistics :=
  match e with
  | Received raw => '(conn', st) ← parse_report raw; if decide (conn' = conn) then Some st else None
  | _ => None
  end.
Definition reports_of (conn : connectionSrcDst) (evs : list event) : list statistics := omap (report_of conn) evs.

(** What is reported as a running total and counted as differences. *)
Record quantity : Type := mkQuantity {
  q_stat : statistics -> Z; q_report : requestMetric -> Z; q_kept : connMetric -> Z
}.
Definition quantities : list quantity := [
  mkQuantity ReceivedBytes receivedBytes cm_receivedBytes;
  mkQuantity SentBytes sentBytes cm_sentBytes;
  mkQuantity Retransmits totalRetrans cm_totalRetrans;
  mkQuantity LostPackets packetLost cm_packetLost].

Definition kept (q : quantity) (conn : connectionSrcDst) (conns : gmap connectionSrcDst connMetric) : Z :=
  q_kept q (default connMetric_zero (conns !! conn)).
Lemma quantity_spec q conn orig st conns : q ∈ quantities ->
  q_report q (difference conn orig st conns) = (q_stat q st -32 kept q conn conns)%go /\
  kept q conn (note_totals conn st conns) = q_stat q st /\ q_kept q connMetric_zero = 0.
Proof.
  unfold kept, note_totals. intros Hq.
  repeat (apply elem_of_cons in Hq as [->|Hq];
    [split_and!; [done| |done]; case_match; by rewrite lookup_insert_eq|]).
  by apply not_elem_of_nil in Hq.
Qed.
Lemma kept_other q conn st conns conn' : conn' <> conn -> kept q conn' (note_totals conn st conns) = kept q conn' conns.
Proof. intros Hne. unfold kept, note_totals. case_match; by rewrite lookup_insert_ne. Qed.

(** The reports carry the lower 32 bits of running totals; between two
    reports a total grows by less than 2^32. *)
Fixpoint carries (f : statistics -> Z) (last : Z) (sts : list statistics) (totals : list Z) : Prop :=
  match sts, totals with
  | [], [] => True
  | st :: sts, t :: totals => f st = u32 t /\ last <= t < last + 2 ^ 32 /\ carries f t sts totals
  | _, _ => False
  end.
(** Only the last report is about the end of the connection. *)
Fixpoint closes_last (sts : list statistics) : Prop :=
  match sts with
  | [] => True
  | st :: sts => (sts <> [] -> State st <> TCP_CLOSED) /\ closes_last sts
  end.

(** What was counted for a connection. *)
Definition of_conn (conn : connectionSrcDst) (f : requestMetric -> Z) (x : report) : Z :=
  let '(r, _, _) := x in if decide (conSrcDstInfo r = conn) then f r else 0.

(** The reports that are still to come, the last total before them, and the
    totals they carry. *)
Definition in_step (q : quantity) (conn : connectionSrcDst) (sts : list statistics) (before : Z) (totals : list Z)
    (s : MetricController) : Prop :=
  (sts <> [] -> kept q conn (tcpConns s) = u32 before) /\ closes_last sts /\
  carries (q_stat q) before sts totals.

Lemma last_cons (l : list Z) : forall a d, List.last (a :: l) d = List.last l a.
Proof. induction l as [|b l IH]; intros a d; [done|]. transitivity (List.last (b :: l) d); [done|]. by rewrite !IH. Qed.

Lemma record_in_step q conn raw sts before totals s s' r conns : q ∈ quantities ->
  in_step q conn (option_list (report_of conn (Received raw)) ++ sts) before totals s ->
  length raw = record_size -> build_metric raw (tcpConns s) = Some (r, conns) -> tcpConns s' = kept_conns r conns ->
  exists before' totals', in_step q conn sts before' totals' s' /\
    (if decide (conSrcDstInfo r = conn) then q_report q r else 0) = before' - before /\
    List.last totals before = List.last totals' before'.
Proof.
  intros Hq Hin Hlen Hb Hconns.
  destruct (build_metric_parse _ _ _ _ Hlen Hb) as (conn' & st & orig & Hparse & -> & ->).
  destruct (quantity_spec q conn' orig st (tcpConns s) Hq) as (Hrep & Hkept & _).
  unfold report_of in Hin. rewrite Hparse in Hin. cbn [mbind option_bind] in Hin.
  unfold kept_conns in Hconns. cbn [conSrcDstInfo difference] in Hconns |- *.
  destruct (decide (conn' = conn)) as [->|Hne]; cbn [option_list app] in Hin.
  - destruct Hin as (Hk & [Hopen Hcl] & Hcarry). destruct totals as [|t totals]; [done|].
    destruct Hcarry as (Hst & Hgrow & Hcarry). exists t, totals. split; [split_and!|split].
    + intros Hne. rewrite Hconns, decide_False by (cbn; by apply Hopen). by rewrite Hkept.
    + done.
    + done.
    + rewrite Hrep, Hst, Hk by done. apply u32_difference. lia.
    + apply last_cons.
  - destruct Hin as (Hk & Hcl & Hcarry). exists before, totals. split; [split_and!|split]; try done; [|lia].
    intros Hsts. rewrite Hconns, <-(Hk Hsts), <-(kept_other q conn' st (tcpConns s) conn) by done.
    case_decide; [|done]. unfold kept. by rewrite lookup_delete_ne.
Qed.

Lemma step_in_step q conn e sts before totals w s : q ∈ quantities -> state_ok s ->
  in_step q conn (option_list (report_of conn e) ++ sts) before totals s ->
  wp false (step e) (fun a _ s' => exists before' totals', in_step q conn sts before' totals' s' /\
    total (of_conn conn (q_report q)) a = before' - before /\
    List.last totals before = List.last totals' before') w s.
Proof.
  intros Hq Hok Hin. destruct e as [raw| |p|f config]; cbn [step].
  - wp_steps. apply wp_Run_record.
    + intros Hnone. wp_steps. exists before, totals. cbn. split_and!; [|lia|done].
      assert (parse_report raw = None) as Hp.
      { destruct Hnone as [Hlen|Hb]; [|by eapply build_metric_none]. unfold parse_report. by rewrite decide_True. }
      cbn [report_of] in Hin. by rewrite Hp in Hin.
    + intros r conns labels w' s' Hlen Hb cm _ Hconns _. wp_steps.
      destruct (record_in_step q conn raw sts before totals s s' r conns) as (b' & t' & H1 & H2 & H3); [done..|].
      exists b', t'. split_and!; [done| |done]. cbn. lia.
  - wp_steps. eapply wp_mono; [by apply flush_counted|]. intros [] w' s' (_ & Hc & _). wp_steps.
    exists before, totals. cbn. split_and!; [|lia|done]. unfold in_step. by rewrite Hc.
  - unfold DeleteWorkloadMetric. wp_steps. exists before, totals. cbn. by split_and!; [|lia|].
  - wp_steps. exists before, totals. cbn. by split_and!; [|lia|].
Qed.

(** C21: The differences that are counted for a connection add up to its totals:
    with reports that carry the lower 32 bits of totals that start at 0 and
    grow by less than 2^32 between two reports, and whatever else happens in
    between, the sum of what is counted is the last total itself, beyond 32
    bits.  This holds for bytes received and sent, for retransmissions and for
    lost packets. *)
Theorem differences_add_up q conn evs totals w s : q ∈ quantities -> fresh_controller s ->
  carries (q_stat q) 0 (reports_of conn evs) totals -> closes_last (reports_of conn evs) ->
  wp false (run evs) (fun trace _ _ => total (of_conn conn (q_report q)) trace = List.last totals 0) w s.
Proof.
  intros Hq Hfresh Hcarry Hcl. pose proof (fresh_ok s Hfresh) as [Hok _].
  eapply wp_mono; [apply (wp_run_events (fun evs trace s => state_ok s /\ exists before totals',
    in_step q conn (reports_of conn evs) before totals' s /\
    total (of_conn conn (q_report q)) trace = before /\ List.last totals 0 = List.last totals' before))|].
  - split; [done|]. exists 0, totals. split_and!; [|done..]. split_and!; [|done..]. intros _.
    destruct Hfresh as (_ & _ & -> & _). unfold kept. rewrite lookup_empty. by apply (quantity_spec q conn ([], 0)
      (read_statistics []) ∅ Hq).
  - intros e evs' trace w' s' (Hs & before & totals' & Hin & Htot & Hlast).
    eapply wp_mono; [apply wp_and; [by apply step_counted|]|].
    + apply (step_in_step q conn e (reports_of conn evs') before totals'); [done..|].
      cbn [reports_of omap list_omap] in Hin |- *. unfold reports_of in Hin. cbn in Hin. by destruct (report_of conn e).
    + intros a w'' s'' [[Hs'' _] (b' & t' & Hin' & Ha & Hl)]. split; [done|]. exists b', t'. rewrite total_app.
      split_and!; [done|lia|congruence].
  - intros trace w' s' (_ & before & totals' & (_ & _ & Hc) & Htot & Hlast). cbn in Hc.
    destruct totals'; [|done]. cbn in Hlast. congruence.
Qed.

(** ** Services that are removed *)
Lemma Split_slash_app a b : Split_slash (a +:+ "/" +:+ b) = Split_slash a ++ Split_slash b.
Proof.
  induction a as [|ch a IH]; [done|].
  change (String ch a +:+ "/" +:+ b) with (String ch (a +:+ "/" +:+ b)). cbn [Split_slash]. rewrite IH.
  case_decide; [done|].
  by destruct (Split_slash a) as [|p ps] eqn:Ha; [destruct a; cbn in Ha; repeat case_match|].
Qed.
Lemma Split_slash_one a p : Split_slash a = [p] -> p = a.
Proof.
  revert p. induction a as [|ch a IH]; intros p; cbn; [by intros [= <-]|]. case_decide.
  - intros [= _ Ha]. destruct a; cbn in Ha; repeat case_match; done.
  - destruct (Split_slash a) as [|p' [|]] eqn:Ha; intros [= <-]; [destruct a; cbn in Ha; repeat case_match; done|].
    by rewrite (IH p').
Qed.
Lemma Split_slash_two a b p p' : Split_slash (a +:+ "/" +:+ b) = [p; p'] -> p = a /\ p' = b.
Proof.
  rewrite Split_slash_app. intros H.
  assert (forall x, Split_slash x <> []) as Hne by (intros [|]; cbn; repeat case_match; done).
  destruct (Split_slash a) as [|q [|q' [|]]] eqn:Ha; [by destruct (Hne a)| | |]; cbn in H.
  - injection H as <- Hb. by apply Split_slash_one in Ha, Hb.
  - injection H as _ _ Hb. by destruct (Hne b).
  - discriminate.
Qed.

Lemma deleteService_elsewhere name m w s :
  (forall ns host, Split_slash name = [ns; host] -> m !! "destination_service_name" <> Some host) ->
  wp false (deleteServiceMetricInPrometheus name) (fun _ _ s' => s' = set_gauges (mc_gauges s') s /\
    forall vec, gauge_value vec m (mc_gauges s') = gauge_value vec m (mc_gauges s)) w s.
Proof.
  intros Hm. unfold deleteServiceMetricInPrometheus.
  destruct (Split_slash name) as [|ns [|host [|]]]; try (apply wp_ret; by destruct s).
  specialize (Hm ns host eq_refl). unfold delete_all.
  apply wp_fold_each with (I := fun _ _ _ s' => s' = set_gauges (mc_gauges s') s /\
    forall vec, gauge_value vec m (mc_gauges s') = gauge_value vec m (mc_gauges s)); [by destruct s| |done].
  intros vec l' [] w' s' [Hs' Hv]. wp_steps. split; [by rewrite Hs'|]. intros vec'. cbn [mc_gauges set_gauges].
  rewrite delete_partial, decide_False; [apply Hv|]. intros [_ Hsub]. apply Hm.
  eapply lookup_weaken; [|done]. by rewrite lookup_insert_eq.
Qed.

(** C37: The values of a service are meant to go when the service is removed, but
    they stay: the label [destination_service_name] holds the name of the
    service, and the deletion looks for its host name there. *)
Theorem removed_service_metrics_stay x labels w s :
  mc_caches s = caches_empty -> mc_deletions s = mkDeletions [] [] [] ->
  sm_service labels = withDestinationService x -> svc_name x <> "" -> svc_name x <> svc_hostname x ->
  wp false (DeleteServiceMetric (Service_ResourceName x);; updatePrometheusMetric)
    (fun _ _ s' => deleteService (mc_deletions s') = [] /\
       forall vec, gauge_value vec (struct2map (service_fields labels)) (mc_gauges s') =
                   gauge_value vec (struct2map (service_fields labels)) (mc_gauges s)) w s.
Proof.
  intros Hcaches Hdels Hl Hname Hhost.
  assert (struct2map (service_fields labels) !! "destination_service_name" = Some (svc_name x)) as Hlabel.
  { change "destination_service_name" with (label_name "destinationServiceName").
    rewrite (struct2map_lookup (service_fields labels) 11 "destinationServiceName" (svc_name x)).
    - unfold label_value. by rewrite decide_False.
    - apply (bool_decide_unpack (NoDup (label_name <$> (service_fields labels).*1))). by vm_compute.
    - cbn. by rewrite Hl. }
  assert (Service_ResourceName x <> "") as Hne.
  { unfold Service_ResourceName. by destruct (svc_namespace x). }
  unfold DeleteServiceMetric. rewrite decide_False by done. unfold updatePrometheusMetric. wp_steps.
  do 3 (match goal with Hp : ?l ≡ₚ map_to_list _ |- _ =>
    cbn in Hp; rewrite Hcaches in Hp; apply Permutation_nil_r in Hp; subst l end; cbn [fold_each]; wp_steps).
  cbn [mc_deletions set_deletions set_caches deleteWorkload deleteService deleteConnection]. rewrite Hdels.
  cbn [deleteWorkload deleteService deleteConnection app fold_each]. wp_steps.
  eapply wp_mono; [apply (deleteService_elsewhere _ (struct2map (service_fields labels)))|].
  - intros ns host [_ ->]%Split_slash_two. rewrite Hlabel. congruence.
  - intros [] w' s' [Hs' Hv]. wp_steps. rewrite Hs'. split; [done|]. intros vec. apply Hv.
Qed.
End facts.

(** ** A registry *)
#[export] Instance GaugeVec_countable : Countable GaugeVec.
Proof. apply (inj_countable' (fun v => (vec_name v, vec_labels v)) (fun '(a, b) => mkVec a b)). by intros []. Defined.
Definition DemoPrometheus : Prometheus := {|
  Gauges := gmap (GaugeVec * gmap string string) Z;
  With_Add := fun vec labels v g =>
    if decide (dom labels = list_to_set (vec_labels vec) :> gset string)
    then Some (<[(vec, labels) := f64_add (default 0 (g !! (vec, labels))) v]> g) else None;
  DeletePartialMatch := fun vec labels g => filter (fun kv => ~ (kv.1.1 = vec /\ labels ⊆ kv.1.2)) g;
  gauge_value := fun vec labels g => g !! (vec, labels)
|}.
#[export] Instance DemoPrometheus_laws : PrometheusLaws DemoPrometheus.
Proof.
  split; cbn.
  - intros vec labels v g Hdom. rewrite decide_True by done. eexists; split; [done|]. intros vec' labels'.
    case_decide as Hd.
    + destruct Hd as [-> ->]. by rewrite lookup_insert_eq.
    + rewrite lookup_insert_ne; [done|]. intros [= -> ->]. by apply Hd.
  - intros vec labels v g Hdom. by rewrite decide_False.
  - intros vec labels g vec' labels'. case_decide as Hd.
    + apply map_lookup_filter_None. right. intros x _ Hn. by apply Hn.
    + destruct (g !! (vec', labels')) as [x|] eqn:Hx.
      * by apply map_lookup_filter_Some.
      * apply map_lookup_filter_None. by left.
Qed.

(** Two reports of a connection from 10.0.0.1 to 10.0.0.2: 5 bytes sent, then
    more than 2^32. *)
Definition demo_report (sent state : Z) : bytes :=
  le_bytes 4 0 ++ [10; 0; 0; 1] ++ [10; 0; 0; 2] ++ le_bytes 2 40000 ++ le_bytes 2 80 ++ replicate 44 0 ++
  le_bytes 4 (u32 sent) ++ le_bytes 4 0 ++ le_bytes 4 1 ++ le_bytes 4 OUTBOUND ++ le_bytes 4 state ++ replicate 48 0.
Definition demo_conn : connectionSrcDst :=
  mkConn [16777226; 0; 0; 0] [33554442; 0; 0; 0] 40000 80 OUTBOUND.
Definition demo_metrics : @MetricController DemoPrometheus :=
  NewMetric NewWorkloadCache NewServiceCache true ∅.
Definition demo_events : list event :=
  [Received (demo_report 5 1); Flushed; Received (demo_report 4294967300 7); Flushed].
Lemma demo_fresh : fresh_controller demo_metrics.
Proof. split_and!; [done..|]. intros vec m. exact (lookup_empty (M := gmap (GaugeVec * gmap string string)) (vec, m)). Qed.

Lemma service_metrics_conserved_witness : fresh_controller demo_metrics /\
  wp (S := @MetricController DemoPrometheus) false (run (E := EnvOk) 0 (fun _ => "") demo_events)
    (fun trace _ s' => forall c m, c ∈ service_counters -> total (adds c m) trace < 2 ^ 53 ->
      recorded c m s' + pending c m (serviceMetricCache (mc_caches s')) = total (adds c m) trace /\
      (ct_vec c <> tcpConnectionFailedInService ->
         exported c m s' + pending c m (serviceMetricCache (mc_caches s')) = total (adds c m) trace) /\
      (ct_vec c = tcpConnectionFailedInService -> scrape (ct_vec c) m (mc_gauges s') = None))
    (mkWorld 0 ∅ ∅) demo_metrics.
Proof. split; [exact demo_fresh|]. apply (service_metrics_conserved (E := EnvOk)). exact demo_fresh. Defined.

Lemma differences_add_up_witness :
  wp (S := @MetricController DemoPrometheus) false (run (E := EnvOk) 0 (fun _ => "") demo_events)
    (fun trace _ _ => total (of_conn demo_conn sentBytes) trace = 4294967300) (mkWorld 0 ∅ ∅) demo_metrics.
Proof.
  apply (differences_add_up (E := EnvOk) 0 (fun _ => "") (mkQuantity SentBytes sentBytes cm_sentBytes) demo_conn demo_events
    [5; 4294967300]).
  - right; left.
  - exact demo_fresh.
  - vm_compute. repeat split; congruence.
  - vm_compute. repeat split; congruence.
Defined.

Definition demo_service : Service := mkService "app" "default" "app.default.svc" [] [] None None.
Definition demo_service_labels : serviceMetricLabels :=
  mkServiceLabels "source" source_zero (withDestinationService demo_service) destination_zero tcp_labels.
Lemma removed_service_metrics_stay_witness :
  wp (S := @MetricController DemoPrometheus) false
    (DeleteServiceMetric (Service_ResourceName demo_service);; updatePrometheusMetric (H := EnvOk))
    (fun _ _ s' => deleteService (mc_deletions s') = [] /\
       forall vec, gauge_value vec (struct2map (service_fields demo_service_labels)) (mc_gauges s') =
                   gauge_value vec (struct2map (service_fields demo_service_labels)) (mc_gauges demo_metrics))
    (mkWorld 0 ∅ ∅) demo_metrics.
Proof. by apply (removed_service_metrics_stay (E := EnvOk) demo_service demo_service_labels). Defined.
