(* ===== verification/Probe.v ===== *)
(** * What the probe reports and what user space reads

    The BPF probe writes a [struct tcp_probe_info] to the ring buffer
    ([bpf/kmesh/probes/tcp_probe.h]); the metric controller reads the same bytes
    as a [connectionDataV4] or [connectionDataV6]
    ([pkg/controller/telemetry/metric.go]).  The two agree on the connection,
    seen from its client to its server, and on the totals. *)
From S2P Require Import Prelude GoNet Nets Api Runtime BpfCache BpfCommon Delivery Telemetry TelemetryFacts.

(** The layout of the struct: the numbers little-endian, eight bytes aligned
    to eight, and the whole padded to 128 bytes.  The padding of the original
    destination, [protocol], which no program sets, and the padding at the end
    are whatever the ring buffer held. *)
Record stale_bytes : Type := mkStale { after_orig : bytes; in_protocol : bytes; at_end : bytes }.
Definition stale_ok (g : stale_bytes) : Prop :=
  length (after_orig g) = 2%nat /\ length (in_protocol g) = 4%nat /\ length (at_end g) = 4%nat.
Definition stats_bytes (g : stale_bytes) (i : tcp_probe_info) : bytes :=
  le_bytes 4 (sent_bytes i) ++ le_bytes 4 (received_bytes i) ++ le_bytes 4 (Z.b2z (conn_success i)) ++
  le_bytes 4 (tp_direction i) ++ le_bytes 4 (tp_state i) ++ le_bytes 8 (duration i) ++ le_bytes 8 (start_ns i) ++
  le_bytes 8 (tp_last_report_ns i) ++ in_protocol g ++ le_bytes 4 (srtt_us i) ++ le_bytes 4 (rtt_min i) ++
  le_bytes 4 (total_retrans i) ++ le_bytes 4 (lost_out i) ++ at_end g.
Definition probe_bytes (g : stale_bytes) (i : tcp_probe_info) : bytes :=
  le_bytes 4 (tp_type i) ++ tp_tuple i ++ (tp_orig_dst i ++ after_orig g) ++ stats_bytes g i.

(** ** Reading from concatenations *)
Lemma ld_app_l n off a b : (off + n <= length a)%nat -> ld n off (a ++ b) = ld n off a.
Proof.
  intros Hl. unfold ld. rewrite drop_app_le by lia. rewrite take_app_le; [done|]. rewrite length_drop. lia.
Qed.
Lemma ld_app_r n off a b : (length a <= off)%nat -> ld n off (a ++ b) = ld n (off - length a) b.
Proof. intros Hl. unfold ld. by rewrite drop_app_ge. Qed.
Lemma ld_drop n off k a : ld n off (drop k a) = ld n (k + off) a.
Proof. unfold ld. by rewrite drop_drop. Qed.
Lemma ld_take n off k a : (off + n <= k)%nat -> ld n off (take k a) = ld n off a.
Proof.
  intros Hl. unfold ld. replace k with (off + (k - off))%nat by lia.
  rewrite <-take_drop_commute, take_take. f_equal. f_equal. lia.
Qed.
Lemma ld_le_bytes n x : ld n 0 (le_bytes n x) = x mod 256 ^ Z.of_nat n.
Proof. unfold ld. rewrite drop_0, take_ge by (by rewrite length_le_bytes). apply le_uint_le_bytes. Qed.

(** Walks to the field at an offset of a concatenation of fields. *)
Ltac field := repeat first
  [ rewrite ld_app_l by (rewrite ?length_le_bytes; lia)
  | rewrite ld_app_r by (rewrite ?length_le_bytes; lia); rewrite ?length_le_bytes
  | progress cbn [Nat.sub Nat.add] | rewrite ld_le_bytes ].

Lemma read_stats g i : stale_ok g -> let st := read_statistics (stats_bytes g i) in
  SentBytes st = u32 (sent_bytes i) /\ ReceivedBytes st = u32 (received_bytes i) /\
  ConnectSuccess st = Z.b2z (conn_success i) /\ Direction st = u32 (tp_direction i) /\
  State st = u32 (tp_state i) /\ Duration st = u64 (duration i) /\ StartTime st = u64 (start_ns i) /\
  LastReportTime st = u64 (tp_last_report_ns i) /\ SRttTime st = u32 (srtt_us i) /\ RttMin st = u32 (rtt_min i) /\
  Retransmits st = u32 (total_retrans i) /\ LostPackets st = u32 (lost_out i).
Proof.
  intros (_ & Hp & He). cbn zeta. unfold read_statistics, stats_bytes, u32, u64.
  cbn [SentBytes ReceivedBytes ConnectSuccess Direction State Duration StartTime LastReportTime SRttTime RttMin
       Retransmits LostPackets].
  split_and!; field; rewrite ?Hp; field; try done. by destruct (conn_success i).
Qed.
Lemma length_stats g i : stale_ok g -> length (stats_bytes g i) = 68%nat.
Proof. intros (_ & Hp & He). unfold stats_bytes. rewrite !length_app, !length_le_bytes. lia. Qed.

(** ** The connection of a socket *)
Definition side (sk : bpf_sock) (a4 : Z) (a6 : bytes) : list Z :=
  if sk_family sk =? AF_INET then [a4; 0; 0; 0]
  else if is_ipv4_mapped_addr (dst_ip6 sk) then [ld 4 12 a6; 0; 0; 0]
  else words4 0 a6.
(** From the client, which is the local end of an outbound connection, to the
    server. *)
Definition socket_conn (sk : bpf_sock) (dir : Z) : connectionSrcDst :=
  let local := side sk (src_ip4 sk) (src_ip6 sk) in
  let remote := side sk (dst_ip4 sk) (dst_ip6 sk) in
  if dir =? OUTBOUND then mkConn local remote (src_port sk) (bpf_ntohs (dst_port sk)) dir
  else mkConn remote local (bpf_ntohs (dst_port sk)) (src_port sk) dir.

Definition socket_ok (sk : bpf_sock) : Prop :=
  is_u32 (src_ip4 sk) /\ is_u32 (dst_ip4 sk) /\ is_u16 (src_port sk) /\
  length (src_ip6 sk) = 16%nat /\ Forall is_u8 (src_ip6 sk) /\
  length (dst_ip6 sk) = 16%nat /\ Forall is_u8 (dst_ip6 sk).
(** A socket of IPv4, whose IPv6 addresses do not look like mapped ones, or
    one of IPv6 with both ends mapped or none. *)
Definition family_ok (sk : bpf_sock) : Prop :=
  (sk_family sk = AF_INET /\ is_ipv4_mapped_addr (dst_ip6 sk) = false) \/
  (sk_family sk = AF_INET6 /\ is_ipv4_mapped_addr (src_ip6 sk) = is_ipv4_mapped_addr (dst_ip6 sk)).

(** What the tuple of a report says in the view that its type selects. *)
Definition tuple_conn (v4 : bool) (t : bytes) (dir : Z) : connectionSrcDst :=
  if v4 then mkConn [ld 4 0 t; 0; 0; 0] [ld 4 4 t; 0; 0; 0] (ld 2 8 t) (ld 2 10 t) dir
  else mkConn (words4 0 t) (words4 16 t) (ld 2 32 t) (ld 2 34 t) dir.

Lemma bpf_ntohs_u16 x : is_u16 (bpf_ntohs x).
Proof. apply (be_uint_bounds (le_bytes 2 x)), le_bytes_is. Qed.
Lemma ld_v6_daddr n off t : (off + n <= 16)%nat -> ld n off (v6_daddr t) = ld n (16 + off) t.
Proof. intros Hl. unfold v6_daddr. rewrite ld_take by done. by rewrite ld_drop. Qed.
Lemma mapped_v6_daddr t : is_ipv4_mapped_addr (v6_daddr t) =
  (ld 4 16 t =? 0) && (ld 4 20 t =? 0) && (ld 4 24 t =? 4294901760).
Proof. unfold is_ipv4_mapped_addr, ip6. by rewrite !ld_v6_daddr by (cbn; lia). Qed.

(** Reads through the writes of fields. *)
Lemma length_tuple_st n off v t : (off + n <= 36)%nat -> length t = 36%nat -> length (st n off v t) = 36%nat.
Proof. intros Hl Ht. rewrite length_st; lia. Qed.
Lemma length_tuple_memcpy off a t : (off + length a <= 36)%nat -> length t = 36%nat -> length (memcpy off a t) = 36%nat.
Proof. intros Hl Ht. rewrite length_memcpy; lia. Qed.
Lemma ld_memcpy_in n off a m k : (k + n <= length a)%nat -> (off + length a <= length m)%nat ->
  ld n (off + k) (memcpy off a m) = ld n k a.
Proof.
  intros Hk Hl. unfold memcpy. rewrite ld_app_r by (rewrite length_take; lia). rewrite length_take.
  replace (off + k - off `min` length m)%nat with k by lia. by rewrite ld_app_l.
Qed.

Ltac tlen := repeat first [rewrite length_st by tlen | rewrite length_memcpy by tlen]; lia.
Ltac reading := repeat first
  [ rewrite ld_st by tlen | rewrite ld_st_ne by tlen | rewrite ld_memcpy_ne by tlen ].
Lemma u32_mod v : is_u32 v -> v mod 256 ^ Z.of_nat 4 = v.
Proof. apply Z.mod_small. Qed.
Lemma u16_mod v : is_u16 v -> v mod 256 ^ Z.of_nat 2 = v.
Proof. apply Z.mod_small. Qed.

Lemma tuple_v4 sk t dir : sk_family sk = AF_INET -> socket_ok sk -> dir = INBOUND \/ dir = OUTBOUND ->
  length t = 36%nat -> is_ipv4_mapped_addr (v6_daddr t) = false ->
  let t' := construct_tuple sk t dir in tuple_conn true t' dir = socket_conn sk dir /\ length t' = 36%nat.
Proof.
  intros Hf (Hs & Hd & Hp & _) Hdir Ht Hm. pose proof (bpf_ntohs_u16 (dst_port sk)) as Hq.
  unfold construct_tuple, socket_conn, side, tuple_conn. rewrite Hf. rewrite mapped_v6_daddr in Hm.
  unfold set_v4_dport, set_v4_sport, set_v4_daddr, set_v4_saddr.
  destruct Hdir as [-> | ->]; cbn [Z.eqb Pos.eqb INBOUND OUTBOUND AF_INET AF_INET6];
    rewrite mapped_v6_daddr; reading; rewrite Hm; reading; rewrite !u32_mod, !u16_mod by done; (split; [done|tlen]).
Qed.

Lemma words4_memcpy off a m : length a = 16%nat -> (off + 16 <= length m)%nat ->
  words4 off (memcpy off a m) = words4 0 a.
Proof. intros Ha Hl. unfold words4. cbn [fmap list_fmap]. rewrite !ld_memcpy_in by (rewrite Ha; cbn; lia). done. Qed.
Lemma words4_memcpy_ne off a m k : (off + length a <= length m)%nat -> (k + 16 <= off \/ off + length a <= k)%nat ->
  words4 k (memcpy off a m) = words4 k m.
Proof. intros Hl Hd. unfold words4. cbn [fmap list_fmap]. rewrite !ld_memcpy_ne by lia. done. Qed.
Lemma words4_st_ne n off v m k : (off + n <= length m)%nat -> (k + 16 <= off \/ off + n <= k)%nat ->
  words4 k (st n off v m) = words4 k m.
Proof. intros Hl Hd. unfold st. apply words4_memcpy_ne; by rewrite length_le_bytes. Qed.
Lemma mapped_words a : length a = 16%nat -> is_ipv4_mapped_addr a =
  match words4 0 a with [x; y; z; _] => (x =? 0) && (y =? 0) && (z =? 4294901760) | _ => false end.
Proof. done. Qed.

(** The v6 view of the tuple of an IPv6 socket. *)
Definition tuple6 (sk : bpf_sock) (t : bytes) (dir : Z) : bytes :=
  if dir =? OUTBOUND then
    set_v6_dport (bpf_ntohs (dst_port sk)) (set_v6_sport (src_port sk)
      (set_v6_daddr (dst_ip6 sk) (set_v6_saddr (src_ip6 sk) t)))
  else set_v6_sport (bpf_ntohs (dst_port sk)) (set_v6_dport (src_port sk)
      (set_v6_daddr (src_ip6 sk) (set_v6_saddr (dst_ip6 sk) t))).
Lemma construct_tuple6 sk t dir : sk_family sk = AF_INET6 -> dir = INBOUND \/ dir = OUTBOUND ->
  construct_tuple sk t dir =
    if is_ipv4_mapped_addr (v6_daddr (tuple6 sk t dir)) then v4_of_mapped (tuple6 sk t dir) else tuple6 sk t dir.
Proof. intros Hf Hdir. unfold construct_tuple, tuple6. rewrite Hf. by destruct Hdir as [-> | ->]. Qed.
Lemma tuple6_spec sk t dir : socket_ok sk -> dir = INBOUND \/ dir = OUTBOUND -> length t = 36%nat ->
  let t' := tuple6 sk t dir in length t' = 36%nat /\
  let '(a, b, p, q) := if dir =? OUTBOUND then (src_ip6 sk, dst_ip6 sk, src_port sk, bpf_ntohs (dst_port sk))
                       else (dst_ip6 sk, src_ip6 sk, bpf_ntohs (dst_port sk), src_port sk) in
  words4 0 t' = words4 0 a /\ words4 16 t' = words4 0 b /\ ld 2 32 t' = p /\ ld 2 34 t' = q.
Proof.
  intros (_ & _ & Hp & Hs & _ & Hd & _) Hdir Ht. pose proof (bpf_ntohs_u16 (dst_port sk)) as Hq.
  unfold tuple6, set_v6_dport, set_v6_sport, set_v6_daddr, set_v6_saddr.
  destruct Hdir as [-> | ->]; cbn [Z.eqb Pos.eqb INBOUND OUTBOUND]; (split; [tlen|split_and!]);
    rewrite ?words4_st_ne by tlen; reading; rewrite ?u16_mod by done; try done;
    first [by rewrite words4_memcpy by tlen | rewrite words4_memcpy_ne by tlen; by rewrite words4_memcpy by tlen].
Qed.
Lemma length_tuple6 sk t dir : socket_ok sk -> dir = INBOUND \/ dir = OUTBOUND -> length t = 36%nat ->
  length (tuple6 sk t dir) = 36%nat.
Proof. intros Hsk Hdir Ht. by apply tuple6_spec. Qed.

Lemma v4_of_mapped_spec t dir : length t = 36%nat -> is_u32 (ld 4 12 t) -> is_u32 (ld 4 28 t) ->
  is_u16 (ld 2 32 t) -> is_u16 (ld 2 34 t) ->
  tuple_conn true (v4_of_mapped t) dir =
    mkConn [ld 4 12 t; 0; 0; 0] [ld 4 28 t; 0; 0; 0] (ld 2 32 t) (ld 2 34 t) dir /\
  length (v4_of_mapped t) = 36%nat.
Proof.
  intros Ht Ha Hb Hp Hq. unfold v4_of_mapped, v6_saddr, v6_sport, v6_dport. rewrite ld_take by lia.
  unfold set_v4_dport, set_v4_sport, set_v4_daddr, set_v4_saddr. rewrite ld_v6_daddr by lia. cbn [Nat.add].
  unfold tuple_conn. reading. rewrite !u32_mod, !u16_mod by done. split; [done|tlen].
Qed.

Lemma tuple_v6 sk t dir (mapped := is_ipv4_mapped_addr (dst_ip6 sk)) :
  sk_family sk = AF_INET6 -> socket_ok sk -> is_ipv4_mapped_addr (src_ip6 sk) = mapped ->
  dir = INBOUND \/ dir = OUTBOUND -> length t = 36%nat ->
  let t' := construct_tuple sk t dir in tuple_conn mapped t' dir = socket_conn sk dir /\ length t' = 36%nat.
Proof.
  intros Hf Hsk Hm Hdir Ht. rewrite (construct_tuple6 sk t dir Hf Hdir).
  destruct (tuple6_spec sk t dir Hsk Hdir Ht) as [Hlen Hspec].
  destruct Hsk as (_ & _ & Hp & Hls & Hs & Hld & Hd). pose proof (bpf_ntohs_u16 (dst_port sk)) as Hq.
  pose proof (ld_is 4 12 _ Hs) as Hs12. pose proof (ld_is 4 12 _ Hd) as Hd12.
  unfold socket_conn, side. rewrite Hf. cbn [Z.eqb AF_INET AF_INET6 Pos.eqb]. fold mapped.
  rewrite mapped_v6_daddr. cbn zeta in Hspec |- *. generalize dependent (tuple6 sk t dir). intros t' Hlen Hspec.
  assert (forall a b, words4 0 t' = words4 0 a -> words4 16 t' = words4 0 b -> is_ipv4_mapped_addr b = mapped ->
    (ld 4 16 t' =? 0) && (ld 4 20 t' =? 0) && (ld 4 24 t' =? 4294901760) = mapped /\
    ld 4 12 t' = ld 4 12 a /\ ld 4 28 t' = ld 4 12 b) as Hwords.
  { intros a b Ha Hb Hmb. unfold words4 in Ha, Hb. cbn [fmap list_fmap Nat.add Nat.mul] in Ha, Hb.
    pose proof (f_equal (fun l => l !! 3%nat) Ha) as Ha3. injection Hb as Hb0 Hb1 Hb2 Hb3. injection Ha3 as Ha3.
    rewrite Hb0, Hb1, Hb2. by split. }
  destruct Hdir as [-> | ->]; cbn [Z.eqb Pos.eqb INBOUND OUTBOUND] in Hspec |- *;
    destruct Hspec as (Ha & Hb & Hport & Hport'); destruct (Hwords _ _ Ha Hb) as (-> & H12 & H28); try done;
    (destruct mapped; [|by split; [unfold tuple_conn; rewrite Ha, Hb, Hport, Hport'|]]);
    rewrite <-H12, <-H28, <-Hport, <-Hport'; apply v4_of_mapped_spec; try done; unfold is_u32, is_u16 in *; rewrite ?H12, ?H28, ?Hport, ?Hport'; done.
Qed.

(** ** The record *)
Lemma parse_probe g i : stale_ok g -> length (tp_tuple i) = 36%nat -> length (tp_orig_dst i) = 18%nat ->
  tp_type i = IPV4 \/ tp_type i = IPV6 -> let st := read_statistics (stats_bytes g i) in
  parse_report (probe_bytes g i) = Some (tuple_conn (tp_type i =? IPV4) (tp_tuple i) (Direction st), st).
Proof.
  intros Hg Ht Ho Htype. pose proof (length_stats g i Hg) as Hl. destruct Hg as (Ha & _).
  assert (length (probe_bytes g i) = 128%nat) as Hlen.
  { unfold probe_bytes. rewrite !length_app, length_le_bytes, Hl. lia. }
  assert (drop 56 (drop 4 (probe_bytes g i)) = stats_bytes g i) as Hstats.
  { unfold probe_bytes. rewrite drop_drop, !app_assoc, drop_app_length'; [done|].
    rewrite !length_app, length_le_bytes. lia. }
  assert (forall n off, (off + n <= 36)%nat -> ld n off (drop 4 (probe_bytes g i)) = ld n off (tp_tuple i)) as Htuple.
  { intros n off Hn. rewrite ld_drop. unfold probe_bytes. rewrite ld_app_r by (rewrite length_le_bytes; lia).
    rewrite length_le_bytes. rewrite ld_app_l by lia. f_equal. lia. }
  assert (ld 4 0 (probe_bytes g i) = tp_type i) as Hty.
  { unfold probe_bytes. field. by destruct Htype as [-> | ->]. }
  unfold parse_report. rewrite decide_False by (rewrite Hlen; unfold record_size; lia). rewrite Hty.
  destruct Htype as [Hi|Hi]; rewrite Hi; cbn [Z.eqb IPV4 IPV6 MSG_TYPE_IPV4 MSG_TYPE_IPV6 Pos.eqb].
  - unfold Read_V4. rewrite decide_False by (rewrite length_drop, Hlen; lia). cbn [mbind option_bind].
    cbn [SrcAddr4 DstAddr4 SrcPort4 DstPort4 stats4]. rewrite Hstats, !Htuple by lia. done.
  - unfold Read_V6. rewrite decide_False by (rewrite length_drop, Hlen; lia). cbn [mbind option_bind].
    cbn [SrcAddr6 DstAddr6 SrcPort6 DstPort6 stats6]. rewrite Hstats. unfold tuple_conn, words4.
    cbn [fmap list_fmap Nat.add Nat.mul]. rewrite !Htuple by lia. done.
Qed.

Lemma length_orig_dst sk storage o : length (sk_tuple storage) = 36%nat -> length o = 18%nat ->
  length (construct_orig_dst_info sk storage o) = 18%nat.
Proof.
  intros Hs Ho. unfold construct_orig_dst_info.
  assert (length (v6_daddr (sk_tuple storage)) = 16%nat) as Hd.
  { unfold v6_daddr. rewrite length_take, length_drop. lia. }
  cut (forall o', length o' = 18%nat -> length (if is_ipv4_mapped_addr (take 16 o') then
    st 2 4 (ld 2 16 (st 4 0 (ld 4 12 o') o')) (st 4 0 (ld 4 12 o') o') else o') = 18%nat).
  { intros Hcut. cbv zeta. apply Hcut. case_match; tlen. }
  intros o' Ho'. case_match; [tlen|done].
Qed.

Section report.
Context `{Helpers}.

(** C20: What a program of the kernel reports about a connection is what user space
    reads.  Unless the ring buffer is full, [tcp_report] submits one record; the
    metric controller reads from its bytes the connection from the client to
    the server, in either direction, for IPv4, IPv6 and IPv4-mapped addresses,
    and the statistics: the byte counts modulo 2^32, everything else as it is.
    The record that the ring buffer hands out for an IPv4 socket must not hold
    a stale mapped address. *)
Theorem report_reaches_controller reserved sk tcp storage state g k :
  reserve_fails (k_clock k) = false ->
  socket_ok sk -> family_ok sk -> stale_ok g ->
  direction storage = INBOUND \/ direction storage = OUTBOUND -> is_u32 state ->
  length reserved.1 = 36%nat -> length reserved.2 = 18%nat -> length (sk_tuple storage) = 36%nat ->
  (sk_family sk = AF_INET -> is_ipv4_mapped_addr (v6_daddr reserved.1) = false) ->
  exists info st, map_of_tcp_probe (tcp_report reserved sk tcp storage state k).2 = map_of_tcp_probe k ++ [info] /\
    parse_report (probe_bytes g info) = Some (socket_conn sk (direction storage), st) /\
    SentBytes st = u32 (bytes_acked tcp) /\ ReceivedBytes st = u32 (bytes_received tcp) /\
    State st = state /\ ConnectSuccess st = Z.b2z (connect_success storage) /\
    StartTime st = u64 (connect_ns storage) /\
    Retransmits st = u32 (ts_total_retrans tcp) /\ LostPackets st = u32 (ts_lost_out tcp).
Proof.
  intros Hres Hsk Hfam Hg Hdir Hstate Hr1 Hr2 Hst Hstale.
  unfold tcp_report. rewrite krun_bind. unfold ask at 1 2. cbn [fst snd]. rewrite Hres.
  rewrite krun_bind. unfold bpf_ktime_get_ns, ask. cbn [fst snd]. rewrite krun_bind. cbn [fst snd].
  match goal with |- context [@cons tcp_probe_info ?i nil] => exists i, (read_statistics (stats_bytes g i)) end.
  split; [done|].
  match goal with |- parse_report (probe_bytes g ?i) = _ /\ _ => set (info := i) end.
  assert (tuple_conn (tp_type info =? IPV4) (tp_tuple info) (direction storage) = socket_conn sk (direction storage) /\
    length (tp_tuple info) = 36%nat /\ (tp_type info = IPV4 \/ tp_type info = IPV6)) as (Hconn & Hlen & Htype).
  { unfold info. cbn [tp_type tp_tuple]. destruct Hfam as [[Hf Hm]|[Hf Hm]].
    - rewrite Hm, Hf. destruct (tuple_v4 sk reserved.1 (direction storage)) as [H1 H2]; [done..|by apply Hstale|].
      split_and!; [done|done|by left].
    - destruct (tuple_v6 sk reserved.1 (direction storage)) as [H1 H2]; [done..|]. rewrite Hf.
      destruct (is_ipv4_mapped_addr (dst_ip6 sk)); (split_and!; [done|done|]); [by left|by right]. }
  destruct (read_stats g info Hg) as (R1 & R2 & R3 & R4 & R5 & _ & R7 & _ & _ & _ & R11 & R12).
  rewrite (parse_probe g info Hg Hlen) by (done || by apply length_orig_dst).
  assert (Direction (read_statistics (stats_bytes g info)) = direction storage) as ->.
  { rewrite R4. unfold info. cbn [tp_direction]. by destruct Hdir as [-> | ->]. }
  rewrite Hconn. split; [done|]. rewrite R1, R2, R3, R5, R7, R11, R12. unfold info.
  cbn [sent_bytes received_bytes tp_state conn_success start_ns total_retrans lost_out]. unfold u32.
  rewrite !Zmod_mod, (Z.mod_small state) by done. by split_and!.
Qed.
End report.

Definition probe_socket : bpf_sock := mkSock AF_INET 16777226 (replicate 16 0) 40000 33554442 (replicate 16 0) 20480.
Definition probe_storage : sock_storage_data := mkStorage 0 0 OUTBOUND true false false false tuple_zero.
Definition probe_kernel : Kernel := mkKernel (NewCache ∅ ∅ ∅ ∅ ∅) ∅ None ∅ [] [] ∅ 0.
Lemma report_reaches_controller_witness : exists info st,
  map_of_tcp_probe (tcp_report (H := HelpersOk) (replicate 36 0, replicate 18 0) probe_socket (mkTcpSock 4294967300 7 0 0 0 0)
    probe_storage 1 probe_kernel).2 = [info] /\
  parse_report (probe_bytes (mkStale [1; 2] [3; 4; 5; 6] [7; 8; 9; 10]) info) = Some (demo_conn, st) /\ SentBytes st = 4.
Proof.
  destruct (report_reaches_controller (H := HelpersOk) (replicate 36 0, replicate 18 0) probe_socket
    (mkTcpSock 4294967300 7 0 0 0 0) probe_storage 1 (mkStale [1; 2] [3; 4; 5; 6] [7; 8; 9; 10]) probe_kernel)
    as (info & st & Hi & Hp & Hs & _).
  - done.
  - unfold socket_ok, is_u32, is_u16. cbn. split_and!; try lia; try done; by repeat constructor.
  - by left.
  - done.
  - by right.
  - unfold is_u32. lia.
  - done.
  - done.
  - done.
  - done.
  - exists info, st. by rewrite Hi, Hp, Hs.
Defined.
