(* ===== verification/OpMetrics.v ===== *)
(** * Metrics of BPF programs and maps:
    [pkg/controller/telemetry/bpf_prog_metric.go], [map_metric.go]

    The durations of BPF operations arrive as records of a ring buffer, are
    kept by label and handed to Prometheus at every flush; the maps of the
    kernel are counted with their entries.  The calls into the Prometheus
    library are kept in order with their arguments. *)
From S2P Require Import Prelude Api Runtime BpfCommon Telemetry TelemetryFacts.

(** ** Operations *)
Definition OPERATION_USAGE_DATA_LEN : nat := 32.
Definition operationTypeMap : gmap Z string :=
  list_to_map [(1, "SOCK_TRAFFIC_CONTROL"); (2, "XDP_SHUTDOWN"); (3, "ENABLE_ENCODING_METADATA")].

Record operationTimeMetric : Type := mkOperation {
  op_startTime : Z; op_endTime : Z; op_pidTgid : Z; op_type : Z
}.
Record operationDuration : Type := mkDuration { durations : list Z; od_operationType : Z }.
Record operationMetricLabels : Type := mkOperationLabels { nodeName : string; operationType : string }.
#[export] Instance operationMetricLabels_eq_dec : EqDecision operationMetricLabels.
Proof. solve_decision. Defined.
#[export] Instance operationMetricLabels_countable : Countable operationMetricLabels.
Proof.
  apply (inj_countable' (fun l => (nodeName l, operationType l)) (fun '(a, b) => mkOperationLabels a b)).
  by intros [].
Defined.

(** [Observe] and [Inc] for one duration, with the labels. *)
Record BpfProgMetric : Type := mkBpfProg {
  operationMetricCache : gmap operationMetricLabels operationDuration;
  observed : list (gmap string string * Z)
}.
Definition NewBpfProgMetric : BpfProgMetric := mkBpfProg ∅ [].

Section operations.
Context `{Env} (NODE_NAME : string).

Definition buildOperationMetricLabel (data : operationTimeMetric) : operationMetricLabels :=
  mkOperationLabels NODE_NAME (default "" (operationTypeMap !! op_type data)).

(** The value of a Go map is a copy: appending to the durations of [v] leaves the
    entry as it is. *)
Definition updateOperationMetricCache (data : operationDuration) (labels : operationMetricLabels) :
    Go BpfProgMetric unit :=
  c ← gets operationMetricCache;
  match c !! labels with
  | Some v => let v := mkDuration (durations v ++ durations data) (od_operationType v) in mret tt
  | None => modify (fun m => mkBpfProg (<[labels := data]> (operationMetricCache m)) (observed m))
  end.

Definition read_operation (raw : bytes) : operationTimeMetric :=
  mkOperation (ld 8 0 raw) (ld 8 8 raw) (ld 8 16 raw) (ld 4 24 raw).
(** One record in the loop of [Run]. *)
Definition Run_operation (raw : bytes) : Go BpfProgMetric unit :=
  if decide (length raw <> OPERATION_USAGE_DATA_LEN) then mret tt
  else
    let data := read_operation raw in
    updateOperationMetricCache (mkDuration [u64 (op_endTime data - op_startTime data)] (op_type data))
      (buildOperationMetricLabel data).

Definition operation_fields (l : operationMetricLabels) : list (string * string) :=
  [("nodeName", nodeName l); ("operationType", operationType l)].
Definition flushOperations : Go BpfProgMetric unit :=
  metrics ← gets operationMetricCache;
  modify (fun m => mkBpfProg ∅ (observed m));;
  entries ← range (map_to_list metrics);
  fold_each entries tt (fun _ '(k, v) =>
    let commonLabels := struct2map (operation_fields k) in
    fold_each (durations v) tt (fun _ d =>
      modify (fun m => mkBpfProg (operationMetricCache m) (observed m ++ [(commonLabels, d)])))).

(** ** What is kept of the operations between two flushes *)
Definition duration_of (raw : bytes) : Z := u64 (op_endTime (read_operation raw) - op_startTime (read_operation raw)).
Definition labels_of (raw : bytes) : operationMetricLabels := buildOperationMetricLabel (read_operation raw).

(** The first record with the labels. *)
Definition first_with (l : operationMetricLabels) (raws : list bytes) : option bytes :=
  head (filter (fun raw => length raw = OPERATION_USAGE_DATA_LEN /\ labels_of raw = l) raws).

Lemma run_operations raws w s :
  wp false (fold_each raws tt (fun _ => Run_operation)) (fun _ w' s' => w' = w /\ observed s' = observed s /\
    forall l, operationMetricCache s' !! l = match operationMetricCache s !! l with
      | Some v => Some v
      | None => (fun raw => mkDuration [duration_of raw] (op_type (read_operation raw))) <$> first_with l raws
      end) w s.
Proof.
  revert s. induction raws as [|raw raws IH]; intros s; cbn [fold_each].
  - apply wp_ret. split_and!; [done..|]. intros l. by destruct (_ !! l).
  - wp_steps. unfold Run_operation. case_decide as Hlen.
    + wp_steps. eapply wp_mono; [apply IH|]. intros [] w' s' (-> & Ho & Hc). split_and!; [done..|]. intros l.
      rewrite Hc. unfold first_with. rewrite filter_cons_False by tauto. done.
    + unfold updateOperationMetricCache. wp_steps. fold (labels_of raw) (duration_of raw).
      assert (length raw = OPERATION_USAGE_DATA_LEN) as Hl by (destruct (decide (length raw = OPERATION_USAGE_DATA_LEN)); tauto).
      destruct (operationMetricCache s !! labels_of raw) as [v|] eqn:Hv; wp_steps;
        (eapply wp_mono; [apply IH|]); intros [] w' s' (-> & Ho & Hc); (split_and!; [done..|]); intros l; rewrite Hc; cbn;
        unfold first_with; (destruct (decide (labels_of raw = l)) as [<-|Hne];
          [rewrite ?filter_cons_True by done|rewrite ?filter_cons_False by tauto]).
      * by rewrite Hv.
      * done.
      * by rewrite lookup_insert_eq, Hv.
      * by rewrite lookup_insert_ne.
Qed.

(** C38: Of the operations of one kind between two flushes only the first is
    counted, whatever their number: the durations of the others are appended to
    a copy of the entry and dropped, so neither the histogram nor the counter
    sees them. *)
Theorem later_operations_lost raw raws w : length raw = OPERATION_USAGE_DATA_LEN ->
  Forall (fun r => labels_of r = labels_of raw) raws ->
  wp false (fold_each (raw :: raws) tt (fun _ => Run_operation);; flushOperations)
    (fun _ _ s' => observed s' = [(struct2map (operation_fields (labels_of raw)), duration_of raw)] /\
       operationMetricCache s' = ∅) w NewBpfProgMetric.
Proof.
  intros Hlen Hsame. apply wp_bind. eapply wp_mono; [apply run_operations|]. intros [] w' s (-> & Ho & Hc).
  assert (operationMetricCache s = {[labels_of raw := mkDuration [duration_of raw] (op_type (read_operation raw))]}) as Hs.
  { apply map_eq. intros l. rewrite Hc. cbn [operationMetricCache NewBpfProgMetric]. rewrite lookup_empty.
    unfold first_with. destruct (decide (labels_of raw = l)) as [<-|Hne].
    - rewrite filter_cons_True by done. by rewrite lookup_singleton_eq.
    - rewrite lookup_singleton_ne, filter_cons_False by tauto.
      assert (filter (fun r => length r = OPERATION_USAGE_DATA_LEN /\ labels_of r = l) raws = []) as ->; [|done].
      apply elem_of_nil_inv. intros r ([_ Hl] & Hin)%list_elem_of_filter.
      rewrite Forall_forall in Hsame. by rewrite (Hsame r Hin) in Hl. }
  unfold flushOperations. wp_steps. rename l' into entries. rewrite Hs, map_to_list_singleton in H0.
  apply Permutation_singleton_r in H0 as ->. cbn [fold_each durations]. wp_steps. cbn. by rewrite Ho.
Qed.
End operations.

(** ** Maps ([map_metric.go])

    [answers] is what [getNextMapInfo] returns for one identifier after the other
    until there is no further map; [None] is a map that cannot be opened. *)
Record map_info : Type := mkMapInfo { mi_name : string; is_hash : bool; entries : Z }.
Definition isKmeshMap (mapName : string) : bool := String.prefix "kmesh_" mapName.

(** The values set for the hash maps of Kmesh, and the number of maps. *)
Fixpoint count_maps (answers : list (option map_info)) (sets : list (string * Z)) (count : Z) :
    list (string * Z) * Z :=
  match answers with
  | [] | None :: _ => (sets, count)
  | Some info :: answers =>
      if decide (mi_name info = "") then count_maps answers sets (count + 1)
      else if negb (isKmeshMap (mi_name info)) then count_maps answers sets count
      else if negb (is_hash info) then count_maps answers sets (count + 1)
      else count_maps answers (sets ++ [(mi_name info, entries info)]) (count + 1)
  end.

(** The names of the maps of the workload mode ([bpf/kmesh/workload/include/config.h],
    [bpf/include/map_config.h]). *)
Definition workload_map_names : list string := [
  "km_frontend"; "km_service"; "km_endpoint"; "km_backend"; "km_auth_res"; "km_auth_req"; "km_tcp_probe";
  "km_authz_policy"; "km_cgr_tailcall"; "km_xdp_tailcall"; "km_socket"; "km_wlpolicy"; "km_manage";
  "km_sockstorage"; "km_nodeinfo"].

(** None of these maps is counted, because their names have another prefix. *)
Lemma workload_maps_not_counted answers sets count :
  Forall (fun a => match a with Some info => mi_name info ∈ workload_map_names | None => True end) answers ->
  count_maps answers sets count = (sets, count).
Proof.
  assert (Forall (fun n => n <> "" /\ isKmeshMap n = false) workload_map_names) as Hnames by (by repeat constructor).
  rewrite Forall_forall in Hnames.
  induction 1 as [|[info|] answers Hi _ IH]; cbn; [done| |done].
  destruct (Hnames _ Hi) as [Hne Hk]. by rewrite decide_False, Hk.
Qed.

Lemma later_operations_lost_witness :
  wp false (fold_each [replicate 32 0; replicate 8 1 ++ replicate 24 0; replicate 32 0] tt (fun _ => Run_operation "n1");;
    flushOperations (H := EnvOk))
    (fun _ _ s' => observed s' = [(struct2map (operation_fields (labels_of "n1" (replicate 32 0))), 0)] /\
       operationMetricCache s' = ∅) (mkWorld 0 ∅ ∅) NewBpfProgMetric.
Proof.
  apply (later_operations_lost (H := EnvOk) "n1" (replicate 32 0) [replicate 8 1 ++ replicate 24 0; replicate 32 0]);
    [done|by repeat constructor].
Defined.
